(* ===== verification/_CoqProject ===== *)
-Q . S2P
Prelude.v
GoNet.v
GoText.v
Router.v
RouterSpec.v
RouterKeys.v
RouterProps.v
IPPool.v
IPPoolProps.v
HostRoutes.v
Protocol.v
ProtocolSteps.v
ProtocolProps.v
Codecs.v
BatchProps.v
TransportProps.v
Fragment.v
FragmentProps.v
Session.v
Threads.v
Limiter.v
QuotaCounter.v
GoFloat.v
LimiterWait.v
SmoothLimiter.v
Metrics.v
Pool.v
Hub.v
HubProps.v
HubFlow.v
Device.v
Server.v
ServerProps.v
Manager.v
ManagerProps.v
Functions.v
FunctionsProps.v
Request.v
RequestProps.v
Login.v
LoginProps.v
Calls.v
CallsProps.v
SyncRouter.v
SyncProps.v
P2P.v
P2PProps.v
Life.v
LifeProps.v
Proxy.v
ProxyProps.v
TcpLink.v
TcpProps.v
QuicLink.v
Adaptor.v
AdaptorProps.v
QuicProps.v
Devices.v
DevicesProps.v
Exit.v
Access.v
Settings.v
SettingsProps.v
Serve.v
ServeProps.v
Boot.v
Period.v
Accounting.v
PeriodProps.v
Tun.v
RouterHeap.v
RouterHeapProps.v
RouterConc.v
Api.v
ApiProps.v
HubLife.v
HubLifeProps.v
TcpAccept.v
ClientSetup.v
