(* ===== verification/Prelude.v ===== *)
(** * go-vnet: a verification library

    go-vnet connects clients to virtual networks: a client's packets, read
    from a TUN device, are routed by destination address, packed into frames
    and sent through a server, which relays them to the session of the
    destination client. This library models the program's own logic, file by
    file, and proves the properties that make it work. Go pointers that are
    shared are numbers with a heap; channels, streams and datagrams are lists;
    clocks, random numbers, the results of I/O and services outside the
    repository are arguments. A Go panic is [Panic] or an outer [None], a Go
    error is a value. Integers are [Z] with the wrap-around of their width
    written out; floats are exact binary64 ([GoFloat]).

    ** Files and the code they model

    - [Prelude]: fixed-width integers, bytes, decimal texts, outcomes, generic
      lemmas. [GoNet]: Go's net and netip, as far as used. [GoFloat]: binary64
      arithmetic. [GoText]: base64 and JSON. [HostRoutes]: routes of single
      addresses. [Threads]: interleaved calls as schedules of atomic steps.
    - [Router] (common/router/router.go): the two tries, look-ups one by one
      and in batches, registration, removal, listing, the MD5 input.
      [RouterSpec], [RouterKeys]: tables of prefixes and longest-prefix match,
      texts and keys. [RouterProps]: the tries implement the tables.
      [RouterHeap], [RouterHeapProps], [RouterConc]: the same tries as nodes
      with atomic fields, shared by goroutines whose calls are interleaved.
    - [IPPool], [IPPoolProps] (common/addresses/ip_pool.go): the allocator and
      the abstract pool it refines.
    - [Protocol], [ProtocolSteps], [ProtocolProps], [BatchProps],
      [TransportProps] (common/protocol/protocol.go): framing with
      compression and encryption over buffers that are reused, batches,
      parsing; [Codecs] (compressor.go, encryptor.go) instances of the codec
      interface, zstd and the cipher being parameters.
    - [Fragment], [FragmentProps] (common/session/session_quic.go): messages
      cut into datagrams and reassembled. [Session]
      (common/session/session.go, session_conn.go): errors, devices and the
      length-prefixed messages of a TCP session.
    - [Limiter], [LimiterWait], [SmoothLimiter] (common/rate), [QuotaCounter] (common/quota),
      [Metrics] (common/metrics, vnet/server/loop.go), [Pool]
      (common/pool, vnet/client/hub/hub_pool.go).
    - [Hub], [HubProps], [HubFlow] (vnet/client/hub): dispatching of packets
      to destinations, the loops of a destination and of the receiver;
      [Device]: the loops that read and write the device. [Tun]
      (vnet/client/dev_linux.go, dev_windows.go): how it is set up.
      [HubLife], [HubLifeProps] (hub.go, hub_tx.go, hub_rx.go): the goroutines of
      a hub, its start and its stop.
    - [Server], [ServerProps] (vnet/server/session.go, network.go,
      network_mgr.go, server.go, the manager's device.go): sessions, networks
      and the login; addresses, routes and session tables agree.
      [Proxy], [ProxyProps] (vnet/server/server.go): the relay.
    - [Functions], [FunctionsProps] (vnet/server/manager.go,
      manager_functions.go, server.go checkStatusLoop): the calls a client
      makes on the server, and the removal of silent sessions.
    - [SyncRouter], [SyncProps] (vnet/client/sync_router.go): a client's
      routes and peers are brought up to date; reconnecting.
    - [Calls], [CallsProps] (vnet/client/manager.go): calls of a client and the
      loop that receives the answers, as interleaved steps.
    - [P2P], [P2PProps] (vnet/client/client_p2p.go): direct connections between
      clients. [Life], [LifeProps] (vnet/client/client.go, reconnectLoop): what
      a client opens and releases.
    - [TcpLink], [TcpProps] (vnet/client/client_tcp.go, vnet/server/server_tcp.go,
      the loop of handleSession): connections find their sessions; [TcpAccept]:
      the accept loop. [QuicLink],
      [QuicProps] (vnet/client/client_quic.go, vnet/server/server_quic.go): the
      same over QUIC streams. [Adaptor], [AdaptorProps] (vnet/client/hub/hub_tx.go):
      the interface TxAdaptor as a class, its laws, the two clients as instances
      and the destinations that use it.
    - [Serve], [ServeProps] (vnet/server/server.go, server_p2p.go, loop.go,
      manager.go, vnet/client/client_p2p.go): serving: transport servers and
      their sessions, the loop of remote calls, the signalling server and how
      clients find it, the tick that submits usage.
    - [Settings], [SettingsProps] (common/config, vnet/client/config.go,
      vnet/server/config.go): configuration and its options. [Exit]
      (common/grace): handlers at the exit.
    - [Request], [RequestProps] (common/session/request.go): the encrypted
      request of the handshake, RSA, AES and MD5 being parameters.
      [Login], [LoginProps] (the handshakes of vnet/client/client.go and
      vnet/server/server.go): the login from end to end. [ClientSetup]
      (NewClient, NewRequestClient, the encryptor of run): keys and options.
    - [Manager], [ManagerProps] (manager/server/internal/logic): quotas, usage
      rows, sub devices, and networks as rows and as running objects.
      [Devices], [DevicesProps]: devices with their keys, details of quotas,
      deletion of quotas; [Period], [PeriodProps]: the calendar periods usage is
      counted by; [Boot]: starting all networks, what is listed and shown;
      [Accounting]: the interface between counters and tables as a class with
      its law. [Access] (internal/controller/middleware/auth.go): signatures of
      requests. [Api], [ApiProps] (manager/server/api, internal/controller,
      internal/cmd): the requests, the controllers and the web server.

    ** What the theorems show

    - The route table is a longest-prefix-match table: every sequence of
      registrations and removals leaves tries that answer as the table does;
      listing, serialisation and batches agree with it. Concurrent calls are
      wait-free, and on disjoint prefixes they end in the same table.
    - The address pool hands out free addresses of the range the code computes
      and never one twice, refuses only what it must, survives serialisation,
      and does not loop; the theorems on long prefixes, on offsets that wrap
      and on repeated draws record where it deviates.
    - Framing is a round trip for single messages and for batches under every
      combination of compression and encryption, from a buffer in any state,
      whatever pieces the stream delivers; batches have to keep to the sizes
      the code can send ([batches_ok]), beyond which the write fails; malformed
      input gives the errors of the code. QUIC messages are reassembled under reordering and
      duplication. TCP session messages round-trip.
    - Limiters, quota counters and metrics keep their balance under every
      interleaving of concurrent calls.
    - Waiting for tokens ends when the clock generates them without an
      overflow, and never when more than the burst is asked for.
    - Packets of a batch reach their destinations in order; what a
      destination's loop writes arrives in the receiving hub. The goroutines
      of a hub lose and reorder nothing; a push may block, but under every fair
      schedule an open hub dispatches what it reads; what can stop a hub, and
      what a stop leaves running, is exact.
    - Server sessions of a network do not get in each other's way, as long as
      no client names an earlier session (a reconnect releases it twice), and
      what a failed lookup of the manager leaves behind is exact; the relay
      forwards what it reads; clients meet over TCP; silent sessions are stopped. What the
      server answers makes a client's routes those of its network. Requests
      of the handshake round-trip. Calls get their own answers under every
      interleaving. Two clients agree on whether they use a direct connection.
      Reconnecting leaves nothing open that was open before, whatever the
      destinations did. A login works end to end:
      the client reads the session the server keeps. Submitted usage is
      recorded, and running networks match their rows after any operations of
      an administrator. Theorems named in the findings record the places
      where the code does not do what it means to.
    - Over TCP and over QUIC alike, the destinations of a client, with their
      direct connections, follow a small state machine, which also says when
      the client crashes, and every connection is closed exactly once. Clients meet
      over QUIC. The device of a client gets the address the server routes to it.
      Every accepted TCP connection goes where its first packet says.
    - Clients of one network read the packets the others write in batches, and a client started
      with a device's public key uses the key the server has for it.
    - Traffic that the counters of any sessions accepted ends up in the tables,
      on the right account, unless two submissions for the account read the row
      before either writes it; it is counted in exactly one day or month, in
      zones whose midnights allow it.
    - The tables of the manager stay consistent under every sequence of
      operations; a device that was created logs in with its key; after a start
      the running networks are those of the table.
    - The server answers every request of a session once and in order, starts
      one session per accepted connection, and tells clients its signalling
      server. Handlers run in one order at the exit, options decide what is
      dialled, and a request passes exactly with a valid signature or as an
      exempt local one. The web server changes tables and networks only by the
      requests that pass, and only what they name.

    ** Bounds and fuel

    Loops over data are structural. Reading loops of the transport and of the
    hubs are given the data that will arrive and consume it; the theorems say
    that they return. The random assignment makes at most 1000 draws, as in
    the code. The tries are at most 32 and 128 deep, so that 400 atomic
    operations are enough for any call. Schedules of goroutines are arbitrary
    lists; a goroutine that cannot go on waits.

    ** Not modelled

    Third-party code (quic-go, libp2p, zstd, ciphers, RSA, PEM and PKCS
    encodings, GoFrame, the database, TUN and netlink) is what it returns.
    Command-line entry points, generated data access objects and service
    registrations only call other parts. The decoding and validation of web
    requests are the framework's. The
    generation of TLS certificates, constants of quic-go's configuration, the
    reading of configuration and key files, signals and os.Exit are not
    modelled. Goroutines appear as the events they take or, where their
    interleaving matters, as steps; listing a route table while it changes is
    left out. An event is taken from a hub's channel and given to its
    destinations in two steps, between which the push may block; the channels
    are buffered, as the client creates them. Database calls succeed, except
    where a column is missing or an update has no fields; times, the offsets of
    the server's zone, generated ids and the order in which Go iterates a map are
    arguments. The background dialler and the hub's writer, which no release
    stops, are not among the resources of [Life]. *)

From Stdlib Require Export ZArith Lia Ascii String.
From stdpp Require Export base list gmap strings sets.

#[global] Open Scope Z_scope.

(** ** Fixed-width integers

    Go's unsigned arithmetic wraps modulo [2^w]; signed 64-bit arithmetic wraps
    into [[-2^63, 2^63)]. [int] is 64 bits wide on the platforms the program
    targets. *)

Definition uwrap (w x : Z) : Z := x mod 2 ^ w.

Definition swrap (w x : Z) : Z := (x + 2 ^ (w - 1)) mod 2 ^ w - 2 ^ (w - 1).

Definition u8 (x : Z) : Z := uwrap 8 x.

Definition u16 (x : Z) : Z := uwrap 16 x.

Definition u32 (x : Z) : Z := uwrap 32 x.

Definition u64 (x : Z) : Z := uwrap 64 x.

Definition i64 (x : Z) : Z := swrap 64 x.

Definition byte_ok (b : Z) : Prop := 0 <= b < 256.

Definition bytes_ok (l : list Z) : Prop := Forall byte_ok l.

(** ** Go results

    A call either returns a value, returns an error, or panics (a slice or
    index out of range, a division by zero). *)

Inductive outcome (E A : Type) : Type :=
| Ret (a : A)
| Fail (e : E)
| Panic.
Arguments Ret {E A} a.
Arguments Fail {E A} e.
Arguments Panic {E A}.

#[export] Instance outcome_mret E : MRet (outcome E) := fun A a => Ret a.

#[export] Instance outcome_mbind E : MBind (outcome E) := fun A B f m =>
  match m with
  | Ret a => f a
  | Fail e => Fail e
  | Panic => Panic
  end.

(** A partial operation of the language (indexing, slicing) panics when it is
    undefined. *)
Definition or_panic {E A} (o : option A) : outcome E A :=
  match o with Some a => Ret a | None => Panic end.

Definition is_ret {E A} (o : outcome E A) : bool :=
  match o with Ret _ => true | _ => false end.

(** ** Slices of byte buffers, indexed by [Z] *)

Definition zlen {A} (l : list A) : Z := Z.of_nat (length l).

(** [l[a:b]] when the bounds are in range. *)
Definition sub_list {A} (l : list A) (a b : Z) : list A :=
  take (Z.to_nat (b - a)) (drop (Z.to_nat a) l).

(** [l[a:b]], panicking as Go does when [0 <= a <= b <= len l] fails. *)
Definition slice {A} (l : list A) (a b : Z) : option (list A) :=
  if bool_decide (0 <= a /\ a <= b /\ b <= zlen l) then Some (sub_list l a b) else None.

(** [copy(l[off:], src)] for [0 <= off <= len l]: copies [min] of the two lengths. *)
Definition blit {A} (l : list A) (off : Z) (src : list A) : list A :=
  take (Z.to_nat off) l ++
  take (length l - Z.to_nat off) src ++
  drop (Z.to_nat off + length src) l.

(** [l[i]]. *)
Definition index {A} (l : list A) (i : Z) : option A :=
  if bool_decide (0 <= i) then l !! Z.to_nat i else None.

(** ** Big-endian integers (package encoding/binary) *)

Fixpoint be_put (n : nat) (v : Z) : list Z :=
  match n with
  | O => []
  | S n' => Z.land (Z.shiftr v (8 * Z.of_nat n')) 255 :: be_put n' v
  end.

Definition be_get (l : list Z) : Z :=
  foldl (fun acc b => Z.lor (Z.shiftl acc 8) b) 0 l.

(** ** Decimal numerals and characters *)

Definition chr (n : Z) : ascii := ascii_of_N (Z.to_N n).

Definition ord (c : ascii) : Z := Z.of_N (N_of_ascii c).

Definition digit_char (d : Z) : ascii := chr (48 + d).

Fixpoint dec_loop (fuel : nat) (n : Z) (acc : string) : string :=
  match fuel with
  | O => acc
  | S f =>
      if n <=? 0 then acc
      else dec_loop f (n / 10) (String (digit_char (n mod 10)) acc)
  end.

(** Decimal representation of a non-negative integer, as [strconv.Itoa] and
    the verb [%d] print it; a 64-bit integer has at most twenty digits. *)
Definition dec (n : Z) : string :=
  if n =? 0 then "0"%string else dec_loop 20 n ""%string.

(** ** Strings *)

(** [strings.Split(s, sep)[0]] for a one-character separator. *)
Fixpoint split_head (sep : ascii) (s : string) : string :=
  match s with
  | EmptyString => EmptyString
  | String c s' => if Ascii.eqb c sep then EmptyString else String c (split_head sep s')
  end.

(** [strings.Split(s, sep)] for a one-character separator. *)
Fixpoint split_all (sep : ascii) (s : string) : list string :=
  match s with
  | EmptyString => [EmptyString]
  | String c s' =>
      if Ascii.eqb c sep then EmptyString :: split_all sep s'
      else match split_all sep s' with
           | [] => [String c EmptyString]
           | w :: ws => String c w :: ws
           end
  end.

(** [strings.HasPrefix(s, p)]. *)
Fixpoint has_prefix (s p : string) : bool :=
  match p, s with
  | EmptyString, _ => true
  | String a p', String b s' => Ascii.eqb a b && has_prefix s' p'
  | String _ _, EmptyString => false
  end.

Fixpoint string_all (P : ascii -> bool) (s : string) : bool :=
  match s with
  | EmptyString => true
  | String c s' => P c && string_all P s'
  end.

(** ** Tactics and hint databases *)

Create HintDb vnet.

Create Rewrite HintDb zlen.

(** Case analysis on the boolean tests and [decide]s of the goal and context. *)
Ltac bool_cases :=
  repeat match goal with
  | H : (_ && _)%bool = true |- _ => apply andb_true_iff in H; destruct H
  | H : (_ || _)%bool = false |- _ => apply orb_false_iff in H; destruct H
  | H : negb _ = true |- _ => apply negb_true_iff in H
  | H : negb _ = false |- _ => apply negb_false_iff in H
  | H : (_ <=? _) = true |- _ => apply Z.leb_le in H
  | H : (_ <=? _) = false |- _ => apply Z.leb_gt in H
  | H : (_ <? _) = true |- _ => apply Z.ltb_lt in H
  | H : (_ <? _) = false |- _ => apply Z.ltb_ge in H
  | H : (_ =? _) = true |- _ => apply Z.eqb_eq in H
  | H : (_ =? _) = false |- _ => apply Z.eqb_neq in H
  | H : bool_decide _ = true |- _ => apply bool_decide_eq_true_1 in H
  | H : bool_decide _ = false |- _ => apply bool_decide_eq_false_1 in H
  end.

(** Splits every [if] on an arithmetic test in the goal and turns the tests
    into propositions. *)
Ltac split_ifs :=
  repeat match goal with
  | |- context [if ?b then _ else _] =>
      lazymatch type of b with bool => destruct b eqn:? end
  end; bool_cases.

Ltac zlen_lia := unfold zlen in *; lia.

(** ** Lemmas on fixed-width integers *)

(** Case analysis on a small natural number given as an integer. *)
Lemma below_cases (P : Z -> Prop) (k : nat) n :
  0 <= n < Z.of_nat k -> Forall P (Z.of_nat <$> seq 0 k) -> P n.
Proof.
  intros Hn HP. rewrite Forall_forall in HP. apply HP, list_elem_of_fmap.
  exists (Z.to_nat n). split; [lia|]. apply elem_of_seq. lia.
Qed.

Lemma uwrap_range w x : 0 <= w -> 0 <= uwrap w x < 2 ^ w.
Proof. intros. apply Z.mod_pos_bound. lia. Qed.

Lemma uwrap_small w x : 0 <= x < 2 ^ w -> uwrap w x = x.
Proof. intros. by apply Z.mod_small. Qed.

Lemma u16_small x : 0 <= x < 65536 -> u16 x = x.
Proof. intros. by apply uwrap_small. Qed.

Lemma u32_small x : 0 <= x < 4294967296 -> u32 x = x.
Proof. intros. by apply uwrap_small. Qed.

Lemma u64_small x : 0 <= x < 18446744073709551616 -> u64 x = x.
Proof. intros. by apply uwrap_small. Qed.

Lemma i64_small x :
  -9223372036854775808 <= x < 9223372036854775808 -> i64 x = x.
Proof.
  intros. unfold i64, swrap. change (2 ^ (64 - 1)) with 9223372036854775808.
  change (2 ^ 64) with 18446744073709551616. rewrite Z.mod_small; lia.
Qed.

(** Wrapping around never makes a natural number larger. *)
Lemma i64_le x : 0 <= x -> i64 x <= x.
Proof.
  intros. unfold i64, swrap. change (2 ^ (64 - 1)) with 9223372036854775808. change (2 ^ 64) with 18446744073709551616.
  pose proof (Z.mod_le (x + 9223372036854775808) 18446744073709551616). lia.
Qed.

Lemma i64_range x : -9223372036854775808 <= i64 x < 9223372036854775808.
Proof.
  unfold i64, swrap. change (2 ^ (64 - 1)) with 9223372036854775808.
  change (2 ^ 64) with 18446744073709551616.
  pose proof (Z.mod_pos_bound (x + 9223372036854775808) 18446744073709551616 eq_refl). lia.
Qed.

(** ** Lemmas on slices *)

Section ListSlices.
Context {A : Type}.
Implicit Types l src : list A.

Lemma zlen_nonneg l : 0 <= zlen l.
Proof. unfold zlen. lia. Qed.

Lemma zlen_nil : zlen (@nil A) = 0.
Proof. done. Qed.

Lemma zlen_cons x l : zlen (x :: l) = 1 + zlen l.
Proof. unfold zlen. simpl. lia. Qed.

Lemma zlen_app l1 l2 : zlen (l1 ++ l2) = zlen l1 + zlen l2.
Proof. unfold zlen. rewrite length_app. lia. Qed.

Lemma zlen_sub_list l a b :
  0 <= a -> a <= b -> b <= zlen l -> zlen (sub_list l a b) = b - a.
Proof. intros. unfold zlen, sub_list in *. rewrite length_take, length_drop. lia. Qed.

Lemma slice_in l a b :
  0 <= a -> a <= b -> b <= zlen l -> slice l a b = Some (sub_list l a b).
Proof. intros. unfold slice. by rewrite bool_decide_eq_true_2. Qed.

Lemma slice_out l a b : ~ (0 <= a /\ a <= b /\ b <= zlen l) -> slice l a b = None.
Proof. intros. unfold slice. by rewrite bool_decide_eq_false_2. Qed.

Lemma slice_Some l a b r :
  slice l a b = Some r -> r = sub_list l a b /\ 0 <= a /\ a <= b /\ b <= zlen l.
Proof.
  unfold slice. case_bool_decide as Hb; [|done]. intros [= <-]. tauto.
Qed.

Lemma sub_list_all l : sub_list l 0 (zlen l) = l.
Proof. unfold sub_list, zlen. rewrite Z.sub_0_r, Nat2Z.id. simpl. by apply take_ge. Qed.

Lemma zlen_blit l off src :
  0 <= off <= zlen l -> zlen (blit l off src) = zlen l.
Proof.
  intros. unfold zlen, blit in *.
  rewrite !length_app, !length_take, length_drop. lia.
Qed.

Lemma zlen_blit_eq l off src n :
  zlen l = n -> 0 <= off <= n -> zlen (blit l off src) = n.
Proof. intros <- ?. by apply zlen_blit. Qed.

Lemma sub_list_app_l l1 l2 a b :
  0 <= a -> b <= zlen l1 -> sub_list (l1 ++ l2) a b = sub_list l1 a b.
Proof.
  intros. unfold sub_list, zlen in *.
  destruct (decide (a <= b)).
  - rewrite drop_app_le by lia. rewrite take_app_le; [done|]. rewrite length_drop. lia.
  - replace (Z.to_nat (b - a)) with 0%nat by lia. done.
Qed.

Lemma sub_list_app_r l1 l2 a b :
  zlen l1 <= a -> sub_list (l1 ++ l2) a b = sub_list l2 (a - zlen l1) (b - zlen l1).
Proof.
  intros. unfold sub_list, zlen in *. rewrite drop_app_ge by lia.
  f_equal; [lia|]. f_equal. lia.
Qed.

Lemma sub_list_sub l a b c d :
  0 <= a -> 0 <= c -> d <= b - a ->
  sub_list (sub_list l a b) c d = sub_list l (a + c) (a + d).
Proof.
  intros. unfold sub_list.
  rewrite skipn_firstn_comm, drop_drop, take_take.
  f_equal; [lia|]. f_equal. lia.
Qed.

(** Reading back what was just copied. *)
Lemma sub_list_blit_same l off src :
  0 <= off -> off + zlen src <= zlen l ->
  sub_list (blit l off src) off (off + zlen src) = src.
Proof.
  intros. unfold sub_list, blit, zlen in *.
  rewrite drop_app_ge by (rewrite length_take; lia).
  rewrite length_take.
  replace (Z.to_nat off - Z.to_nat off `min` length l)%nat with 0%nat by lia.
  rewrite drop_0, (take_ge src) by lia.
  rewrite take_app_le by lia. apply take_ge. lia.
Qed.

Lemma sub_list_blit_before l off src a b :
  0 <= a -> b <= off -> off <= zlen l ->
  sub_list (blit l off src) a b = sub_list l a b.
Proof.
  intros. unfold blit. rewrite sub_list_app_l by (unfold zlen in *; rewrite ?length_take; lia).
  unfold sub_list, zlen in *. rewrite skipn_firstn_comm, take_take. f_equal. lia.
Qed.

Lemma sub_list_blit_after l off src a b :
  0 <= off -> off + zlen src <= a -> off + zlen src <= zlen l ->
  sub_list (blit l off src) a b = sub_list l a b.
Proof.
  intros. unfold blit, zlen in *.
  rewrite sub_list_app_r by (unfold zlen; rewrite length_take; lia).
  rewrite sub_list_app_r by (unfold zlen; rewrite !length_take; lia).
  unfold sub_list, zlen. rewrite drop_drop, !length_take.
  f_equal; [lia|]. f_equal. lia.
Qed.

Lemma sub_list_take_drop l a b c :
  0 <= a -> a <= b -> b <= c -> sub_list l a b ++ sub_list l b c = sub_list l a c.
Proof.
  intros. unfold sub_list.
  replace (drop (Z.to_nat b) l) with (drop (Z.to_nat (b - a)) (drop (Z.to_nat a) l))
    by (rewrite drop_drop; f_equal; lia).
  replace (Z.to_nat (c - a)) with (Z.to_nat (b - a) + Z.to_nat (c - b))%nat by lia.
  by rewrite take_take_drop.
Qed.

Lemma Forall_sub_list (P : A -> Prop) l a b : Forall P l -> Forall P (sub_list l a b).
Proof. intros. unfold sub_list. by apply Forall_take, Forall_drop. Qed.

Lemma index_lookup l i : 0 <= i -> index l i = l !! Z.to_nat i.
Proof. intros. unfold index. by rewrite bool_decide_eq_true_2. Qed.
End ListSlices.

#[export] Hint Rewrite @zlen_nil @zlen_cons @zlen_app : zlen.

(** ** Lemmas on big-endian integers *)

(** Shifting left by [k] leaves room for a [k]-bit value. *)
Lemma lor_shiftl_add a b k :
  0 <= k -> 0 <= b < 2 ^ k -> Z.lor (Z.shiftl a k) b = a * 2 ^ k + b.
Proof.
  intros Hk Hb. rewrite <- Z.shiftl_mul_pow2 by done.
  assert (Z.land (Z.shiftl a k) b = 0) as Hd.
  { apply Z.bits_inj'. intros n Hn. rewrite Z.land_spec, Z.bits_0, Z.shiftl_spec by done.
    destruct (decide (n < k)).
    - rewrite (Z.testbit_neg_r a (n - k)) by lia. done.
    - destruct (decide (b = 0)) as [->|]; [by rewrite Z.bits_0, andb_false_r|].
      rewrite (Z.bits_above_log2 b n), andb_false_r; [done|lia|].
      apply Z.lt_le_trans with k; [|lia]. apply Z.log2_lt_pow2; lia. }
  rewrite <- Z.add_lor_land, Hd. lia.
Qed.

Lemma land_255 x : Z.land x 255 = x mod 256.
Proof. change 255 with (Z.ones 8). by rewrite Z.land_ones. Qed.

Lemma zlen_be_put n v : zlen (be_put n v) = Z.of_nat n.
Proof. unfold zlen. f_equal. induction n; simpl; congruence. Qed.

Lemma be_put_ok n v : bytes_ok (be_put n v).
Proof.
  induction n; simpl; constructor; [|done].
  rewrite land_255. red. pose proof (Z.mod_pos_bound (Z.shiftr v (8 * Z.of_nat n)) 256). lia.
Qed.

Lemma be_get_acc l acc :
  bytes_ok l ->
  foldl (fun acc b => Z.lor (Z.shiftl acc 8) b) acc l = acc * 2 ^ (8 * zlen l) + be_get l.
Proof.
  unfold be_get. revert acc. induction l as [|b l IH]; intros acc Hl; simpl.
  - rewrite Z.mul_1_r. lia.
  - inversion Hl; subst. rewrite IH by done. rewrite (IH (Z.lor _ b)) by done.
    rewrite !lor_shiftl_add by (change (2 ^ 8) with 256; auto with lia).
    rewrite zlen_cons.
    replace (8 * (1 + zlen l)) with (8 + 8 * zlen l) by lia.
    rewrite Z.pow_add_r by (pose proof (zlen_nonneg l); lia). lia.
Qed.

Lemma be_get_cons b l :
  bytes_ok (b :: l) -> be_get (b :: l) = b * 2 ^ (8 * zlen l) + be_get l.
Proof.
  intros Hl. inversion Hl; subst. unfold be_get at 1. simpl. by rewrite be_get_acc.
Qed.

Lemma be_get_range l : bytes_ok l -> 0 <= be_get l < 2 ^ (8 * zlen l).
Proof.
  induction l as [|b l IH]; intros Hl; [by unfold be_get|].
  rewrite be_get_cons by done. inversion Hl as [|? ? Hb Hl']; subst.
  specialize (IH Hl'). red in Hb. rewrite zlen_cons.
  replace (8 * (1 + zlen l)) with (8 + 8 * zlen l) by lia.
  rewrite Z.pow_add_r by (pose proof (zlen_nonneg l); lia).
  change (2 ^ 8) with 256. nia.
Qed.

Lemma be_get_put_mod n v : be_get (be_put n v) = v mod 2 ^ (8 * Z.of_nat n).
Proof.
  induction n as [|n IH]; [simpl; by rewrite Z.mod_1_r|].
  pose proof (be_put_ok (S n) v) as Hok. simpl in Hok |- *.
  rewrite be_get_cons, IH, zlen_be_put, land_255 by done.
  rewrite Z.shiftr_div_pow2 by lia.
  replace (8 * Z.of_nat (S n)) with (8 * Z.of_nat n + 8) by lia.
  rewrite Z.pow_add_r by lia. change (2 ^ 8) with 256.
  rewrite Z.rem_mul_r by lia. lia.
Qed.

Lemma be_get_put n v : 0 <= v < 2 ^ (8 * Z.of_nat n) -> be_get (be_put n v) = v.
Proof. intros. rewrite be_get_put_mod. by apply Z.mod_small. Qed.

Lemma be_get_inj l1 l2 :
  bytes_ok l1 -> bytes_ok l2 -> length l1 = length l2 -> be_get l1 = be_get l2 -> l1 = l2.
Proof.
  revert l2. induction l1 as [|b1 l1 IH]; intros [|b2 l2] H1 H2 Hlen Heq; try done.
  rewrite !be_get_cons in Heq by done.
  inversion H1 as [|? ? Hb1 H1']; inversion H2 as [|? ? Hb2 H2']; subst.
  simpl in Hlen. injection Hlen as Hlen.
  assert (zlen l1 = zlen l2) as Hz by (unfold zlen; lia).
  pose proof (be_get_range _ H1'). pose proof (be_get_range _ H2').
  rewrite Hz in *. red in Hb1, Hb2.
  assert (b1 = b2) as -> by nia.
  f_equal. apply IH; [done..|lia].
Qed.

Lemma be_put_get n l : bytes_ok l -> length l = n -> be_put n (be_get l) = l.
Proof.
  intros Hl Hn. apply be_get_inj; [apply be_put_ok|done| |].
  - apply Nat2Z.inj. change (zlen (be_put n (be_get l)) = zlen l).
    rewrite zlen_be_put. unfold zlen. lia.
  - apply be_get_put. subst. by apply be_get_range.
Qed.

Lemma be_get_app l1 l2 :
  bytes_ok l2 -> be_get (l1 ++ l2) = be_get l1 * 2 ^ (8 * zlen l2) + be_get l2.
Proof. intros. unfold be_get at 1. rewrite foldl_app. by apply be_get_acc. Qed.

Lemma be_put_app n m v :
  0 <= v -> be_put (n + m) v = be_put n (Z.shiftr v (8 * Z.of_nat m)) ++ be_put m v.
Proof.
  intros. induction n as [|n IH]; [done|]. simpl. rewrite IH. f_equal.
  rewrite Z.shiftr_shiftr by lia. f_equal. f_equal. lia.
Qed.

#[export] Hint Rewrite @zlen_be_put : zlen.
#[export] Hint Resolve be_put_ok Forall_nil_2 : vnet.

(** ** Lemmas on strings *)

#[global] Arguments String.append !_ _ / : simpl nomatch.

Lemma string_app_assoc (a b c : string) : ((a +:+ b) +:+ c = a +:+ (b +:+ c))%string.
Proof. induction a; simpl; congruence. Qed.

Lemma string_app_empty_r (a : string) : (a +:+ "" = a)%string.
Proof. induction a; simpl; congruence. Qed.

Lemma string_app_inj_l (a b c : string) : (a +:+ b = a +:+ c)%string -> b = c.
Proof. induction a; simpl; [done|]. intros [=]. auto. Qed.

Lemma split_head_app sep s t :
  string_all (fun c => negb (Ascii.eqb c sep)) s = true ->
  split_head sep (s +:+ String sep t) = s.
Proof.
  induction s as [|c s IH]; simpl; intros H.
  - by rewrite Ascii.eqb_refl.
  - apply andb_true_iff in H as [Hc Hs]. apply negb_true_iff in Hc. rewrite Hc.
    by rewrite IH.
Qed.

Lemma split_head_none sep s :
  string_all (fun c => negb (Ascii.eqb c sep)) s = true -> split_head sep s = s.
Proof.
  induction s as [|c s IH]; simpl; [done|]. intros H.
  apply andb_true_iff in H as [Hc Hs]. apply negb_true_iff in Hc. rewrite Hc.
  by rewrite IH.
Qed.

Lemma has_prefix_app s t : has_prefix (s +:+ t) s = true.
Proof. induction s; simpl; [by destruct t|]. by rewrite Ascii.eqb_refl. Qed.

Lemma string_all_app P s t :
  string_all P (s +:+ t) = string_all P s && string_all P t.
Proof. induction s; simpl; [done|]. by rewrite IHs, andb_assoc. Qed.

Lemma string_all_impl (P Q : ascii -> bool) s :
  (forall c, P c = true -> Q c = true) -> string_all P s = true -> string_all Q s = true.
Proof.
  intros HPQ. induction s; simpl; [done|]. intros H.
  apply andb_true_iff in H as [? ?]. rewrite HPQ by done. simpl. auto.
Qed.
