(* ===== verification/GoNet.v ===== *)
(** * The parts of Go's packages net and net/netip the program uses

    Addresses are byte slices of length 4 or 16, as [net.IP] is. The parsers
    follow [netip.ParseAddr] (IPv4 fields, IPv6 groups, the ellipsis, a trailing
    dotted quad); an address with a zone is rejected by both [net.ParseIP] and
    [net.ParseCIDR], so a [%] makes the parse fail here. *)

From S2P Require Import Prelude.

Definition is_digit (c : ascii) : bool := (48 <=? ord c) && (ord c <=? 57).

Definition v4InV6Prefix : list Z := [0;0;0;0;0;0;0;0;0;0;255;255].

(** [ip.To4()] *)
Definition To4 (ip : list Z) : option (list Z) :=
  if bool_decide (length ip = 4%nat) then Some ip
  else if bool_decide (length ip = 16%nat /\ take 12 ip = v4InV6Prefix) then Some (drop 12 ip)
  else None.

(** [ip.To16()] *)
Definition To16 (ip : list Z) : option (list Z) :=
  if bool_decide (length ip = 4%nat) then Some (v4InV6Prefix ++ ip)
  else if bool_decide (length ip = 16%nat) then Some ip
  else None.

(** [net.IPv4(a, b, c, d)]: the 16-byte form. *)
Definition IPv4 (a b c d : Z) : list Z := v4InV6Prefix ++ [a; b; c; d].

(** Dotted-quad text of a 4-byte address; [To4] of anything else is nil, whose
    [String()] is ["<nil>"]. *)
Definition ip4_text (ip : list Z) : string :=
  match ip with
  | [a; b; c; d] => dec a +:+ "." +:+ dec b +:+ "." +:+ dec c +:+ "." +:+ dec d
  | _ => "<nil>"
  end%string.

(** [ip.String()] for the IPv4 addresses the program prints. *)
Definition ip_String (ip : list Z) : string :=
  match To4 ip with Some ip4 => ip4_text ip4 | None => "<nil>"%string end.

(** ** netip.parseIPv4Fields

    [start] is true at the first character and after a dot. *)
Fixpoint v4_fields (s : string) (start : bool) (val digLen : Z) (acc : list Z)
    : option (list Z) :=
  match s with
  | EmptyString => if bool_decide (length acc < 3)%nat then None else Some (acc ++ [val])
  | String c s' =>
      if is_digit c then
        if (digLen =? 1) && (val =? 0) then None
        else
          let val' := val * 10 + (ord c - 48) in
          if 255 <? val' then None else v4_fields s' false val' (digLen + 1) acc
      else if Ascii.eqb c "."%char then
        if start || bool_decide (s' = EmptyString) then None
        else if bool_decide (length acc = 3%nat) then None
        else v4_fields s' true 0 0 (acc ++ [val])
      else None
  end.

Definition parse_v4 (s : string) : option (list Z) := v4_fields s true 0 0 [].

(** ** netip.parseIPv6 *)

Definition hex_digit (c : ascii) : option Z :=
  let o := ord c in
  if (48 <=? o) && (o <=? 57) then Some (o - 48)
  else if (97 <=? o) && (o <=? 102) then Some (o - 97 + 10)
  else if (65 <=? o) && (o <=? 70) then Some (o - 65 + 10)
  else None.

(** One hex group: digits read, value, rest. *)
Fixpoint scan_hex (s : string) (off acc : Z) : option (Z * Z * string) :=
  match s with
  | EmptyString => Some (off, acc, s)
  | String c s' =>
      match hex_digit c with
      | None => Some (off, acc, s)
      | Some d =>
          let acc' := Z.shiftl acc 4 + d in
          if 3 <? off then None
          else if 65535 <? acc' then None
          else scan_hex s' (off + 1) acc'
      end
  end.

(** The loop [for i < 16]: each round stores one group, so eight rounds. *)
Fixpoint v6_groups (fuel : nat) (s : string) (ell : option nat) (acc : list Z)
    : option (list Z * option nat * string) :=
  match fuel with
  | O => Some (acc, ell, s)
  | S f =>
      '(off, v, rest) ← scan_hex s 0 0;
      if off =? 0 then None else
      match rest with
      | EmptyString => Some (acc ++ [Z.shiftr v 8; Z.land v 255], ell, EmptyString)
      | String c rest1 =>
          if Ascii.eqb c "."%char then
            if bool_decide (ell = None /\ length acc <> 12%nat) then None
            else if bool_decide (16 < length acc + 4)%nat then None
            else q ← parse_v4 s; Some (acc ++ q, ell, EmptyString)
          else if negb (Ascii.eqb c ":"%char) then None
          else
            let acc' := acc ++ [Z.shiftr v 8; Z.land v 255] in
            match rest1 with
            | EmptyString => None
            | String c2 rest2 =>
                if Ascii.eqb c2 ":"%char then
                  if bool_decide (ell <> None) then None
                  else if bool_decide (rest2 = EmptyString)
                       then Some (acc', Some (length acc'), EmptyString)
                       else v6_groups f rest2 (Some (length acc')) acc'
                else v6_groups f rest1 ell acc'
            end
      end
  end.

Definition v6_expand (r : list Z * option nat * string) : option (list Z) :=
  let '(acc, ell, rest) := r in
  if negb (bool_decide (rest = EmptyString)) then None
  else if bool_decide (length acc < 16)%nat then
    e ← ell; Some (take e acc ++ replicate (16 - length acc) 0 ++ drop e acc)
  else match ell with Some _ => None | None => Some acc end.

Definition parse_v6 (s : string) : option (list Z) :=
  if negb (string_all (fun c => negb (Ascii.eqb c "%"%char)) s) then None else
  match s with
  | String c1 (String c2 s') =>
      if Ascii.eqb c1 ":"%char && Ascii.eqb c2 ":"%char then
        if bool_decide (s' = EmptyString) then Some (replicate 16 0)
        else v6_groups 8 s' (Some 0%nat) [] ≫= v6_expand
      else v6_groups 8 s None [] ≫= v6_expand
  | _ => v6_groups 8 s None [] ≫= v6_expand
  end.

(** ** netip.ParseAddr: the 16-byte form and the bit length *)
Fixpoint addr_kind (s : string) : option bool :=
  match s with
  | EmptyString => None
  | String c s' =>
      if Ascii.eqb c "."%char then Some true
      else if Ascii.eqb c ":"%char then Some false
      else if Ascii.eqb c "%"%char then None
      else addr_kind s'
  end.

Definition ParseAddr (s : string) : option (list Z * Z) :=
  k ← addr_kind s;
  if (k : bool) then q ← parse_v4 s; Some (v4InV6Prefix ++ q, 32)
  else ip ← parse_v6 s; Some (ip, 128).

(** [net.ParseIP] *)
Definition ParseIP (s : string) : option (list Z) := fst <$> ParseAddr s.

(** ** CIDR blocks *)

Record IPNet := MkIPNet { net_IP : list Z; net_Mask : list Z }.

(** [byte ^(0xff >> n)] *)
Definition mask_byte (n : Z) : Z := 255 - Z.shiftr 255 n.

Fixpoint cidr_mask (len : nat) (n : Z) : list Z :=
  match len with
  | O => []
  | S l => if 8 <=? n then 255 :: cidr_mask l (n - 8) else mask_byte n :: cidr_mask l 0
  end.

(** [net.CIDRMask(ones, bits)] for [0 <= ones <= bits] and [bits] 32 or 128. *)
Definition CIDRMask (ones bits : Z) : list Z := cidr_mask (Z.to_nat (bits / 8)) ones.

(** [ip.Mask(m)] *)
Definition ip_Mask (ip m : list Z) : option (list Z) :=
  let m' := if bool_decide (length m = 16%nat /\ length ip = 4%nat /\
                            take 12 m = replicate 12 255) then drop 12 m else m in
  let ip' := if bool_decide (length m' = 4%nat /\ length ip = 16%nat /\
                             take 12 ip = v4InV6Prefix) then drop 12 ip else ip in
  if bool_decide (length ip' = length m') then Some (zip_with Z.land ip' m') else None.

(** Leading one bits of a byte, as the inner loop of [simpleMaskLength]. *)
Fixpoint lead_ones (fuel : nat) (v n : Z) : Z * Z :=
  match fuel with
  | O => (v, n)
  | S f => if Z.testbit v 7 then lead_ones f (Z.land (Z.shiftl v 1) 255) (n + 1) else (v, n)
  end.

Fixpoint simple_mask_length (m : list Z) (n : Z) : Z :=
  match m with
  | [] => n
  | v :: m' =>
      if v =? 255 then simple_mask_length m' (n + 8)
      else let '(v', n') := lead_ones 8 v n in
           if (v' =? 0) && forallb (Z.eqb 0) m' then n' else -1
  end.

(** [m.Size()] *)
Definition mask_Size (m : list Z) : Z * Z :=
  let ones := simple_mask_length m 0 in
  if ones =? -1 then (0, 0) else (ones, 8 * zlen m).

(** The text before and after the first separator. *)
Fixpoint cut_at (sep : ascii) (s : string) : option (string * string) :=
  match s with
  | EmptyString => None
  | String c s' =>
      if Ascii.eqb c sep then Some (EmptyString, s')
      else '(a, b) ← cut_at sep s'; Some (String c a, b)
  end.

(** [dtoi] together with the test that it consumed the whole string. *)
Fixpoint dtoi (s : string) (n : Z) (seen : bool) : option Z :=
  match s with
  | EmptyString => if seen then Some n else None
  | String c s' =>
      if is_digit c then
        let n' := n * 10 + (ord c - 48) in
        if 16777215 <=? n' then None else dtoi s' n' true
      else None
  end.

(** [net.ParseCIDR] *)
Definition ParseCIDR (s : string) : option (list Z * IPNet) :=
  '(addr, mask) ← cut_at "/"%char s;
  '(ip16, bits) ← ParseAddr addr;
  n ← dtoi mask 0 false;
  if bits <? n then None
  else
    let m := CIDRMask n bits in
    nip ← ip_Mask ip16 m;
    Some (ip16, MkIPNet nip m).

(** [networkNumberAndMask] *)
Definition network_number_and_mask (n : IPNet) : option (list Z * list Z) :=
  let ip := default (net_IP n) (To4 (net_IP n)) in
  let m := net_Mask n in
  if bool_decide (length m = 4%nat) then
    if bool_decide (length ip = 4%nat) then Some (ip, m) else None
  else if bool_decide (length m = 16%nat) then
    if bool_decide (length ip = 4%nat) then Some (ip, drop 12 m)
    else if bool_decide (length ip = 16%nat) then Some (ip, m) else None
  else None.

(** [n.Contains(ip)] *)
Definition net_Contains (n : IPNet) (ip : list Z) : bool :=
  match network_number_and_mask n with
  | None => bool_decide (length ip = 0%nat)
  | Some (nn, m) =>
      let x := default ip (To4 ip) in
      bool_decide (length x = length nn /\ zip_with Z.land nn m = zip_with Z.land x m)
  end.

(** ** Bits of an address, most significant first *)

Definition byte_bits (b : Z) : list bool :=
  [Z.testbit b 7; Z.testbit b 6; Z.testbit b 5; Z.testbit b 4;
   Z.testbit b 3; Z.testbit b 2; Z.testbit b 1; Z.testbit b 0].

Definition to_bits (ip : list Z) : list bool := ip ≫= byte_bits.

(** ** Numerals *)

Lemma ord_chr n : 0 <= n < 256 -> ord (chr n) = n.
Proof.
  intros. unfold ord, chr. rewrite N_ascii_embedding by lia. lia.
Qed.

Lemma ord_digit d : 0 <= d < 10 -> ord (digit_char d) = 48 + d.
Proof. intros. unfold digit_char. apply ord_chr. lia. Qed.

Lemma is_digit_char d : 0 <= d < 10 -> is_digit (digit_char d) = true.
Proof. intros. unfold is_digit. rewrite ord_digit by done. lia. Qed.

Lemma dec_loop_step f n acc :
  0 < n -> dec_loop (S f) n acc = dec_loop f (n / 10) (String (digit_char (n mod 10)) acc).
Proof. intros. simpl. rewrite (proj2 (Z.leb_gt n 0)); [done|lia]. Qed.

Lemma dec_loop_0 f acc : dec_loop f 0 acc = acc.
Proof. by destruct f. Qed.

Lemma dec_1 n : 0 <= n < 10 -> dec n = String (digit_char n) EmptyString.
Proof.
  intros. unfold dec. destruct (n =? 0) eqn:E; bool_cases; [by subst|].
  rewrite dec_loop_step, Z.div_small, Z.mod_small, dec_loop_0 by lia. done.
Qed.

Lemma dec_2 n :
  10 <= n < 100 ->
  dec n = String (digit_char (n / 10)) (String (digit_char (n mod 10)) EmptyString).
Proof.
  intros. unfold dec. destruct (n =? 0) eqn:E; bool_cases; [lia|].
  assert (1 <= n / 10 < 10) by (split; [apply Z.div_le_lower_bound|apply Z.div_lt_upper_bound]; lia).
  rewrite !dec_loop_step, (Z.div_small (n / 10)), (Z.mod_small (n / 10)), dec_loop_0 by lia. done.
Qed.

Lemma dec_3 n :
  100 <= n < 1000 ->
  dec n = String (digit_char (n / 100))
            (String (digit_char (n / 10 mod 10)) (String (digit_char (n mod 10)) EmptyString)).
Proof.
  intros. unfold dec. destruct (n =? 0) eqn:E; bool_cases; [lia|].
  assert (10 <= n / 10 < 100) by (split; [apply Z.div_le_lower_bound|apply Z.div_lt_upper_bound]; lia).
  assert (n / 10 / 10 = n / 100) as E3 by (by rewrite Z.div_div).
  assert (1 <= n / 100 < 10) by (split; [apply Z.div_le_lower_bound|apply Z.div_lt_upper_bound]; lia).
  rewrite !dec_loop_step, E3, (Z.div_small (n / 100)), (Z.mod_small (n / 100)), dec_loop_0 by lia.
  done.
Qed.

#[global] Opaque dec.

(** The three shapes of a numeral below one thousand. *)
Lemma dec_cases n (P : string -> Prop) :
  0 <= n < 1000 ->
  (forall d, 0 <= d < 10 -> n = d -> P (String (digit_char d) EmptyString)) ->
  (forall d e, 1 <= d < 10 -> 0 <= e < 10 -> n = 10 * d + e ->
     P (String (digit_char d) (String (digit_char e) EmptyString))) ->
  (forall d e f, 1 <= d < 10 -> 0 <= e < 10 -> 0 <= f < 10 -> n = 100 * d + 10 * e + f ->
     P (String (digit_char d) (String (digit_char e) (String (digit_char f) EmptyString)))) ->
  P (dec n).
Proof.
  intros Hn H1 H2 H3.
  destruct (decide (n < 10)); [rewrite dec_1 by lia; apply H1; lia|].
  destruct (decide (n < 100)).
  - rewrite dec_2 by lia. apply H2; try (apply Z.mod_pos_bound; lia).
    + split; [apply Z.div_le_lower_bound|apply Z.div_lt_upper_bound]; lia.
    + apply Z_div_mod_eq_full.
  - rewrite dec_3 by lia. apply H3; try (apply Z.mod_pos_bound; lia).
    + split; [apply Z.div_le_lower_bound|apply Z.div_lt_upper_bound]; lia.
    + rewrite (Z_div_mod_eq_full n 10) at 1. rewrite (Z_div_mod_eq_full (n / 10) 10) at 1.
      rewrite Z.div_div by lia. change (10 * 10) with 100. lia.
Qed.

Lemma dec_digits n : 0 <= n < 1000 -> string_all is_digit (dec n) = true.
Proof.
  intros. apply dec_cases; [done|..]; intros; simpl;
    by rewrite ?is_digit_char by lia.
Qed.

Lemma dtoi_dec n : 0 <= n < 1000 -> dtoi (dec n) 0 false = Some n.
Proof.
  intros. apply dec_cases; [done|..]; intros; simpl;
    repeat (rewrite ?is_digit_char, ?ord_digit by lia; simpl; split_ifs; try lia);
    f_equal; lia.
Qed.

(** ** IPv4 text round trip *)

Lemma v4_fields_octet a s start acc :
  byte_ok a ->
  exists k, 1 <= k /\ v4_fields (dec a +:+ s) start 0 0 acc = v4_fields s false a k acc.
Proof.
  intros Ha. red in Ha.
  apply (dec_cases a (fun t => exists k, 1 <= k /\
    v4_fields (t +:+ s) start 0 0 acc = v4_fields s false a k acc)); [lia|..]; intros; subst.
  - exists 1. split; [done|]. simpl. rewrite is_digit_char, ord_digit by lia. simpl.
    split_ifs; [lia|]. f_equal; lia.
  - exists 2. split; [done|]. simpl. rewrite !is_digit_char, !ord_digit by lia. simpl.
    split_ifs; try lia. f_equal; lia.
  - exists 3. split; [done|]. simpl. rewrite !is_digit_char, !ord_digit by lia. simpl.
    split_ifs; try lia. f_equal; lia.
Qed.

Lemma v4_fields_dot s a k acc :
  s <> EmptyString -> (length acc < 3)%nat ->
  v4_fields ("." +:+ s) false a k acc = v4_fields s true 0 0 (acc ++ [a]).
Proof.
  intros Hs Hl. simpl. rewrite bool_decide_eq_false_2 by done.
  rewrite bool_decide_eq_false_2 by lia. done.
Qed.

Lemma dec_app_nonempty n s : 0 <= n < 1000 -> (dec n +:+ s)%string <> EmptyString.
Proof. intros. apply dec_cases; [done|..]; intros; discriminate. Qed.

Lemma dec_app_byte n s : byte_ok n -> (dec n +:+ s)%string <> EmptyString.
Proof. intros H. apply dec_app_nonempty. red in H. lia. Qed.

Lemma quad_cases ip (P : list Z -> Prop) :
  length ip = 4%nat -> bytes_ok ip ->
  (forall a b c d, byte_ok a -> byte_ok b -> byte_ok c -> byte_ok d -> P [a; b; c; d]) ->
  P ip.
Proof.
  intros Hl Hok HP. destruct ip as [|a [|b [|c [|d [|]]]]]; try done.
  unfold bytes_ok in Hok. rewrite !Forall_cons in Hok. apply HP; tauto.
Qed.

(** Replaces a four-byte address by its octets. *)
Ltac quad_intro ip a b c d :=
  pattern ip; apply quad_cases; [done..|]; cbv beta;
  let Ha := fresh "H" a in let Hb := fresh "H" b in
  let Hc := fresh "H" c in let Hd := fresh "H" d in
  intros a b c d Ha Hb Hc Hd.

Lemma parse_v4_text ip :
  length ip = 4%nat -> bytes_ok ip -> parse_v4 (ip4_text ip) = Some ip.
Proof.
  intros Hl Hok. quad_intro ip a b c d.
  unfold parse_v4, ip4_text.
  destruct (v4_fields_octet a ("." +:+ dec b +:+ "." +:+ dec c +:+ "." +:+ dec d) true [])
    as (k1 & ? & ->); [done|].
  rewrite v4_fields_dot; [|by apply dec_app_byte|simpl; lia]. simpl app.
  destruct (v4_fields_octet b ("." +:+ dec c +:+ "." +:+ dec d) true [a])
    as (k2 & ? & ->); [done|].
  rewrite v4_fields_dot; [|by apply dec_app_byte|simpl; lia]. simpl app.
  destruct (v4_fields_octet c ("." +:+ dec d) true [a; b]) as (k3 & ? & ->); [done|].
  rewrite <- (string_app_empty_r (dec d)).
  rewrite v4_fields_dot; [|by apply dec_app_byte|simpl; lia]. simpl app.
  destruct (v4_fields_octet d "" true [a; b; c]) as (k4 & ? & ->); [done|]. done.
Qed.

Lemma addr_kind_digits s t :
  string_all is_digit s = true -> addr_kind (s +:+ String "." t) = Some true.
Proof.
  induction s as [|c s IH]; simpl; [done|]. intros H. apply andb_true_iff in H as [Hc Hs].
  destruct (Ascii.eqb c ".") eqn:E1; [done|].
  destruct (Ascii.eqb c ":") eqn:E2.
  { apply Ascii.eqb_eq in E2. subst. by vm_compute in Hc. }
  destruct (Ascii.eqb c "%") eqn:E3; [|auto].
  apply Ascii.eqb_eq in E3. subst. by vm_compute in Hc.
Qed.

Lemma addr_kind_text ip :
  length ip = 4%nat -> bytes_ok ip -> addr_kind (ip4_text ip) = Some true.
Proof.
  intros Hl Hok. quad_intro ip a b c d.
  unfold ip4_text. apply (addr_kind_digits (dec a)). apply dec_digits. red in Ha. lia.
Qed.

Lemma ParseAddr_text ip :
  length ip = 4%nat -> bytes_ok ip -> ParseAddr (ip4_text ip) = Some (v4InV6Prefix ++ ip, 32).
Proof.
  intros. unfold ParseAddr. rewrite addr_kind_text by done. simpl.
  by rewrite parse_v4_text by done.
Qed.

Lemma ParseIP_text ip :
  length ip = 4%nat -> bytes_ok ip -> ParseIP (ip4_text ip) = Some (v4InV6Prefix ++ ip).
Proof. intros. unfold ParseIP. by rewrite ParseAddr_text. Qed.

Lemma ip4_text_inj ip1 ip2 :
  length ip1 = 4%nat -> length ip2 = 4%nat -> bytes_ok ip1 -> bytes_ok ip2 ->
  ip4_text ip1 = ip4_text ip2 -> ip1 = ip2.
Proof.
  intros H1 H2 Hb1 Hb2 E. apply (f_equal parse_v4) in E.
  rewrite !parse_v4_text in E by done. congruence.
Qed.

Lemma To4_4 ip : length ip = 4%nat -> To4 ip = Some ip.
Proof. intros. unfold To4. by rewrite bool_decide_eq_true_2. Qed.

Lemma To4_mapped ip : length ip = 4%nat -> To4 (v4InV6Prefix ++ ip) = Some ip.
Proof.
  intros H. destruct ip as [|a [|b [|c [|d [|]]]]]; done.
Qed.

Lemma dec_not_slash n :
  0 <= n < 1000 -> string_all (fun c => negb (Ascii.eqb c "/")) (dec n) = true.
Proof.
  intros. eapply string_all_impl; [|by apply dec_digits].
  intros c Hc. destruct (Ascii.eqb c "/") eqn:E; [|done].
  apply Ascii.eqb_eq in E. subst. by vm_compute in Hc.
Qed.

Lemma ip4_text_not_slash ip :
  length ip = 4%nat -> bytes_ok ip ->
  string_all (fun c => negb (Ascii.eqb c "/")) (ip4_text ip) = true.
Proof.
  intros Hl Hok. quad_intro ip a b c d.
  unfold ip4_text. red in Ha, Hb, Hc, Hd. rewrite !string_all_app, !dec_not_slash by lia. done.
Qed.

Lemma cut_at_app sep s t :
  string_all (fun c => negb (Ascii.eqb c sep)) s = true ->
  cut_at sep (s +:+ String sep t) = Some (s, t).
Proof.
  induction s as [|c s IH]; simpl; intros H; [by rewrite Ascii.eqb_refl|].
  apply andb_true_iff in H as [Hc Hs]. apply negb_true_iff in Hc. rewrite Hc.
  by rewrite IH.
Qed.

(** ** Masks and bits *)

Lemma length_cidr_mask l n : length (cidr_mask l n) = l.
Proof. revert n. induction l; intros; simpl; [done|]. split_ifs; simpl; by rewrite IHl. Qed.

Lemma length_CIDRMask_32 n : length (CIDRMask n 32) = 4%nat.
Proof. apply length_cidr_mask. Qed.

Lemma length_CIDRMask_128 n : length (CIDRMask n 128) = 16%nat.
Proof. apply length_cidr_mask. Qed.

Lemma mask_Size_check :
  forallb (fun n => bool_decide (mask_Size (CIDRMask n 32) = (n, 32))) (seqZ 0 33) &&
  forallb (fun n => bool_decide (mask_Size (CIDRMask n 128) = (n, 128))) (seqZ 0 129) = true.
Proof. vm_compute. reflexivity. Qed.

Lemma mask_Size_32 n : 0 <= n <= 32 -> mask_Size (CIDRMask n 32) = (n, 32).
Proof.
  intros. pose proof mask_Size_check as H'. apply andb_true_iff in H' as [H' _].
  rewrite forallb_forall in H'. eapply bool_decide_eq_true_1, H'.
  apply list_elem_of_In, elem_of_seqZ. lia.
Qed.

Lemma mask_Size_128 n : 0 <= n <= 128 -> mask_Size (CIDRMask n 128) = (n, 128).
Proof.
  intros. pose proof mask_Size_check as H'. apply andb_true_iff in H' as [_ H'].
  rewrite forallb_forall in H'. eapply bool_decide_eq_true_1, H'.
  apply list_elem_of_In, elem_of_seqZ. lia.
Qed.

Lemma length_to_bits ip : length (to_bits ip) = (8 * length ip)%nat.
Proof. induction ip; simpl; [done|]. unfold to_bits in *. simpl. lia. Qed.

Lemma to_bits_cons b ip : to_bits (b :: ip) = byte_bits b ++ to_bits ip.
Proof. done. Qed.

Lemma to_bits_app a b : to_bits (a ++ b) = to_bits a ++ to_bits b.
Proof. apply bind_app. Qed.

Lemma byte_bits_land b m :
  byte_bits (Z.land b m) = zip_with andb (byte_bits b) (byte_bits m).
Proof. unfold byte_bits. cbn [zip_with]. by rewrite !Z.land_spec. Qed.

Lemma byte_bits_255 : byte_bits 255 = replicate 8 true.
Proof. reflexivity. Qed.

Lemma mask_byte_bits k :
  (k <= 8)%nat -> byte_bits (mask_byte (Z.of_nat k)) = replicate k true ++ replicate (8 - k) false.
Proof. intros. do 9 (destruct k as [|k]; [reflexivity|]). lia. Qed.

Lemma zip_andb_mask k l :
  (k <= length l)%nat ->
  zip_with andb l (replicate k true ++ replicate (length l - k) false)
  = take k l ++ replicate (length l - k) false.
Proof.
  revert k. induction l as [|b l IH]; intros k Hk; simpl in *; [by destruct k|].
  destruct k as [|k]; simpl.
  - rewrite andb_false_r. f_equal. specialize (IH 0%nat). simpl in IH.
    rewrite Nat.sub_0_r in IH. apply IH. lia.
  - rewrite andb_true_r. f_equal. apply IH. lia.
Qed.

(** Masking an address keeps its first [n] bits and clears the others. *)
Lemma to_bits_masked ip n :
  (n <= 8 * length ip)%nat ->
  to_bits (zip_with Z.land ip (cidr_mask (length ip) (Z.of_nat n)))
  = take n (to_bits ip) ++ replicate (8 * length ip - n) false.
Proof.
  revert n. induction ip as [|b ip IH]; intros n Hn; simpl in Hn.
  { destruct n; [done|lia]. }
  change (length (b :: ip)) with (S (length ip)). cbn [cidr_mask].
  destruct (8 <=? Z.of_nat n) eqn:E; bool_cases; cbn [zip_with].
  - rewrite !to_bits_cons.
    replace (Z.of_nat n - 8) with (Z.of_nat (n - 8)) by lia.
    rewrite IH by lia. rewrite byte_bits_land, byte_bits_255.
    rewrite take_app_ge by (simpl; lia). rewrite <- app_assoc. f_equal.
    + unfold byte_bits. cbn [zip_with replicate]. by rewrite !andb_true_r.
    + change (length (byte_bits b)) with 8%nat. do 2 f_equal. lia.
  - rewrite !to_bits_cons, byte_bits_land, mask_byte_bits by lia.
    specialize (IH 0%nat). change (Z.of_nat 0) with 0 in IH. rewrite IH by lia.
    rewrite take_0, app_nil_l.
    change 8%nat with (length (byte_bits b)) at 1. rewrite zip_andb_mask by (simpl; lia).
    rewrite take_app_le by (simpl; lia). rewrite <- app_assoc. f_equal.
    change (length (byte_bits b)) with 8%nat.
    rewrite <- replicate_add. f_equal. lia.
Qed.

Lemma take_to_bits_masked ip n :
  (n <= 8 * length ip)%nat ->
  take n (to_bits (zip_with Z.land ip (cidr_mask (length ip) (Z.of_nat n)))) = take n (to_bits ip).
Proof.
  intros. rewrite to_bits_masked by done.
  rewrite take_app_le by (rewrite length_take, length_to_bits; lia).
  by rewrite take_take, Nat.min_id.
Qed.

Lemma byte_bits_inj a b : byte_ok a -> byte_ok b -> byte_bits a = byte_bits b -> a = b.
Proof.
  intros Ha Hb E. unfold byte_bits in E. injection E as E7 E6 E5 E4 E3 E2 E1 E0.
  apply Z.bits_inj'. intros n Hn. destruct (decide (n < 8)).
  - apply (below_cases (fun n => Z.testbit a n = Z.testbit b n) 8); [lia|].
    by repeat constructor.
  - assert (forall x, byte_ok x -> Z.testbit x n = false) as Hx.
    { intros x [Hx1 Hx2]. destruct (decide (x = 0)) as [->|]; [by rewrite Z.bits_0|].
      apply Z.bits_above_log2; [done|]. apply Z.lt_le_trans with 8; [|lia].
      apply Z.log2_lt_pow2; lia. }
    by rewrite !Hx.
Qed.

Lemma to_bits_inj ip1 ip2 :
  bytes_ok ip1 -> bytes_ok ip2 -> to_bits ip1 = to_bits ip2 -> ip1 = ip2.
Proof.
  revert ip2. induction ip1 as [|a ip1 IH]; intros [|b ip2] H1 H2 E; try done.
  rewrite !to_bits_cons in E. inversion H1; inversion H2; subst.
  apply app_inj_1 in E as [E1 E2]; [|done]. f_equal; [by apply byte_bits_inj|by apply IH].
Qed.

(** ** CIDR text *)

Definition cidr_text (ip : list Z) (n : Z) : string := ip4_text ip +:+ "/" +:+ dec n.

Lemma ip_Mask_v4 ip n :
  length ip = 4%nat ->
  ip_Mask (v4InV6Prefix ++ ip) (CIDRMask n 32) = Some (zip_with Z.land ip (CIDRMask n 32)).
Proof.
  intros H. pose proof (length_CIDRMask_32 n) as Hm.
  destruct ip as [|a [|b [|c [|d [|]]]]]; try done.
  destruct (CIDRMask n 32) as [|m1 [|m2 [|m3 [|m4 [|]]]]]; done.
Qed.

Lemma ip_Mask_16 ip m :
  length ip = 16%nat -> length m = 16%nat -> ip_Mask ip m = Some (zip_with Z.land ip m).
Proof.
  intros Hi Hm. unfold ip_Mask. rewrite Hi, Hm. cbv zeta.
  rewrite (bool_decide_eq_false_2 (16%nat = 16%nat /\ 16%nat = 4%nat /\ _)) by lia.
  rewrite Hm. rewrite (bool_decide_eq_false_2 (16%nat = 4%nat /\ _)) by lia.
  rewrite Hi. by rewrite bool_decide_eq_true_2.
Qed.

Lemma ParseCIDR_text ip n :
  length ip = 4%nat -> bytes_ok ip -> 0 <= n <= 32 ->
  ParseCIDR (cidr_text ip n) =
  Some (v4InV6Prefix ++ ip, MkIPNet (zip_with Z.land ip (CIDRMask n 32)) (CIDRMask n 32)).
Proof.
  intros Hl Hok Hn. unfold ParseCIDR, cidr_text.
  change ("/" +:+ dec n)%string with (String "/" (dec n)).
  rewrite cut_at_app by by apply ip4_text_not_slash. cbn [mbind option_bind].
  rewrite ParseAddr_text by done. cbn [mbind option_bind].
  rewrite dtoi_dec by lia. cbn [mbind option_bind].
  split_ifs; [lia|]. by rewrite ip_Mask_v4.
Qed.

(** ** Shape of parsed addresses *)

Lemma v4_fields_length s start val k acc q :
  v4_fields s start val k acc = Some q -> (length acc <= 3)%nat -> length q = 4%nat.
Proof.
  revert start val k acc. induction s as [|c s IH]; intros start val k acc H Hl; simpl in H.
  - case_bool_decide; simplify_eq. rewrite length_app. simpl. lia.
  - destruct (is_digit c).
    + destruct ((k =? 1) && (val =? 0)); [done|].
      destruct (255 <? val * 10 + (ord c - 48)); [done|]. by eapply IH.
    + destruct (Ascii.eqb c "."); [|done].
      destruct (start || bool_decide (s = EmptyString)); [done|].
      case_bool_decide; [done|]. eapply IH; [done|]. rewrite length_app. simpl. lia.
Qed.

Lemma v4_fields_ok s start val k acc q :
  v4_fields s start val k acc = Some q -> byte_ok val -> bytes_ok acc -> bytes_ok q.
Proof.
  revert start val k acc. induction s as [|c s IH]; intros start val k acc H Hv Ha; simpl in H.
  - case_bool_decide; simplify_eq. apply Forall_app. split; [done|]. by constructor.
  - destruct (is_digit c) eqn:Ed.
    + destruct ((k =? 1) && (val =? 0)); [done|].
      destruct (255 <? val * 10 + (ord c - 48)) eqn:E; [done|]. eapply IH; [done| |done].
      unfold is_digit in Ed. bool_cases. red in Hv |- *. lia.
    + destruct (Ascii.eqb c "."); [|done].
      destruct (start || bool_decide (s = EmptyString)); [done|].
      case_bool_decide; [done|]. eapply IH; [done|done|]. apply Forall_app. split; [done|].
      by constructor.
Qed.

Lemma parse_v4_shape s q : parse_v4 s = Some q -> length q = 4%nat /\ bytes_ok q.
Proof.
  intros H. split.
  - eapply v4_fields_length; [done|]. simpl. lia.
  - eapply v4_fields_ok; [done|done|constructor].
Qed.

Lemma scan_hex_range s off acc o v rest :
  scan_hex s off acc = Some (o, v, rest) -> 0 <= acc < 65536 -> 0 <= v < 65536.
Proof.
  revert off acc. induction s as [|c s IH]; intros off acc H Ha; simpl in H; [naive_solver|].
  destruct (hex_digit c) as [d|] eqn:Ed; [|naive_solver].
  destruct (3 <? off); [done|]. destruct (65535 <? Z.shiftl acc 4 + d) eqn:E; [done|].
  eapply IH; [done|]. bool_cases. split; [|lia].
  assert (0 <= d).
  { unfold hex_digit in Ed. destruct ((48 <=? ord c) && (ord c <=? 57)) eqn:E1; bool_cases; [naive_solver lia|].
    destruct ((97 <=? ord c) && (ord c <=? 102)) eqn:E2; bool_cases; [naive_solver lia|].
    destruct ((65 <=? ord c) && (ord c <=? 70)) eqn:E3; bool_cases; naive_solver lia. }
  rewrite Z.shiftl_mul_pow2 by lia. change (2 ^ 4) with 16. lia.
Qed.

Lemma group_bytes_ok v acc :
  0 <= v < 65536 -> bytes_ok acc -> bytes_ok (acc ++ [Z.shiftr v 8; Z.land v 255]).
Proof.
  intros Hv Ha. apply Forall_app. split; [done|].
  rewrite land_255, Z.shiftr_div_pow2 by lia. change (2 ^ 8) with 256.
  repeat constructor.
  - apply Z.div_pos; lia.
  - apply Z.div_lt_upper_bound; lia.
  - apply Z.mod_pos_bound. lia.
  - apply Z.mod_pos_bound. lia.
Qed.

Lemma v6_groups_shape f s ell acc acc' ell' rest :
  v6_groups f s ell acc = Some (acc', ell', rest) ->
  (length acc + 2 * f = 16)%nat -> bytes_ok acc ->
  (length acc' <= 16)%nat /\ bytes_ok acc'.
Proof.
  revert s ell acc. induction f as [|f IH]; intros s ell acc H Hl Hok; simpl in H.
  { simplify_eq. split; [lia|done]. }
  destruct (scan_hex s 0 0) as [[[off v] rest1]|] eqn:Es; [|done]. cbn [mbind option_bind] in H.
  apply scan_hex_range in Es; [|lia].
  pose proof (group_bytes_ok v acc Es Hok) as Hg.
  assert (length (acc ++ [Z.shiftr v 8; Z.land v 255]) = length acc + 2)%nat as Hgl
    by (rewrite length_app; done).
  destruct (off =? 0); [done|].
  destruct rest1 as [|c r1]; [simplify_eq; split; [lia|done]|].
  destruct (Ascii.eqb c ".").
  { case_bool_decide; [done|]. case_bool_decide; [done|].
    destruct (parse_v4 s) as [q|] eqn:Eq; [|done]. simplify_eq/=.
    apply parse_v4_shape in Eq as [Hq1 Hq2]. split; [rewrite length_app; lia|].
    by apply Forall_app. }
  destruct (negb (Ascii.eqb c ":")); [done|].
  destruct r1 as [|c2 r2]; [done|].
  destruct (Ascii.eqb c2 ":"); [|eapply IH; [done|lia|done]].
  case_bool_decide; [done|]. case_bool_decide; [simplify_eq; split; [lia|done]|].
  eapply IH; [done|lia|done].
Qed.

Lemma v6_expand_shape acc ell rest ip :
  v6_expand (acc, ell, rest) = Some ip -> (length acc <= 16)%nat -> bytes_ok acc ->
  length ip = 16%nat /\ bytes_ok ip.
Proof.
  unfold v6_expand. intros H Hl Hok. destruct (negb _); [done|]. case_bool_decide.
  - destruct ell as [e|]; [|done]. simplify_eq/=. split.
    + rewrite !length_app, length_take, length_replicate, length_drop. lia.
    + apply Forall_app. split; [by apply Forall_take|]. apply Forall_app.
      split; [|by apply Forall_drop]. by apply Forall_replicate.
  - destruct ell; simplify_eq. split; [lia|done].
Qed.

Lemma v6_parse_shape s ell ip :
  v6_groups 8 s ell [] ≫= v6_expand = Some ip -> length ip = 16%nat /\ bytes_ok ip.
Proof.
  destruct (v6_groups 8 s ell []) as [[[acc e] rest]|] eqn:E; [|done]. simpl.
  apply v6_groups_shape in E as [? ?]; [|done|constructor]. intros. by eapply v6_expand_shape.
Qed.

Lemma parse_v6_shape s ip : parse_v6 s = Some ip -> length ip = 16%nat /\ bytes_ok ip.
Proof.
  unfold parse_v6. destruct (negb _); [done|]. intros H.
  destruct s as [|c1 [|c2 s']]; try (by eapply v6_parse_shape).
  destruct (Ascii.eqb c1 ":" && Ascii.eqb c2 ":"); [|by eapply v6_parse_shape].
  case_bool_decide; [|by eapply v6_parse_shape]. simplify_eq. split; [done|].
  by apply Forall_replicate.
Qed.

Lemma ParseAddr_shape s ip bits :
  ParseAddr s = Some (ip, bits) ->
  length ip = 16%nat /\ bytes_ok ip /\
  (bits = 32 /\ take 12 ip = v4InV6Prefix \/ bits = 128).
Proof.
  unfold ParseAddr. destruct (addr_kind s) as [[]|]; [..|done]; simpl.
  - destruct (parse_v4 s) as [q|] eqn:E; [|done]. intros [= <- <-].
    apply parse_v4_shape in E as [Hl Hok]. split_and!; [simpl; lia| |by left].
    do 12 (constructor; [split; done|]). done.
  - destruct (parse_v6 s) as [q|] eqn:E; [|done]. intros [= <- <-].
    apply parse_v6_shape in E as [? ?]. naive_solver.
Qed.

Lemma ParseIP_shape s ip : ParseIP s = Some ip -> length ip = 16%nat /\ bytes_ok ip.
Proof.
  unfold ParseIP. destruct (ParseAddr s) as [[ip' bits]|] eqn:E; [|done]. simpl. intros [= <-].
  apply ParseAddr_shape in E. tauto.
Qed.

Lemma dtoi_nonneg s n seen k : dtoi s n seen = Some k -> 0 <= n -> 0 <= k.
Proof.
  revert n seen. induction s as [|c s IH]; intros n seen H Hn; simpl in H.
  - destruct seen; simplify_eq. done.
  - destruct (is_digit c) eqn:Ed; [|done]. destruct (_ <=? _); [done|].
    eapply IH; [done|]. unfold is_digit in Ed. bool_cases. lia.
Qed.

(** What [ParseCIDR] returns: the family is given by the length of the network
    address, and the mask is the one of the parsed prefix length. *)
Lemma ParseCIDR_shape s ip n :
  ParseCIDR s = Some (ip, n) ->
  exists ones bits, (bits = 32 \/ bits = 128) /\ 0 <= ones <= bits /\
    net_Mask n = CIDRMask ones bits /\ Z.of_nat (length (net_IP n)) * 8 = bits /\
    mask_Size (net_Mask n) = (ones, bits).
Proof.
  unfold ParseCIDR. destruct (cut_at _ s) as [[addr mask]|]; [|done]. cbn [mbind option_bind].
  destruct (ParseAddr addr) as [[ip16 bits]|] eqn:Ea; [|done]. cbn [mbind option_bind].
  destruct (dtoi mask 0 false) as [ones|] eqn:Ed; [|done]. cbn [mbind option_bind].
  apply dtoi_nonneg in Ed; [|done]. destruct (bits <? ones) eqn:Eb; [done|]. bool_cases.
  apply ParseAddr_shape in Ea as (Hl & Hok & Hb).
  destruct (ip_Mask ip16 (CIDRMask ones bits)) as [nip|] eqn:Em; [|done]. cbn [mbind option_bind].
  intros [= <- <-]. exists ones, bits. cbn [net_IP net_Mask].
  destruct Hb as [[-> Hp]| ->].
  - split_and!; try lia; [done| |by apply mask_Size_32].
    rewrite <- (take_drop 12 ip16), Hp, ip_Mask_v4 in Em by (rewrite length_drop; lia).
    simplify_eq. rewrite length_zip_with, length_drop, length_CIDRMask_32, Hl. done.
  - split_and!; try lia; [done| |by apply mask_Size_128].
    rewrite ip_Mask_16 in Em by (rewrite ?length_CIDRMask_128; lia).
    simplify_eq. rewrite length_zip_with, length_CIDRMask_128, Hl. done.
Qed.
