(* ===== verification/GoText.v ===== *)
(** * Base64 and JSON, as the program uses Go's encoding packages

    Strings are byte strings. JSON numbers are integers: the program's messages
    hold no others (the cost of a call is filled in by the caller and is zero
    on the wire). Text is taken to be valid UTF-8, which Go's encoder and
    decoder leave as it is; U+2028 and U+2029, which Go escapes, do not occur. *)

From S2P Require Import Prelude GoNet.

#[local] Open Scope string_scope.
#[local] Open Scope Z_scope.

Definition bytes_string (l : list Z) : string := foldr (fun b s => String (chr b) s) "" l.
Fixpoint string_bytes (s : string) : list Z :=
  match s with EmptyString => [] | String c s' => ord c :: string_bytes s' end.

(** ** encoding/base64 *)

Definition b64_char (v : Z) : ascii :=
  if v <? 26 then chr (65 + v) else if v <? 52 then chr (71 + v) else if v <? 62 then chr (v - 4)
  else if v =? 62 then "+"%char else "/"%char.

Definition b64_value (c : ascii) : option Z :=
  let n := ord c in
  if (65 <=? n) && (n <=? 90) then Some (n - 65)
  else if (97 <=? n) && (n <=? 122) then Some (n - 71)
  else if (48 <=? n) && (n <=? 57) then Some (n + 4)
  else if n =? 43 then Some 62 else if n =? 47 then Some 63 else None.

(** [StdEncoding] pads ([pad]), [RawStdEncoding] does not. *)
Definition b64_pad (pad : bool) (s : string) : string := if pad then s else "".

Fixpoint b64_encode (pad : bool) (l : list Z) : string :=
  match l with
  | [] => ""
  | [a] => String (b64_char (a / 4)) (String (b64_char (a mod 4 * 16)) (b64_pad pad "=="))
  | [a; b] =>
      String (b64_char (a / 4)) (String (b64_char (a mod 4 * 16 + b / 16))
        (String (b64_char (b mod 16 * 4)) (b64_pad pad "=")))
  | a :: b :: c :: l' =>
      String (b64_char (a / 4)) (String (b64_char (a mod 4 * 16 + b / 16))
        (String (b64_char (b mod 16 * 4 + c / 64)) (String (b64_char (c mod 64)) (b64_encode pad l'))))
  end.

(** The decoder skips line ends, and does not check the bits a last group does
    not use. *)
Fixpoint b64_skip (s : string) : string :=
  match s with
  | EmptyString => ""
  | String c s' => if (ord c =? 10) || (ord c =? 13) then b64_skip s' else String c (b64_skip s')
  end.

Fixpoint b64_groups (pad : bool) (s : string) : option (list Z) :=
  match s with
  | EmptyString => Some []
  | String a (String b rest) =>
      x ← b64_value a;
      y ← b64_value b;
      let first := x * 4 + y / 16 in
      match rest with
      | EmptyString => if pad then None else Some [first]
      | String c rest' =>
          match b64_value c with
          | None => if pad && String.eqb rest "==" then Some [first] else None
          | Some z =>
              let second := y mod 16 * 16 + z / 4 in
              match rest' with
              | EmptyString => if pad then None else Some [first; second]
              | String d rest'' =>
                  match b64_value d with
                  | None => if pad && String.eqb rest' "=" then Some [first; second] else None
                  | Some t => l ← b64_groups pad rest''; Some (first :: second :: z mod 4 * 64 + t :: l)
                  end
              end
          end
      end
  | String _ EmptyString => None
  end.

Definition b64_decode (pad : bool) (s : string) : option (list Z) := b64_groups pad (b64_skip s).

(** ** encoding/json *)

Inductive json :=
| JNull
| JBool (b : bool)
| JNum (z : Z)
| JStr (s : string)
| JArr (l : list json)
| JObj (l : list (string * json)).

Definition hex_char (v : Z) : ascii := if v <? 10 then chr (48 + v) else chr (87 + v).
Definition hex_value (c : ascii) : option Z :=
  let n := ord c in
  if (48 <=? n) && (n <=? 57) then Some (n - 48)
  else if (97 <=? n) && (n <=? 102) then Some (n - 87)
  else if (65 <=? n) && (n <=? 70) then Some (n - 55) else None.

Definition backslash : ascii := chr 92.
Definition dquote : ascii := chr 34.

(** One byte of a string, with the escapes [Marshal] uses. *)
Definition escape (c : ascii) : string :=
  let n := ord c in
  let short (l : ascii) := String backslash (String l "") in
  if (n =? 34) || (n =? 92) then short c
  else if n =? 8 then short "b"%char else if n =? 12 then short "f"%char
  else if n =? 10 then short "n"%char else if n =? 13 then short "r"%char else if n =? 9 then short "t"%char
  else if (n <? 32) || (n =? 60) || (n =? 62) || (n =? 38) then
    String backslash ("u00" +:+ String (hex_char (n / 16)) (String (hex_char (n mod 16)) ""))
  else String c "".

Fixpoint escape_all (s : string) : string :=
  match s with EmptyString => "" | String c s' => escape c +:+ escape_all s' end.

Definition print_string (s : string) : string := String dquote (escape_all s +:+ String dquote "").
Definition print_int (z : Z) : string := if z <? 0 then "-" +:+ dec (- z) else dec z.

Definition commas (l : list string) : string :=
  match l with [] => "" | x :: l' => x +:+ foldr (fun y s => "," +:+ y +:+ s) "" l' end.

(** [json.Marshal] *)
Fixpoint Marshal (v : json) : string :=
  match v with
  | JNull => "null"
  | JBool true => "true"
  | JBool false => "false"
  | JNum z => print_int z
  | JStr s => print_string s
  | JArr l => "[" +:+ commas (Marshal <$> l) +:+ "]"
  | JObj l => "{" +:+ commas ((fun '(k, x) => print_string k +:+ ":" +:+ Marshal x) <$> l) +:+ "}"
  end.

Definition is_space (c : ascii) : bool := (ord c =? 32) || (ord c =? 9) || (ord c =? 10) || (ord c =? 13).
Fixpoint skip_space (s : string) : string :=
  match s with String c s' => if is_space c then skip_space s' else s | EmptyString => "" end.

(** The UTF-8 encoding of a code point. *)
Definition utf8 (u : Z) : string :=
  if u <? 128 then String (chr u) ""
  else if u <? 2048 then String (chr (192 + u / 64)) (String (chr (128 + u mod 64)) "")
  else if u <? 65536 then
    String (chr (224 + u / 4096)) (String (chr (128 + u / 64 mod 64)) (String (chr (128 + u mod 64)) ""))
  else
    String (chr (240 + u / 262144)) (String (chr (128 + u / 4096 mod 64))
      (String (chr (128 + u / 64 mod 64)) (String (chr (128 + u mod 64)) ""))).

Definition hex4 (s : string) : option (Z * string) :=
  match s with
  | String a (String b (String c (String d s'))) =>
      w ← hex_value a; x ← hex_value b; y ← hex_value c; z ← hex_value d;
      Some (((w * 16 + x) * 16 + y) * 16 + z, s')
  | _ => None
  end.

(** The low half of a surrogate pair. *)
Definition low_half (s : string) : option (Z * string) :=
  match s with
  | String a (String b s') =>
      if Ascii.eqb a backslash && Ascii.eqb b "u"%char then
        '(v, s'') ← hex4 s'; if (56320 <=? v) && (v <=? 57343) then Some (v, s'') else None
      else None
  | _ => None
  end.

(** A code unit: half a surrogate pair without its partner is U+FFFD. *)
Definition unicode_escape (s : string) : option (string * string) :=
  '(u, s') ← hex4 s;
  if (55296 <=? u) && (u <=? 57343) then
    match (if u <=? 56319 then low_half s' else None) with
    | Some (v, s'') => Some (utf8 (65536 + (u - 55296) * 1024 + (v - 56320)), s'')
    | None => Some (utf8 65533, s')
    end
  else Some (utf8 u, s').

(** What follows a backslash. *)
Definition parse_escape (c : ascii) (s : string) : option (string * string) :=
  let n := ord c in
  if (n =? 34) || (n =? 92) || (n =? 47) then Some (String c "", s)
  else if n =? 98 then Some (String (chr 8) "", s)
  else if n =? 102 then Some (String (chr 12) "", s)
  else if n =? 110 then Some (String (chr 10) "", s)
  else if n =? 114 then Some (String (chr 13) "", s)
  else if n =? 116 then Some (String (chr 9) "", s)
  else if n =? 117 then unicode_escape s
  else None.

(** The rest of a string after its opening quote. *)
Fixpoint parse_string (fuel : nat) (s : string) : option (string * string) :=
  match fuel, s with
  | S n, String c s' =>
      if Ascii.eqb c dquote then Some ("", s')
      else if Ascii.eqb c backslash then
        match s' with
        | EmptyString => None
        | String e s'' =>
            '(text, s3) ← parse_escape e s'';
            '(t, s4) ← parse_string n s3;
            Some (text +:+ t, s4)
        end
      else if ord c <? 32 then None
      else '(t, s'') ← parse_string n s'; Some (String c t, s'')
  | _, _ => None
  end.

Fixpoint read_digits (s : string) (acc : Z) : Z * string :=
  match s with
  | String c s' => if is_digit c then read_digits s' (acc * 10 + (ord c - 48)) else (acc, s)
  | EmptyString => (acc, "")
  end.

(** An unsigned integer without superfluous zeros. *)
Definition parse_nat (s : string) : option (Z * string) :=
  match s with
  | String c s' => if is_digit c then if Ascii.eqb c "0"%char then Some (0, s') else Some (read_digits s 0) else None
  | EmptyString => None
  end.

Definition parse_num (s : string) : option (json * string) :=
  match s with
  | String c s' =>
      if Ascii.eqb c "-"%char then '(n, r) ← parse_nat s'; Some (JNum (- n), r)
      else '(n, r) ← parse_nat s; Some (JNum n, r)
  | EmptyString => None
  end.

Definition after_prefix (p s : string) : option string :=
  if has_prefix s p then Some (substring (String.length p) (String.length s - String.length p) s) else None.

(** A value, and the rest of the elements of an array and of an object after
    the first. *)
Fixpoint parse_value (fuel : nat) (s : string) : option (json * string) :=
  match fuel with
  | O => None
  | S n =>
      match skip_space s with
      | EmptyString => None
      | String c s' =>
          if Ascii.eqb c dquote then '(t, r) ← parse_string n s'; Some (JStr t, r)
          else if Ascii.eqb c "["%char then
            match skip_space s' with
            | String d r => if Ascii.eqb d "]"%char then Some (JArr [], r)
                            else '(v, r) ← parse_value n s'; '(l, r) ← parse_elements n r; Some (JArr (v :: l), r)
            | EmptyString => None
            end
          else if Ascii.eqb c "{"%char then
            match skip_space s' with
            | String d r => if Ascii.eqb d "}"%char then Some (JObj [], r)
                            else '(m, r) ← parse_member n s'; '(l, r) ← parse_members n r; Some (JObj (m :: l), r)
            | EmptyString => None
            end
          else if Ascii.eqb c "n"%char then r ← after_prefix "null" (String c s'); Some (JNull, r)
          else if Ascii.eqb c "t"%char then r ← after_prefix "true" (String c s'); Some (JBool true, r)
          else if Ascii.eqb c "f"%char then r ← after_prefix "false" (String c s'); Some (JBool false, r)
          else parse_num (String c s')
      end
  end
with parse_elements (fuel : nat) (s : string) : option (list json * string) :=
  match fuel with
  | O => None
  | S n =>
      match skip_space s with
      | String c s' =>
          if Ascii.eqb c "]"%char then Some ([], s')
          else if Ascii.eqb c ","%char then '(v, r) ← parse_value n s'; '(l, r) ← parse_elements n r; Some (v :: l, r)
          else None
      | EmptyString => None
      end
  end
with parse_member (fuel : nat) (s : string) : option (string * json * string) :=
  match fuel with
  | O => None
  | S n =>
      match skip_space s with
      | String c s' =>
          if Ascii.eqb c dquote then
            '(k, r) ← parse_string n s';
            match skip_space r with
            | String d r' => if Ascii.eqb d ":"%char then '(v, r) ← parse_value n r'; Some (k, v, r) else None
            | EmptyString => None
            end
          else None
      | EmptyString => None
      end
  end
with parse_members (fuel : nat) (s : string) : option (list (string * json) * string) :=
  match fuel with
  | O => None
  | S n =>
      match skip_space s with
      | String c s' =>
          if Ascii.eqb c "}"%char then Some ([], s')
          else if Ascii.eqb c ","%char then '(m, r) ← parse_member n s'; '(l, r) ← parse_members n r; Some (m :: l, r)
          else None
      | EmptyString => None
      end
  end.

(** [json.Unmarshal] into a value. The calls on one character are at most
    three: a value, an element or member, and what follows it. *)
Definition Unmarshal (s : string) : option json :=
  '(v, r) ← parse_value (3 * String.length s + 3) s;
  if String.eqb (skip_space r) "" then Some v else None.

(** ** Round trips *)

Lemma chr_ord c : chr (ord c) = c.
Proof. unfold chr, ord. rewrite N2Z.id. apply ascii_N_embedding. Qed.

Lemma ord_range c : 0 <= ord c < 256.
Proof. unfold ord. pose proof (N_ascii_bounded c). lia. Qed.

Lemma bytes_string_bytes s : bytes_string (string_bytes s) = s.
Proof. induction s as [|c s IH]; [done|]. cbn [string_bytes bytes_string foldr]. rewrite chr_ord. by f_equal. Qed.

Lemma string_bytes_string l : bytes_ok l -> string_bytes (bytes_string l) = l.
Proof. induction 1 as [|b l Hb _ IH]; [done|]. cbn [bytes_string foldr string_bytes]. rewrite ord_chr by done. by f_equal. Qed.

Lemma string_bytes_ok s : bytes_ok (string_bytes s).
Proof. induction s as [|c s IH]; constructor; [|done]. apply ord_range. Qed.

Lemma b64_value_char v : 0 <= v < 64 -> b64_value (b64_char v) = Some v.
Proof. intros Hv. apply (below_cases (fun v => b64_value (b64_char v) = Some v) 64); [lia|]. by repeat constructor. Qed.

Lemma b64_char_skip v s : 0 <= v < 64 -> b64_skip (String (b64_char v) s) = String (b64_char v) (b64_skip s).
Proof.
  intros Hv. cbn [b64_skip].
  assert ((ord (b64_char v) =? 10) || (ord (b64_char v) =? 13) = false) as ->; [|done].
  apply (below_cases (fun v => (ord (b64_char v) =? 10) || (ord (b64_char v) =? 13) = false) 64); [lia|].
  by repeat constructor.
Qed.

(** Induction by groups of three. *)
Lemma list_ind3 {A} (P : list A -> Prop) :
  P [] -> (forall a, P [a]) -> (forall a b, P [a; b]) -> (forall a b c l, P l -> P (a :: b :: c :: l)) -> forall l, P l.
Proof.
  intros H0 H1 H2 H3. cut (forall n l, (length l <= n)%nat -> P l); [intros H l; by apply (H (length l))|].
  induction n as [|n IH]; intros [|a [|b [|c l]]] Hl; cbn in Hl; auto; try lia. apply H3, IH. lia.
Qed.

Ltac sextets := repeat match goal with
  | H : byte_ok ?a |- _ => unfold byte_ok in H
  end; Z.div_mod_to_equations; lia.

Lemma b64_roundtrip pad l : bytes_ok l -> b64_decode pad (b64_encode pad l) = Some l.
Proof.
  unfold b64_decode. induction l as [|a|a b|a b c l IH] using list_ind3; intros Hl; [done|..].
  - inversion_clear Hl as [|? ? Ha _]. cbn [b64_encode]. rewrite !b64_char_skip by sextets.
    replace (b64_skip (b64_pad pad "==")) with (b64_pad pad "==") by (by destruct pad). cbn [b64_groups].
    rewrite !b64_value_char by sextets. cbn [mbind option_bind].
    assert (a / 4 * 4 + a mod 4 * 16 / 16 = a) as -> by sextets. by destruct pad.
  - inversion_clear Hl as [|? ? Ha Hl']. inversion_clear Hl' as [|? ? Hb _]. cbn [b64_encode].
    rewrite !b64_char_skip by sextets.
    replace (b64_skip (b64_pad pad "=")) with (b64_pad pad "=") by (by destruct pad). cbn [b64_groups].
    rewrite !b64_value_char by sextets. cbn [mbind option_bind].
    assert (a / 4 * 4 + (a mod 4 * 16 + b / 16) / 16 = a) as -> by sextets.
    assert ((a mod 4 * 16 + b / 16) mod 16 * 16 + b mod 16 * 4 / 4 = b) as -> by sextets. by destruct pad.
  - inversion_clear Hl as [|? ? Ha Hl']. inversion_clear Hl' as [|? ? Hb Hl]. inversion_clear Hl as [|? ? Hc Hl'].
    cbn [b64_encode]. rewrite !b64_char_skip by sextets. cbn [b64_groups].
    rewrite !b64_value_char by sextets. cbn [mbind option_bind]. rewrite IH by done. cbn [mbind option_bind].
    assert (a / 4 * 4 + (a mod 4 * 16 + b / 16) / 16 = a) as -> by sextets.
    assert ((a mod 4 * 16 + b / 16) mod 16 * 16 + (b mod 16 * 4 + c / 64) / 4 = b) as -> by sextets.
    assert ((b mod 16 * 4 + c / 64) mod 4 * 64 + c mod 64 = c) as -> by sextets. done.
Qed.

Lemma parse_string_char n c t :
  parse_string (S n) (escape c +:+ t) = '(x, r) ← parse_string n t; Some (String c x, r).
Proof. destruct c as [[] [] [] [] [] [] [] []]; reflexivity. Qed.

Lemma parse_string_print s n rest :
  (String.length s < n)%nat -> parse_string n (escape_all s +:+ String dquote rest) = Some (s, rest).
Proof.
  revert n. induction s as [|c s IH]; intros [|n] Hn; cbn [String.length] in Hn; [lia|done|lia|].
  cbn [escape_all]. rewrite string_app_assoc, parse_string_char, IH by lia. done.
Qed.

(** Text that does not go on with a digit. *)
Definition no_digit (s : string) : Prop := match s with String c _ => is_digit c = false | EmptyString => True end.

Lemma read_digits_stop s acc : no_digit s -> read_digits s acc = (acc, s).
Proof. destruct s as [|c s]; [done|]. cbn. by intros ->. Qed.

Lemma digit_step d s acc : 0 <= d < 10 -> read_digits (String (digit_char d) s) acc = read_digits s (acc * 10 + d).
Proof. intros Hd. cbn [read_digits]. rewrite is_digit_char, ord_digit by lia. do 2 f_equal. lia. Qed.

Lemma read_digits_loop f : forall n acc rest, 0 <= n < 10 ^ Z.of_nat f ->
  read_digits (dec_loop f n acc +:+ rest) 0 = read_digits (acc +:+ rest) n.
Proof.
  induction f as [|f IH]; intros n acc rest Hn; [cbn in Hn; by assert (n = 0) as -> by lia|].
  cbn [dec_loop]. destruct (n <=? 0) eqn:E; [by assert (n = 0) as -> by lia|].
  rewrite Nat2Z.inj_succ, Z.pow_succ_r in Hn by lia. rewrite IH by (Z.div_mod_to_equations; lia).
  change (String (digit_char (n mod 10)) acc +:+ rest) with (String (digit_char (n mod 10)) (acc +:+ rest)).
  rewrite digit_step by (apply Z.mod_pos_bound; lia). f_equal. Z.div_mod_to_equations; lia.
Qed.

Lemma dec_loop_head f : forall n acc, 0 < n < 10 ^ Z.of_nat f ->
  exists d s, dec_loop f n acc = String (digit_char d) s /\ 0 < d < 10.
Proof.
  induction f as [|f IH]; intros n acc Hn; [cbn in Hn; lia|]. cbn [dec_loop].
  destruct (n <=? 0) eqn:E; [lia|]. rewrite Nat2Z.inj_succ, Z.pow_succ_r in Hn by lia.
  destruct (decide (n / 10 = 0)) as [H0|H0].
  - rewrite H0. exists (n mod 10), acc. split; [by destruct f|]. Z.div_mod_to_equations; lia.
  - apply IH. Z.div_mod_to_equations; lia.
Qed.

Lemma digit_not_zero d : 0 < d < 10 -> Ascii.eqb (digit_char d) "0"%char = false.
Proof.
  intros Hd. apply Ascii.eqb_neq. intros E. apply (f_equal ord) in E. rewrite ord_digit in E by lia.
  change (ord "0"%char) with 48 in E. lia.
Qed.

#[local] Transparent dec.
Lemma dec_unfold n : dec n = if n =? 0 then "0" else dec_loop 20 n "".
Proof. done. Qed.
#[local] Opaque dec.

Lemma parse_nat_dec n rest : 0 <= n < 10 ^ 20 -> no_digit rest -> parse_nat (dec n +:+ rest) = Some (n, rest).
Proof.
  intros Hn Hr. rewrite dec_unfold. destruct (n =? 0) eqn:E; [by assert (n = 0) as -> by lia|].
  destruct (dec_loop_head 20 n "" ltac:(lia)) as (d & s & Heq & Hd).
  pose proof (read_digits_loop 20 n "" rest ltac:(lia)) as Hread. rewrite Heq in *.
  change (String (digit_char d) s +:+ rest) with (String (digit_char d) (s +:+ rest)) in *.
  unfold parse_nat. rewrite is_digit_char, digit_not_zero by lia. rewrite Hread. f_equal. by apply read_digits_stop.
Qed.

(** Induction over values. *)
Section JsonInd.
Context (P : json -> Prop).
Context (Hnull : P JNull) (Hbool : forall b, P (JBool b)) (Hnum : forall z, P (JNum z)) (Hstr : forall s, P (JStr s)).
Context (Harr : forall l, Forall P l -> P (JArr l)) (Hobj : forall l, Forall (fun m => P m.2) l -> P (JObj l)).

Fixpoint json_induction (v : json) : P v :=
  match v with
  | JNull => Hnull
  | JBool b => Hbool b
  | JNum z => Hnum z
  | JStr s => Hstr s
  | JArr l => Harr l ((fix go (l : list json) : Forall P l :=
      match l with [] => Forall_nil_2 _ | x :: l' => Forall_cons_2 _ _ _ (json_induction x) (go l') end) l)
  | JObj l => Hobj l ((fix go (l : list (string * json)) : Forall (fun m => P m.2) l :=
      match l with [] => Forall_nil_2 _ | m :: l' => Forall_cons_2 _ _ _ (json_induction m.2) (go l') end) l)
  end.
End JsonInd.

(** Integers have at most twenty digits. *)
Fixpoint nums_ok (v : json) : Prop :=
  match v with
  | JNum z => - 10 ^ 20 < z < 10 ^ 20
  | JArr l => foldr (fun x R => nums_ok x /\ R) True l
  | JObj l => foldr (fun m R => nums_ok m.2 /\ R) True l
  | _ => True
  end.

(** Calls the parser makes. *)
Fixpoint weight (v : json) : nat :=
  match v with
  | JStr s => 2 + String.length s
  | JArr l => 2 + foldr (fun x n => 1 + weight x + n)%nat O l
  | JObj l => 2 + foldr (fun m n => 1 + (2 + String.length m.1 + weight m.2) + n)%nat O l
  | _ => 1
  end.

Definition print_member (m : string * json) : string := print_string m.1 +:+ ":" +:+ Marshal m.2.

Lemma Marshal_obj l : Marshal (JObj l) = "{" +:+ commas (print_member <$> l) +:+ "}".
Proof. cbn [Marshal]. do 3 f_equal. apply list_fmap_ext. by intros i [k v]. Qed.

(** What a value starts with is neither space nor the end of a list. *)
Definition starts (P : ascii -> bool) (s : string) : Prop := match s with String c _ => P c = true | EmptyString => False end.
Definition value_head (c : ascii) : bool := negb (is_space c) && negb (Ascii.eqb c "]"%char) && negb (Ascii.eqb c "}"%char).

Lemma dec_starts n s : 0 <= n < 10 ^ 20 -> exists d t, dec n +:+ s = String (digit_char d) t /\ 0 <= d < 10.
Proof.
  intros Hn. rewrite dec_unfold.
  destruct (n =? 0) eqn:E; [exists 0, s; split; [done|lia]|].
  destruct (dec_loop_head 20 n "" ltac:(lia)) as (d & t & -> & Hd). exists d, (t +:+ s). split; [done|lia].
Qed.

Lemma digit_head d : 0 <= d < 10 -> value_head (digit_char d) = true /\ is_digit (digit_char d) = true /\
  Forall (fun c => Ascii.eqb (digit_char d) c = false) [dquote; "["; "{"; "n"; "t"; "f"; "-"]%char.
Proof.
  intros Hd. apply (below_cases (fun d => value_head (digit_char d) = true /\ is_digit (digit_char d) = true /\
    Forall (fun c => Ascii.eqb (digit_char d) c = false) [dquote; "["; "{"; "n"; "t"; "f"; "-"]%char) 10); [lia|].
  by repeat constructor.
Qed.

Lemma Marshal_head v : nums_ok v -> exists c t, Marshal v = String c t /\ value_head c = true.
Proof.
  destruct v as [|[]|z|s|l|l]; intros Hv; try (eexists _, _; by split).
  cbn [Marshal]. unfold print_int. cbn in Hv. destruct (z <? 0) eqn:E; [eexists _, _; by split|].
  destruct (dec_starts z "" ltac:(lia)) as (d & t & Heq & Hd). rewrite string_app_empty_r in Heq. rewrite Heq.
  exists (digit_char d), t. split; [done|]. by apply digit_head.
Qed.

Lemma skip_space_head c s : value_head c = true -> skip_space (String c s) = String c s.
Proof. unfold value_head. cbn [skip_space]. by destruct (is_space c). Qed.

Lemma string_length_app (a b : string) : String.length (a +:+ b) = (String.length a + String.length b)%nat.
Proof. induction a as [|c a IH]; [done|]. cbn. by f_equal. Qed.

Lemma substring_all s : substring 0 (String.length s) s = s.
Proof. induction s as [|c s IH]; [done|]. cbn. by f_equal. Qed.

Lemma after_prefix_app p s : after_prefix p (p +:+ s) = Some s.
Proof.
  unfold after_prefix. rewrite has_prefix_app. f_equal. rewrite string_length_app.
  replace (String.length p + String.length s - String.length p)%nat with (String.length s) by lia.
  induction p as [|c p IH]; [cbn; apply substring_all|done].
Qed.

(** The rest of a list after its first element. *)
Definition tail_of {A} (f : A -> string) (l : list A) : string := foldr (fun y s => "," +:+ y +:+ s) "" (f <$> l).

Lemma tail_of_cons {A} (f : A -> string) x l rest :
  tail_of f (x :: l) +:+ rest = String ","%char (f x +:+ (tail_of f l +:+ rest)).
Proof. unfold tail_of. cbn. by rewrite !string_app_assoc. Qed.

Lemma tail_no_digit {A} (f : A -> string) l c rest : is_digit c = false -> no_digit (tail_of f l +:+ String c rest).
Proof. intros Hc. destruct l; [done|]. by rewrite tail_of_cons. Qed.

(** Tests of known characters. *)
Ltac known_test t :=
  let r := eval vm_compute in t in
  match r with true => change t with true | false => change t with false end.
Ltac chars := cbn [skip_space]; repeat match goal with
  | |- context [Ascii.eqb ?a ?b] => known_test (Ascii.eqb a b)
  | |- context [is_space ?a] => known_test (is_space a)
  end; cbv iota.

Definition value_ok (v : json) : Prop := forall n rest,
  nums_ok v -> no_digit rest -> (weight v <= n)%nat -> parse_value n (Marshal v +:+ rest) = Some (v, rest).

Lemma parse_elements_ok l : Forall value_ok l -> forall n rest, nums_ok (JArr l) -> (weight (JArr l) <= S n)%nat ->
  parse_elements n (tail_of Marshal l +:+ String "]"%char rest) = Some (l, rest).
Proof.
  induction 1 as [|x l Hx _ IH]; intros [|n] rest Hnum Hw; cbn [weight foldr] in Hw; [lia|done|lia|].
  destruct Hnum as [Hnx Hnl]. rewrite tail_of_cons. cbn [parse_elements]. chars.
  rewrite (Hx n) by (done || lia || by apply tail_no_digit). cbn [mbind option_bind].
  rewrite IH by (done || cbn [weight]; lia). done.
Qed.

Lemma parse_member_ok m n rest : value_ok m.2 -> nums_ok m.2 -> no_digit rest ->
  (2 + String.length m.1 + weight m.2 <= n)%nat -> parse_member n (print_member m +:+ rest) = Some (m, rest).
Proof.
  intros Hm Hnum Hr Hn. destruct m as [k v], n as [|n]; cbn [fst snd] in *; [lia|]. unfold print_member, print_string.
  cbn [fst snd]. change (String dquote (escape_all k +:+ String dquote "") +:+ ":" +:+ Marshal v) with
    (String dquote ((escape_all k +:+ String dquote "") +:+ ":" +:+ Marshal v)).
  change (String dquote ((escape_all k +:+ String dquote "") +:+ ":" +:+ Marshal v) +:+ rest) with
    (String dquote (((escape_all k +:+ String dquote "") +:+ ":" +:+ Marshal v) +:+ rest)).
  rewrite !string_app_assoc. cbn [parse_member]. chars.
  change (String dquote "" +:+ ":" +:+ Marshal v +:+ rest) with (String dquote (String ":"%char (Marshal v +:+ rest))).
  rewrite parse_string_print by lia. cbn [mbind option_bind]. chars.
  rewrite (Hm n) by (done || lia). done.
Qed.

Lemma parse_members_ok l : Forall (fun m => value_ok m.2) l -> forall n rest, nums_ok (JObj l) -> (weight (JObj l) <= S n)%nat ->
  parse_members n (tail_of print_member l +:+ String "}"%char rest) = Some (l, rest).
Proof.
  induction 1 as [|m l Hm _ IH]; intros [|n] rest Hnum Hw; cbn [weight foldr] in Hw; [lia|done|lia|].
  destruct Hnum as [Hnm Hnl]. rewrite tail_of_cons. cbn [parse_members]. chars.
  rewrite parse_member_ok by (done || lia || by apply tail_no_digit). cbn [mbind option_bind].
  rewrite IH by (done || cbn [weight]; lia). done.
Qed.

Lemma commas_cons {A} (f : A -> string) x l rest : commas (f <$> x :: l) +:+ rest = f x +:+ (tail_of f l +:+ rest).
Proof. cbn. by rewrite string_app_assoc. Qed.

Lemma value_head_end c : value_head c = true -> Ascii.eqb c "]"%char = false /\ Ascii.eqb c "}"%char = false.
Proof. unfold value_head. intros H. by destruct (Ascii.eqb c "]"%char), (Ascii.eqb c "}"%char), (is_space c). Qed.

Lemma parse_arr l : Forall value_ok l -> value_ok (JArr l).
Proof.
  intros Hl [|n] rest Hnum Hr Hw; [cbn in Hw; lia|]. cbn [Marshal].
  change (("[" +:+ commas (Marshal <$> l) +:+ "]") +:+ rest) with (String "["%char ((commas (Marshal <$> l) +:+ "]") +:+ rest)).
  rewrite string_app_assoc. change ("]" +:+ rest) with (String "]"%char rest). cbn [parse_value]. chars.
  destruct l as [|x l]; [cbn; done|]. rewrite commas_cons. inversion_clear Hl as [|? ? Hx Hl'].
  destruct Hnum as [Hnx Hnl]. destruct (Marshal_head x Hnx) as (c & t & Heq & Hc).
  assert (exists t', Marshal x +:+ (tail_of Marshal l +:+ String "]"%char rest) = String c t') as [t' Ht'] by (rewrite Heq; by eexists).
  rewrite Ht'. rewrite skip_space_head by done. destruct (value_head_end c Hc) as [-> _]. rewrite <- Ht'.
  cbn [weight foldr] in Hw. rewrite (Hx n) by (done || lia || by apply tail_no_digit). cbn [mbind option_bind].
  rewrite parse_elements_ok by (done || cbn [weight]; lia). done.
Qed.

Lemma parse_obj l : Forall (fun m => value_ok m.2) l -> value_ok (JObj l).
Proof.
  intros Hl [|n] rest Hnum Hr Hw; [cbn in Hw; lia|]. rewrite Marshal_obj.
  change (("{" +:+ commas (print_member <$> l) +:+ "}") +:+ rest) with (String "{"%char ((commas (print_member <$> l) +:+ "}") +:+ rest)).
  rewrite string_app_assoc. change ("}" +:+ rest) with (String "}"%char rest). cbn [parse_value]. chars.
  destruct l as [|m l]; [cbn; done|]. rewrite commas_cons. inversion_clear Hl as [|? ? Hm Hl'].
  destruct Hnum as [Hnm Hnl].
  assert (exists t', print_member m +:+ (tail_of print_member l +:+ String "}"%char rest) = String dquote t') as [t' Ht']
    by (unfold print_member, print_string; by eexists).
  rewrite Ht'. chars. rewrite <- Ht'. cbn [weight foldr] in Hw.
  rewrite parse_member_ok by (done || lia || by apply tail_no_digit). cbn [mbind option_bind].
  rewrite parse_members_ok by (done || cbn [weight]; lia). done.
Qed.

Lemma parse_int z : value_ok (JNum z).
Proof.
  intros [|n] rest Hnum Hr Hw; [cbn in Hw; lia|]. cbn [nums_ok] in Hnum. cbn [Marshal]. unfold print_int.
  destruct (z <? 0) eqn:Hz.
  - change (("-" +:+ dec (- z)) +:+ rest) with (String "-"%char (dec (- z) +:+ rest)). cbn [parse_value]. chars.
    unfold parse_num. chars. rewrite parse_nat_dec by (done || lia). cbn [mbind option_bind]. do 3 f_equal. lia.
  - pose proof (parse_nat_dec z rest ltac:(lia) Hr) as Hp.
    destruct (dec_starts z rest ltac:(lia)) as (d & t & Heq & Hd). rewrite Heq in *.
    destruct (digit_head d Hd) as (Hh & _ & Hne). cbn [parse_value]. rewrite skip_space_head by done.
    unfold parse_num. repeat (apply Forall_cons in Hne as [-> Hne]). by rewrite Hp.
Qed.

(** A word whose first letter has been looked at. *)
Ltac literal H :=
  match type of H with
  | after_prefix (String ?c ?p) _ = Some ?rest =>
      change (String c p +:+ rest) with (String c (p +:+ rest)) in *; chars; by rewrite H
  end.

Lemma parse_value_ok v : value_ok v.
Proof.
  induction v as [|b|z|s|l Hl|l Hl] using json_induction.
  - intros [|n] rest _ _ Hw; [cbn in Hw; lia|]. cbn [Marshal].
    pose proof (after_prefix_app "null" rest) as H. cbn [parse_value]. literal H.
  - intros [|n] rest _ _ Hw; [cbn in Hw; lia|]. destruct b; cbn [Marshal].
    + pose proof (after_prefix_app "true" rest) as H. cbn [parse_value]. literal H.
    + pose proof (after_prefix_app "false" rest) as H. cbn [parse_value]. literal H.
  - apply parse_int.
  - intros [|n] rest _ _ Hw; cbn [weight] in Hw; [lia|]. cbn [Marshal]. unfold print_string.
    change (String dquote (escape_all s +:+ String dquote "") +:+ rest) with
      (String dquote ((escape_all s +:+ String dquote "") +:+ rest)).
    rewrite string_app_assoc. change (String dquote "" +:+ rest) with (String dquote rest).
    cbn [parse_value]. chars. by rewrite parse_string_print by lia.
  - by apply parse_arr.
  - by apply parse_obj.
Qed.

Lemma escape_length c : (1 <= String.length (escape c))%nat.
Proof. apply Nat.leb_le. by destruct c as [[] [] [] [] [] [] [] []]. Qed.

Lemma print_string_length s : (2 + String.length s <= String.length (print_string s))%nat.
Proof.
  unfold print_string. cbn [String.length]. rewrite string_length_app. cbn [String.length].
  assert (String.length s <= String.length (escape_all s))%nat; [|lia].
  induction s as [|c s IH]; [done|]. cbn [escape_all]. rewrite string_length_app. pose proof (escape_length c). cbn. lia.
Qed.

Lemma commas_length {A} (f : A -> string) (w : A -> nat) l :
  Forall (fun x => (2 + w x <= 3 * String.length (f x))%nat) l ->
  (foldr (fun x n => 1 + w x + n)%nat O l <= 3 * String.length (commas (f <$> l)))%nat.
Proof.
  destruct l as [|x l]; intros Hl; [cbn; lia|]. inversion_clear Hl as [|? ? Hx Hl']. cbn [fmap list_fmap commas foldr].
  rewrite string_length_app.
  assert (foldr (fun x n => 1 + w x + n) O l <= 3 * String.length (tail_of f l))%nat; [|unfold tail_of, fmap in *; lia].
  induction Hl' as [|y l Hy _ IH]; [done|]. cbn [foldr]. unfold tail_of in *. cbn [fmap list_fmap foldr].
  rewrite !string_length_app. cbn [String.length]. unfold fmap in *. lia.
Qed.

Lemma nums_arr l : nums_ok (JArr l) -> Forall nums_ok l.
Proof. induction l as [|x l IH]; [constructor|]. intros [Hx Hl]. by constructor; [|apply IH]. Qed.
Lemma nums_obj l : nums_ok (JObj l) -> Forall (fun m => nums_ok m.2) l.
Proof. induction l as [|x l IH]; [constructor|]. intros [Hx Hl]. by constructor; [|apply IH]. Qed.

Lemma weight_length v : nums_ok v -> (2 + weight v <= 3 * String.length (Marshal v))%nat.
Proof.
  induction v as [|b|z|s|l Hl|l Hl] using json_induction; intros Hnum.
  - cbn. lia.
  - destruct b; cbn; lia.
  - destruct (Marshal_head (JNum z) Hnum) as (c & t & -> & _). cbn. lia.
  - cbn [weight Marshal]. pose proof (print_string_length s). lia.
  - cbn [weight Marshal]. rewrite !string_length_app. cbn [String.length]. apply nums_arr in Hnum.
    assert (Forall (fun x => (2 + weight x <= 3 * String.length (Marshal x))%nat) l) as Hall
      by (rewrite Forall_forall in *; auto).
    pose proof (commas_length Marshal weight l Hall). lia.
  - cbn [weight]. rewrite Marshal_obj, !string_length_app. cbn [String.length]. apply nums_obj in Hnum.
    assert (Forall (fun m => (2 + (2 + String.length m.1 + weight m.2) <= 3 * String.length (print_member m))%nat) l) as Hall.
    { rewrite Forall_forall in *. intros m Hm. specialize (Hl m Hm (Hnum m Hm)). unfold print_member.
      rewrite !string_length_app. cbn [String.length]. pose proof (print_string_length m.1). lia. }
    pose proof (commas_length print_member (fun m => 2 + String.length m.1 + weight m.2)%nat l Hall) as Hc.
    cbn beta in Hc. lia.
Qed.

Lemma Unmarshal_Marshal v : nums_ok v -> Unmarshal (Marshal v) = Some v.
Proof.
  intros Hnum. unfold Unmarshal. rewrite <- (string_app_empty_r (Marshal v)) at 2.
  rewrite parse_value_ok by (done || pose proof (weight_length v Hnum); lia). done.
Qed.
