(* ===== verification/Router.v ===== *)
(** * The route table (common/router/router.go)

    Two binary tries, one per address family. A trie node is a pointer in the
    source: [NilNode] is the nil pointer and [Node] a node with its atomic
    fields. The nodes of a trie are not shared, so an update rebuilds the path
    it walks. A missing result ([None]) of an operation that returns [option]
    is a run-time panic (an index out of range). *)

From S2P Require Import Prelude GoNet.

Inductive TrieNode (V : Type) : Type :=
| NilNode
| Node (zero one : TrieNode V) (leaf : bool) (target : option V).
Arguments NilNode {V}.
Arguments Node {V} zero one leaf target.

Record Router (V : Type) := MkRouter { r_v4 : TrieNode V; r_v6 : TrieNode V }.
Arguments MkRouter {V} r_v4 r_v6.
Arguments r_v4 {V} r.
Arguments r_v6 {V} r.

(** [&TrieNode{}] *)
Definition empty_node {V} : TrieNode V := Node NilNode NilNode false None.

Definition is_nil {V} (n : TrieNode V) : bool :=
  match n with NilNode => true | Node _ _ _ _ => false end.

Definition NewRouter {V} : Router V := MkRouter empty_node empty_node.

(** [(ip[i/8] >> (7 - i%8)) & 1] *)
Definition bit_val (ip : list Z) (i : Z) : option Z :=
  b ← index ip (i / 8);
  Some (Z.land (Z.shiftr b (7 - i mod 8)) 1).

Section Operations.
Context {V : Type}.

(** The test made at each node: a set leaf with a target becomes the best match. *)
Definition check_leaf (leaf : bool) (target best : option V) : option V :=
  if leaf then match target with Some t => Some t | None => best end else best.

(** The loop of a lookup: [n] rounds left, bit index [i]. Leaving the loop, by
    a missing child or after the last round, the current node is checked. *)
Fixpoint lookup_loop (n : nat) (i : Z) (ip : list Z) (current : TrieNode V)
    (best : option V) : option (option V) :=
  match current with
  | NilNode => None
  | Node zero one leaf target =>
      match n with
      | O => Some (check_leaf leaf target best)
      | S n' =>
          let best := check_leaf leaf target best in
          bitVal ← bit_val ip i;
          let next := if bitVal =? 0 then zero else one in
          match next with
          | NilNode => Some (check_leaf leaf target best)
          | Node _ _ _ _ => lookup_loop n' (i + 1) ip next best
          end
      end
  end.

Definition lookupIPv4 (r : Router V) (ip : list Z) : option (option V) :=
  if bool_decide (length ip <> 4%nat) then Some None
  else lookup_loop 32 0 ip (r_v4 r) None.

Definition lookupIPv6 (r : Router V) (ip : list Z) : option (option V) :=
  if bool_decide (length ip <> 16%nat) then Some None
  else lookup_loop 128 0 ip (r_v6 r) None.

(** The loop of an insertion: a missing child is created on the way down, the
    final node becomes a leaf with the target. *)
Fixpoint insert_loop (n : nat) (i : Z) (ip : list Z) (val : V) (current : TrieNode V)
    : option (TrieNode V) :=
  match current with
  | NilNode => None
  | Node zero one leaf target =>
      match n with
      | O => Some (Node zero one true (Some val))
      | S n' =>
          bitVal ← bit_val ip i;
          if bitVal =? 0 then
            let next := if is_nil zero then empty_node else zero in
            zero' ← insert_loop n' (i + 1) ip val next;
            Some (Node zero' one leaf target)
          else
            let next := if is_nil one then empty_node else one in
            one' ← insert_loop n' (i + 1) ip val next;
            Some (Node zero one' leaf target)
      end
  end.

Definition insertIPv4 (r : Router V) (ip : list Z) (ones : Z) (val : V) : option (Router V) :=
  if bool_decide (length ip <> 4%nat) then Some r
  else n ← insert_loop (Z.to_nat ones) 0 ip val (r_v4 r); Some (MkRouter n (r_v6 r)).

Definition insertIPv6 (r : Router V) (ip : list Z) (ones : Z) (val : V) : option (Router V) :=
  if bool_decide (length ip <> 16%nat) then Some r
  else n ← insert_loop (Z.to_nat ones) 0 ip val (r_v6 r); Some (MkRouter (r_v4 r) n).

(** The loop of a removal: a missing child ends it without a change; the final
    node loses its leaf mark and target but stays in the trie. *)
Fixpoint remove_loop (n : nat) (i : Z) (ip : list Z) (current : TrieNode V)
    : option (TrieNode V) :=
  match current with
  | NilNode => None
  | Node zero one leaf target =>
      match n with
      | O => Some (Node zero one false None)
      | S n' =>
          bitVal ← bit_val ip i;
          if bitVal =? 0 then
            if is_nil zero then Some current
            else zero' ← remove_loop n' (i + 1) ip zero; Some (Node zero' one leaf target)
          else
            if is_nil one then Some current
            else one' ← remove_loop n' (i + 1) ip one; Some (Node zero one' leaf target)
      end
  end.

Definition removeIPv4 (r : Router V) (ip : list Z) (ones : Z) : option (Router V) :=
  if bool_decide (length ip <> 4%nat) then Some r
  else n ← remove_loop (Z.to_nat ones) 0 ip (r_v4 r); Some (MkRouter n (r_v6 r)).

Definition removeIPv6 (r : Router V) (ip : list Z) (ones : Z) : option (Router V) :=
  if bool_decide (length ip <> 16%nat) then Some r
  else n ← remove_loop (Z.to_nat ones) 0 ip (r_v6 r); Some (MkRouter (r_v4 r) n).

(** Routing an IP packet by its destination address. *)
Definition Route (r : Router V) (buf : list Z) : option (option V) :=
  if zlen buf <? 20 then Some None else
  b0 ← index buf 0;
  let version := Z.land (Z.shiftr b0 4) 15 in
  if version =? 4 then
    if zlen buf <? 20 then Some None else
    let ihl := Z.land b0 15 in
    if (ihl <? 5) || (zlen buf <? u8 (ihl * 4)) then Some None
    else if zlen buf <? 20 then Some None
    else dstIP ← slice buf 16 20; lookupIPv4 r dstIP
  else if version =? 6 then
    if zlen buf <? 40 then Some None
    else dstIP ← slice buf 24 40; lookupIPv6 r dstIP
  else Some None.

Definition RouteString (r : Router V) (addr : string) : option (option V) :=
  match ParseIP addr with
  | None => Some None
  | Some ip =>
      match To4 ip with
      | Some ip4 => lookupIPv4 r ip4
      | None => match To16 ip with Some ip6 => lookupIPv6 r ip6 | None => Some None end
      end
  end.

Definition Register (r : Router V) (addr : string) (val : V) : option (Router V) :=
  match ParseCIDR addr with
  | None => Some r
  | Some (_, ipNet) =>
      let ip := net_IP ipNet in
      let ones := fst (mask_Size (net_Mask ipNet)) in
      match To4 ip with
      | Some ip4 => insertIPv4 r ip4 ones val
      | None => match To16 ip with Some ip6 => insertIPv6 r ip6 ones val | None => Some r end
      end
  end.

Definition UnRegister (r : Router V) (addr : string) : option (Router V) :=
  match ParseCIDR addr with
  | None => Some r
  | Some (_, ipNet) =>
      let ip := net_IP ipNet in
      let ones := fst (mask_Size (net_Mask ipNet)) in
      match To4 ip with
      | Some ip4 => removeIPv4 r ip4 ones
      | None => match To16 ip with Some ip6 => removeIPv6 r ip6 ones | None => Some r end
      end
  end.

(** The loop of [RouteBatch] runs from the last packet to the first: [i] packets
    left. [targets] is the output slice, a nil entry is [None]; writing past its
    end panics. *)
Fixpoint route_batch_loop (r : Router V) (packets : list (list Z)) (i : nat)
    (targets : list (option V)) (count : Z) : option (list (option V) * Z) :=
  match i with
  | O => Some (targets, count)
  | S i' =>
      p ← packets !! i';
      res ← Route r p;
      if bool_decide (i' < length targets)%nat then
        route_batch_loop r packets i' (<[i' := res]> targets)
          (match res with Some _ => count + 1 | None => count end)
      else None
  end.

Definition RouteBatch (r : Router V) (packets : list (list Z)) (targets : list (option V))
    : option (list (option V) * Z) :=
  route_batch_loop r packets (length packets) targets 0.

(** ** Digest and enumeration *)

Definition worth_visiting (n : TrieNode V) : bool :=
  match n with
  | NilNode => false
  | Node zero one leaf _ => leaf || negb (is_nil zero) || negb (is_nil one)
  end.

Definition has_target (leaf : bool) (target : option V) : bool :=
  leaf && match target with Some _ => true | None => false end.

(** [h] is what has been written to the hash. *)
Fixpoint collectMD5 (node : TrieNode V) (prefix : string) (depth maxDepth : Z) (h : string)
    : string :=
  match node with
  | NilNode => h
  | Node zero one leaf target =>
      if maxDepth <=? depth then h else
      let h := if has_target leaf target then (h +:+ prefix)%string else h in
      let h := if worth_visiting zero
               then collectMD5 zero (prefix +:+ "0") (depth + 1) maxDepth h else h in
      if worth_visiting one
      then collectMD5 one (prefix +:+ "1") (depth + 1) maxDepth h else h
  end.

(** The bytes hashed by [MD5]. *)
Definition md5_input (r : Router V) : string :=
  collectMD5 (r_v6 r) "" 0 128 (collectMD5 (r_v4 r) "" 0 128 "").

(** [MD5()], over the hash function (hex-encoded) of package crypto/md5. *)
Definition MD5 (md5_hex : string -> string) (r : Router V) : string := md5_hex (md5_input r).

End Operations.

(** ** Printing prefixes *)

Definition digits_0_9 : string := "0123456789".

Definition hexDigits : string := "0123456789abcdef".

Definition char_at (s : string) (i : Z) : ascii := default "000"%char (String.get (Z.to_nat i) s).

Fixpoint int_loop (fuel : nat) (n : Z) (result : string) : string :=
  match fuel with
  | O => result
  | S f =>
      if 0 <? n then int_loop f (n / 10) (String (char_at digits_0_9 (n mod 10)) result)
      else result
  end.

(** A non-negative 64-bit integer has at most twenty digits. *)
Definition intToString (n : Z) : string :=
  if n =? 0 then "0" else int_loop 20 n "".

Fixpoint hex_loop (fuel : nat) (v : Z) (result : string) : string :=
  match fuel with
  | O => result
  | S f =>
      if 0 <? v then hex_loop f (Z.shiftr v 4) (String (char_at hexDigits (Z.land v 15)) result)
      else result
  end.

(** A 16-bit value has at most four hex digits. *)
Definition uint16ToHex (v : Z) : string :=
  if v =? 0 then "0" else hex_loop 4 v "".

Definition at_byte (ip : list Z) (i : Z) : Z := default 0 (index ip i).

Definition ip4ToString (ip : list Z) : string :=
  intToString (at_byte ip 0) +:+ "." +:+ intToString (at_byte ip 1) +:+ "." +:+
  intToString (at_byte ip 2) +:+ "." +:+ intToString (at_byte ip 3).

Fixpoint ip6_loop (n : nat) (i : Z) (ip : list Z) (result : string) : string :=
  match n with
  | O => result
  | S n' =>
      let result := if 0 <? i then (result +:+ ":")%string else result in
      let val := Z.lor (Z.shiftl (at_byte ip i) 8) (at_byte ip (i + 1)) in
      ip6_loop n' (i + 2) ip (result +:+ uint16ToHex val)
  end.

Definition ip6ToString (ip : list Z) : string := ip6_loop 8 0 ip "".

(** [ip[i/8] |= 1 << (7 - i%8)] for each '1' of the prefix, at most [8*len(ip)]. *)
Fixpoint set_prefix_bits (prefix : string) (i : nat) (ip : list Z) : list Z :=
  match prefix with
  | EmptyString => ip
  | String c prefix' =>
      if bool_decide (i < 8 * length ip)%nat then
        let ip' := if Ascii.eqb c "1"
                   then alter (fun b => Z.lor b (Z.shiftl 1 (Z.of_nat (7 - i mod 8)))) (i / 8)%nat ip
                   else ip in
        set_prefix_bits prefix' (S i) ip'
      else ip
  end.

(** [for j := lastByte + 1; j < len(ip); j++ { ip[j] = 0 }] *)
Definition zero_from (j : nat) (ip : list Z) : list Z :=
  take j ip ++ replicate (length ip - j) 0.

Definition clear_host_bits (bits : nat) (ip : list Z) : list Z :=
  if bool_decide (bits < 8 * length ip)%nat then
    let lastByte := (bits / 8)%nat in
    let lastBits := (bits mod 8)%nat in
    let ip := zero_from (S lastByte) ip in
    if bool_decide (0 < lastBits)%nat
    then alter (fun b => Z.land b (mask_byte (Z.of_nat lastBits))) lastByte ip else ip
  else ip.

Definition prefixToCIDR (prefix : string) (bits : nat) (isIPv4 : bool) : string :=
  if bool_decide (bits = 0%nat) then (if isIPv4 then "0.0.0.0/0" else "::/0")
  else if isIPv4 then
    ip4ToString (clear_host_bits bits (set_prefix_bits prefix 0 (replicate 4 0)))
      +:+ "/" +:+ intToString (Z.of_nat bits)
  else
    ip6ToString (clear_host_bits bits (set_prefix_bits prefix 0 (replicate 16 0)))
      +:+ "/" +:+ intToString (Z.of_nat bits).

(** The calls [fn(cidr, target)] in the order they are made. *)
Fixpoint collectRoutes {V} (node : TrieNode V) (prefix : string) (depth maxDepth : nat)
    (isIPv4 : bool) : list (string * V) :=
  match node with
  | NilNode => []
  | Node zero one leaf target =>
      if bool_decide (maxDepth <= depth)%nat then [] else
      (if leaf then match target with
                    | Some t => [(prefixToCIDR prefix depth isIPv4, t)]
                    | None => [] end else [])
      ++ collectRoutes zero (prefix +:+ "0") (S depth) maxDepth isIPv4
      ++ collectRoutes one (prefix +:+ "1") (S depth) maxDepth isIPv4
  end.

(** [Range(fn)]: the entries passed to [fn], IPv4 first. *)
Definition Range {V} (r : Router V) : list (string * V) :=
  collectRoutes (r_v4 r) "" 0 128 true ++ collectRoutes (r_v6 r) "" 0 128 false.

Definition Keys {V} (r : Router V) : list string := fst <$> Range r.
