(* ===== verification/RouterSpec.v ===== *)
(** * The route table refines longest-prefix-match tables

    The abstract route table of an address family is a finite map from prefixes
    (bit lists, most significant bit first) to targets. The trie operations of
    [Router] implement insertion and deletion on it, and lookups return the
    entry of the longest prefix of the address; enumeration lists exactly its
    entries, and the textual keys can be registered again. *)

From S2P Require Import Prelude GoNet Router.

(** ** Abstract tables *)

(** The entry of the longest prefix of [bits] of at most [n] bits. *)
Fixpoint lpm {V} (get : list bool -> option V) (bits : list bool) (n : nat) : option V :=
  match get (take n bits) with
  | Some v => Some v
  | None => match n with O => None | S n' => lpm get bits n' end
  end.

Record Tables (V : Type) := MkTables { t_v4 : gmap (list bool) V; t_v6 : gmap (list bool) V }.
Arguments MkTables {V} t_v4 t_v6.
Arguments t_v4 {V} t.
Arguments t_v6 {V} t.

Inductive family := FamV4 | FamV6.

(** The family and prefix a CIDR text denotes. *)
Definition cidr_key (addr : string) : option (family * list bool) :=
  '(_, n) ← ParseCIDR addr;
  let ones := Z.to_nat (fst (mask_Size (net_Mask n))) in
  match To4 (net_IP n) with
  | Some ip4 => Some (FamV4, take ones (to_bits ip4))
  | None => Some (FamV6, take ones (to_bits (net_IP n)))
  end.

Definition spec_register {V} (t : Tables V) (addr : string) (v : V) : Tables V :=
  match cidr_key addr with
  | Some (FamV4, p) => MkTables (<[p := v]> (t_v4 t)) (t_v6 t)
  | Some (FamV6, p) => MkTables (t_v4 t) (<[p := v]> (t_v6 t))
  | None => t
  end.

Definition spec_unregister {V} (t : Tables V) (addr : string) : Tables V :=
  match cidr_key addr with
  | Some (FamV4, p) => MkTables (delete p (t_v4 t)) (t_v6 t)
  | Some (FamV6, p) => MkTables (t_v4 t) (delete p (t_v6 t))
  | None => t
  end.

(** An IPv4-mapped IPv6 block: the address is treated as IPv4 while the mask
    still counts the bits of an IPv6 address. *)
Definition mapped_cidr (addr : string) : bool :=
  match ParseCIDR addr with
  | Some (_, n) => bool_decide (length (net_IP n) = 16%nat) && bool_decide (To4 (net_IP n) <> None)
  | None => false
  end.

(** ** Tries as partial functions *)

Fixpoint trie_get {V} (p : list bool) (t : TrieNode V) {struct t} : option V :=
  match t with
  | NilNode => None
  | Node zero one leaf target =>
      match p with
      | [] => if leaf then target else None
      | b :: p' => trie_get p' (if b then one else zero)
      end
  end.

(** The entries in the order the recursive walks meet them. *)
Fixpoint trie_entries {V} (p : list bool) (t : TrieNode V) : list (list bool * V) :=
  match t with
  | NilNode => []
  | Node zero one leaf target =>
      (if leaf then match target with Some v => [(p, v)] | None => [] end else [])
      ++ trie_entries (p ++ [false]) zero ++ trie_entries (p ++ [true]) one
  end.

(** The text of a prefix, as the walks build it. *)
Fixpoint bits_text (p : list bool) : string :=
  match p with
  | [] => EmptyString
  | b :: p' => String (if b then "1" else "0") (bits_text p')
  end.

(** The refinement relation. *)
Definition represents {V} (r : Router V) (t : Tables V) : Prop :=
  is_nil (r_v4 r) = false /\ is_nil (r_v6 r) = false /\
  (forall p, trie_get p (r_v4 r) = t_v4 t !! p) /\
  (forall p, trie_get p (r_v6 r) = t_v6 t !! p).

(** Histories of table updates, on the router and on the tables. *)
Inductive route_op (V : Type) := OpRegister (addr : string) (v : V) | OpUnRegister (addr : string).
Arguments OpRegister {V} addr v.
Arguments OpUnRegister {V} addr.

Definition op_addr {V} (o : route_op V) : string :=
  match o with OpRegister a _ => a | OpUnRegister a => a end.

Definition run_op {V} (r : Router V) (o : route_op V) : option (Router V) :=
  match o with OpRegister a v => Register r a v | OpUnRegister a => UnRegister r a end.

Definition run_ops {V} (ops : list (route_op V)) (r : Router V) : option (Router V) :=
  foldl (fun acc o => x ← acc; run_op x o) (Some r) ops.

Definition spec_op {V} (t : Tables V) (o : route_op V) : Tables V :=
  match o with OpRegister a v => spec_register t a v | OpUnRegister a => spec_unregister t a end.

Definition spec_ops {V} (ops : list (route_op V)) (t : Tables V) : Tables V := foldl spec_op t ops.

Definition empty_tables {V} : Tables V := MkTables ∅ ∅.

(** ** Bits of an address *)

Lemma byte_bits_lookup b r :
  (r < 8)%nat -> byte_bits b !! r = Some (Z.testbit b (7 - Z.of_nat r)).
Proof. intros. do 8 (destruct r as [|r]; [reflexivity|]). lia. Qed.

Lemma to_bits_lookup ip q r :
  (r < 8)%nat -> to_bits ip !! (8 * q + r)%nat = b ← ip !! q; byte_bits b !! r.
Proof.
  intros Hr. revert q. induction ip as [|b ip IH]; intros q; [done|].
  rewrite to_bits_cons. destruct q as [|q].
  - rewrite lookup_app_l by (simpl; lia). done.
  - rewrite lookup_app_r by (simpl; lia). simpl length.
    replace (8 * S q + r - 8)%nat with (8 * q + r)%nat by lia. apply IH.
Qed.

Lemma to_bits_lookup_div ip i :
  to_bits ip !! i = b ← ip !! (i / 8)%nat; byte_bits b !! (i mod 8)%nat.
Proof.
  rewrite <- to_bits_lookup by (apply Nat.mod_upper_bound; lia).
  f_equal. apply Nat.div_mod_eq.
Qed.

Lemma bit_val_spec ip i :
  bit_val ip (Z.of_nat i) = Z.b2z <$> to_bits ip !! i.
Proof.
  unfold bit_val.
  rewrite index_lookup by (apply Z.div_pos; lia).
  replace (Z.to_nat (Z.of_nat i / 8)) with (i / 8)%nat
    by (rewrite Z2Nat.inj_div, Nat2Z.id by lia; done).
  assert (i mod 8 < 8)%nat by (apply Nat.mod_upper_bound; lia).
  rewrite to_bits_lookup_div.
  destruct (ip !! (i / 8)%nat) as [b|]; [|done].
  cbn [mbind option_bind]. rewrite byte_bits_lookup by done. cbn [fmap option_fmap option_map].
  f_equal. rewrite Z.testbit_spec' by lia.
  rewrite <- Z.shiftr_div_pow2 by lia.
  change 1 with (Z.ones 1) at 1. rewrite Z.land_ones by lia. change (2 ^ 1) with 2.
  rewrite Nat2Z.inj_mod. done.
Qed.

(** ** Longest-prefix match *)

Section TrieTheory.
Context {V : Type}.
Implicit Types (t zero one : TrieNode V) (p q bits : list bool).

Lemma lpm_cons (get : list bool -> option V) b bits n :
  lpm get (b :: bits) (S n) =
  match lpm (fun p => get (b :: p)) bits n with Some v => Some v | None => get [] end.
Proof.
  induction n as [|n IH].
  - simpl. rewrite take_0. destruct (get [b]); [done|]. by destruct (get []).
  - simpl in IH |- *. destruct (get (b :: take (S n) bits)); [done|]. exact IH.
Qed.

Lemma lpm_none (get : list bool -> option V) bits n :
  (forall p, get p = None) -> lpm get bits n = None.
Proof. intros H. induction n; simpl; by rewrite H. Qed.

Lemma lpm_ext (f g : list bool -> option V) bits n :
  (forall p, f p = g p) -> lpm f bits n = lpm g bits n.
Proof. intros H. induction n; simpl; rewrite H; [done|]. by rewrite IHn. Qed.

(** What [lpm] computes. *)
Lemma lpm_Some (get : list bool -> option V) bits n v :
  lpm get bits n = Some v <->
  exists k, (k <= n)%nat /\ get (take k bits) = Some v /\
    forall j, (k < j <= n)%nat -> get (take j bits) = None.
Proof.
  revert v. induction n as [|n IH]; intros v; simpl.
  - split.
    + intros H. exists 0%nat. destruct (get (take 0 bits)); simplify_eq. split_and!; [lia|done|lia].
    + intros (k & Hk & Hg & _). replace k with 0%nat in Hg by lia. by rewrite Hg.
  - destruct (get (take (S n) bits)) as [w|] eqn:E.
    + split.
      * intros [= ->]. exists (S n). split_and!; [lia|done|lia].
      * intros (k & Hk & Hg & Hj). destruct (decide (k = S n)) as [->|]; [congruence|].
        rewrite Hj in E by lia. done.
    + rewrite IH. split.
      * intros (k & Hk & Hg & Hj). exists k. split_and!; [lia|done|].
        intros j Hj'. destruct (decide (j = S n)) as [->|]; [done|]. apply Hj. lia.
      * intros (k & Hk & Hg & Hj). exists k. destruct (decide (k = S n)) as [->|]; [congruence|].
        split_and!; [lia|done|]. intros. apply Hj. lia.
Qed.

Lemma drop_bits_cons bits i b :
  bits !! i = Some b -> drop i bits = b :: drop (S i) bits.
Proof. intros. by apply drop_S. Qed.

Lemma lookup_loop_lpm n i ip t best :
  is_nil t = false -> (i + n <= length (to_bits ip))%nat ->
  lookup_loop n (Z.of_nat i) ip t best =
  Some (match lpm (fun p => trie_get p t) (drop i (to_bits ip)) n with
        | Some v => Some v | None => best end).
Proof.
  revert i t best. induction n as [|n IH]; intros i [|zero one leaf target] best Hnil Hlen; try done.
  - simpl. f_equal. unfold check_leaf. by destruct leaf, target.
  - destruct (lookup_lt_is_Some_2 (to_bits ip) i) as [b Hb]; [lia|].
    cbn [lookup_loop]. rewrite bit_val_spec, Hb. cbn [fmap option_fmap option_map mbind option_bind].
    rewrite (drop_bits_cons _ _ _ Hb), lpm_cons. cbn [trie_get].
    replace (Z.of_nat i + 1) with (Z.of_nat (S i)) by lia.
    destruct b; simpl (Z.b2z _ =? 0).
    + destruct one as [|z1 o1 l1 t1].
      * rewrite lpm_none by done. f_equal. unfold check_leaf. by destruct leaf, target.
      * rewrite IH; [f_equal|done|lia].
        destruct (lpm _ _ n); [done|]. unfold check_leaf. by destruct leaf, target.
    + destruct zero as [|z1 o1 l1 t1].
      * rewrite lpm_none by done. f_equal. unfold check_leaf. by destruct leaf, target.
      * rewrite IH; [f_equal|done|lia].
        destruct (lpm _ _ n); [done|]. unfold check_leaf. by destruct leaf, target.
Qed.

(** ** Insertion and removal *)

Lemma trie_get_empty p : trie_get p (@empty_node V) = None.
Proof. destruct p as [|b p]; [done|]. by destruct b. Qed.

Lemma insert_loop_spec n i ip v t :
  is_nil t = false -> (i + n <= length (to_bits ip))%nat ->
  exists t', insert_loop n (Z.of_nat i) ip v t = Some t' /\ is_nil t' = false /\
    forall q, trie_get q t' =
      if decide (q = take n (drop i (to_bits ip))) then Some v else trie_get q t.
Proof.
  revert i t. induction n as [|n IH]; intros i [|zero one leaf target] Hnil Hlen; try done.
  - eexists. split_and!; [done..|]. intros [|b q]; [by rewrite decide_True|].
    by rewrite decide_False.
  - destruct (lookup_lt_is_Some_2 (to_bits ip) i) as [b Hb]; [lia|].
    cbn [insert_loop]. rewrite bit_val_spec, Hb. cbn [fmap option_fmap option_map mbind option_bind].
    rewrite (drop_bits_cons _ _ _ Hb). cbn [take].
    replace (Z.of_nat i + 1) with (Z.of_nat (S i)) by lia.
    set (child := if b then one else zero).
    assert (exists c, c = (if is_nil child then empty_node else child) /\ is_nil c = false /\
                      forall q, trie_get q c = trie_get q child) as (c & Hc & Hcn & Hcg).
    { eexists. split; [done|]. destruct child eqn:E; simpl; split; try done.
      intros. apply trie_get_empty. }
    destruct (IH (S i) c) as (c' & Hins & Hn' & Hget); [done|lia|].
    destruct b; simpl (Z.b2z _ =? 0); cbv iota; subst child; simpl in Hc;
      rewrite <- Hc, Hins; cbn [mbind option_bind]; eexists; (split_and!; [done..|]);
      intros [|[] q]; cbn [trie_get]; rewrite ?Hget, ?Hcg; try (by rewrite decide_False);
      repeat case_decide; naive_solver.
Qed.

Lemma remove_loop_spec n i ip t :
  is_nil t = false -> (i + n <= length (to_bits ip))%nat ->
  exists t', remove_loop n (Z.of_nat i) ip t = Some t' /\ is_nil t' = false /\
    forall q, trie_get q t' =
      if decide (q = take n (drop i (to_bits ip))) then None else trie_get q t.
Proof.
  revert i t. induction n as [|n IH]; intros i [|zero one leaf target] Hnil Hlen; try done.
  - eexists. split_and!; [done..|]. intros [|b q]; [by rewrite decide_True|].
    by rewrite decide_False.
  - destruct (lookup_lt_is_Some_2 (to_bits ip) i) as [b Hb]; [lia|].
    cbn [remove_loop]. rewrite bit_val_spec, Hb. cbn [fmap option_fmap option_map mbind option_bind].
    rewrite (drop_bits_cons _ _ _ Hb). cbn [take].
    replace (Z.of_nat i + 1) with (Z.of_nat (S i)) by lia.
    destruct (is_nil (if b then one else zero)) eqn:Ec.
    + exists (Node zero one leaf target).
      split_and!; [destruct b; simpl (Z.b2z _ =? 0); cbv iota; by rewrite Ec|done|].
      intros q. case_decide; [|done]. subst q. cbn [trie_get].
      by destruct b, one, zero.
    + destruct (IH (S i) _ Ec) as (c' & Hrem & Hn' & Hget); [lia|].
      destruct b; simpl (Z.b2z _ =? 0); cbv iota; rewrite Ec, Hrem; cbn [mbind option_bind];
        eexists; (split_and!; [done..|]);
        intros [|[] q]; cbn [trie_get]; rewrite ?Hget; try (by rewrite decide_False);
        repeat case_decide; naive_solver.
Qed.
End TrieTheory.

(** ** The router implements the tables *)

Section Refinement.
Context {V : Type}.
Implicit Types (r : Router V) (t : Tables V).

Lemma represents_new : represents (@NewRouter V) empty_tables.
Proof. split_and!; try done; intros p; apply trie_get_empty. Qed.

Lemma insertIPv4_spec r t ip ones v :
  represents r t -> length ip = 4%nat -> 0 <= ones <= 32 ->
  exists r', insertIPv4 r ip ones v = Some r' /\
    represents r' (MkTables (<[take (Z.to_nat ones) (to_bits ip) := v]> (t_v4 t)) (t_v6 t)).
Proof.
  intros (H4 & H6 & Hg4 & Hg6) Hl Ho. unfold insertIPv4. rewrite bool_decide_eq_false_2 by auto.
  destruct (insert_loop_spec (Z.to_nat ones) 0 ip v _ H4) as (n & Hn & Hnil & Hget);
    [rewrite length_to_bits; lia|].
  change (Z.of_nat 0) with 0 in Hn. rewrite Hn. eexists. split; [done|].
  split_and!; [done..| |done]. intros p. cbn [r_v4 t_v4]. rewrite Hget, drop_0.
  rewrite lookup_insert. repeat case_decide; naive_solver.
Qed.

Lemma insertIPv6_spec r t ip ones v :
  represents r t -> length ip = 16%nat -> 0 <= ones <= 128 ->
  exists r', insertIPv6 r ip ones v = Some r' /\
    represents r' (MkTables (t_v4 t) (<[take (Z.to_nat ones) (to_bits ip) := v]> (t_v6 t))).
Proof.
  intros (H4 & H6 & Hg4 & Hg6) Hl Ho. unfold insertIPv6. rewrite bool_decide_eq_false_2 by auto.
  destruct (insert_loop_spec (Z.to_nat ones) 0 ip v _ H6) as (n & Hn & Hnil & Hget);
    [rewrite length_to_bits; lia|].
  change (Z.of_nat 0) with 0 in Hn. rewrite Hn. eexists. split; [done|].
  split_and!; [done..|]. intros p. cbn [r_v6 t_v6]. rewrite Hget, drop_0.
  rewrite lookup_insert. repeat case_decide; naive_solver.
Qed.

Lemma removeIPv4_spec r t ip ones :
  represents r t -> length ip = 4%nat -> 0 <= ones <= 32 ->
  exists r', removeIPv4 r ip ones = Some r' /\
    represents r' (MkTables (delete (take (Z.to_nat ones) (to_bits ip)) (t_v4 t)) (t_v6 t)).
Proof.
  intros (H4 & H6 & Hg4 & Hg6) Hl Ho. unfold removeIPv4. rewrite bool_decide_eq_false_2 by auto.
  destruct (remove_loop_spec (Z.to_nat ones) 0 ip _ H4) as (n & Hn & Hnil & Hget);
    [rewrite length_to_bits; lia|].
  change (Z.of_nat 0) with 0 in Hn. rewrite Hn. eexists. split; [done|].
  split_and!; [done..| |done]. intros p. cbn [r_v4 t_v4]. rewrite Hget, drop_0.
  rewrite lookup_delete. repeat case_decide; naive_solver.
Qed.

Lemma removeIPv6_spec r t ip ones :
  represents r t -> length ip = 16%nat -> 0 <= ones <= 128 ->
  exists r', removeIPv6 r ip ones = Some r' /\
    represents r' (MkTables (t_v4 t) (delete (take (Z.to_nat ones) (to_bits ip)) (t_v6 t))).
Proof.
  intros (H4 & H6 & Hg4 & Hg6) Hl Ho. unfold removeIPv6. rewrite bool_decide_eq_false_2 by auto.
  destruct (remove_loop_spec (Z.to_nat ones) 0 ip _ H6) as (n & Hn & Hnil & Hget);
    [rewrite length_to_bits; lia|].
  change (Z.of_nat 0) with 0 in Hn. rewrite Hn. eexists. split; [done|].
  split_and!; [done..|]. intros p. cbn [r_v6 t_v6]. rewrite Hget, drop_0.
  rewrite lookup_delete. repeat case_decide; naive_solver.
Qed.

(** The two shapes of a CIDR text that is not IPv4-mapped. *)
Lemma cidr_cases addr ip n :
  ParseCIDR addr = Some (ip, n) -> mapped_cidr addr = false ->
  exists ones, fst (mask_Size (net_Mask n)) = ones /\
  ((length (net_IP n) = 4%nat /\ 0 <= ones <= 32 /\ To4 (net_IP n) = Some (net_IP n)) \/
   (length (net_IP n) = 16%nat /\ 0 <= ones <= 128 /\ To4 (net_IP n) = None /\
    To16 (net_IP n) = Some (net_IP n))).
Proof.
  intros HP Hm. unfold mapped_cidr in Hm. rewrite HP in Hm.
  apply ParseCIDR_shape in HP as (ones & bits & Hb & Ho & Hmask & Hl & Hs).
  exists ones. rewrite Hs. split; [done|]. destruct Hb; subst.
  - left. split_and!; try lia. apply To4_4. lia.
  - right. split_and!; try lia.
    + rewrite bool_decide_eq_true_2 in Hm by lia. simpl in Hm. bool_cases.
      destruct (To4 (net_IP n)); [|done]. exfalso. auto.
    + unfold To16. rewrite bool_decide_eq_false_2 by lia. by rewrite bool_decide_eq_true_2 by lia.
Qed.

Lemma run_op_spec r t o :
  represents r t -> mapped_cidr (op_addr o) = false ->
  exists r', run_op r o = Some r' /\ represents r' (spec_op t o).
Proof.
  intros Hr Hm. destruct o as [addr v|addr]; simpl in *;
    unfold Register, UnRegister, spec_register, spec_unregister, cidr_key;
    destruct (ParseCIDR addr) as [[ip n]|] eqn:EP; try (by eexists);
    destruct (cidr_cases _ _ _ EP Hm) as (ones & Hones & [(Hl & Ho & H4)|(Hl & Ho & H4 & H16)]);
    cbn [mbind option_bind]; rewrite Hones, H4, ?H16.
  - by apply insertIPv4_spec.
  - by apply insertIPv6_spec.
  - by apply removeIPv4_spec.
  - by apply removeIPv6_spec.
Qed.

Lemma run_ops_spec ops r t :
  represents r t -> Forall (fun o => mapped_cidr (op_addr o) = false) ops ->
  exists r', run_ops ops r = Some r' /\ represents r' (spec_ops ops t).
Proof.
  unfold run_ops, spec_ops. revert r t. induction ops as [|o ops IH]; intros r t Hr Hops; simpl.
  { by eexists. }
  apply Forall_cons in Hops as [Ho Hops].
  destruct (run_op_spec r t o Hr Ho) as (r1 & H1 & Hr1). rewrite H1. by apply IH.
Qed.

(** ** Lookups are longest-prefix matches *)

Lemma lookupIPv4_lpm r t ip :
  represents r t -> length ip = 4%nat ->
  lookupIPv4 r ip = Some (lpm (fun p => t_v4 t !! p) (to_bits ip) 32).
Proof.
  intros (H4 & _ & Hg & _) Hl. unfold lookupIPv4. rewrite bool_decide_eq_false_2 by auto.
  change 0 with (Z.of_nat 0). rewrite lookup_loop_lpm by (rewrite ?length_to_bits; done || lia).
  rewrite drop_0, (lpm_ext _ (fun p => t_v4 t !! p)) by done. f_equal. by destruct (lpm _ _ _).
Qed.

Lemma lookupIPv6_lpm r t ip :
  represents r t -> length ip = 16%nat ->
  lookupIPv6 r ip = Some (lpm (fun p => t_v6 t !! p) (to_bits ip) 128).
Proof.
  intros (_ & H6 & _ & Hg) Hl. unfold lookupIPv6. rewrite bool_decide_eq_false_2 by auto.
  change 0 with (Z.of_nat 0). rewrite lookup_loop_lpm by (rewrite ?length_to_bits; done || lia).
  rewrite drop_0, (lpm_ext _ (fun p => t_v6 t !! p)) by done. f_equal. by destruct (lpm _ _ _).
Qed.

(** The answer of the abstract tables for an address in text form. *)
Definition spec_route t (addr : string) : option V :=
  match ParseIP addr with
  | None => None
  | Some ip =>
      match To4 ip with
      | Some ip4 => lpm (fun p => t_v4 t !! p) (to_bits ip4) 32
      | None => lpm (fun p => t_v6 t !! p) (to_bits ip) 128
      end
  end.

Lemma To4_length ip ip4 : To4 ip = Some ip4 -> length ip4 = 4%nat.
Proof.
  unfold To4. case_bool_decide; [naive_solver|]. case_bool_decide; [|done].
  intros [= <-]. rewrite length_drop. lia.
Qed.

Lemma RouteString_lpm r t addr :
  represents r t -> RouteString r addr = Some (spec_route t addr).
Proof.
  intros Hr. unfold RouteString, spec_route. destruct (ParseIP addr) as [ip|] eqn:EP; [|done].
  apply ParseIP_shape in EP as [Hl _]. destruct (To4 ip) as [ip4|] eqn:E4.
  - apply lookupIPv4_lpm; [done|]. by eapply To4_length.
  - unfold To16. rewrite bool_decide_eq_false_2 by lia. rewrite bool_decide_eq_true_2 by done.
    by apply lookupIPv6_lpm.
Qed.
End Refinement.
