(* ===== verification/RouterKeys.v ===== *)
(** * Enumeration and digest of the route table

    The walks of [Range] and [MD5] visit exactly the entries of a trie; an IPv4
    prefix printed by [prefixToCIDR] parses back to the same prefix, so the keys
    of a table can be registered again; the bytes hashed by [MD5] determine the
    key set of a table of host routes. *)

From S2P Require Import Prelude GoNet Router RouterSpec.

(** ** Text of prefixes *)

Lemma bits_text_app p q : bits_text (p ++ q) = (bits_text p +:+ bits_text q)%string.
Proof. induction p; simpl; congruence. Qed.

Lemma bits_text_inj p q : bits_text p = bits_text q -> p = q.
Proof.
  revert q. induction p as [|[] p IH]; intros [|[] q] H; simpl in H; simplify_eq; f_equal; auto.
Qed.

Lemma char_at_digit n : 0 <= n < 10 -> char_at digits_0_9 n = digit_char n.
Proof.
  intros Hn. apply (below_cases (fun n => char_at digits_0_9 n = digit_char n) 10); [lia|].
  by repeat constructor.
Qed.

Lemma int_loop_dec f n acc : int_loop f n acc = dec_loop f n acc.
Proof.
  revert n acc. induction f as [|f IH]; intros n acc; simpl; [done|].
  destruct (Z.ltb_spec 0 n), (Z.leb_spec n 0); try lia; [|done].
  rewrite IH, char_at_digit by (apply Z.mod_pos_bound; lia). done.
Qed.

(** The router's own numeral printer agrees with the library's. *)
Lemma intToString_dec n : intToString n = dec n.
Proof.
  Transparent dec. unfold intToString, dec. by rewrite int_loop_dec.
Qed.
#[global] Opaque dec.

Lemma ip4ToString_text ip : length ip = 4%nat -> ip4ToString ip = ip4_text ip.
Proof.
  intros H. destruct ip as [|a [|b [|c [|d [|]]]]]; try done.
  unfold ip4ToString. by rewrite !intToString_dec.
Qed.

(** ** Setting and clearing bits *)

Lemma byte_ok_lor a b : byte_ok a -> byte_ok b -> byte_ok (Z.lor a b).
Proof.
  intros [Ha1 Ha2] [Hb1 Hb2]. split; [by apply Z.lor_nonneg|].
  destruct (decide (Z.lor a b = 0)) as [->|]; [lia|].
  assert (0 <= Z.lor a b) by by apply Z.lor_nonneg.
  change 256 with (2 ^ 8). apply Z.log2_lt_pow2; [lia|].
  rewrite Z.log2_lor by done.
  assert (forall x, 0 <= x < 256 -> Z.log2 x < 8) as Hx.
  { intros x Hx. destruct (decide (x = 0)) as [->|]; [done|]. apply Z.log2_lt_pow2; lia. }
  apply Z.max_lub_lt; apply Hx; lia.
Qed.

Lemma byte_ok_land a b : byte_ok a -> byte_ok b -> byte_ok (Z.land a b).
Proof.
  intros [Ha1 Ha2] [Hb1 Hb2]. split; [apply Z.land_nonneg; by left|].
  destruct (decide (Z.land a b = 0)) as [->|]; [lia|].
  assert (0 <= Z.land a b) by (apply Z.land_nonneg; by left).
  change 256 with (2 ^ 8). apply Z.log2_lt_pow2; [lia|].
  eapply Z.le_lt_trans; [by apply Z.log2_land|].
  apply Z.min_lt_iff. left. destruct (decide (a = 0)) as [->|]; [done|]. apply Z.log2_lt_pow2; lia.
Qed.

Lemma byte_ok_bit k : (k < 8)%nat -> byte_ok (Z.shiftl 1 (Z.of_nat (7 - k))).
Proof. intros. do 8 (destruct k as [|k]; [done|]). lia. Qed.

Lemma byte_bits_set b r0 r :
  (r0 < 8)%nat -> (r < 8)%nat ->
  byte_bits (Z.lor b (Z.shiftl 1 (Z.of_nat (7 - r0)))) !! r =
  if decide (r = r0) then Some true else byte_bits b !! r.
Proof.
  intros H0 H. rewrite !byte_bits_lookup by done.
  rewrite Z.lor_spec, Z.shiftl_1_l, Z.pow2_bits_eqb by lia. case_decide.
  - subst. rewrite (proj2 (Z.eqb_eq _ _)) by lia. by rewrite orb_true_r.
  - rewrite (proj2 (Z.eqb_neq _ _)) by lia. by rewrite orb_false_r.
Qed.

Lemma to_bits_set ip i :
  (i < 8 * length ip)%nat ->
  to_bits (alter (fun b => Z.lor b (Z.shiftl 1 (Z.of_nat (7 - i mod 8)))) (i / 8)%nat ip)
  = <[i := true]> (to_bits ip).
Proof.
  intros Hi. apply list_eq. intros j.
  assert (forall k, k mod 8 < 8)%nat as Hm by (intros; apply Nat.mod_upper_bound; lia).
  rewrite to_bits_lookup_div.
  assert (i / 8 < length ip)%nat by (apply Nat.Div0.div_lt_upper_bound; lia).
  destruct (decide (j = i)) as [->|Hne].
  - rewrite list_lookup_insert_eq by (rewrite length_to_bits; lia).
    rewrite list_lookup_alter_eq. destruct (lookup_lt_is_Some_2 ip (i / 8)) as [b Hb]; [done|].
    rewrite Hb. cbn [fmap option_fmap option_map mbind option_bind].
    rewrite byte_bits_set by done. by rewrite decide_True.
  - rewrite list_lookup_insert_ne by done.
    rewrite to_bits_lookup_div. destruct (decide (j / 8 = i / 8)%nat) as [E|].
    + rewrite E, list_lookup_alter_eq. destruct (ip !! (i / 8)%nat); [|done].
      cbn [fmap option_fmap option_map mbind option_bind]. rewrite byte_bits_set by done.
      rewrite decide_False; [done|]. intros E2. apply Hne.
      rewrite (Nat.div_mod_eq j 8), (Nat.div_mod_eq i 8). lia.
    + by rewrite list_lookup_alter_ne by done.
Qed.

Lemma set_prefix_bits_spec p i ip :
  (i + length p <= 8 * length ip)%nat -> bytes_ok ip ->
  drop i (to_bits ip) = replicate (8 * length ip - i) false ->
  let ip' := set_prefix_bits (bits_text p) i ip in
  length ip' = length ip /\ bytes_ok ip' /\
  to_bits ip' = take i (to_bits ip) ++ p ++ replicate (8 * length ip - i - length p) false.
Proof.
  revert i ip. induction p as [|b p IH]; intros i ip Hl Hok Hz; cbn [bits_text set_prefix_bits length] in *.
  { split_and!; [done..|]. rewrite app_nil_l, Nat.sub_0_r, <- Hz. by rewrite take_drop. }
  rewrite bool_decide_eq_true_2 by lia.
  assert (to_bits ip !! i = Some false) as Hi.
  { rewrite <- (Nat.add_0_r i), <- lookup_drop, Hz. apply lookup_replicate. split; [done|lia]. }
  set (ip1 := if Ascii.eqb _ "1" then _ else ip).
  assert (length ip1 = length ip /\ bytes_ok ip1 /\ to_bits ip1 = <[i := b]> (to_bits ip))
    as (Hl1 & Hok1 & Hb1).
  { subst ip1. destruct b; simpl (Ascii.eqb _ _).
    - split_and!; [by rewrite length_alter| |apply to_bits_set; lia].
      apply Forall_alter; [done|]. intros x ? Hx. apply byte_ok_lor; [done|].
      apply byte_ok_bit, Nat.mod_upper_bound. lia.
    - split_and!; [done..|]. by rewrite list_insert_id. }
  destruct (IH (S i) ip1) as (Hl' & Hok' & Hb').
  { lia. }
  { done. }
  { rewrite Hb1, drop_insert_lt by lia. rewrite Hl1. rewrite (drop_S _ _ _ Hi) in Hz.
    replace (8 * length ip - i)%nat with (S (8 * length ip - S i)) in Hz by lia.
    rewrite replicate_S in Hz. injection Hz as Hz. exact Hz. }
  split_and!; [lia|done|]. rewrite Hb', Hb1, Hl1.
  rewrite (take_S_r _ _ b) by (apply list_lookup_insert_eq; rewrite length_to_bits; lia).
  rewrite take_insert_ge by lia. rewrite <- app_assoc. simpl. do 4 f_equal. lia.
Qed.

Lemma to_bits_drop ip j : to_bits (drop j ip) = drop (8 * j) (to_bits ip).
Proof.
  revert j. induction ip as [|b ip IH]; intros j.
  { change (to_bits []) with (@nil bool). by rewrite !drop_nil. }
  destruct j as [|j]; [done|]. cbn [drop]. rewrite IH, to_bits_cons.
  rewrite (drop_app_ge (byte_bits b)) by (simpl; lia). f_equal. simpl. lia.
Qed.

Lemma zero_bytes ip n : bytes_ok ip -> to_bits ip = replicate n false -> ip = replicate (length ip) 0.
Proof.
  revert n. induction ip as [|b ip IH]; intros n Hok Hz; [done|].
  rewrite to_bits_cons in Hz. simpl. inversion Hok; subst.
  assert (n = 8 + length (to_bits ip))%nat as ->.
  { apply (f_equal length) in Hz. rewrite length_app, length_replicate in Hz. simpl in Hz. lia. }
  rewrite replicate_add in Hz. apply app_inj_1 in Hz as [H1' H2']; [|done].
  f_equal; [apply byte_bits_inj; done|]. eapply IH; done.
Qed.

Lemma clear_host_bits_id p ip :
  bytes_ok ip -> (length p <= 8 * length ip)%nat ->
  to_bits ip = p ++ replicate (8 * length ip - length p) false ->
  clear_host_bits (length p) ip = ip.
Proof.
  intros Hok Hl Hb. unfold clear_host_bits. case_bool_decide as Hlt; [|done].
  set (q := (length p / 8)%nat). set (k := (length p mod 8)%nat).
  assert (length p = 8 * q + k)%nat as Hqk by apply Nat.div_mod_eq.
  assert (k < 8)%nat by (apply Nat.mod_upper_bound; lia).
  assert (zero_from (S q) ip = ip) as ->.
  { unfold zero_from. rewrite <- (take_drop (S q) ip) at 3. f_equal.
    rewrite <- length_drop. symmetry. eapply zero_bytes; [by apply Forall_drop|].
    rewrite to_bits_drop, Hb, drop_app_ge by lia. by rewrite drop_replicate. }
  case_bool_decide as Hk; [|done].
  apply list_eq. intros j. destruct (decide (j = q)) as [->|]; [|by rewrite list_lookup_alter_ne].
  rewrite list_lookup_alter_eq. destruct (ip !! q) as [b|] eqn:Eb; [|done]. simpl. f_equal.
  assert (byte_ok b) by (by eapply Forall_lookup_1).
  assert (byte_bits b = drop (8 * q) p ++ replicate (8 - k) false) as Hbb.
  { assert (to_bits (drop q ip) = byte_bits b ++ to_bits (drop (S q) ip)) as E
      by (by rewrite (drop_S _ _ _ Eb)).
    rewrite to_bits_drop, Hb, drop_app_le in E by lia.
    assert (S q <= length ip)%nat by (apply lookup_lt_Some in Eb; lia).
    replace (8 * length ip - length p)%nat with ((8 - k) + 8 * (length ip - S q))%nat in E by lia.
    rewrite replicate_add, app_assoc in E. apply app_inj_1 in E as [<- _]; [done|].
    rewrite length_app, length_drop, length_replicate. simpl. lia. }
  apply byte_bits_inj; [|done|].
  - apply byte_ok_land; [done|]. clear -H. subst k. revert H. generalize (length p mod 8)%nat. intros k Hk.
    do 8 (destruct k as [|k]; [done|]). lia.
  - rewrite byte_bits_land, mask_byte_bits by lia.
    change 8%nat with (length (byte_bits b)) at 1. rewrite zip_andb_mask by (simpl; lia).
    rewrite Hbb, take_app_le by (rewrite length_drop; lia).
    rewrite length_app, length_drop, length_replicate.
    rewrite take_ge by (rewrite length_drop; lia). do 2 f_equal. lia.
Qed.

(** ** Printing an IPv4 prefix and parsing it back *)

Lemma prefixToCIDR_text p :
  (length p <= 32)%nat ->
  exists ip, length ip = 4%nat /\ bytes_ok ip /\
    to_bits ip = p ++ replicate (32 - length p) false /\
    prefixToCIDR (bits_text p) (length p) true = cidr_text ip (Z.of_nat (length p)).
Proof.
  intros Hl. destruct p as [|b p].
  { exists (replicate 4 0). split_and!; [done| |done|by vm_compute].
    apply Forall_replicate. done. }
  set (p' := b :: p) in *.
  destruct (set_prefix_bits_spec p' 0 (replicate 4 0)) as (H1 & H2 & H3).
  { change (length (replicate 4 0)) with 4%nat. lia. }
  { by apply Forall_replicate. }
  { done. }
  set (ip := set_prefix_bits (bits_text p') 0 (replicate 4 0)) in *.
  rewrite take_0, app_nil_l in H3. change (length (replicate 4 0)) with 4%nat in *.
  exists ip. split_and!; [done..|by rewrite H3|].
  unfold prefixToCIDR. rewrite bool_decide_eq_false_2 by done. fold ip.
  rewrite clear_host_bits_id; [|done|lia|rewrite H1, H3; do 2 f_equal; lia].
  rewrite ip4ToString_text, intToString_dec by done. done.
Qed.

Lemma cidr_key_text ip n :
  length ip = 4%nat -> bytes_ok ip -> (n <= 32)%nat ->
  cidr_key (cidr_text ip (Z.of_nat n)) = Some (FamV4, take n (to_bits ip)) /\
  mapped_cidr (cidr_text ip (Z.of_nat n)) = false.
Proof.
  intros Hl Hok Hn.
  pose proof (ParseCIDR_text ip (Z.of_nat n) Hl Hok ltac:(lia)) as HP.
  unfold cidr_key, mapped_cidr. rewrite HP. cbn [mbind option_bind net_IP net_Mask].
  rewrite mask_Size_32 by lia. cbn [fst].
  assert (length (zip_with Z.land ip (CIDRMask (Z.of_nat n) 32)) = 4%nat) as Hz
    by (rewrite length_zip_with, length_CIDRMask_32; lia).
  rewrite To4_4 by done. split.
  - do 2 f_equal. rewrite Nat2Z.id.
    change (CIDRMask (Z.of_nat n) 32) with (cidr_mask 4 (Z.of_nat n)). rewrite <- Hl at 1.
    apply take_to_bits_masked. lia.
  - rewrite Hz. done.
Qed.

Lemma prefixToCIDR_key p :
  (length p <= 32)%nat ->
  cidr_key (prefixToCIDR (bits_text p) (length p) true) = Some (FamV4, p) /\
  mapped_cidr (prefixToCIDR (bits_text p) (length p) true) = false.
Proof.
  intros Hl. destruct (prefixToCIDR_text p Hl) as (ip & H1 & H2 & H3 & ->).
  destruct (cidr_key_text ip (length p)) as [-> ->]; [done..|].
  rewrite H3, take_app_length. done.
Qed.

(** ** The walks visit the entries of the trie *)

Section Walks.
Context {V : Type}.
Implicit Types (t : TrieNode V) (p q : list bool).

Lemma trie_entries_elem t p q v :
  (q, v) ∈ trie_entries p t <-> exists s, q = p ++ s /\ trie_get s t = Some v.
Proof.
  revert p. induction t as [|zero IHz one IHo leaf target]; intros p; cbn [trie_entries].
  { split; [by intros ?%not_elem_of_nil|]. naive_solver. }
  rewrite !elem_of_app, IHz, IHo. split.
  - intros [H|[(s & -> & H)|(s & -> & H)]].
    + exists []. rewrite app_nil_r. destruct leaf, target; set_solver.
    + exists (false :: s). by rewrite <- app_assoc.
    + exists (true :: s). by rewrite <- app_assoc.
  - intros ([|b s] & -> & H); cbn [trie_get] in H.
    + left. destruct leaf; [|done]. rewrite H, app_nil_r. set_solver.
    + right. destruct b; [right|left]; exists s; by rewrite <- app_assoc.
Qed.

Lemma trie_entries_NoDup t p : NoDup (fst <$> trie_entries p t).
Proof.
  revert p. induction t as [|zero IHz one IHo leaf target]; intros p; cbn [trie_entries]; [constructor|].
  assert (forall b q u (v : V), (q, v) ∈ trie_entries (p ++ [b]) u -> exists s, q = p ++ b :: s) as Hb.
  { intros b q u v (s & -> & _)%trie_entries_elem. exists s. by rewrite <- app_assoc. }
  rewrite !fmap_app. apply NoDup_app. split_and!.
  - destruct leaf, target; simpl; repeat constructor; set_solver.
  - intros q Hq Hq'. assert (q = p) as -> by (destruct leaf, target; set_solver).
    rewrite elem_of_app in Hq'. destruct Hq' as [Hq'|Hq'];
      apply list_elem_of_fmap in Hq' as ([q' v] & -> & Hin); apply Hb in Hin as [s Hs];
      simpl in Hs; by apply (f_equal length) in Hs; rewrite length_app in Hs; simpl in Hs; lia.
  - apply NoDup_app. split_and!; [apply IHz| |apply IHo].
    intros q H1 H2.
    apply list_elem_of_fmap in H1 as ([q1 v1] & -> & Hin1).
    apply list_elem_of_fmap in H2 as ([q2 v2] & E2 & Hin2).
    apply Hb in Hin1 as [s1 ->]. apply Hb in Hin2 as [s2 ->]. simpl in E2.
    apply app_inv_head in E2. done.
Qed.

(** The entries above a depth bound. *)
Definition shallower (m : nat) (e : list bool * V) : Prop := (length e.1 < m)%nat.

#[export] Instance shallower_dec m e : Decision (shallower m e).
Proof. unfold shallower. apply _. Defined.

Definition entry_text (fam4 : bool) (e : list bool * V) : string * V :=
  (prefixToCIDR (bits_text e.1) (length e.1) fam4, e.2).

Lemma trie_entries_length t p q v : (q, v) ∈ trie_entries p t -> (length p <= length q)%nat.
Proof. intros (s & -> & _)%trie_entries_elem. rewrite length_app. lia. Qed.

Lemma entries_filter_none m t p :
  (m <= length p)%nat -> filter (shallower m) (trie_entries p t) = [].
Proof.
  intros Hm. destruct (filter (shallower m) (trie_entries p t)) as [|[q v] l] eqn:E; [done|].
  assert ((q, v) ∈ filter (shallower m) (trie_entries p t)) as H
    by (rewrite E; apply list_elem_of_here).
  apply list_elem_of_filter in H as [H1 H2]. apply trie_entries_length in H2. unfold shallower in H1. simpl in H1. lia.
Qed.

Lemma bits_text_snoc p (b : bool) :
  (bits_text p +:+ (if b then "1" else "0"))%string = bits_text (p ++ [b]).
Proof. rewrite bits_text_app. by destruct b. Qed.

(** [collectRoutes] calls its function once per entry above the depth bound. *)
Lemma collectRoutes_entries m fam4 t p :
  collectRoutes t (bits_text p) (length p) m fam4 =
  entry_text fam4 <$> filter (shallower m) (trie_entries p t).
Proof.
  revert p. induction t as [|zero IHz one IHo leaf target]; intros p; [done|].
  cbn [collectRoutes]. case_bool_decide as Hm.
  { by rewrite entries_filter_none. }
  cbn [trie_entries]. rewrite !filter_app, !fmap_app.
  rewrite (bits_text_snoc p false), (bits_text_snoc p true).
  replace (S (length p)) with (length (p ++ [false])) at 1 by (rewrite length_app; simpl; lia).
  replace (S (length p)) with (length (p ++ [true])) by (rewrite length_app; simpl; lia).
  rewrite IHz, IHo. f_equal. destruct leaf; [|done]. destruct target; [|done].
  rewrite filter_cons_True by (unfold shallower; simpl; lia). done.
Qed.

(** Pruned branches hold no entry. *)
Lemma worth_visiting_entries t p : worth_visiting t = false -> trie_entries p t = [].
Proof. destruct t as [|[] [] [] ?]; done. Qed.

Definition entries_digest (l : list (list bool * V)) : string :=
  foldr (fun e acc => (bits_text e.1 +:+ acc)%string) "" l.

Lemma entries_digest_app l1 l2 :
  entries_digest (l1 ++ l2) = (entries_digest l1 +:+ entries_digest l2)%string.
Proof. induction l1; simpl; [done|]. by rewrite string_app_assoc, IHl1. Qed.

Definition digest_walk (m : nat) (t : TrieNode V) : Prop := forall p h,
  collectMD5 t (bits_text p) (Z.of_nat (length p)) (Z.of_nat m) h =
  (h +:+ entries_digest (filter (shallower m) (trie_entries p t)))%string.

Lemma collectMD5_child m t p b h :
  digest_walk m t ->
  (if worth_visiting t
   then collectMD5 t (bits_text (p ++ [b])) (Z.of_nat (length p) + 1) (Z.of_nat m) h else h) =
  (h +:+ entries_digest (filter (shallower m) (trie_entries (p ++ [b]) t)))%string.
Proof.
  intros IH. destruct (worth_visiting t) eqn:E.
  - rewrite <- IH. f_equal. rewrite length_app. simpl. lia.
  - rewrite worth_visiting_entries by done. simpl. by rewrite string_app_empty_r.
Qed.

(** The bytes hashed are the prefixes of the entries in walk order, without
    separators. *)
Lemma collectMD5_entries m t : digest_walk m t.
Proof.
  induction t as [|zero IHz one IHo leaf target]; intros p h.
  { simpl. by rewrite string_app_empty_r. }
  cbn [collectMD5]. destruct (Z.leb_spec (Z.of_nat m) (Z.of_nat (length p))) as [Hm|Hm].
  { rewrite entries_filter_none by lia. simpl. by rewrite string_app_empty_r. }
  cbn [trie_entries]. rewrite !filter_app, !entries_digest_app.
  rewrite (bits_text_snoc p false), (bits_text_snoc p true).
  rewrite !collectMD5_child by done. rewrite <- !string_app_assoc. do 2 f_equal.
  unfold has_target. destruct leaf; [destruct target|]; simpl andb; cbv iota;
    rewrite ?filter_cons_True by (unfold shallower; simpl; lia); simpl; by rewrite ?string_app_empty_r.
Qed.
End Walks.
