(* ===== verification/RouterProps.v ===== *)
(** * Properties of the route table *)

From S2P Require Import Prelude GoNet Router RouterSpec RouterKeys.

(** ** Packets *)

(** The answer of the abstract tables for a packet. *)
Definition spec_packet {V} (t : Tables V) (buf : list Z) : option V :=
  match buf with
  | [] => None
  | b0 :: _ =>
      let version := Z.land (Z.shiftr b0 4) 15 in
      let ihl := Z.land b0 15 in
      if zlen buf <? 20 then None
      else if version =? 4 then
        if (ihl <? 5) || (zlen buf <? 4 * ihl) then None
        else lpm (fun p => t_v4 t !! p) (to_bits (sub_list buf 16 20)) 32
      else if version =? 6 then
        if zlen buf <? 40 then None
        else lpm (fun p => t_v6 t !! p) (to_bits (sub_list buf 24 40)) 128
      else None
  end.

Section Packets.
Context {V : Type}.
Implicit Types (r : Router V) (t : Tables V).

Lemma land_15_range x : 0 <= Z.land x 15 < 16.
Proof. change 15 with (Z.ones 4). rewrite Z.land_ones by lia. apply Z.mod_pos_bound. lia. Qed.

Lemma length_sub_list (l : list Z) a b :
  0 <= a -> a <= b -> b <= zlen l -> length (sub_list l a b) = Z.to_nat (b - a).
Proof. intros. pose proof (zlen_sub_list l a b). unfold zlen in *. lia. Qed.

Lemma Route_spec r t buf : represents r t -> Route r buf = Some (spec_packet t buf).
Proof.
  intros Hr. unfold Route, spec_packet. destruct buf as [|b0 buf']; [done|].
  set (buf := b0 :: buf'). destruct (zlen buf <? 20) eqn:E20; [done|]. bool_cases.
  change (index buf 0) with (Some b0). cbn [mbind option_bind].
  pose proof (land_15_range b0).
  unfold u8. rewrite uwrap_small by (change (2 ^ 8) with 256; lia). rewrite (Z.mul_comm _ 4).
  destruct (_ =? 4).
  - destruct (_ || _); [done|]. rewrite slice_in by lia. cbn [mbind option_bind].
    apply lookupIPv4_lpm; [done|]. by rewrite length_sub_list by lia.
  - destruct (_ =? 6); [|done]. destruct (zlen buf <? 40) eqn:E40; [done|]. bool_cases.
    rewrite slice_in by lia. cbn [mbind option_bind].
    apply lookupIPv6_lpm; [done|]. by rewrite length_sub_list by lia.
Qed.

Lemma route_batch_loop_spec r t packets i targets count :
  represents r t -> (i <= length packets)%nat -> length targets = length packets ->
  route_batch_loop r packets i targets count =
  Some ((spec_packet t <$> take i packets) ++ drop i targets,
        count + zlen (filter is_Some (spec_packet t <$> take i packets))).
Proof.
  intros Hr. revert targets count. induction i as [|i IH]; intros targets count Hi Hl.
  { simpl. rewrite drop_0. do 2 f_equal. unfold zlen. simpl. lia. }
  destruct (lookup_lt_is_Some_2 packets i) as [p Hp]; [lia|].
  cbn [route_batch_loop]. rewrite Hp. cbn [mbind option_bind].
  rewrite (Route_spec _ t) by done. cbn [mbind option_bind].
  rewrite bool_decide_eq_true_2 by lia.
  rewrite IH by (rewrite ?length_insert; lia).
  rewrite (take_S_r _ _ _ Hp), fmap_app, filter_app, zlen_app. cbn [fmap list_fmap].
  do 2 f_equal.
  - rewrite <- app_assoc. f_equal. rewrite drop_insert_ge by lia.
    replace (i - i)%nat with 0%nat by lia.
    destruct (lookup_lt_is_Some_2 targets i) as [x Hx]; [lia|].
    by rewrite (drop_S _ _ _ Hx).
  - destruct (spec_packet t p) eqn:E.
    + rewrite filter_cons_True by by eexists. rewrite filter_nil. unfold zlen. simpl. lia.
    + rewrite filter_cons_False by by intros [? ?]. rewrite filter_nil. unfold zlen. simpl. lia.
Qed.
End Packets.

(** ** Prefix lengths of the tables *)

Lemma cidr_key_length addr fam p :
  cidr_key addr = Some (fam, p) ->
  (length p <= match fam with FamV4 => 32 | FamV6 => 128 end)%nat.
Proof.
  unfold cidr_key. destruct (ParseCIDR addr) as [[ip n]|] eqn:EP; [|done]. cbn [mbind option_bind].
  apply ParseCIDR_shape in EP as (ones & bits & Hb & Ho & Hmask & Hl & Hs).
  destruct (To4 (net_IP n)) as [ip4|] eqn:E4; intros [= <- <-]; rewrite length_take, length_to_bits.
  - apply To4_length in E4. lia.
  - lia.
Qed.

Definition bounded_tables {V} (t : Tables V) : Prop :=
  (forall p, is_Some (t_v4 t !! p) -> (length p <= 32)%nat) /\
  (forall p, is_Some (t_v6 t !! p) -> (length p <= 128)%nat).

Lemma spec_op_bounded {V} (t : Tables V) o : bounded_tables t -> bounded_tables (spec_op t o).
Proof.
  intros [H4 H6]. destruct o as [addr v|addr]; simpl;
    unfold spec_register, spec_unregister;
    destruct (cidr_key addr) as [[[] q]|] eqn:E; try done; apply cidr_key_length in E;
    split; simpl; try done; intros p Hp; destruct Hp as [x Hx].
  - apply lookup_insert_Some in Hx as [[<- _]|[_ Hx]]; [done|]. apply H4. eauto.
  - apply lookup_insert_Some in Hx as [[<- _]|[_ Hx]]; [done|]. apply H6. eauto.
  - apply lookup_delete_Some in Hx as [_ Hx]. apply H4. eauto.
  - apply lookup_delete_Some in Hx as [_ Hx]. apply H6. eauto.
Qed.

Lemma spec_ops_bounded {V} ops (t : Tables V) : bounded_tables t -> bounded_tables (spec_ops ops t).
Proof.
  unfold spec_ops. revert t. induction ops as [|o ops IH]; intros t Ht; simpl; [done|].
  apply IH. by apply spec_op_bounded.
Qed.

(** A router reached by any history without IPv4-mapped blocks. *)
Definition reachable {V} (r : Router V) : Prop :=
  exists ops, Forall (fun o => mapped_cidr (op_addr o) = false) ops /\
              run_ops ops NewRouter = Some r.

Lemma reachable_tables {V} (r : Router V) :
  reachable r -> exists t, represents r t /\ bounded_tables t.
Proof.
  intros (ops & Hops & Hrun).
  destruct (run_ops_spec ops NewRouter empty_tables (represents_new (V:=V)) Hops) as (r' & Hr' & Hrep).
  rewrite Hrun in Hr'. simplify_eq. eexists. split; [done|]. apply spec_ops_bounded.
  split; intros p; simpl; rewrite lookup_empty; by intros [].
Qed.

(** ** Registering the printed keys again *)

Section Reregister.
Context {V : Type}.
Implicit Types (r : Router V) (t : Tables V) (l : list (list bool * V)).

Definition register_all (l : list (string * V)) : list (route_op V) :=
  (fun e => OpRegister e.1 e.2) <$> l.

Lemma register_all_nonmapped l :
  Forall (fun e => (length e.1 <= 32)%nat) l ->
  Forall (fun o => mapped_cidr (op_addr o) = false) (register_all (entry_text true <$> l)).
Proof.
  intros H. unfold register_all. rewrite !Forall_fmap. eapply Forall_impl; [done|].
  intros [p v] Hp. simpl. by apply prefixToCIDR_key.
Qed.

Lemma spec_ops_register_all l t :
  Forall (fun e => (length e.1 <= 32)%nat) l ->
  spec_ops (register_all (entry_text true <$> l)) t =
  MkTables (foldl (fun m e => <[e.1 := e.2]> m) (t_v4 t) l) (t_v6 t).
Proof.
  revert t. induction l as [|[p v] l IH]; intros t Hl; [by destruct t|].
  apply Forall_cons in Hl as [Hp Hl]. simpl in Hp.
  change (spec_ops (register_all (entry_text true <$> l))
            (spec_register t (prefixToCIDR (bits_text p) (length p) true) v) =
          MkTables (foldl (fun m e => <[e.1 := e.2]> m) (<[p := v]> (t_v4 t)) l) (t_v6 t)).
  unfold spec_register. destruct (prefixToCIDR_key p Hp) as [-> _]. by rewrite IH.
Qed.

Lemma foldl_insert_lookup l (m : gmap (list bool) V) p v :
  NoDup l.*1 -> (p, v) ∈ l -> foldl (fun m e => <[e.1 := e.2]> m) m l !! p = Some v.
Proof.
  revert m. induction l as [|[q w] l IH]; intros m Hnd Hin; [by apply not_elem_of_nil in Hin|].
  simpl in *. apply NoDup_cons in Hnd as [Hq Hnd]. apply elem_of_cons in Hin as [[= -> ->]|Hin].
  - clear IH. assert (forall m' : gmap (list bool) V, m' !! q = Some w ->
      foldl (fun m e => <[e.1 := e.2]> m) m' l !! q = Some w) as Hkeep.
    { clear m Hnd. induction l as [|[q' w'] l IH]; intros m' Hm; simpl; [done|].
      apply IH; [set_solver|]. rewrite lookup_insert_ne; [done|]. set_solver. }
    apply Hkeep. simpl. apply lookup_insert_eq.
  - by apply IH.
Qed.

Lemma foldl_insert_lookup_None l (m : gmap (list bool) V) p :
  p ∉ l.*1 -> foldl (fun m e => <[e.1 := e.2]> m) m l !! p = m !! p.
Proof.
  revert m. induction l as [|[q w] l IH]; intros m Hp; simpl; [done|].
  rewrite IH by set_solver. apply lookup_insert_ne. set_solver.
Qed.

Lemma v4_walk r t :
  represents r t -> bounded_tables t ->
  collectRoutes (r_v4 r) "" 0 128 true = entry_text true <$> trie_entries [] (r_v4 r) /\
  Forall (fun e => (length e.1 <= 32)%nat) (trie_entries [] (r_v4 r)).
Proof.
  intros (_ & _ & Hg & _) [Hb _].
  assert (Forall (fun e => (length e.1 <= 32)%nat) (trie_entries [] (r_v4 r))) as Hall.
  { apply Forall_forall. intros [p v] (s & -> & Hs)%trie_entries_elem. simpl.
    apply Hb. rewrite <- Hg, Hs. eauto. }
  split; [|done].
  change ""%string with (bits_text []). change 0%nat with (length (@nil bool)) at 1.
  rewrite collectRoutes_entries. f_equal. clear -Hall.
  induction Hall as [|e l He _ IH]; [done|]. rewrite filter_cons_True, IH; [done|].
  unfold shallower. lia.
Qed.

Lemma reregister_represents r t :
  represents r t -> bounded_tables t ->
  exists r', run_ops (register_all (collectRoutes (r_v4 r) "" 0 128 true)) NewRouter = Some r' /\
             represents r' (MkTables (t_v4 t) ∅).
Proof.
  intros Hr Hb. destruct (v4_walk r t Hr Hb) as [-> Hall].
  destruct (run_ops_spec (register_all (entry_text true <$> trie_entries [] (r_v4 r)))
              NewRouter empty_tables) as (r' & Hrun & Hrep);
    [apply represents_new|by apply register_all_nonmapped|].
  exists r'. split; [done|]. rewrite spec_ops_register_all in Hrep by done.
  destruct Hrep as (? & ? & Hg4 & Hg6). split_and!; [done..| |done].
  intros p. rewrite Hg4. simpl. destruct Hr as (_ & _ & Hr4 & _). rewrite <- Hr4.
  destruct (trie_get p (r_v4 r)) as [v|] eqn:Ev.
  - apply foldl_insert_lookup; [apply trie_entries_NoDup|]. apply trie_entries_elem. by exists p.
  - rewrite foldl_insert_lookup_None; [apply lookup_empty|].
    intros ([q v] & -> & Hin)%list_elem_of_fmap. apply trie_entries_elem in Hin as (s & -> & Hs).
    simpl in Ev. congruence.
Qed.
End Reregister.

(** ** IPv4-mapped blocks *)

Lemma cidr_mask_low_bit l j n m :
  cidr_mask l n !! j = Some m -> 0 <= n < 8 * (Z.of_nat j + 1) -> Z.testbit m 0 = false.
Proof.
  revert j n. induction l as [|l IH]; intros j n H Hn; cbn [cidr_mask] in H; [done|].
  destruct (8 <=? n) eqn:E; bool_cases; destruct j as [|j]; cbn [lookup list_lookup] in H.
  - simpl in Hn. lia.
  - eapply IH; [done|]. lia.
  - simplify_eq. apply (below_cases (fun n => Z.testbit (mask_byte n) 0 = false) 8); [lia|].
    by repeat constructor.
  - eapply IH; [done|]. lia.
Qed.

(** A block whose masked address is still IPv4-mapped has at least 96 bits. *)
Lemma mapped_cidr_ones addr ip n :
  ParseCIDR addr = Some (ip, n) -> mapped_cidr addr = true ->
  32 < fst (mask_Size (net_Mask n)) <= 128 /\ exists ip4, To4 (net_IP n) = Some ip4.
Proof.
  intros HP Hm. unfold mapped_cidr in Hm. rewrite HP in Hm. bool_cases.
  destruct (To4 (net_IP n)) as [ip4|] eqn:E4; [|done]. split; [|by eexists].
  unfold ParseCIDR in HP. destruct (cut_at _ addr) as [[a mk]|]; [|done]. cbn [mbind option_bind] in HP.
  destruct (ParseAddr a) as [[ip16 bits]|] eqn:Ea; [|done]. cbn [mbind option_bind] in HP.
  destruct (dtoi mk 0 false) as [ones|] eqn:Ed; [|done]. cbn [mbind option_bind] in HP.
  apply dtoi_nonneg in Ed; [|done]. destruct (bits <? ones) eqn:Eb; [done|]. bool_cases.
  destruct (ip_Mask ip16 (CIDRMask ones bits)) as [nip|] eqn:Em; [|done].
  cbn [mbind option_bind] in HP. simplify_eq. cbn [net_IP net_Mask] in *.
  apply ParseAddr_shape in Ea as (Hl & Hok & [[-> Hp]| ->]).
  { rewrite <- (take_drop 12 ip), Hp, ip_Mask_v4 in Em by (rewrite length_drop; lia). simplify_eq.
    rewrite length_zip_with, length_drop, length_CIDRMask_32 in H. lia. }
  rewrite ip_Mask_16 in Em by (rewrite ?length_CIDRMask_128; done). simplify_eq.
  rewrite mask_Size_128 by lia. simpl.
  assert (zip_with Z.land ip (CIDRMask ones 128) !! 11%nat = Some 255) as H11.
  { unfold To4 in E4. rewrite bool_decide_eq_false_2 in E4 by lia.
    case_bool_decide as Ht; [|done]. destruct Ht as [_ Ht].
    rewrite <- (lookup_take_lt _ 12) by lia. by rewrite Ht. }
  apply lookup_zip_with_Some in H11 as (x & m & Hx & _ & Hmk).
  destruct (decide (ones < 96)); [|lia]. exfalso.
  pose proof (cidr_mask_low_bit _ _ _ _ Hmk ltac:(lia)) as Hbit.
  assert (Z.testbit (Z.land x m) 0 = true) as Hc by (by rewrite <- Hx).
  rewrite Z.land_spec, Hbit, andb_false_r in Hc. done.
Qed.

Lemma insert_loop_panic {V} n i ip (v : V) t :
  is_nil t = false -> (i <= length (to_bits ip) < i + n)%nat ->
  insert_loop n (Z.of_nat i) ip v t = None.
Proof.
  revert i t. induction n as [|n IH]; intros i [|zero one leaf target] Hnil Hlen; try done; [lia|].
  cbn [insert_loop]. rewrite bit_val_spec. destruct (to_bits ip !! i) as [b|] eqn:Hb; [|done].
  apply lookup_lt_Some in Hb. cbn [fmap option_fmap option_map mbind option_bind].
  replace (Z.of_nat i + 1) with (Z.of_nat (S i)) by lia.
  destruct b; simpl (Z.b2z _ =? 0); cbv iota.
  - rewrite IH; [done|by destruct one|lia].
  - rewrite IH; [done|by destruct zero|lia].
Qed.

Lemma Register_mapped {V} (r : Router V) t addr v :
  represents r t -> mapped_cidr addr = true -> Register r addr v = None.
Proof.
  intros (H4 & _) Hm. unfold Register.
  destruct (ParseCIDR addr) as [[ip n]|] eqn:EP; [|unfold mapped_cidr in Hm; by rewrite EP in Hm].
  destruct (mapped_cidr_ones _ _ _ EP Hm) as [Ho [ip4 E4]]. rewrite E4.
  apply To4_length in E4. unfold insertIPv4. rewrite bool_decide_eq_false_2 by auto.
  change 0 with (Z.of_nat 0). rewrite insert_loop_panic; [done|done|].
  rewrite length_to_bits. lia.
Qed.

(** ** The digest of host routes *)

Lemma entries_digest_inj {V W} k (l1 : list (list bool * V)) (l2 : list (list bool * W)) :
  (0 < k)%nat ->
  Forall (fun e => length e.1 = k) l1 -> Forall (fun e => length e.1 = k) l2 ->
  entries_digest l1 = entries_digest l2 -> l1.*1 = l2.*1.
Proof.
  intros Hk. assert (forall p s, String.length (bits_text p +:+ s) = length p + String.length s)%nat as Hlen.
  { induction p; intros; simpl; auto. }
  assert (forall p q s1 s2, length p = length q -> (bits_text p +:+ s1 = bits_text q +:+ s2)%string ->
    p = q /\ s1 = s2) as Happ.
  { induction p as [|b p IH]; intros [|c q] s1 s2 Hl E; simpl in *; try done.
    injection E as E1 E2. destruct (IH q s1 s2) as [-> ->]; [lia|done|]. by destruct b, c. }
  revert l2. induction l1 as [|[p v] l1 IH]; intros [|[q w] l2] H1 H2 E; simpl in *; [done|..].
  - apply Forall_cons in H2 as [Hq _]. simpl in Hq.
    apply (f_equal String.length) in E. rewrite Hlen in E. simpl in E. lia.
  - apply Forall_cons in H1 as [Hp _]. simpl in Hp.
    apply (f_equal String.length) in E. rewrite Hlen in E. simpl in E. lia.
  - apply Forall_cons in H1 as [Hp H1], H2 as [Hq H2]. simpl in *.
    apply Happ in E as [-> E]; [|lia]. f_equal. by apply IH.
Qed.

(** All entries are IPv4 host routes. *)
Definition host_routes_only {V} (r : Router V) : Prop :=
  (forall p, is_Some (trie_get p (r_v4 r)) -> length p = 32%nat) /\
  (forall p, trie_get p (r_v6 r) = None).

Lemma host_digest {V} (r : Router V) :
  host_routes_only r ->
  md5_input r = entries_digest (trie_entries [] (r_v4 r)) /\
  Forall (fun e => length e.1 = 32%nat) (trie_entries [] (r_v4 r)).
Proof.
  intros [H4 H6].
  assert (Forall (fun e => length e.1 = 32%nat) (trie_entries [] (r_v4 r))) as Hall.
  { apply Forall_forall. intros [p v] (s & -> & Hs)%trie_entries_elem. simpl. apply H4. eauto. }
  split; [|done]. unfold md5_input.
  pose proof (collectMD5_entries 128 (r_v4 r) [] "") as E4. simpl in E4.
  change (Z.of_nat 0) with 0 in E4. change (Z.of_nat 128) with 128 in E4. rewrite E4.
  rewrite (collectMD5_entries 128 (r_v6 r) []).
  assert (trie_entries [] (r_v6 r) = []) as ->.
  { destruct (trie_entries [] (r_v6 r)) as [|[p v] l] eqn:E; [done|].
    assert ((p, v) ∈ trie_entries [] (r_v6 r)) as Hin by (rewrite E; apply list_elem_of_here).
    apply trie_entries_elem in Hin as (s & _ & Hs). by rewrite H6 in Hs. }
  simpl. rewrite string_app_empty_r. f_equal. clear -Hall.
  induction Hall as [|e l He _ IH]; [done|]. rewrite filter_cons_True, IH; [done|].
  unfold shallower. lia.
Qed.

Lemma host_keys_of_digest {V W} (r1 : Router V) (r2 : Router W) p :
  host_routes_only r1 -> host_routes_only r2 -> md5_input r1 = md5_input r2 ->
  is_Some (trie_get p (r_v4 r1)) -> is_Some (trie_get p (r_v4 r2)).
Proof.
  intros H1 H2 E [v Hv].
  destruct (host_digest r1 H1) as [E1 F1], (host_digest r2 H2) as [E2 F2].
  rewrite E1, E2 in E. apply (entries_digest_inj 32) in E; [|lia|done..].
  assert (p ∈ (trie_entries [] (r_v4 r1)).*1) as Hin.
  { apply list_elem_of_fmap. exists (p, v). split; [done|]. apply trie_entries_elem. by exists p. }
  rewrite E in Hin. apply list_elem_of_fmap in Hin as ([q w] & -> & Hq).
  apply trie_entries_elem in Hq as (s & -> & Hs). simpl. eauto.
Qed.

(** ** Properties *)

(** C1. After any history of registrations and removals (none of them an
    IPv4-mapped IPv6 block), started from an empty router, no operation has
    panicked and both lookups answer as the abstract tables do: the address
    lookup and the packet lookup return the longest matching prefix of the
    address family. *)
Theorem router_refines_tables {V} (ops : list (route_op V)) :
  Forall (fun o => mapped_cidr (op_addr o) = false) ops ->
  exists r, run_ops ops NewRouter = Some r /\
    (forall addr, RouteString r addr = Some (spec_route (spec_ops ops empty_tables) addr)) /\
    (forall buf, Route r buf = Some (spec_packet (spec_ops ops empty_tables) buf)).
Proof.
  intros H. destruct (run_ops_spec ops NewRouter empty_tables represents_new H) as (r & Hr & Hrep).
  exists r. split_and!; [done| |]; intros.
  - by apply RouteString_lpm.
  - by apply Route_spec.
Qed.

Definition sample_ops : list (route_op nat) :=
  [OpRegister "10.0.0.0/8" 1%nat; OpRegister "10.1.2.0/24" 2%nat; OpRegister "10.1.0.0/16" 3%nat;
   OpUnRegister "10.1.2.0/24"].

Lemma router_refines_tables_witness :
  exists r, run_ops sample_ops NewRouter = Some r /\ RouteString r "10.1.2.3" = Some (Some 3%nat).
Proof.
  destruct (router_refines_tables sample_ops) as (r & Hr & Hs & _).
  - repeat constructor.
  - exists r. split; [done|]. rewrite Hs. vm_compute. reflexivity.
Defined.

(** A lookup in a trie of 4-byte addresses returns [v] exactly when some
    prefix of the address has the entry [v] and no longer prefix of the
    address has an entry. *)
Theorem lookupIPv4_longest {V} (r : Router V) (ip : list Z) (v : V) :
  is_nil (r_v4 r) = false -> length ip = 4%nat ->
  lookupIPv4 r ip = Some (Some v) <->
  exists n, (n <= 32)%nat /\ trie_get (take n (to_bits ip)) (r_v4 r) = Some v /\
    forall m, (n < m <= 32)%nat -> trie_get (take m (to_bits ip)) (r_v4 r) = None.
Proof.
  intros Hn Hl. unfold lookupIPv4. rewrite bool_decide_eq_false_2 by auto.
  change 0 with (Z.of_nat 0). rewrite lookup_loop_lpm by (rewrite ?length_to_bits; done || lia).
  rewrite drop_0, <- (lpm_Some (fun p => trie_get p (r_v4 r))).
  destruct (lpm _ _ _); split; congruence.
Qed.

Definition sample_router : Router nat := default NewRouter (run_ops sample_ops NewRouter).

Lemma lookupIPv4_longest_witness :
  exists n, trie_get (take n (to_bits [10; 1; 2; 3])) (r_v4 sample_router) = Some 3%nat.
Proof.
  destruct (lookupIPv4_longest sample_router [10; 1; 2; 3] 3%nat) as [H _];
    [vm_compute; reflexivity|reflexivity|].
  destruct H as (n & _ & Hn & _); [vm_compute; reflexivity|]. by exists n.
Defined.

(** What the users of a table rely on when they route batches: it answers each
    packet by a function, and a batch by that function slot by slot. *)
Class BatchRouter {V} (r : Router V) (route : list Z -> option V) : Prop := {
  route_packet p : Route r p = Some (route p);
  route_batch packets targets : length targets = length packets ->
    RouteBatch r packets targets = Some (route <$> packets, zlen (filter is_Some (route <$> packets))) }.

Lemma represents_batch_router {V} (r : Router V) t : represents r t -> BatchRouter r (spec_packet t).
Proof.
  intros Hr. split; [intros p; by apply Route_spec|]. intros packets targets Hl. unfold RouteBatch.
  rewrite (route_batch_loop_spec _ t) by (done || lia). by rewrite firstn_all, drop_ge, app_nil_r by lia.
Qed.

(** Routing a batch fills every slot with the answer the packet gets on
    its own, whatever the slots held before, and the returned count is the
    number of routed packets; with a slice shorter than the batch the first
    write panics. *)
Theorem RouteBatch_pointwise {V} (r : Router V) (packets : list (list Z)) (targets : list (option V)) :
  reachable r ->
  (length targets = length packets ->
   exists res, Forall2 (fun p o => Route r p = Some o) packets res /\
     RouteBatch r packets targets = Some (res, zlen (filter is_Some res))) /\
  ((length targets < length packets)%nat -> RouteBatch r packets targets = None).
Proof.
  intros (t & Hr & _)%reachable_tables. unfold RouteBatch. split; intros Hl.
  - exists (spec_packet t <$> packets). split.
    + apply Forall2_fmap_r, Forall_Forall2_diag, Forall_forall. intros p _. by apply Route_spec.
    + by apply (represents_batch_router r t Hr).
  - destruct packets as [|p0 packets]; [simpl in Hl; lia|]. cbn [length route_batch_loop].
    destruct (_ !! _) as [p|]; [|done]. cbn [mbind option_bind].
    rewrite (Route_spec _ t) by done. cbn [mbind option_bind].
    rewrite bool_decide_eq_false_2; [done|]. simpl in Hl. lia.
Qed.

Definition sample_packet : list Z :=
  [69; 0; 0; 20; 0; 0; 0; 0; 64; 6; 0; 0; 10; 0; 0; 1; 10; 1; 2; 3].

Lemma sample_reachable : reachable sample_router.
Proof. exists sample_ops. split; [repeat constructor|vm_compute; reflexivity]. Qed.

Lemma RouteBatch_pointwise_witness :
  exists res, RouteBatch sample_router [sample_packet; []] [None; Some 9%nat] = Some (res, 1) /\
              Forall2 (fun p o => Route sample_router p = Some o) [sample_packet; []] res.
Proof.
  destruct (RouteBatch_pointwise sample_router [sample_packet; []] [None; Some 9%nat] sample_reachable)
    as [H _].
  destruct (H eq_refl) as (res & Hres & Hb). exists res. split; [|done].
  vm_compute in Hb |- *. simplify_eq. done.
Defined.

(** Registering the IPv4 routes a reachable router enumerates into a fresh
    router rebuilds the whole IPv4 table: every IPv4 lookup, by address or by
    packet, has the same answer in both. *)
Theorem Range_register_roundtrip {V} (r : Router V) :
  reachable r ->
  exists r', run_ops (register_all (collectRoutes (r_v4 r) "" 0 128 true)) NewRouter = Some r' /\
    (forall p, trie_get p (r_v4 r') = trie_get p (r_v4 r)) /\
    forall ip, length ip = 4%nat -> lookupIPv4 r' ip = lookupIPv4 r ip.
Proof.
  intros (t & Hr & Hb)%reachable_tables.
  destruct (reregister_represents r t Hr Hb) as (r' & Hrun & Hrep). exists r'. split_and!; [done|..].
  - intros p. destruct Hr as (_ & _ & -> & _), Hrep as (_ & _ & -> & _). done.
  - intros ip Hl. by rewrite (lookupIPv4_lpm _ _ _ Hr Hl), (lookupIPv4_lpm _ _ _ Hrep Hl).
Qed.

Lemma Range_register_roundtrip_witness :
  exists r', run_ops (register_all (collectRoutes (r_v4 sample_router) "" 0 128 true)) NewRouter
             = Some r' /\ lookupIPv4 r' [10; 1; 2; 3] = Some (Some 3%nat).
Proof.
  destruct (Range_register_roundtrip sample_router sample_reachable) as (r' & Hr & _ & Hl).
  exists r'. split; [done|]. rewrite Hl by done. vm_compute. reflexivity.
Defined.

(** Registering an address on a reachable router succeeds for every text
    but an IPv4-mapped IPv6 block, whose mask length indexes past the four
    bytes of the address and panics. *)
Theorem Register_panics_iff_mapped {V} (r : Router V) (addr : string) (v : V) :
  reachable r -> Register r addr v = None <-> mapped_cidr addr = true.
Proof.
  intros (t & Hr & _)%reachable_tables. split.
  - intros HN. destruct (mapped_cidr addr) eqn:Em; [done|].
    destruct (run_op_spec r t (OpRegister addr v) Hr Em) as (r' & Hr' & _). simpl in Hr'. congruence.
  - by apply (Register_mapped _ t).
Qed.

Lemma Register_panics_iff_mapped_witness :
  Register sample_router "::ffff:1.2.3.0/120" 7%nat = None.
Proof.
  apply (Register_panics_iff_mapped sample_router "::ffff:1.2.3.0/120" 7%nat sample_reachable).
  vm_compute. reflexivity.
Defined.

(** Between tables of IPv4 host routes only, which is what the server
    registers, the bytes hashed for the synchronisation digest determine the
    set of routes. *)
Theorem md5_input_host_routes {V W} (r1 : Router V) (r2 : Router W) :
  host_routes_only r1 -> host_routes_only r2 -> md5_input r1 = md5_input r2 ->
  forall p, is_Some (trie_get p (r_v4 r1)) <-> is_Some (trie_get p (r_v4 r2)).
Proof. intros H1 H2 E p. split; by apply host_keys_of_digest. Qed.

Lemma host_routes_only_entries {V} (r : Router V) :
  Forall (fun e : list bool * V => length e.1 = 32%nat) (trie_entries [] (r_v4 r)) ->
  trie_entries [] (r_v6 r) = [] -> host_routes_only r.
Proof.
  intros H4 H6. split.
  - intros p [v Hv]. rewrite Forall_forall in H4. apply (H4 (p, v)).
    apply trie_entries_elem. by exists p.
  - intros p. destruct (trie_get p (r_v6 r)) as [v|] eqn:Hv; [|done].
    assert ((p, v) ∈ trie_entries [] (r_v6 r)) as Hin by (apply trie_entries_elem; by exists p).
    rewrite H6 in Hin. by apply not_elem_of_nil in Hin.
Qed.

Definition routes_of (addrs : list string) : Router nat :=
  default NewRouter (run_ops ((fun a => OpRegister a 1%nat) <$> addrs) NewRouter).

Lemma md5_input_host_routes_witness :
  is_Some (trie_get (to_bits [10; 0; 0; 7]) (r_v4 (routes_of ["10.0.0.1/32"; "10.0.0.7/32"]%string))) <->
  is_Some (trie_get (to_bits [10; 0; 0; 7]) (r_v4 (routes_of ["10.0.0.7/32"; "10.0.0.1/32"]%string))).
Proof.
  apply md5_input_host_routes; [apply host_routes_only_entries..|].
  all: vm_compute; repeat constructor.
Defined.

(** For tables with shorter prefixes it does not: no separator is written
    between two prefixes, so two tables with different keys hash the same
    bytes. *)
Theorem md5_input_ambiguous :
  md5_input (routes_of ["0.0.0.0/1"; "64.0.0.0/2"]%string) =
  md5_input (routes_of ["0.0.0.0/2"; "128.0.0.0/1"]%string) /\
  Keys (routes_of ["0.0.0.0/1"; "64.0.0.0/2"]%string) <>
  Keys (routes_of ["0.0.0.0/2"; "128.0.0.0/1"]%string).
Proof. split; vm_compute; congruence. Qed.

(** The walks stop at depth 128, before the node of an IPv6 host route:
    the enumeration lists exactly the IPv6 entries with prefixes of fewer than 128 bits. *)
Theorem Range_misses_v6_hosts {V} (r : Router V) (a : string) (v : V) :
  (a, v) ∈ collectRoutes (r_v6 r) "" 0 128 false <->
  exists p, trie_get p (r_v6 r) = Some v /\ (length p < 128)%nat /\
            a = prefixToCIDR (bits_text p) (length p) false.
Proof.
  change ""%string with (bits_text []). change 0%nat with (length (@nil bool)) at 1.
  rewrite collectRoutes_entries, list_elem_of_fmap. split.
  - intros ([p w] & E & Hin). unfold entry_text in E. simplify_eq/=.
    apply list_elem_of_filter in Hin as [Hs (s & -> & Hg)%trie_entries_elem].
    exists s. by split_and!.
  - intros (p & Hg & Hl & ->). exists (p, v). split; [done|].
    apply list_elem_of_filter. split; [done|]. apply trie_entries_elem. by exists p.
Qed.
