(* ===== verification/IPPool.v ===== *)
(** * The address pool (common/addresses/ip_pool.go)

    The allocator keeps the usable range of an IPv4 network and the texts of
    the addresses it has handed out. Its operations run under its mutex, so a
    history is a sequence of whole operations. A failing operation returns
    before it writes. [rand.New(rand.NewSource(seed)).Intn(n)] is a function of
    the seed and [n], and the clock is read once per attempt. *)

From S2P Require Import Prelude GoNet.

Record IPAllocator := MkIPAllocator {
  network : string;
  startIP : list Z;
  endIP : list Z;
  allocated : gmap string bool;
  subnetMask : string;
  subnetMaskBits : Z;
  totalIPs : Z }.

Record serializableIPAllocator := MkSerializable {
  s_Network : string;
  s_StartIP : string;
  s_EndIP : string;
  s_Allocated : list string;
  s_SubnetMask : string;
  s_SubnetMaskBits : Z;
  s_TotalIPs : Z }.

Inductive alloc_error :=
| InvalidCIDR | OnlyIPv4 | NoAvailable | NotFound
| OffsetOutOfRange (offset maxOffset : Z)
| AlreadyAllocated (ip : string) | InvalidFormat (ip : string)
| NotInNetwork (ip network : string) | OutOfRange (ip : string)
| NotAllocated (ip : string) | InvalidData.

(** [uint32(ip[0])<<24 | uint32(ip[1])<<16 | uint32(ip[2])<<8 | uint32(ip[3])];
    indexing the nil result of [To4] panics. *)
Definition ipToUint32 (ip : list Z) : option Z :=
  match To4 ip with
  | Some [a; b; c; d] =>
      Some (Z.lor (Z.lor (Z.lor (Z.shiftl a 24) (Z.shiftl b 16)) (Z.shiftl c 8)) d)
  | _ => None
  end.

Definition uint32ToIP (val : Z) : list Z :=
  IPv4 (u8 (Z.shiftr val 24)) (u8 (Z.shiftr val 16)) (u8 (Z.shiftr val 8)) (u8 val).

Definition calculateIPRangeSize (startIP endIP : list Z) : option Z :=
  start ← ipToUint32 startIP;
  stop ← ipToUint32 endIP;
  Some (if stop <? start then 0 else u32 (u32 (stop - start) + 1)).

(** [fmt.Sprintf("%d.%d.%d.%d", mask[0], mask[1], mask[2], mask[3])] *)
Definition mask_text (mask : list Z) : option string :=
  m0 ← index mask 0; m1 ← index mask 1; m2 ← index mask 2; m3 ← index mask 3;
  Some (dec m0 +:+ "." +:+ dec m1 +:+ "." +:+ dec m2 +:+ "." +:+ dec m3)%string.

(** [for i := range dst { dst[i] |= ^mask[i] }] *)
Fixpoint or_not_mask (dst mask : list Z) : option (list Z) :=
  match dst, mask with
  | [], _ => Some []
  | _ :: _, [] => None
  | x :: dst', m :: mask' => r ← or_not_mask dst' mask'; Some (Z.lor x (Z.lxor m 255) :: r)
  end.

(** [copy(make(net.IP, n), src)] *)
Definition copy_new (n : nat) (src : list Z) : list Z :=
  take n src ++ replicate (n - length src) 0.

Definition NewIPAllocator (networkCIDR : string) : outcome alloc_error IPAllocator :=
  match ParseCIDR networkCIDR with
  | None => Fail InvalidCIDR
  | Some (_, ipnet) =>
      let mask := net_Mask ipnet in
      subnetMask ← or_panic (mask_text mask);
      let subnetMaskBits := fst (mask_Size mask) in
      match To4 (net_IP ipnet) with
      | None => Fail OnlyIPv4
      | Some start =>
          let startAvailable := <[3%nat := 1]> (copy_new (length start) start) in
          let masked := default [] (ip_Mask (net_IP ipnet) mask) in
          endOr ← or_panic (or_not_mask (copy_new (length start) masked) mask);
          let endAvailable := <[3%nat := 254]> endOr in
          total ← or_panic (calculateIPRangeSize startAvailable endAvailable);
          Ret (MkIPAllocator networkCIDR startAvailable endAvailable ∅ subnetMask
                 subnetMaskBits total)
      end
  end.

(** [alloc.allocated[ip]] *)
Definition is_taken (alloc : IPAllocator) (ip : string) : bool := default false (allocated alloc !! ip).

Definition set_allocated (alloc : IPAllocator) (m : gmap string bool) : IPAllocator :=
  MkIPAllocator (network alloc) (startIP alloc) (endIP alloc) m (subnetMask alloc)
    (subnetMaskBits alloc) (totalIPs alloc).

(** [alloc.allocated[ip] = true] *)
Definition mark (alloc : IPAllocator) (ip : string) : IPAllocator :=
  set_allocated alloc (<[ip := true]> (allocated alloc)).

(** [fmt.Sprintf("%s/%d", ipStr, alloc.subnetMaskBits)] *)
Definition with_bits (alloc : IPAllocator) (ipStr : string) : string :=
  (ipStr +:+ "/" +:+ dec (subnetMaskBits alloc))%string.

Section Random.
Context (intn : Z -> Z -> Z) (unixMilli : nat -> Z).

(** The attempts left and the index of the current one. *)
Fixpoint random_loop (left i : nat) (alloc : IPAllocator) (start stop : Z)
    : outcome alloc_error (string * IPAllocator) :=
  match left with
  | O => Fail NotFound
  | S left' =>
      let n := u32 (u32 (stop - start) + 1) in
      if n <=? 0 then Panic
      else
        let randomIP := u32 (start + u32 (intn (unixMilli i) n)) in
        let ipStr := ip_String (uint32ToIP randomIP) in
        if negb (is_taken alloc ipStr) then Ret (with_bits alloc ipStr, mark alloc ipStr)
        else random_loop left' (S i) alloc start stop
  end.

Definition AssignRandom (alloc : IPAllocator) : outcome alloc_error (string * IPAllocator) :=
  if totalIPs alloc <=? u32 (Z.of_nat (size (allocated alloc))) then Fail NoAvailable
  else
    start ← or_panic (ipToUint32 (startIP alloc));
    stop ← or_panic (ipToUint32 (endIP alloc));
    random_loop 1000 0 alloc start stop.
End Random.

Definition AssignByOffset (alloc : IPAllocator) (offset : Z)
    : outcome alloc_error (string * IPAllocator) :=
  start ← or_panic (ipToUint32 (startIP alloc));
  let targetIP := u32 (start + offset) in
  stop ← or_panic (ipToUint32 (endIP alloc));
  if stop <? targetIP then Fail (OffsetOutOfRange offset (u32 (stop - start)))
  else
    let ipStr := ip_String (uint32ToIP targetIP) in
    if is_taken alloc ipStr then Fail (AlreadyAllocated ipStr)
    else Ret (with_bits alloc ipStr, mark alloc ipStr).

Definition AssignSpecific (alloc : IPAllocator) (ip : string) : outcome alloc_error IPAllocator :=
  match ParseIP ip with
  | None => Fail (InvalidFormat ip)
  | Some parsedIP =>
      '(_, ipnet) ← or_panic (ParseCIDR (network alloc));
      if negb (net_Contains ipnet parsedIP) then Fail (NotInNetwork ip (network alloc))
      else if is_taken alloc ip then Fail (AlreadyAllocated ip)
      else
        start ← or_panic (ipToUint32 (startIP alloc));
        stop ← or_panic (ipToUint32 (endIP alloc));
        target ← or_panic (ipToUint32 parsedIP);
        if (target <? start) || (stop <? target) then Fail (OutOfRange ip)
        else Ret (mark alloc ip)
  end.

Definition ReleaseIP (alloc : IPAllocator) (ip : string) : outcome alloc_error IPAllocator :=
  let ip := split_head "/" ip in
  if negb (is_taken alloc ip) then Fail (NotAllocated ip)
  else Ret (set_allocated alloc (delete ip (allocated alloc))).

Definition IsAllocated (alloc : IPAllocator) (ip : string) : bool :=
  is_taken alloc (split_head "/" ip).

Record Status := MkStatus {
  st_network : string; st_subnet_mask : string; st_total_ips : Z; st_allocated : Z;
  st_available : Z; st_allocated_ips : list string; st_start_ip : string; st_end_ip : string }.

(** [allocatedIPs] is the map's keys in the order the iteration yields them. *)
Definition GetStatus (alloc : IPAllocator) (allocatedIPs : list string) : Status :=
  MkStatus (network alloc) (subnetMask alloc) (totalIPs alloc)
    (Z.of_nat (size (allocated alloc)))
    (u32 (totalIPs alloc - u32 (Z.of_nat (size (allocated alloc)))))
    allocatedIPs (ip_String (startIP alloc)) (ip_String (endIP alloc)).

Record NetworkInfo := MkNetworkInfo {
  ni_network : string; ni_subnet_mask : string; ni_start_ip : string; ni_end_ip : string }.

Definition GetNetworkInfo (alloc : IPAllocator) : NetworkInfo :=
  MkNetworkInfo (network alloc) (subnetMask alloc) (ip_String (startIP alloc))
    (ip_String (endIP alloc)).

(** What [Bytes] hands to the JSON encoder ([SubnetMaskBits] is left zero). *)
Definition serializable (alloc : IPAllocator) (allocatedIPs : list string)
    : serializableIPAllocator :=
  MkSerializable (network alloc) (ip_String (startIP alloc)) (ip_String (endIP alloc))
    allocatedIPs (subnetMask alloc) 0 (totalIPs alloc).

Section Json.
Context {Data : Type}.
Context (marshal : serializableIPAllocator -> Data).
Context (unmarshal : Data -> option serializableIPAllocator).

Definition Bytes (alloc : IPAllocator) (allocatedIPs : list string) : Data :=
  marshal (serializable alloc allocatedIPs).

Definition LoadFromData (data : Data) : outcome alloc_error IPAllocator :=
  match unmarshal data with
  | None => Fail InvalidData
  | Some s =>
      allocator ← NewIPAllocator (s_Network s);
      Ret (foldl mark allocator (s_Allocated s))
  end.
End Json.
