(* ===== verification/IPPoolProps.v ===== *)
(** * Properties of the address pool

    The allocator of an IPv4 network refines a pool of address numbers: its
    state is the set of numbers handed out, an assignment adds a free number of
    the usable range, a release removes one. *)

From S2P Require Import Prelude GoNet IPPool.

(** ** The abstract pool *)

Inductive pool_op :=
| PRandom (unixMilli : nat -> Z)
| POffset (offset : Z)
| PSpecific (ip : string)
| PRelease (ip : string).

(** First address and prefix length of an IPv4 block; [None] for a text that is
    not a CIDR block and for IPv6 blocks, the IPv4-mapped ones included. *)
Definition v4_block (s : string) : option (Z * Z) :=
  '(_, n) ← ParseCIDR s;
  if bool_decide (length (net_Mask n) = 4%nat)
  then Some (be_get (net_IP n), fst (mask_Size (net_Mask n))) else None.

(** The usable range the allocator computes. *)
Definition low_end (base : Z) : Z := base - base mod 256 + 1.

Definition high_end (base ones : Z) : Z :=
  let last := base + 2 ^ (32 - ones) - 1 in last - last mod 256 + 254.

(** The text under which an address is recorded. *)
Definition addr_text (n : Z) : string := ip_String (uint32ToIP n).

(** The text an assignment returns. *)
Definition assigned_text (n ones : Z) : string := (addr_text n +:+ "/" +:+ dec ones)%string.

Definition intn_ok (intn : Z -> Z -> Z) : Prop := forall seed n, 0 < n -> 0 <= intn seed n < n.

(** The number drawn by the attempt [i]. *)
Definition draw (intn : Z -> Z -> Z) (unixMilli : nat -> Z) (base ones : Z) (i : nat) : Z :=
  low_end base + intn (unixMilli i) (high_end base ones - low_end base + 1).

Section Pool.
Context (intn : Z -> Z -> Z) (base ones : Z).

(** What an operation asks for: any number of the usable range, the number at
    an offset (the sum has 32 bits, so it can be a number below the range), a
    given number of the range and of the block. *)
Definition asks (op : pool_op) (n : Z) : Prop :=
  match op with
  | PRandom _ => low_end base <= n <= high_end base ones
  | POffset o => n = u32 (low_end base + o) /\ n <= high_end base ones
  | PSpecific s => s = addr_text n /\ low_end base <= n <= high_end base ones /\
      base <= n < base + 2 ^ (32 - ones)
  | PRelease _ => False
  end.

(** When an operation is refused: a random draw when as many numbers as the
    range has are handed out or all of a thousand draws are taken, an offset
    or a given address only when what it asks for does not exist or is taken,
    a release only when the address is not handed out. *)
Definition may_refuse (S : gset Z) (op : pool_op) : Prop :=
  match op with
  | PRandom ms => high_end base ones - low_end base + 1 <= Z.of_nat (size S) \/
      forall k, (k < 1000)%nat -> draw intn ms base ones k ∈ S
  | PRelease s => forall n, 0 <= n < 2 ^ 32 -> split_head "/" s = addr_text n -> n ∉ S
  | _ => forall n, 0 <= n < 2 ^ 32 -> asks op n -> n ∈ S
  end.

(** The steps of the pool, with the text returned by a successful operation. *)
Inductive pool_step (S : gset Z) : pool_op -> option string -> gset Z -> Prop :=
| step_assign op n :
    asks op n -> n ∉ S -> pool_step S op (Some (assigned_text n ones)) ({[n]} ∪ S)
| step_release s n :
    split_head "/" s = addr_text n -> n ∈ S ->
    pool_step S (PRelease s) (Some "") (S ∖ {[n]})
| step_refuse op : may_refuse S op -> pool_step S op None S.

(** Histories of the pool. *)
Inductive pool_run : gset Z -> list pool_op -> list (option string) -> gset Z -> Prop :=
| run_nil S : pool_run S [] [] S
| run_cons S op out S1 ops outs S2 :
    pool_step S op out S1 -> pool_run S1 ops outs S2 ->
    pool_run S (op :: ops) (out :: outs) S2.

(** A number is in the usable range, or it is that of a requested offset whose
    32-bit sum wrapped. *)
Definition in_pool (ops : list pool_op) (n : Z) : Prop :=
  0 <= n <= high_end base ones /\
  (n < low_end base -> exists o, POffset o ∈ ops /\ 2 ^ 32 <= low_end base + o /\
     n = low_end base + o - 2 ^ 32).
End Pool.

(** Histories of the allocator: an error leaves it as it was, [None] is a panic.
    [AssignSpecific] returns no text; the address it was given is shown. *)
Section Histories.
Context (intn : Z -> Z -> Z).

Definition run_pool_op (a : IPAllocator) (op : pool_op) : outcome alloc_error (string * IPAllocator) :=
  match op with
  | PRandom unixMilli => AssignRandom intn unixMilli a
  | POffset o => AssignByOffset a o
  | PSpecific s => a' ← AssignSpecific a s; Ret (with_bits a s, a')
  | PRelease s => a' ← ReleaseIP a s; Ret (""%string, a')
  end.

Fixpoint run_history (a : IPAllocator) (ops : list pool_op) : option (list (option string) * IPAllocator) :=
  match ops with
  | [] => Some ([], a)
  | op :: ops' =>
      match run_pool_op a op with
      | Ret (s, a') => '(outs, a'') ← run_history a' ops'; Some (Some s :: outs, a'')
      | Fail _ => '(outs, a'') ← run_history a ops'; Some (None :: outs, a'')
      | Panic => None
      end
  end.
End Histories.

(** Requests the refinement covers: the offset is a [uint32], and a given
    address is a dotted quad (or not an address at all; the IPv6 form of an IPv4
    address is left out). *)
Definition plain_request (op : pool_op) : Prop :=
  match op with
  | POffset o => 0 <= o < 2 ^ 32
  | PSpecific s => ParseIP s = None \/ exists n, 0 <= n < 2 ^ 32 /\ s = addr_text n
  | _ => True
  end.

(** The allocator of the block [base/ones] with the numbers [S] handed out. *)
Record tracks (net : string) (base ones : Z) (a : IPAllocator) (S : gset Z) : Prop := {
  tr_network : network a = net;
  tr_block : v4_block net = Some (base, ones);
  tr_start : ipToUint32 (startIP a) = Some (low_end base);
  tr_stop : ipToUint32 (endIP a) = Some (high_end base ones);
  tr_total : totalIPs a = high_end base ones - low_end base + 1;
  tr_bits : subnetMaskBits a = ones;
  tr_range : forall n, n ∈ S -> 0 <= n < 2 ^ 32;
  tr_dom : forall k, is_Some (allocated a !! k) <-> exists n, n ∈ S /\ k = addr_text n;
  tr_true : map_Forall (fun _ b => b = true) (allocated a) }.

(** ** Addresses as numbers *)

Lemma quad_be a b c d :
  byte_ok b -> byte_ok c -> byte_ok d ->
  Z.lor (Z.lor (Z.lor (Z.shiftl a 24) (Z.shiftl b 16)) (Z.shiftl c 8)) d = be_get [a; b; c; d].
Proof.
  intros Hb Hc Hd. red in Hb, Hc, Hd. unfold be_get. cbn [foldl].
  rewrite Z.shiftl_0_l, Z.lor_0_l.
  rewrite !Z.shiftl_lor, !Z.shiftl_shiftl by lia. done.
Qed.

Lemma ipToUint32_4 ip :
  length ip = 4%nat -> bytes_ok ip -> ipToUint32 ip = Some (be_get ip).
Proof.
  intros Hl Hok. quad_intro ip a b c d. unfold ipToUint32. rewrite To4_4 by done.
  by rewrite quad_be.
Qed.

Lemma ipToUint32_mapped ip :
  length ip = 4%nat -> bytes_ok ip -> ipToUint32 (v4InV6Prefix ++ ip) = Some (be_get ip).
Proof.
  intros Hl Hok. unfold ipToUint32. rewrite To4_mapped by done.
  quad_intro ip a b c d. by rewrite quad_be.
Qed.

Lemma u8_land x : u8 x = Z.land x 255.
Proof. unfold u8, uwrap. by rewrite land_255. Qed.

Lemma uint32ToIP_be n : uint32ToIP n = v4InV6Prefix ++ be_put 4 n.
Proof. unfold uint32ToIP, IPv4. rewrite !u8_land. cbn [be_put]. by rewrite Z.shiftr_0_r. Qed.

Lemma addr_text_be n : addr_text n = ip4_text (be_put 4 n).
Proof. unfold addr_text, ip_String. by rewrite uint32ToIP_be, To4_mapped. Qed.

Lemma length_be_put k v : length (be_put k v) = k.
Proof. induction k; simpl; auto. Qed.

Lemma addr_text_inj n m :
  0 <= n < 2 ^ 32 -> 0 <= m < 2 ^ 32 -> addr_text n = addr_text m -> n = m.
Proof.
  intros Hn Hm. rewrite !addr_text_be. intros E.
  apply ip4_text_inj in E; auto using length_be_put, be_put_ok.
  rewrite <- (be_get_put 4 n), <- (be_get_put 4 m) by done. by rewrite E.
Qed.

Lemma ParseIP_addr_text n : ParseIP (addr_text n) = Some (v4InV6Prefix ++ be_put 4 n).
Proof. rewrite addr_text_be. apply ParseIP_text; [apply length_be_put|apply be_put_ok]. Qed.

Lemma addr_text_number n : 0 <= n < 2 ^ 32 -> ipToUint32 (v4InV6Prefix ++ be_put 4 n) = Some n.
Proof.
  intros H. rewrite ipToUint32_mapped; [|apply length_be_put|apply be_put_ok].
  by rewrite be_get_put.
Qed.

Lemma addr_text_split n rest : split_head "/" (addr_text n +:+ String "/" rest) = addr_text n.
Proof.
  apply split_head_app. rewrite addr_text_be.
  apply ip4_text_not_slash; [apply length_be_put|apply be_put_ok].
Qed.

Lemma addr_text_split_id n : split_head "/" (addr_text n) = addr_text n.
Proof.
  apply split_head_none. rewrite addr_text_be.
  apply ip4_text_not_slash; [apply length_be_put|apply be_put_ok].
Qed.

(** ** Masks as arithmetic *)

Lemma byte_mask_check :
  forallb (fun n => forallb (fun b =>
    (Z.land b (mask_byte n) =? b - b mod 2 ^ (8 - n)) &&
    (Z.lor (Z.land b (mask_byte n)) (Z.lxor (mask_byte n) 255) =? b - b mod 2 ^ (8 - n) + 2 ^ (8 - n) - 1))
    (seqZ 0 256)) (seqZ 0 8) = true.
Proof. vm_compute. reflexivity. Qed.

Lemma byte_mask b n :
  byte_ok b -> 0 <= n < 8 ->
  Z.land b (mask_byte n) = b - b mod 2 ^ (8 - n) /\
  Z.lor (Z.land b (mask_byte n)) (Z.lxor (mask_byte n) 255) = b - b mod 2 ^ (8 - n) + 2 ^ (8 - n) - 1.
Proof.
  intros Hb Hn. red in Hb.
  pose proof (proj1 (forallb_forall _ _) byte_mask_check n
    ltac:(apply list_elem_of_In, elem_of_seqZ; lia)) as H. cbv beta in H.
  pose proof (proj1 (forallb_forall _ _) H b
    ltac:(apply list_elem_of_In, elem_of_seqZ; lia)) as H'. cbv beta in H'. bool_cases. done.
Qed.

Lemma mod_low b K r k : 0 <= k -> K = 2 ^ k -> forall j, 0 <= j <= k -> (b * K + r) mod 2 ^ j = r mod 2 ^ j.
Proof.
  intros Hk -> j Hj. replace k with ((k - j) + j) by lia. rewrite Z.pow_add_r by lia.
  rewrite Z.mul_assoc, Z.add_comm. apply Z.mod_add. lia.
Qed.

Lemma mod_high b K r j : 0 <= r < K -> 0 < j -> (b * K + r) mod (j * K) = (b mod j) * K + r.
Proof.
  intros Hr Hj. symmetry. apply Z.mod_unique with (q := b / j).
  - left. pose proof (Z.mod_pos_bound b j Hj). nia.
  - pose proof (Z.div_mod b j ltac:(lia)). nia.
Qed.

(** The host part of a block: masking clears it, the last address fills it. *)
Lemma mask_host l n :
  bytes_ok l -> 0 <= n <= 8 * zlen l ->
  let m := cidr_mask (length l) n in
  let h := 2 ^ (8 * zlen l - n) in
  be_get (zip_with Z.land l m) = be_get l - be_get l mod h /\ bytes_ok (zip_with Z.land l m) /\
  exists r, or_not_mask (zip_with Z.land l m) m = Some r /\
    be_get r = be_get l - be_get l mod h + h - 1 /\ bytes_ok r /\ length r = length l.
Proof.
  intros Hok. revert n. induction Hok as [|b l Hb Hok IH]; intros n Hn.
  { assert (n = 0) as -> by (unfold zlen in Hn; simpl in Hn; lia).
    split_and!; [done|constructor|]. exists []. split_and!; (done || constructor). }
  rewrite zlen_cons in *. pose proof (be_get_range l Hok) as Hr. pose proof (zlen_nonneg l) as Hz.
  assert (0 < 2 ^ (8 * zlen l)) as HK by lia.
  cbn [length cidr_mask]. destruct (8 <=? n) eqn:E; bool_cases.
  - destruct (IH (n - 8) ltac:(lia)) as (E1 & Hz1 & r & Er & E2 & Hr2 & Hl2).
    cbn [zip_with or_not_mask]. rewrite Er. cbn [mbind option_bind].
    replace (8 * (1 + zlen l) - n) with (8 * zlen l - (n - 8)) by lia.
    assert (Z.land b 255 = b) as Hb255 by (rewrite land_255; apply Z.mod_small; exact Hb).
    rewrite Hb255. change (Z.lxor 255 255) with 0. rewrite Z.lor_0_r.
    assert (bytes_ok (b :: zip_with Z.land l (cidr_mask (length l) (n - 8)))) as Hok1 by by constructor.
    assert (bytes_ok (b :: r)) as Hok2 by by constructor.
    split_and!; [|done|eexists; split_and!; [done| |done|simpl; congruence]].
    + rewrite !be_get_cons by (done || by constructor).
      rewrite (mod_low b _ _ (8 * zlen l)) by (done || lia).
      rewrite E1. unfold zlen. rewrite length_zip_with, length_cidr_mask, Nat.min_id. lia.
    + rewrite !be_get_cons by (done || by constructor).
      rewrite (mod_low b _ _ (8 * zlen l)) by (done || lia).
      rewrite E2. unfold zlen. rewrite Hl2. lia.
  - destruct (IH 0 ltac:(lia)) as (E1 & Hz1 & r & Er & E2 & Hr2 & Hl2).
    cbn [zip_with or_not_mask]. rewrite Er. cbn [mbind option_bind].
    destruct (byte_mask b n Hb ltac:(lia)) as [Hm1 Hm2].
    assert (0 < 2 ^ (8 - n)) as Hp by (apply Z.pow_pos_nonneg; lia).
    assert (2 ^ 8 = 2 ^ n * 2 ^ (8 - n)) as H8 by (rewrite <- Z.pow_add_r by lia; f_equal; lia).
    change (2 ^ 8) with 256 in H8.
    pose proof (Z.mod_pos_bound b _ Hp) as Hbm. pose proof (Z.div_mod b (2 ^ (8 - n)) ltac:(lia)) as Hbd.
    assert (0 <= b / 2 ^ (8 - n) < 2 ^ n) as Hbq.
    { red in Hb. split; [apply Z.div_pos; lia|]. apply Z.div_lt_upper_bound; lia. }
    assert (bytes_ok (Z.land b (mask_byte n) :: zip_with Z.land l (cidr_mask (length l) 0))) as Hok1.
    { constructor; [|done]. red. red in Hb. rewrite Hm1. lia. }
    assert (bytes_ok (Z.lor (Z.land b (mask_byte n)) (Z.lxor (mask_byte n) 255) :: r)) as Hok2.
    { constructor; [|done]. red. red in Hb. rewrite Hm2. nia. }
    rewrite Z.sub_0_r, Z.mod_small in E1, E2 by done.
    replace (2 ^ (8 * (1 + zlen l) - n)) with (2 ^ (8 - n) * 2 ^ (8 * zlen l))
      by (rewrite <- Z.pow_add_r by lia; f_equal; lia).
    split_and!; [|done|eexists; split_and!; [done| |done|simpl; congruence]].
    + rewrite !be_get_cons by (done || by constructor).
      rewrite mod_high by done. rewrite E1, Hm1. unfold zlen.
      rewrite length_zip_with, length_cidr_mask, Nat.min_id. lia.
    + rewrite !be_get_cons by (done || by constructor).
      rewrite mod_high by done. rewrite E2, Hm2. unfold zlen. rewrite Hl2. lia.
Qed.

(** ** IPv4 blocks *)

Lemma v4_block_shape s base ones :
  v4_block s = Some (base, ones) ->
  exists ip q, length q = 4%nat /\ bytes_ok q /\ 0 <= ones <= 32 /\
    ParseCIDR s = Some (ip, MkIPNet (zip_with Z.land q (CIDRMask ones 32)) (CIDRMask ones 32)) /\
    base = be_get q - be_get q mod 2 ^ (32 - ones).
Proof.
  unfold v4_block. destruct (ParseCIDR s) as [[ip n]|] eqn:EP; [|done]. cbn [mbind option_bind].
  case_bool_decide as Hm; [|done]. intros [= <- <-].
  pose proof EP as (o & bits & Hb & Ho & Hmask & Hl & Hs)%ParseCIDR_shape.
  destruct Hb as [-> | ->]; [|rewrite Hmask, length_CIDRMask_128 in Hm; done].
  unfold ParseCIDR in EP. destruct (cut_at _ s) as [[a mk]|]; [|done]. cbn [mbind option_bind] in EP.
  destruct (ParseAddr a) as [[ip16 bits]|] eqn:Ea; [|done]. cbn [mbind option_bind] in EP.
  destruct (dtoi mk 0 false) as [ones|] eqn:Ed; [|done]. cbn [mbind option_bind] in EP.
  destruct (bits <? ones) eqn:Eb; [done|]. bool_cases. apply dtoi_nonneg in Ed; [|done].
  destruct (ip_Mask ip16 (CIDRMask ones bits)) as [nip|] eqn:Em; [|done].
  cbn [mbind option_bind] in EP. simplify_eq. cbn [net_IP net_Mask] in *.
  apply ParseAddr_shape in Ea as (Hl16 & Hok & [[-> Hp]| ->]);
    [|by rewrite length_CIDRMask_128 in Hm].
  rewrite mask_Size_32 in * by lia. simplify_eq. cbn [fst].
  rewrite <- (take_drop 12 ip), Hp, ip_Mask_v4 in Em by (rewrite length_drop; lia). simplify_eq.
  assert (length (drop 12 ip) = 4%nat) as Hd by (rewrite length_drop; lia).
  assert (bytes_ok (drop 12 ip)) as Hdok by by apply Forall_drop.
  exists ip, (drop 12 ip). split_and!; try done.
  destruct (mask_host (drop 12 ip) o Hdok) as [E _]; [unfold zlen; lia|].
  unfold zlen in E. rewrite Hd in E. change (8 * Z.of_nat 4) with 32 in E.
  rewrite <- E. done.
Qed.

Lemma zip_land_idem l m : zip_with Z.land (zip_with Z.land l m) m = zip_with Z.land l m.
Proof.
  revert m. induction l as [|x l IH]; intros [|y m]; simpl; try done.
  by rewrite <- Z.land_assoc, Z.land_diag, IH.
Qed.

Lemma ip_Mask_4 ip m :
  length ip = 4%nat -> length m = 4%nat -> ip_Mask ip m = Some (zip_with Z.land ip m).
Proof.
  intros Hi Hm. unfold ip_Mask. rewrite Hi, Hm. cbv zeta.
  rewrite (bool_decide_eq_false_2 (4%nat = 16%nat /\ _)) by lia.
  rewrite Hm. rewrite (bool_decide_eq_false_2 (4%nat = 4%nat /\ 4%nat = 16%nat /\ _)) by lia.
  rewrite Hi. by rewrite bool_decide_eq_true_2.
Qed.

Lemma set_last l x :
  length l = 4%nat -> bytes_ok l -> byte_ok x ->
  be_get (<[3%nat := x]> l) = be_get l - be_get l mod 256 + x /\
  bytes_ok (<[3%nat := x]> l) /\ length (<[3%nat := x]> l) = 4%nat.
Proof.
  intros Hl Hok Hx. rewrite length_insert. split_and!; [|by apply Forall_insert|done].
  quad_intro l a b c d. simpl.
  rewrite !be_get_cons by (unfold bytes_ok; auto using Forall_cons_2, Forall_nil_2). unfold zlen. simpl.
  change (be_get []) with 0. red in Ha, Hb, Hc, Hd.
  match goal with |- context [?y mod 256] =>
    replace (y mod 256) with d by (apply Z.mod_unique with (q := a * 65536 + b * 256 + c); lia)
  end. lia.
Qed.

Lemma block_range base ones x :
  0 <= ones <= 32 -> base = x - x mod 2 ^ (32 - ones) -> 0 <= x < 2 ^ 32 ->
  0 <= base /\ base mod 2 ^ (32 - ones) = 0 /\ base + 2 ^ (32 - ones) <= 2 ^ 32 /\
  0 < 2 ^ (32 - ones).
Proof.
  intros Ho -> Hx. set (h := 2 ^ (32 - ones)).
  assert (0 < h) as Hh by (apply Z.pow_pos_nonneg; lia).
  assert (2 ^ 32 = 2 ^ ones * h) as Hp by (unfold h; rewrite <- Z.pow_add_r by lia; f_equal; lia).
  pose proof (Z.div_mod x h ltac:(lia)) as Hd. pose proof (Z.mod_pos_bound x h Hh) as Hm.
  replace (x - x mod h) with (h * (x / h)) by lia.
  assert (0 <= x / h < 2 ^ ones) as Hq by (split; [apply Z.div_pos|apply Z.div_lt_upper_bound]; lia).
  split_and!; [nia|rewrite Z.mul_comm; apply Z.mod_mul; lia|nia|done].
Qed.

(** A block starts at a multiple of its size. *)
Lemma v4_block_range s base ones :
  v4_block s = Some (base, ones) ->
  0 <= ones <= 32 /\ 0 <= base /\ base mod 2 ^ (32 - ones) = 0 /\
  base + 2 ^ (32 - ones) <= 2 ^ 32 /\ 0 < 2 ^ (32 - ones).
Proof.
  intros (ip & q & Hl & Hok & Ho & _ & Hb)%v4_block_shape. split; [done|].
  eapply block_range; [done..|].
  pose proof (be_get_range q Hok) as Hr. unfold zlen in Hr. by rewrite Hl in Hr.
Qed.

Lemma ends_range base ones :
  0 <= base -> 0 <= ones <= 32 -> base + 2 ^ (32 - ones) <= 2 ^ 32 -> 0 < 2 ^ (32 - ones) ->
  0 < low_end base <= high_end base ones /\ high_end base ones < 2 ^ 32.
Proof.
  intros Hb Ho Hr Hp. unfold low_end, high_end.
  set (last := base + 2 ^ (32 - ones) - 1).
  pose proof (Z.mod_pos_bound base 256 ltac:(lia)). pose proof (Z.mod_pos_bound last 256 ltac:(lia)).
  pose proof (Z.div_mod base 256 ltac:(lia)). pose proof (Z.div_mod last 256 ltac:(lia)).
  assert (base / 256 <= last / 256) by (apply Z.div_le_mono; lia).
  assert (last / 256 < 2 ^ 24) by (apply Z.div_lt_upper_bound; [lia|]; change (2 ^ 32) with (256 * 2 ^ 24) in Hr; lia).
  assert (0 <= base / 256) by (apply Z.div_pos; lia).
  change (2 ^ 32) with (256 * 2 ^ 24). lia.
Qed.

(** ** A new allocator *)

Lemma NewIPAllocator_tracks s base ones :
  v4_block s = Some (base, ones) ->
  exists a, NewIPAllocator s = Ret a /\ tracks s base ones a ∅ /\
    (length (startIP a) = 4%nat /\ bytes_ok (startIP a)) /\
    (length (endIP a) = 4%nat /\ bytes_ok (endIP a)) /\
    mask_text (CIDRMask ones 32) = Some (subnetMask a).
Proof.
  intros Hblk. pose proof (v4_block_range s base ones Hblk) as (Ho & Hb0 & _ & Hb1 & Hp).
  pose proof (ends_range base ones Hb0 Ho Hb1 Hp) as [Hlh Hh].
  pose proof Hblk as (ip & q & Hl & Hok & _ & HP & Hb)%v4_block_shape.
  set (mk := CIDRMask ones 32) in *.
  assert (length mk = 4%nat) as Hmk by apply length_CIDRMask_32.
  destruct (mask_host q ones Hok) as (E1 & Hok1 & r & Er & E2 & Hok2 & Hlr); [unfold zlen; lia|].
  unfold zlen in *. rewrite Hl in *. change (8 * Z.of_nat 4) with 32 in *.
  change (cidr_mask 4 ones) with mk in *. rewrite <- Hb in E1. rewrite <- Hb in E2.
  set (nip := zip_with Z.land q mk) in *.
  assert (length nip = 4%nat) as Hln by (unfold nip; rewrite length_zip_with; lia).
  destruct (set_last nip 1 Hln Hok1 ltac:(red; lia)) as (F1 & G1 & L1).
  destruct (set_last r 254 Hlr Hok2 ltac:(red; lia)) as (F2 & G2 & L2).
  rewrite E1 in F1. rewrite E2 in F2.
  assert (exists t, mask_text mk = Some t) as [mt Hmt].
  { clearbody mk. destruct mk as [|m0 [|m1 [|m2 [|m3 [|]]]]]; try done. by eexists. }
  assert (copy_new 4 nip = nip) as Hc by (unfold copy_new; rewrite firstn_all2, Hln, app_nil_r by lia; done).
  assert (ip_Mask nip mk = Some nip) as Him.
  { rewrite ip_Mask_4 by done. unfold nip. by rewrite zip_land_idem. }
  unfold NewIPAllocator. rewrite HP. cbn [net_Mask net_IP]. fold mk. rewrite Hmt.
  cbn [or_panic mbind outcome_mbind]. rewrite To4_4, Hln by done. rewrite Him. cbn [default from_option id].
  rewrite Hc, Er. cbn [or_panic mbind outcome_mbind].
  unfold calculateIPRangeSize. rewrite !ipToUint32_4 by done. rewrite F1, F2.
  cbn [or_panic mbind outcome_mbind option_bind].
  fold (low_end base). change (base + 2 ^ (32 - ones) - 1 - _ + 254) with (high_end base ones).
  rewrite (proj2 (Z.ltb_ge _ _)) by lia.
  assert (low_end base <> 0) by lia. change (2 ^ 32) with 4294967296 in Hh.
  rewrite !u32_small by (rewrite ?u32_small; lia).
  eexists. split_and!; [done| |done..].
  split; cbn [network startIP endIP totalIPs subnetMaskBits allocated]; try done.
  - rewrite ipToUint32_4, F1; done.
  - rewrite ipToUint32_4, F2; done.
  - fold mk. unfold mk. by rewrite mask_Size_32.
  - intros k. rewrite lookup_empty. split; [by intros []|]. intros (n & Hn & _). set_solver.
Qed.

(** ** Operations on a tracked allocator *)

Section Tracked.
Context (net : string) (base ones : Z) (a : IPAllocator) (S : gset Z).
Context (Ht : tracks net base ones a S).

Lemma tracks_bounds :
  0 <= ones <= 32 /\ 0 < low_end base <= high_end base ones /\ high_end base ones < 2 ^ 32.
Proof.
  pose proof (v4_block_range net base ones (tr_block _ _ _ _ _ Ht)) as (Ho & Hb0 & _ & Hb1 & Hp).
  split; [done|]. by apply ends_range.
Qed.

Lemma tracks_taken n :
  0 <= n < 2 ^ 32 -> is_taken a (addr_text n) = bool_decide (n ∈ S).
Proof.
  intros Hn. unfold is_taken. destruct (allocated a !! addr_text n) as [b|] eqn:E.
  - rewrite (tr_true _ _ _ _ _ Ht _ _ E). simpl.
    destruct (proj1 (tr_dom _ _ _ _ _ Ht (addr_text n))) as (m & Hm & Em); [by eexists|].
    apply addr_text_inj in Em as ->; [|done|by apply (tr_range _ _ _ _ _ Ht)].
    by rewrite bool_decide_eq_true_2.
  - rewrite bool_decide_eq_false_2; [done|]. intros Hin.
    destruct (proj2 (tr_dom _ _ _ _ _ Ht (addr_text n))) as [b Hb]; [by exists n|]. congruence.
Qed.

Lemma tracks_mark n :
  0 <= n < 2 ^ 32 -> tracks net base ones (mark a (addr_text n)) ({[n]} ∪ S).
Proof.
  intros Hn. destruct Ht. split; try done; cbn [allocated mark set_allocated].
  - intros m [->%elem_of_singleton|Hm]%elem_of_union; auto.
  - intros k. destruct (decide (k = addr_text n)) as [->|Hne].
    + rewrite lookup_insert_eq. split; [|done]. intros _. exists n. set_solver.
    + rewrite lookup_insert_ne, tr_dom0 by done. set_solver.
  - by apply map_Forall_insert_2.
Qed.

Lemma tracks_delete n :
  n ∈ S -> tracks net base ones (set_allocated a (delete (addr_text n) (allocated a))) (S ∖ {[n]}).
Proof.
  intros Hn. destruct Ht. split; try done; cbn [allocated set_allocated].
  - intros m Hm. apply tr_range0. set_solver.
  - intros k. destruct (decide (k = addr_text n)) as [->|Hne].
    + rewrite lookup_delete_eq. split; [by intros []|]. intros (m & Hm & E).
      apply addr_text_inj in E; [set_solver|auto|apply tr_range0; set_solver].
    + rewrite lookup_delete_ne, tr_dom0 by done. set_solver.
  - by apply map_Forall_delete.
Qed.

Lemma tracks_size : size (allocated a) = size S.
Proof.
  destruct Ht. rewrite <- size_dom.
  assert (dom (allocated a) = list_to_set (addr_text <$> elements S)) as ->.
  { apply set_eq. intros k. rewrite elem_of_dom, tr_dom0, elem_of_list_to_set, list_elem_of_fmap.
    set_solver. }
  rewrite size_list_to_set, length_fmap; [done|].
  apply NoDup_fmap_2_strong; [|apply NoDup_elements].
  intros x y Hx%elem_of_elements Hy%elem_of_elements. auto using addr_text_inj.
Qed.

(** Every branch of an assignment by offset; the sum wraps at 32 bits. *)
Lemma AssignByOffset_spec offset :
  let n := u32 (low_end base + offset) in
  AssignByOffset a offset =
  if high_end base ones <? n then Fail (OffsetOutOfRange offset (high_end base ones - low_end base))
  else if bool_decide (n ∈ S) then Fail (AlreadyAllocated (addr_text n))
  else Ret (addr_text n +:+ "/" +:+ dec ones, mark a (addr_text n))%string.
Proof.
  intros n. pose proof tracks_bounds as (_ & Hl & Hh). change (2 ^ 32) with 4294967296 in Hh.
  assert (0 <= n < 2 ^ 32) as Hn by (apply (uwrap_range 32); lia).
  unfold AssignByOffset. rewrite (tr_start _ _ _ _ _ Ht), (tr_stop _ _ _ _ _ Ht).
  cbn [or_panic mbind outcome_mbind]. fold n. fold (addr_text n).
  rewrite (u32_small (_ - _)) by lia. rewrite tracks_taken by done.
  unfold with_bits. by rewrite (tr_bits _ _ _ _ _ Ht).
Qed.

Lemma net_Contains_number n ip N :
  0 <= n < 2 ^ 32 -> ParseCIDR net = Some (ip, N) ->
  net_Contains N (v4InV6Prefix ++ be_put 4 n) = bool_decide (base <= n < base + 2 ^ (32 - ones)).
Proof.
  intros Hn HP. pose proof (tr_block _ _ _ _ _ Ht) as Hblk.
  pose proof (v4_block_range _ _ _ Hblk) as (Ho & Hb0 & Hbm & Hb1 & Hp).
  apply v4_block_shape in Hblk as (ip' & q & Hl & Hok & _ & HP' & Hb).
  rewrite HP in HP'. injection HP' as <- ->.
  pose proof (length_CIDRMask_32 ones) as Hmk.
  pose proof (length_be_put 4 n) as Hln. pose proof (be_put_ok 4 n) as Hnok.
  destruct (mask_host q ones Hok) as (E1 & Hok1 & _); [unfold zlen; lia|].
  destruct (mask_host (be_put 4 n) ones Hnok) as (E2 & Hok2 & _); [unfold zlen; lia|].
  rewrite be_get_put in E2 by done.
  unfold zlen in E1, E2. rewrite Hl in *. rewrite Hln in *. change (8 * Z.of_nat 4) with 32 in *.
  change (cidr_mask 4 ones) with (CIDRMask ones 32) in *. rewrite <- Hb in E1.
  unfold net_Contains, network_number_and_mask. cbn [net_IP net_Mask].
  assert (length (zip_with Z.land q (CIDRMask ones 32)) = 4%nat) as Hz by (rewrite length_zip_with; lia).
  rewrite To4_4 by done. cbn [default from_option id]. rewrite Hmk, Hz.
  rewrite !(bool_decide_eq_true_2 (4%nat = 4%nat)) by done.
  rewrite To4_mapped by done. cbn [default from_option id]. rewrite zip_land_idem, Hln, Hz.
  apply bool_decide_ext. split.
  - intros [_ E]. apply (f_equal be_get) in E. rewrite E1, E2 in E.
    pose proof (Z.mod_pos_bound n _ Hp). lia.
  - intros Hr. split; [done|]. apply be_get_inj; [done..|by rewrite !length_zip_with, Hl, Hln|].
    rewrite E1, E2. set (h := 2 ^ (32 - ones)) in *.
    assert (n mod h = n - base) as ->; [|lia].
    symmetry. apply Z.mod_unique with (q := base / h); [lia|].
    pose proof (Z.div_mod base h ltac:(lia)). lia.
Qed.

Lemma AssignSpecific_spec n :
  0 <= n < 2 ^ 32 ->
  AssignSpecific a (addr_text n) =
  if negb (bool_decide (base <= n < base + 2 ^ (32 - ones))) then Fail (NotInNetwork (addr_text n) net)
  else if bool_decide (n ∈ S) then Fail (AlreadyAllocated (addr_text n))
  else if (n <? low_end base) || (high_end base ones <? n) then Fail (OutOfRange (addr_text n))
  else Ret (mark a (addr_text n)).
Proof.
  intros Hn. pose proof (v4_block_shape _ _ _ (tr_block _ _ _ _ _ Ht)) as (ip & q & _ & _ & _ & HP & _).
  unfold AssignSpecific. rewrite ParseIP_addr_text, (tr_network _ _ _ _ _ Ht), HP.
  cbn [or_panic mbind outcome_mbind]. rewrite (net_Contains_number n _ _ Hn HP).
  rewrite (tr_start _ _ _ _ _ Ht), (tr_stop _ _ _ _ _ Ht), tracks_taken by done.
  rewrite addr_text_number by done. done.
Qed.

Lemma ReleaseIP_spec s n :
  0 <= n < 2 ^ 32 -> split_head "/" s = addr_text n ->
  ReleaseIP a s = if bool_decide (n ∈ S)
                  then Ret (set_allocated a (delete (addr_text n) (allocated a)))
                  else Fail (NotAllocated (addr_text n)).
Proof.
  intros Hn Hs. unfold ReleaseIP. rewrite Hs, tracks_taken by done. by case_bool_decide.
Qed.
End Tracked.

(** ** Random assignment *)

Section RandomProofs.
Context (intn : Z -> Z -> Z) (Hintn : intn_ok intn) (unixMilli : nat -> Z).
Context (net : string) (base ones : Z) (a : IPAllocator) (S : gset Z).
Context (Ht : tracks net base ones a S).

Let d := draw intn unixMilli base ones.

Lemma draw_range i : low_end base <= d i <= high_end base ones.
Proof.
  pose proof (tracks_bounds _ _ _ _ _ Ht) as (_ & Hl & Hh).
  pose proof (Hintn (unixMilli i) (high_end base ones - low_end base + 1) ltac:(lia)).
  unfold d, draw. lia.
Qed.

Lemma random_loop_spec left i :
  match random_loop intn unixMilli left i a (low_end base) (high_end base ones) with
  | Ret (s, a') => exists j, (i <= j < i + left)%nat /\ (d j ∉ S) /\ s = assigned_text (d j) ones /\
      a' = mark a (addr_text (d j)) /\ forall k, (i <= k < j)%nat -> d k ∈ S
  | Fail e => e = NotFound /\ forall k, (i <= k < i + left)%nat -> d k ∈ S
  | Panic => False
  end.
Proof.
  pose proof (tracks_bounds _ _ _ _ _ Ht) as (_ & Hl & Hh). change (2 ^ 32) with 4294967296 in Hh.
  revert i. induction left as [|left IH]; intros i; cbn [random_loop].
  { split; [done|]. lia. }
  rewrite (u32_small (_ - _)), (u32_small (_ + 1)) by (rewrite ?u32_small; lia).
  rewrite (proj2 (Z.leb_gt _ _)) by lia.
  pose proof (Hintn (unixMilli i) (high_end base ones - low_end base + 1) ltac:(lia)).
  rewrite (u32_small (intn _ _)), (u32_small (low_end base + _)) by (rewrite ?u32_small; lia).
  fold (draw intn unixMilli base ones i). fold d. fold (addr_text (d i)).
  pose proof (draw_range i). rewrite (tracks_taken _ _ _ _ _ Ht) by lia.
  case_bool_decide as Hin; cbn [negb].
  - specialize (IH (Datatypes.S i)). destruct (random_loop _ _ _ _ _ _ _) as [[s a']|e|]; [| |done].
    + destruct IH as (j & Hj & Hd & -> & -> & Hk). exists j. split_and!; try done; [lia|lia|].
      intros k Hk'. destruct (decide (k = i)) as [->|]; [done|]. apply Hk. lia.
    + destruct IH as [-> Hk]. split; [done|]. intros k Hk'.
      destruct (decide (k = i)) as [->|]; [done|]. apply Hk. lia.
  - exists i. unfold with_bits. rewrite (tr_bits _ _ _ _ _ Ht). split_and!; try done; lia.
Qed.

Lemma S_not_full n :
  (forall m, m ∈ S -> low_end base <= m <= high_end base ones) ->
  low_end base <= n <= high_end base ones -> n ∉ S ->
  Z.of_nat (size S) < high_end base ones - low_end base + 1.
Proof using Ht.
  clear Hintn. intros HS Hn Hin. pose proof (tracks_bounds _ _ _ _ _ Ht) as (_ & Hl & Hh).
  assert ({[n]} ∪ S ⊆ list_to_set (C:=gset Z) (seqZ (low_end base) (high_end base ones - low_end base + 1))) as Hsub.
  { intros m Hm. rewrite elem_of_list_to_set, elem_of_seqZ. apply elem_of_union in Hm as [Hm|Hm].
    - apply elem_of_singleton in Hm. lia.
    - apply HS in Hm. lia. }
  apply subseteq_size in Hsub. rewrite size_union, size_singleton in Hsub by set_solver.
  rewrite size_list_to_set, length_seqZ in Hsub by apply NoDup_seqZ. lia.
Qed.

Lemma AssignRandom_spec :
  match AssignRandom intn unixMilli a with
  | Ret (s, a') => exists j, (j < 1000)%nat /\ (d j ∉ S) /\ s = assigned_text (d j) ones /\
      a' = mark a (addr_text (d j)) /\ forall k, (k < j)%nat -> d k ∈ S
  | Fail e =>
      e = NoAvailable /\ high_end base ones - low_end base + 1 <= u32 (Z.of_nat (size S)) \/
      e = NotFound /\ forall k, (k < 1000)%nat -> d k ∈ S
  | Panic => False
  end.
Proof.
  unfold AssignRandom. rewrite (tr_total _ _ _ _ _ Ht), (tracks_size _ _ _ _ _ Ht).
  destruct (_ <=? _) eqn:E; bool_cases; [by left|].
  rewrite (tr_start _ _ _ _ _ Ht), (tr_stop _ _ _ _ _ Ht). cbn [or_panic mbind outcome_mbind].
  pose proof (random_loop_spec 1000 0) as H. destruct (random_loop _ _ _ _ _ _ _) as [[s a']|e|]; [| |done].
  - destruct H as (j & Hj & Hd & -> & -> & Hk). exists j. split_and!; try done; [lia|].
    intros k Hk'. apply Hk. lia.
  - right. destruct H as [-> Hk]. split; [done|]. intros k Hk'. apply Hk. lia.
Qed.
End RandomProofs.

(** ** The refinement *)

Lemma step_pool intn base ones S op out S' ops :
  0 <= low_end base <= high_end base ones -> high_end base ones < 2 ^ 32 -> plain_request op -> op ∈ ops ->
  pool_step intn base ones S op out S' ->
  (forall n, n ∈ S -> in_pool base ones ops n) -> forall n, n ∈ S' -> in_pool base ones ops n.
Proof.
  intros Hl Hh Hp Hin Hstep HS. destruct Hstep as [op n Hn _|s n _ _|op _]; [|set_solver|done].
  intros m [->%elem_of_singleton|Hm]%elem_of_union; [|auto].
  change (2 ^ 32) with 4294967296 in *.
  destruct op as [ms|o|s|s]; simpl in Hn, Hp; unfold in_pool; try (change (2 ^ 32) with 4294967296; lia); [].
  change (2 ^ 32) with 4294967296. destruct Hn as [-> Hn].
  pose proof (uwrap_range 32 (low_end base + o) ltac:(lia)) as Hr. fold (u32 (low_end base + o)) in Hr.
  split; [lia|]. intros Hlt. exists o.
  destruct (decide (low_end base + o < 4294967296)); [rewrite u32_small in Hlt by lia; lia|].
  split_and!; [done|lia|]. unfold u32, uwrap. change (2 ^ 32) with 4294967296.
  symmetry. apply Z.mod_unique with (q := 1); lia.
Qed.

Lemma pool_run_range intn base ones S ops outs S' all :
  0 <= low_end base <= high_end base ones -> high_end base ones < 2 ^ 32 ->
  Forall plain_request ops -> ops ⊆ all -> pool_run intn base ones S ops outs S' ->
  (forall n, n ∈ S -> in_pool base ones all n) -> forall n, n ∈ S' -> in_pool base ones all n.
Proof.
  intros Hl Hh Hp Hsub Hrun. revert Hp Hsub.
  induction Hrun as [|S op out S1 ops outs S2 Hstep _ IH]; intros Hp Hsub HS; [done|].
  apply Forall_cons in Hp as [Hp1 Hp]. apply IH; [done|set_solver|].
  eapply step_pool; [done..| |done|done]. set_solver.
Qed.

Section Refinement.
Context (intn : Z -> Z -> Z) (Hintn : intn_ok intn).
Context (net : string) (base ones : Z).

Lemma is_taken_number a S k :
  tracks net base ones a S -> is_taken a k = true -> exists n, n ∈ S /\ k = addr_text n.
Proof.
  intros Ht H. apply (tr_dom _ _ _ _ _ Ht). unfold is_taken in H.
  destruct (allocated a !! k); [by eexists|done].
Qed.

Lemma specific_step a S s :
  tracks net base ones a S -> plain_request (PSpecific s) ->
  match run_pool_op intn a (PSpecific s) with
  | Ret (s', a') => exists S', pool_step intn base ones S (PSpecific s) (Some s') S' /\ tracks net base ones a' S'
  | Fail _ => pool_step intn base ones S (PSpecific s) None S
  | Panic => False
  end.
Proof using Type.
  intros Ht Hop. cbn [run_pool_op].
  destruct Hop as [HN|(n & Hn & ->)].
  { unfold AssignSpecific. rewrite HN. cbn [mbind outcome_mbind]. apply step_refuse.
    intros n _ [-> _]. by rewrite ParseIP_addr_text in HN. }
  assert ((low_end base <= n <= high_end base ones -> base <= n < base + 2 ^ (32 - ones) -> n ∈ S) ->
    may_refuse intn base ones S (PSpecific (addr_text n))) as Hr.
  { intros H m Hm (E & Hm1 & Hm2). apply addr_text_inj in E as <-; auto. }
  rewrite (AssignSpecific_spec _ _ _ _ _ Ht) by done.
  case_bool_decide; cbn [negb]; [|by apply step_refuse, Hr].
  case_bool_decide; [by apply step_refuse, Hr|].
  destruct (_ || _) eqn:E; [apply step_refuse, Hr|].
  { apply orb_true_iff in E as [E|E]; bool_cases; lia. }
  apply orb_false_iff in E as [E1 E2]. bool_cases. cbn [mbind outcome_mbind].
  eexists. unfold with_bits. rewrite (tr_bits _ _ _ _ _ Ht).
  split; [by apply step_assign|by apply tracks_mark].
Qed.

Lemma run_pool_op_step a S op :
  tracks net base ones a S -> plain_request op ->
  match run_pool_op intn a op with
  | Ret (s, a') => exists S', pool_step intn base ones S op (Some s) S' /\ tracks net base ones a' S'
  | Fail _ => pool_step intn base ones S op None S
  | Panic => False
  end.
Proof.
  intros Ht Hop. pose proof (tracks_bounds _ _ _ _ _ Ht) as (_ & Hl & Hh).
  destruct op as [ms|o|s|s]; cbn [run_pool_op].
  - pose proof (AssignRandom_spec intn Hintn ms _ _ _ _ _ Ht) as H.
    destruct (AssignRandom intn ms a) as [[s a']|e|]; [| |done].
    + destruct H as (j & _ & Hd & -> & -> & _).
      pose proof (draw_range intn Hintn ms _ _ _ _ _ Ht j).
      eexists. split; [by apply step_assign|]. apply tracks_mark; [done|lia].
    + apply step_refuse. destruct H as [[_ H]|[_ H]]; [left|by right].
      etransitivity; [exact H|]. apply Z.mod_le; lia.
  - rewrite (AssignByOffset_spec _ _ _ _ _ Ht). set (n := u32 (low_end base + o)).
    assert (0 <= n < 2 ^ 32) as Hn by (apply (uwrap_range 32); lia).
    destruct (_ <? _) eqn:E; bool_cases; [apply step_refuse; simpl; fold n; lia|].
    case_bool_decide; [by apply step_refuse; intros m _ [-> _]|].
    eexists. split; [by apply step_assign|by apply tracks_mark].
  - by apply specific_step.
  - unfold ReleaseIP. destruct (is_taken a (split_head "/" s)) eqn:E; cbn [negb mbind outcome_mbind].
    + destruct (is_taken_number _ _ _ Ht E) as (n & Hn & Es). rewrite Es.
      eexists. split; [by eapply step_release|by apply tracks_delete].
    + apply step_refuse. intros n Hn Hs HS. rewrite Hs, (tracks_taken _ _ _ _ _ Ht) in E by done.
      by rewrite bool_decide_eq_true_2 in E.
Qed.

Lemma run_history_run a S ops :
  tracks net base ones a S -> Forall plain_request ops ->
  exists outs a' S', run_history intn a ops = Some (outs, a') /\
    pool_run intn base ones S ops outs S' /\ tracks net base ones a' S'.
Proof.
  intros Ht Hops. revert a S Ht. induction Hops as [|op ops Hop _ IH]; intros a S Ht.
  { eexists [], a, S. split_and!; [done|constructor|done]. }
  cbn [run_history]. pose proof (run_pool_op_step a S op Ht Hop) as H.
  destruct (run_pool_op intn a op) as [[s a1]|e|]; [| |done].
  - destruct H as (S1 & Hstep & Ht1). destruct (IH a1 S1 Ht1) as (outs & a' & S' & -> & Hrun & Ht').
    eexists _, a', S'. split_and!; [done|by econstructor|done].
  - destruct (IH a S Ht) as (outs & a' & S' & -> & Hrun & Ht').
    eexists _, a', S'. split_and!; [done|by econstructor|done].
Qed.
End Refinement.

(** ** Saving and loading *)

(** What the JSON codec is relied on for: it restores what it wrote, for
    strings of ASCII characters. *)
Definition ascii_text (s : string) : bool := string_all (fun c => ord c <? 128) s.

Definition ascii_serializable (s : serializableIPAllocator) : Prop :=
  ascii_text (s_Network s) = true /\ ascii_text (s_StartIP s) = true /\
  ascii_text (s_EndIP s) = true /\ Forall (fun k => ascii_text k = true) (s_Allocated s) /\
  ascii_text (s_SubnetMask s) = true.

Definition json_roundtrip {Data} (marshal : serializableIPAllocator -> Data)
    (unmarshal : Data -> option serializableIPAllocator) : Prop :=
  forall s, ascii_serializable s -> unmarshal (marshal s) = Some s.

Lemma foldl_mark a0 keys :
  foldl mark a0 keys = set_allocated a0 (foldl (fun m k => <[k := true]> m) (allocated a0) keys).
Proof.
  revert a0. induction keys as [|k keys IH]; intros a0; simpl; [by destruct a0|]. by rewrite IH.
Qed.

Lemma foldl_true (keys : list string) (m : gmap string bool) k :
  foldl (fun m k => <[k := true]> m) m keys !! k = if decide (k ∈ keys) then Some true else m !! k.
Proof.
  revert m. induction keys as [|x keys IH]; intros m; cbn [foldl].
  { case_decide; set_solver. }
  rewrite IH. destruct (decide (k = x)) as [->|Hne].
  - rewrite lookup_insert_eq. repeat case_decide; set_solver.
  - rewrite lookup_insert_ne by done. repeat case_decide; set_solver.
Qed.

Lemma foldl_true_keys (m : gmap string bool) keys :
  map_Forall (fun _ b => b = true) m -> keys ≡ₚ (map_to_list m).*1 ->
  foldl (fun m k => <[k := true]> m) ∅ keys = m.
Proof.
  intros Hm Hk. apply map_eq. intros k. rewrite foldl_true, lookup_empty.
  assert (k ∈ keys <-> k ∈ (map_to_list m).*1) as Hiff by by rewrite Hk.
  rewrite (decide_ext _ _ _ _ Hiff).
  destruct (m !! k) as [b|] eqn:E.
  - rewrite (Hm _ _ E). case_decide as Hd; [done|]. destruct Hd.
    apply list_elem_of_fmap. exists (k, b). split; [done|]. by apply elem_of_map_to_list.
  - case_decide as Hd; [|done]. apply list_elem_of_fmap in Hd as ([k' b] & -> & Hin).
    apply elem_of_map_to_list in Hin. simpl in E. congruence.
Qed.

Lemma NewIPAllocator_fields s a :
  NewIPAllocator s = Ret a -> network a = s /\ allocated a = ∅.
Proof.
  unfold NewIPAllocator. destruct (ParseCIDR s) as [[ip n]|]; [|done].
  destruct (mask_text _); [|done]. cbn [or_panic mbind outcome_mbind].
  destruct (To4 _); [|done]. destruct (or_not_mask _ _); [|done]. cbn [or_panic mbind outcome_mbind].
  destruct (calculateIPRangeSize _ _); [|done]. cbn [or_panic mbind outcome_mbind].
  by intros [= <-].
Qed.

Lemma ascii_dec_all n : 0 <= n < 256 -> ascii_text (dec n) = true.
Proof.
  intros H. unfold ascii_text. eapply string_all_impl; [|apply dec_digits; lia].
  intros c Hc. unfold is_digit in Hc. bool_cases. lia.
Qed.

Lemma ascii_dot a b c d :
  byte_ok a -> byte_ok b -> byte_ok c -> byte_ok d ->
  ascii_text (dec a +:+ "." +:+ dec b +:+ "." +:+ dec c +:+ "." +:+ dec d) = true.
Proof.
  intros Ha Hb Hc Hd. pose proof ascii_dec_all as H. unfold ascii_text in *.
  rewrite !string_all_app, !H by done. done.
Qed.

Lemma ascii_ip4_text ip : length ip = 4%nat -> bytes_ok ip -> ascii_text (ip4_text ip) = true.
Proof. intros Hl Hok. quad_intro ip a b c d. by apply ascii_dot. Qed.

Lemma ascii_addr_text n : ascii_text (addr_text n) = true.
Proof. rewrite addr_text_be. apply ascii_ip4_text; [apply length_be_put|apply be_put_ok]. Qed.

Lemma cidr_mask_ok k n : 0 <= n -> bytes_ok (cidr_mask k n).
Proof.
  revert n. induction k as [|k IH]; intros n Hn; cbn [cidr_mask]; [constructor|].
  destruct (8 <=? n) eqn:E; bool_cases; constructor; try (apply IH; lia); [done|].
  apply (below_cases (fun n => byte_ok (mask_byte n)) 8); [lia|]. by repeat constructor.
Qed.

Lemma mask_text_ascii m t : bytes_ok m -> mask_text m = Some t -> ascii_text t = true.
Proof.
  intros Hok. unfold mask_text.
  destruct (index m 0) as [a|] eqn:Ea, (index m 1) as [b|] eqn:Eb, (index m 2) as [c|] eqn:Ec,
    (index m 3) as [d|] eqn:Ed; try done. intros [= <-].
  rewrite index_lookup in Ea, Eb, Ec, Ed by lia. unfold bytes_ok in Hok.
  rewrite Forall_lookup in Hok. apply ascii_dot; eauto.
Qed.

(** The texts of a new allocator of an IPv4 block are ASCII. *)
Lemma NewIPAllocator_ascii s base ones a :
  v4_block s = Some (base, ones) -> NewIPAllocator s = Ret a ->
  ascii_text (subnetMask a) = true /\ ascii_text (ip_String (startIP a)) = true /\
  ascii_text (ip_String (endIP a)) = true.
Proof.
  intros Hblk Hnew. pose proof (v4_block_range _ _ _ Hblk) as [Ho _].
  destruct (NewIPAllocator_tracks _ _ _ Hblk) as (a' & Hnew' & _ & [Hl1 Hk1] & [Hl2 Hk2] & Hm).
  rewrite Hnew in Hnew'. injection Hnew' as <-. unfold ip_String. rewrite !To4_4 by done.
  split_and!; [|by apply ascii_ip4_text..].
  eapply mask_text_ascii; [|exact Hm]. apply cidr_mask_ok. lia.
Qed.

(** No operation changes the fixed fields. *)
Lemma random_loop_fixed intn ms left i a lo hi s a' :
  random_loop intn ms left i a lo hi = Ret (s, a') -> set_allocated a' ∅ = set_allocated a ∅.
Proof.
  revert i. induction left as [|left IH]; intros i; cbn [random_loop]; [done|].
  destruct (_ <=? 0); [done|]. destruct (negb _); [by intros [= <- <-]|]. apply IH.
Qed.

Lemma run_pool_op_fixed intn a op s a' :
  run_pool_op intn a op = Ret (s, a') -> set_allocated a' ∅ = set_allocated a ∅.
Proof.
  destruct op as [ms|o|t|t]; simpl.
  - unfold AssignRandom. destruct (_ <=? _); [done|].
    (destruct (ipToUint32 (startIP a)), (ipToUint32 (endIP a)); cbn [or_panic mbind outcome_mbind]; try done).
    apply random_loop_fixed.
  - unfold AssignByOffset.
    (destruct (ipToUint32 (startIP a)), (ipToUint32 (endIP a)); cbn [or_panic mbind outcome_mbind]; try done).
    destruct (_ <? _); [done|]. destruct (is_taken _ _); [done|]. by intros [= <- <-].
  - unfold AssignSpecific. destruct (ParseIP t); [|done].
    destruct (ParseCIDR _) as [[? ?]|]; [|done]. cbn [or_panic mbind outcome_mbind].
    destruct (negb _); [done|]. destruct (is_taken _ _); [done|].
    (destruct (ipToUint32 (startIP a)), (ipToUint32 (endIP a)), (ipToUint32 l); cbn [or_panic mbind outcome_mbind]; try done).
    destruct (_ || _); [done|]. by intros [= <- <-].
  - unfold ReleaseIP. destruct (negb _); [done|]. by intros [= <- <-].
Qed.

Lemma run_history_fixed intn a ops outs a' :
  run_history intn a ops = Some (outs, a') -> set_allocated a' ∅ = set_allocated a ∅.
Proof.
  revert a outs. induction ops as [|op ops IH]; intros a outs; cbn [run_history]; [by intros [= <- <-]|].
  destruct (run_pool_op intn a op) as [[s a1]|e|] eqn:E; [| |done].
  - destruct (run_history intn a1 ops) as [[outs1 a2]|] eqn:E1; [|done]. intros [= <- <-].
    rewrite (IH _ _ E1). by eapply run_pool_op_fixed.
  - destruct (run_history intn a ops) as [[outs1 a2]|] eqn:E1; [|done]. intros [= <- <-]. eauto.
Qed.

Lemma set_allocated_id a m : set_allocated a ∅ = set_allocated m ∅ -> a = set_allocated m (allocated a).
Proof. destruct a, m. unfold set_allocated. simpl. by intros [=->->->->->->]. Qed.

(** ** Properties *)

(** C5. The allocator of an IPv4 network implements the pool of its address
    numbers. For every history of random assignments, assignments by any 32-bit
    offset, assignments of addresses given as dotted quads, and releases: no
    operation panics; a random assignment hands out a free number of the usable
    range, one by offset the number at the offset, a specific one the address
    asked for; a random assignment is refused only when as many numbers as the
    range has are handed out or its thousand draws are all taken, the others
    only when what they ask for is taken or does not exist; at the end the
    recorded texts are exactly those of the numbers handed out. The range is
    the one the code computes, from .1 in the first 256 addresses to .254 in
    the last ones, which is the block without its ends up to a prefix of 24
    bits and reaches beyond the block for longer ones. Every number handed out
    is in the range, except that of an offset whose 32-bit sum wraps, which may
    be below it. *)
Theorem allocator_refines_pool intn net base ones ops :
  intn_ok intn -> v4_block net = Some (base, ones) -> Forall plain_request ops ->
  exists a outs a' S, NewIPAllocator net = Ret a /\ run_history intn a ops = Some (outs, a') /\
    pool_run intn base ones ∅ ops outs S /\
    (forall n, n ∈ S -> in_pool base ones ops n) /\
    forall k, IsAllocated a' k = true <-> exists n, n ∈ S /\ split_head "/" k = addr_text n.
Proof.
  intros Hi Hblk Hops. destruct (NewIPAllocator_tracks _ _ _ Hblk) as (a & Hnew & Ht & _).
  destruct (run_history_run intn Hi _ _ _ a ∅ ops Ht Hops) as (outs & a' & S & Hrun & Hpool & Ht').
  pose proof (tracks_bounds _ _ _ _ _ Ht) as (_ & Hl & Hh).
  exists a, outs, a', S. split_and!; [done..| |].
  { eapply pool_run_range; [lia|done|done|reflexivity|done|set_solver]. }
  intros k. unfold IsAllocated. split.
  - intros H. by eapply is_taken_number.
  - intros (n & Hn & ->). rewrite (tracks_taken _ _ _ _ _ Ht') by by eapply tr_range.
    by apply bool_decide_eq_true_2.
Qed.

Definition sample_history : list pool_op :=
  [POffset 0; PRandom (fun _ => 7); PSpecific "10.1.0.9"; POffset 0; PRelease "10.1.0.1/16"; POffset 0;
   POffset 4294967295].

Lemma addr_text_sample : exists n, 0 <= n < 2 ^ 32 /\ "10.1.0.9"%string = addr_text n.
Proof. exists 167837705. split; [lia|]. vm_compute. reflexivity. Qed.

Lemma allocator_refines_pool_witness :
  exists a' S outs, pool_run (fun seed n => seed mod n) 167837696 16 ∅ sample_history outs S /\
    forall k, IsAllocated a' k = true <-> exists n, n ∈ S /\ split_head "/" k = addr_text n.
Proof.
  destruct (allocator_refines_pool (fun seed n => seed mod n) "10.1.0.0/16" 167837696 16 sample_history)
    as (a & outs & a' & S & _ & _ & Hrun & _ & Hk).
  - intros seed n Hn. by apply Z.mod_pos_bound.
  - vm_compute. reflexivity.
  - unfold sample_history.
    repeat apply Forall_cons_2; try apply Forall_nil_2; simpl; try done.
    right. apply addr_text_sample.
  - by exists a', S, outs.
Defined.

(** For a network of at most 24 prefix bits the usable range is the block
    without its first (network) and last (broadcast) address, and the total
    the allocator reports is its size. *)
Theorem usable_range net base ones a :
  v4_block net = Some (base, ones) -> ones <= 24 -> NewIPAllocator net = Ret a ->
  ipToUint32 (startIP a) = Some (base + 1) /\
  ipToUint32 (endIP a) = Some (base + 2 ^ (32 - ones) - 2) /\
  totalIPs a = 2 ^ (32 - ones) - 2.
Proof.
  intros Hblk Ho Hnew. pose proof (v4_block_range _ _ _ Hblk) as (Ho' & Hb0 & Hbm & Hb1 & Hp).
  destruct (NewIPAllocator_tracks _ _ _ Hblk) as (a' & Hnew' & Ht & _).
  rewrite Hnew in Hnew'. injection Hnew' as <-. destruct Ht.
  assert (2 ^ (32 - ones) = 256 * 2 ^ (24 - ones)) as Hh
    by (change 256 with (2 ^ 8); rewrite <- Z.pow_add_r by lia; f_equal; lia).
  assert (base mod 256 = 0) as Hb256.
  { pose proof (Z.div_mod base (2 ^ (32 - ones)) ltac:(lia)) as Hd.
    rewrite Hbm, Z.add_0_r, Hh in Hd. rewrite Hd, <- Z.mul_assoc, Z.mul_comm. apply Z.mod_mul. lia. }
  assert ((base + 2 ^ (32 - ones) - 1) mod 256 = 255) as Hl256.
  { pose proof (Z.div_mod base 256 ltac:(lia)) as Hd. symmetry.
    apply Z.mod_unique with (q := base / 256 + 2 ^ (24 - ones) - 1); lia. }
  unfold low_end, high_end in *. rewrite Hb256, Hl256 in *.
  rewrite tr_start0, tr_stop0, tr_total0. split_and!; [f_equal; lia..|lia].
Qed.

Lemma usable_range_witness :
  exists a, NewIPAllocator "10.1.2.3/20" = Ret a /\ totalIPs a = 4094.
Proof.
  destruct (NewIPAllocator "10.1.2.3/20") as [a|e|] eqn:E; [|vm_compute in E; discriminate..].
  exists a. split; [done|].
  destruct (usable_range "10.1.2.3/20" 167837696 20 a) as (_ & _ & H);
    [vm_compute; reflexivity|lia|exact E|exact H].
Defined.

(** For a network of more than 24 prefix bits the last byte of the range
    is still 1 to 254: a new allocator hands out some address that does not
    belong to its network. *)
Theorem long_prefix_escapes net base ones :
  v4_block net = Some (base, ones) -> 24 < ones ->
  exists a offset n a', NewIPAllocator net = Ret a /\ 0 <= offset < 254 /\
    AssignByOffset a offset = Ret (assigned_text n ones, a') /\
    ~ (base <= n < base + 2 ^ (32 - ones)).
Proof.
  intros Hblk Ho. pose proof (v4_block_range _ _ _ Hblk) as (Ho' & Hb0 & Hbm & Hb1 & Hp).
  pose proof (ends_range base ones Hb0 Ho' Hb1 Hp) as [Hlh Hh].
  destruct (NewIPAllocator_tracks _ _ _ Hblk) as (a & Hnew & Ht & _).
  assert (2 ^ (32 - ones) <= 2 ^ 7) as H7 by (apply Z.pow_le_mono_r; lia).
  change (2 ^ 7) with 128 in H7. change (2 ^ 32) with 4294967296 in Hh.
  pose proof (Z.mod_pos_bound base 256 ltac:(lia)) as Hm.
  set (last := base + 2 ^ (32 - ones) - 1).
  assert (last / 256 * 256 + 254 = high_end base ones /\ base / 256 * 256 + 1 = low_end base) as [E1 E2].
  { unfold high_end, low_end. fold last. pose proof (Z.div_mod last 256 ltac:(lia)).
    pose proof (Z.div_mod base 256 ltac:(lia)). lia. }
  assert (base / 256 <= last / 256) by (apply Z.div_le_mono; unfold last; lia).
  exists a. destruct (decide (base mod 256 <= 1)) as [Hlow|Hlow].
  - exists 253, (low_end base + 253), (mark a (addr_text (low_end base + 253))).
    split_and!; [done|lia|lia| |unfold low_end; lia].
    rewrite (AssignByOffset_spec _ _ _ _ _ Ht), u32_small by lia.
    rewrite (proj2 (Z.ltb_ge _ _)) by lia. by rewrite bool_decide_eq_false_2.
  - exists 0, (low_end base), (mark a (addr_text (low_end base))).
    split_and!; [done|lia|lia| |unfold low_end; lia].
    rewrite (AssignByOffset_spec _ _ _ _ _ Ht), u32_small by lia.
    rewrite Z.add_0_r, (proj2 (Z.ltb_ge _ _)) by lia. by rewrite bool_decide_eq_false_2.
Qed.

Lemma long_prefix_escapes_witness :
  exists a offset n a', NewIPAllocator "10.0.0.16/28" = Ret a /\ 0 <= offset < 254 /\
    AssignByOffset a offset = Ret (assigned_text n 28, a') /\ ~ (167772176 <= n < 167772192).
Proof. apply (long_prefix_escapes "10.0.0.16/28" 167772176 28); [vm_compute; reflexivity|lia]. Defined.

(** A random assignment returns the first of its 1000 draws that is free,
    and fails when the pool is full or all of them are taken; when the clock
    stands still during the call all draws are the same number, so the call
    fails whenever that single number is taken. *)
Theorem AssignRandom_first_free intn unixMilli net base ones a S :
  intn_ok intn -> tracks net base ones a S ->
  (forall m, m ∈ S -> low_end base <= m <= high_end base ones) ->
  let d := draw intn unixMilli base ones in
  (forall j, (j < 1000)%nat -> d j ∉ S -> (forall k, (k < j)%nat -> d k ∈ S) ->
     AssignRandom intn unixMilli a = Ret (assigned_text (d j) ones, mark a (addr_text (d j)))) /\
  ((forall i, unixMilli i = unixMilli O) -> d O ∈ S ->
     exists e, AssignRandom intn unixMilli a = Fail e).
Proof.
  intros Hi Ht HS d. pose proof (AssignRandom_spec intn Hi unixMilli _ _ _ _ _ Ht) as H. fold d in H.
  pose proof (tracks_bounds _ _ _ _ _ Ht) as (_ & Hl & Hh). change (2 ^ 32) with 4294967296 in Hh.
  split.
  - intros j Hj Hd Hk.
    pose proof (S_not_full _ _ _ _ _ Ht (d j) HS (draw_range intn Hi unixMilli _ _ _ _ _ Ht j) Hd) as Hsz.
    destruct (AssignRandom intn unixMilli a) as [[s a']|e|]; [|exfalso|done].
    + destruct H as (j' & Hj' & Hd' & -> & -> & Hk'). destruct (Nat.lt_trichotomy j j') as [Hlt|[->|Hlt]].
      * destruct (Hd (Hk' _ Hlt)).
      * done.
      * destruct (Hd' (Hk _ Hlt)).
    + destruct H as [[_ H]|[_ H]]; [|destruct (Hd (H _ Hj))]. rewrite u32_small in H by lia. lia.
  - intros Hclock Hd. destruct (AssignRandom intn unixMilli a) as [[s a']|e|]; [exfalso|by exists e|done].
    destruct H as (j & _ & Hj & _). unfold d, draw in *. by rewrite Hclock in Hj.
Qed.

Lemma AssignRandom_first_free_witness :
  exists a, NewIPAllocator "10.1.0.0/16" = Ret a /\
    AssignRandom (fun seed n => seed mod n) (fun _ => 4) a =
    Ret ("10.1.0.5/16"%string, mark a "10.1.0.5").
Proof.
  destruct (NewIPAllocator_tracks "10.1.0.0/16" 167837696 16) as (a & Hnew & Ht & _);
    [vm_compute; reflexivity|].
  exists a. split; [done|].
  destruct (AssignRandom_first_free (fun seed n => seed mod n) (fun _ => 4) _ _ _ _ _
    (fun seed n Hn => Z.mod_pos_bound seed n Hn) Ht) as [H _]; [intros m Hm; set_solver|].
  specialize (H O ltac:(lia) ltac:(set_solver) ltac:(lia)).
  assert (draw (fun seed n => seed mod n) (fun _ => 4) 167837696 16 0 = 167837701) as Hd by (vm_compute; reflexivity).
  rewrite Hd in H.
  assert (addr_text 167837701 = "10.1.0.5"%string) as Ha by (vm_compute; reflexivity).
  assert (assigned_text 167837701 16 = "10.1.0.5/16"%string) as Hb by (vm_compute; reflexivity).
  rewrite Ha, Hb in H. exact H.
Defined.

(** The offset is added in 32 bits and only compared with the end of the
    range: the largest offset yields the address before the first usable one,
    the network address of a block of at most 24 prefix bits. *)
Theorem AssignByOffset_wraps net base ones a S :
  tracks net base ones a S -> low_end base - 1 ∉ S ->
  AssignByOffset a (2 ^ 32 - 1) =
  Ret (assigned_text (low_end base - 1) ones, mark a (addr_text (low_end base - 1))).
Proof.
  intros Ht HS. pose proof (tracks_bounds _ _ _ _ _ Ht) as (_ & Hl & Hh).
  rewrite (AssignByOffset_spec _ _ _ _ _ Ht).
  assert (u32 (low_end base + (2 ^ 32 - 1)) = low_end base - 1) as ->.
  { unfold u32, uwrap. replace (low_end base + (2 ^ 32 - 1)) with (low_end base - 1 + 1 * 2 ^ 32) by lia.
    rewrite Z.mod_add, Z.mod_small by lia. done. }
  rewrite (proj2 (Z.ltb_ge _ _)) by lia. by rewrite bool_decide_eq_false_2.
Qed.

Lemma AssignByOffset_wraps_witness :
  exists a a', NewIPAllocator "10.1.0.0/16" = Ret a /\
    AssignByOffset a 4294967295 = Ret ("10.1.0.0/16"%string, a').
Proof.
  destruct (NewIPAllocator_tracks "10.1.0.0/16" 167837696 16) as (a & Hnew & Ht & _);
    [vm_compute; reflexivity|].
  exists a. eexists. split; [done|].
  pose proof (AssignByOffset_wraps _ _ _ _ _ Ht ltac:(set_solver)) as H.
  assert (assigned_text (low_end 167837696 - 1) 16 = "10.1.0.0/16"%string) as E by (vm_compute; reflexivity).
  rewrite E in H. exact H.
Defined.

(** C39. Loading what the allocator of an IPv4 network saved after any history, in
    whatever order the map was iterated, restores the allocator: the range, the
    mask, the total, and exactly the allocated addresses. Offsets have 32 bits,
    given addresses are dotted quads, and the JSON codec restores ASCII texts. *)
Theorem save_load_roundtrip {Data} (marshal : serializableIPAllocator -> Data) unmarshal
    intn net base ones ops a outs a' keys :
  json_roundtrip marshal unmarshal -> intn_ok intn ->
  v4_block net = Some (base, ones) -> ascii_text net = true ->
  Forall plain_request ops ->
  NewIPAllocator net = Ret a -> run_history intn a ops = Some (outs, a') ->
  keys ≡ₚ (map_to_list (allocated a')).*1 ->
  LoadFromData unmarshal (Bytes marshal a' keys) = Ret a'.
Proof.
  intros Hjson Hi Hblk Hnet Hops Hnew Hrun Hkeys.
  destruct (NewIPAllocator_tracks _ _ _ Hblk) as (a1 & Hnew1 & Ht & _).
  rewrite Hnew in Hnew1. injection Hnew1 as <-.
  destruct (run_history_run intn Hi _ _ _ a ∅ ops Ht Hops) as (outs' & a2 & S & Hrun' & _ & Ht').
  rewrite Hrun in Hrun'. injection Hrun' as <- <-.
  pose proof (set_allocated_id _ _ (run_history_fixed _ _ _ _ _ Hrun)) as Hfix.
  destruct (NewIPAllocator_ascii _ _ _ _ Hblk Hnew) as (Ha1 & Ha2 & Ha3).
  unfold LoadFromData, Bytes. rewrite Hjson.
  - cbn [s_Network s_Allocated serializable]. rewrite (tr_network _ _ _ _ _ Ht'), Hnew.
    cbn [mbind outcome_mbind]. rewrite foldl_mark.
    destruct (NewIPAllocator_fields _ _ Hnew) as [_ ->].
    rewrite (foldl_true_keys _ _ (tr_true _ _ _ _ _ Ht') Hkeys). by rewrite <- Hfix.
  - unfold ascii_serializable. cbn [s_Network s_StartIP s_EndIP s_Allocated s_SubnetMask serializable].
    rewrite (tr_network _ _ _ _ _ Ht'). rewrite Hfix.
    cbn [startIP endIP subnetMask set_allocated]. split_and!; try done.
    apply Forall_forall. intros k Hk. rewrite Hkeys in Hk.
    apply list_elem_of_fmap in Hk as ([k' b] & -> & Hin). apply elem_of_map_to_list in Hin.
    destruct (proj1 (tr_dom _ _ _ _ _ Ht' k')) as (n & _ & ->); [by eexists|]. apply ascii_addr_text.
Qed.

Lemma save_load_roundtrip_witness :
  exists a outs a', NewIPAllocator "10.1.0.0/16" = Ret a /\
    run_history (fun seed n => seed mod n) a [POffset 4] = Some (outs, a') /\
    LoadFromData Some (Bytes id a' (map_to_list (allocated a')).*1) = Ret a'.
Proof.
  assert (intn_ok (fun seed n => seed mod n)) as Hi by (intros seed n Hn; by apply Z.mod_pos_bound).
  destruct (NewIPAllocator_tracks "10.1.0.0/16" 167837696 16) as (a & Hnew & Ht & _);
    [vm_compute; reflexivity|].
  assert (Forall plain_request [POffset 4]) as Hops.
  { repeat constructor; vm_compute; congruence. }
  destruct (run_history_run _ Hi _ _ _ a ∅ [POffset 4] Ht Hops) as (outs & a' & S & Hrun & _ & _).
  exists a, outs, a'. split_and!; [done..|].
  apply (save_load_roundtrip id Some (fun seed n => seed mod n) "10.1.0.0/16" 167837696 16 [POffset 4] a outs a');
    [done|done|vm_compute; reflexivity|vm_compute; reflexivity|done|done|done|done].
Defined.
