(* ===== verification/HostRoutes.v ===== *)
(** * Tables of host routes

    The routes of a network are the addresses of its sessions, as blocks of 32
    bits. *)

From S2P Require Import Prelude GoNet Router RouterSpec RouterKeys RouterProps IPPool IPPoolProps.

(** ** Keys of addresses *)

Definition addr_bits (a : Z) : list bool := to_bits (be_put 4 a).

Lemma addr_bits_inj a b : 0 <= a < 2 ^ 32 -> 0 <= b < 2 ^ 32 -> addr_bits a = addr_bits b -> a = b.
Proof.
  intros Ha Hb E. apply to_bits_inj in E; [|apply be_put_ok..].
  rewrite <- (be_get_put 4 a), <- (be_get_put 4 b) by done. by rewrite E.
Qed.

Lemma assigned_split a ones : split_head "/" (assigned_text a ones) = addr_text a.
Proof. apply addr_text_split. Qed.

Lemma assigned_inj ones a b :
  0 <= a < 2 ^ 32 -> 0 <= b < 2 ^ 32 -> assigned_text a ones = assigned_text b ones -> a = b.
Proof. intros Ha Hb E. apply addr_text_inj; [done..|]. by rewrite <- !(assigned_split _ ones), E. Qed.

Lemma host_cidr a : (addr_text a +:+ "/32")%string = cidr_text (be_put 4 a) (Z.of_nat 32).
Proof. by rewrite addr_text_be. Qed.

Definition host_text (a : Z) : string := (addr_text a +:+ "/32")%string.

Lemma host_text_split a : split_head "/" (host_text a) = addr_text a.
Proof. apply (addr_text_split a). Qed.

Lemma host_text_inj a b : 0 <= a < 2 ^ 32 -> 0 <= b < 2 ^ 32 -> host_text a = host_text b -> a = b.
Proof. intros Ha Hb E. apply addr_text_inj; [done..|]. by rewrite <- (host_text_split a), E, host_text_split. Qed.

Lemma host_key a :
  cidr_key (addr_text a +:+ "/32") = Some (FamV4, addr_bits a) /\ mapped_cidr (addr_text a +:+ "/32") = false.
Proof.
  rewrite host_cidr. destruct (cidr_key_text (be_put 4 a) 32) as [-> ->]; [done|apply be_put_ok|lia|].
  by split.
Qed.

Lemma assigned_parse a ones :
  0 <= ones <= 32 ->
  ip_String (match ParseCIDR (assigned_text a ones) with Some (ip, _) => ip | None => [] end) = addr_text a.
Proof.
  intros Ho. unfold assigned_text. rewrite addr_text_be.
  change (ip4_text (be_put 4 a) +:+ "/" +:+ dec ones)%string with (cidr_text (be_put 4 a) ones).
  rewrite ParseCIDR_text by (apply length_be_put || apply be_put_ok || done).
  unfold ip_String. by rewrite To4_mapped by apply length_be_put.
Qed.

(** ** Look-ups and listings *)

Section Hosts.
Context {V : Type}.
Implicit Types (r : Router V) (t : Tables V).

Definition hosts_only t : Prop := t_v6 t = ∅ /\ forall k, is_Some (t_v4 t !! k) -> exists a, 0 <= a < 2 ^ 32 /\ k = addr_bits a.

Lemma length_addr_bits a : length (addr_bits a) = 32%nat.
Proof. unfold addr_bits. by rewrite length_to_bits, length_be_put. Qed.

(** Only the route of the whole address can match. *)
Lemma host_lookup r t a :
  represents r t -> (forall k v, t_v4 t !! k = Some v -> length k = 32%nat) ->
  RouteString r (addr_text a) = Some (t_v4 t !! addr_bits a).
Proof.
  intros Hr Hf. rewrite (RouteString_lpm r t) by done. unfold spec_route.
  rewrite ParseIP_addr_text, To4_mapped by apply length_be_put. f_equal. fold (addr_bits a).
  pose proof (length_addr_bits a) as Hlen.
  assert (forall n, (n < 32)%nat -> lpm (fun p => t_v4 t !! p) (addr_bits a) n = None) as Hshort.
  { intros n Hn. destruct (lpm _ _ n) as [v|] eqn:E; [|done]. apply lpm_Some in E as (k & Hk & Hg & _).
    apply Hf in Hg. rewrite length_take, Hlen in Hg. lia. }
  transitivity (match t_v4 t !! take 32 (addr_bits a) with
                | Some v => Some v | None => lpm (fun p => t_v4 t !! p) (addr_bits a) 31 end); [reflexivity|].
  rewrite take_ge by lia. destruct (t_v4 t !! addr_bits a); [done|]. apply Hshort. lia.
Qed.

Lemma hosts_length t k v : hosts_only t -> t_v4 t !! k = Some v -> length k = 32%nat.
Proof. intros [_ H] Hk. destruct (H k) as (a & _ & ->); [by eexists|]. apply length_addr_bits. Qed.

Lemma entries_none (n : TrieNode V) : (forall p, trie_get p n = None) -> trie_entries [] n = [].
Proof.
  intros H. destruct (trie_entries [] n) as [|[q v] l] eqn:E; [done|].
  assert ((q, v) ∈ trie_entries [] n) as Hin by (rewrite E; apply list_elem_of_here).
  apply trie_entries_elem in Hin as (s & _ & Hs). by rewrite H in Hs.
Qed.

Lemma host_entry_text a : 0 <= a < 2 ^ 32 -> prefixToCIDR (bits_text (addr_bits a)) 32 true = host_text a.
Proof.
  intros Ha. pose proof (length_addr_bits a) as Hl. destruct (prefixToCIDR_text (addr_bits a)) as (ip & H1 & H2 & H3 & H4); [lia|].
  rewrite Hl in H3, H4. rewrite H4. unfold host_text. rewrite host_cidr. f_equal. apply to_bits_inj; [done|apply be_put_ok|].
  by rewrite H3, app_nil_r.
Qed.

(** The listing of a table of host routes. *)
Lemma Keys_hosts r t s :
  represents r t -> hosts_only t ->
  s ∈ Keys r <-> exists a, 0 <= a < 2 ^ 32 /\ is_Some (t_v4 t !! addr_bits a) /\ s = host_text a.
Proof.
  intros Hr Hh. pose proof Hr as (_ & _ & Hg4 & Hg6). pose proof Hh as [Hv6 Hv4]. unfold Keys, Range.
  assert (bounded_tables t) as Hb.
  { split; intros k [v Hk]; [apply (hosts_length t) in Hk; [lia|done]|by rewrite Hv6, lookup_empty in Hk]. }
  destruct (v4_walk r t Hr Hb) as [-> _].
  assert (collectRoutes (r_v6 r) "" 0 128 false = []) as ->.
  { change ""%string with (bits_text []). change 0%nat with (length (@nil bool)) at 1. rewrite collectRoutes_entries.
    rewrite entries_none; [done|]. intros p. by rewrite Hg6, Hv6, lookup_empty. }
  rewrite app_nil_r, <- list_fmap_compose, list_elem_of_fmap. split.
  - intros ([k v] & -> & (k' & -> & Hk)%trie_entries_elem). cbn in Hk. rewrite Hg4 in Hk.
    destruct (Hv4 k' (ex_intro _ v Hk)) as (a & Ha & ->). exists a. split; [done|]. split; [by eexists|].
    cbn [compose entry_text fst app]. rewrite length_addr_bits. by apply host_entry_text.
  - intros (a & Ha & [v Hv] & ->). exists (addr_bits a, v). split.
    + cbn [compose entry_text fst]. rewrite length_addr_bits. symmetry. by apply host_entry_text.
    + apply trie_entries_elem. exists (addr_bits a). by rewrite Hg4.
Qed.
End Hosts.
