(* ===== verification/Protocol.v ===== *)
(** * The framed transport (common/protocol/protocol.go)

    A [Transport] owns two 65535-byte arrays and an upstream connection. Slices
    of the arrays are kept as views (array, offset, length), so that what a
    later write does to an earlier slice is what happens in the program: a copy
    reads the view at the time of the copy. A slice expression whose bounds are
    not within the array panics.

    The compressor and the encryptor are interfaces in the source: records of
    operations here. An operation gets the bytes to process, the length of the
    target slice and the contents of the target up to its capacity, and
    returns the count or the error together with the new contents. *)

From S2P Require Import Prelude.

Inductive perr :=
| ErrInvalidMagic | ErrMessageTooLarge | ErrMissingCompressor | ErrMissingEncryptor
| ErrDecompressionFailed | ErrInvalidCiphertext | ErrCapacity | ErrRandom
| EOF | UnexpectedEOF | ErrUpstream | ErrSizesTooSmall | ErrBufArrayTooSmall | ErrBufSliceTooSmall
| ErrLevel | ErrKey.

Definition MaxTransportByteSize : Z := 65535.
Definition MaxTransportBatchSize : Z := 128.
Definition DefaultCompressThreshold : Z := 1024 * 10.

Definition TypeTransport : Z := 0x0.
Definition TypeBatchTransport : Z := 0x1.
Definition TypeCompress : Z := 0x10.
Definition TypeEncrypted : Z := 0x11.

Definition Chacha20Poly1305NonceSize : Z := 24.
Definition Chacha20Poly1305KeySize : Z := 32.
Definition Chacha20Poly1305Overhead : Z := 16.

Definition transportMagicBytes : list Z := [0x56; 0x4E; 0x45; 0x54].

(** [data], [len(buf)] and [buf[:cap(buf)]]; the second component is the new
    contents of the target. *)
Definition codec_op := list Z -> Z -> list Z -> outcome perr Z * list Z.

Record Compressor := MkCompressor { Compress : codec_op; Decompress : codec_op }.

(** [Encrypt] also consumes the bytes the random source yields in the call
    ([None] when it fails). *)
Record Encryptor := MkEncryptor { Encrypt : option (list Z) -> codec_op; Decrypt : codec_op }.

Record TransportOptions := MkOptions {
  magic : list Z;
  typ : string;
  encrypt : bool;
  compress : bool;
  compressor : option Compressor;
  encryptor : option Encryptor;
  compressThreshold : Z }.

(** The connection: bytes still to be read, bytes written, whether it is open,
    and whether writes fail. *)
Record Upstream := MkUpstream { u_in : list Z; u_out : list Z; u_open : bool; u_fail : bool }.

Record Transport := MkTransport {
  options : TransportOptions;
  upstream : Upstream;
  buffer : list Z;
  cryptoBuffer : list Z }.

(** ** Options *)

Definition defaultTransportOptions : TransportOptions :=
  MkOptions transportMagicBytes "" true false None None DefaultCompressThreshold.

Definition TransportOpt := TransportOptions -> TransportOptions.

Definition WithMagic (m : list Z) : TransportOpt := fun o =>
  MkOptions m (typ o) (encrypt o) (compress o) (compressor o) (encryptor o) (compressThreshold o).
Definition WithType (ty : string) : TransportOpt := fun o =>
  MkOptions (magic o) ty (encrypt o) (compress o) (compressor o) (encryptor o) (compressThreshold o).
Definition EnableCompress (b : bool) : TransportOpt := fun o =>
  MkOptions (magic o) (typ o) (encrypt o) b (compressor o) (encryptor o) (compressThreshold o).
Definition WithCompressor (c : option Compressor) : TransportOpt := fun o =>
  MkOptions (magic o) (typ o) (encrypt o) (compress o) c (encryptor o) (compressThreshold o).
Definition EnableEncrypt (b : bool) : TransportOpt := fun o =>
  MkOptions (magic o) (typ o) b (compress o) (compressor o) (encryptor o) (compressThreshold o).
Definition WithEncryptor (e : option Encryptor) : TransportOpt := fun o =>
  MkOptions (magic o) (typ o) (encrypt o) (compress o) (compressor o) e (compressThreshold o).
Definition WithCompressThreshold (n : Z) : TransportOpt := fun o =>
  MkOptions (magic o) (typ o) (encrypt o) (compress o) (compressor o) (encryptor o) n.

Definition NewTransport (up : Upstream) (opts : list TransportOpt) : Transport :=
  MkTransport (foldl (fun o f => f o) defaultTransportOptions opts) up
    (replicate (Z.to_nat MaxTransportByteSize) 0) (replicate (Z.to_nat MaxTransportByteSize) 0).

(** ** The transport monad

    State is threaded through errors: a failing call has still changed the
    arrays and consumed input. An error carries the count returned with it. *)

Definition tm (A : Type) : Type := Transport -> outcome (Z * perr) A * Transport.

#[export] Instance tm_mret : MRet tm := fun A a t => (Ret a, t).

#[export] Instance tm_mbind : MBind tm := fun A B f m t =>
  match m t with
  | (Ret a, t') => f a t'
  | (Fail e, t') => (Fail e, t')
  | (Panic, t') => (Panic, t')
  end.

Definition throw {A} (n : Z) (e : perr) : tm A := fun t => (Fail (n, e), t).
Definition panic {A} : tm A := fun t => (Panic, t).
Definition get : tm Transport := fun t => (Ret t, t).
Definition or_panics {A} (o : option A) : tm A :=
  match o with Some a => mret a | None => panic end.

Definition set_buffer (t : Transport) (b : list Z) : Transport :=
  MkTransport (options t) (upstream t) b (cryptoBuffer t).
Definition set_crypto (t : Transport) (b : list Z) : Transport :=
  MkTransport (options t) (upstream t) (buffer t) b.
Definition set_upstream (t : Transport) (u : Upstream) : Transport :=
  MkTransport (options t) u (buffer t) (cryptoBuffer t).

Inductive array := Buf | Crypto.

#[export] Instance array_eq_dec : EqDecision array.
Proof. solve_decision. Defined.

Definition arr (t : Transport) (x : array) : list Z :=
  match x with Buf => buffer t | Crypto => cryptoBuffer t end.
Definition set_arr (t : Transport) (x : array) (l : list Z) : Transport :=
  match x with Buf => set_buffer t l | Crypto => set_crypto t l end.

(** A slice: bytes of the caller (or a fresh allocation), or part of an array. *)
Inductive view := VBytes (l : list Z) | VArr (x : array) (off len : Z).

Definition view_len (v : view) : Z := match v with VBytes l => zlen l | VArr _ _ len => len end.

Definition view_bytes (t : Transport) (v : view) : option (list Z) :=
  match v with VBytes l => Some l | VArr x off len => slice (arr t x) off (off + len) end.

(** Writes that must fit: array assignment, indexing, [PutUint16]. *)
Definition put (x : array) (off : Z) (src : list Z) : tm unit := fun t =>
  if (0 <=? off) && (off + zlen src <=? zlen (arr t x))
  then (Ret tt, set_arr t x (blit (arr t x) off src)) else (Panic, t).

(** [copy(x[lo:hi], src)] *)
Definition copy_at (x : array) (lo hi : Z) (src : view) : tm unit := fun t =>
  match view_bytes t src with
  | None => (Panic, t)
  | Some d =>
      if (0 <=? lo) && (lo <=? hi) && (hi <=? zlen (arr t x))
      then (Ret tt, set_arr t x (blit (arr t x) lo (take (Z.to_nat (hi - lo)) d))) else (Panic, t)
  end.

(** [io.ReadFull(t.upstream, x[lo:hi])] *)
Definition ReadFull (x : array) (lo hi : Z) : tm unit := fun t =>
  if negb ((0 <=? lo) && (lo <=? hi) && (hi <=? zlen (arr t x))) then (Panic, t) else
  let u := upstream t in
  let n := hi - lo in
  if n <=? zlen (u_in u) then
    (Ret tt, set_upstream (set_arr t x (blit (arr t x) lo (sub_list (u_in u) 0 n)))
               (MkUpstream (sub_list (u_in u) n (zlen (u_in u))) (u_out u) (u_open u) (u_fail u)))
  else
    (Fail (0, if zlen (u_in u) =? 0 then EOF else UnexpectedEOF),
     set_upstream (set_arr t x (blit (arr t x) lo (u_in u)))
       (MkUpstream [] (u_out u) (u_open u) (u_fail u))).

(** [t.upstream.Write(x[lo:hi])], then [return n, err] *)
Definition write_upstream (x : array) (lo hi n : Z) : tm Z := fun t =>
  match slice (arr t x) lo hi with
  | None => (Panic, t)
  | Some d =>
      let u := upstream t in
      if u_fail u then (Fail (n, ErrUpstream), t)
      else (Ret n, set_upstream t (MkUpstream (u_in u) (u_out u ++ d) (u_open u) (u_fail u)))
  end.

(** A codec working on [data] with the target [x[lo:hi]], whose capacity reaches
    to the end of the array. *)
Definition call_codec (f : codec_op) (data : view) (x : array) (lo hi : Z) : tm Z := fun t =>
  match view_bytes t data with
  | None => (Panic, t)
  | Some d =>
      if negb ((0 <=? lo) && (lo <=? hi) && (hi <=? zlen (arr t x))) then (Panic, t) else
      let '(r, region) := f d (hi - lo) (sub_list (arr t x) lo (zlen (arr t x))) in
      let t' := set_arr t x (blit (arr t x) lo region) in
      match r with
      | Ret n => (Ret n, t')
      | Fail e => (Fail (0, e), t')
      | Panic => (Panic, t')
      end
  end.

(** The reslice [x[off:off+n]] of a slice that starts at [off]; its bound is the
    end of the array. *)
Definition reslice (x : array) (off n : Z) : tm view := fun t =>
  if (0 <=? off) && (0 <=? n) && (off + n <=? zlen (arr t x)) then (Ret (VArr x off n), t)
  else (Panic, t).

(** [make([]byte, n)] with a type, a 16-bit length and the data, as the code
    builds its temporary messages. *)
Definition temp_message (ty len : Z) (data : list Z) : list Z := ty :: be_put 2 len ++ data.

Definition fetch (v : view) : tm (list Z) := fun t =>
  match view_bytes t v with Some d => (Ret d, t) | None => (Panic, t) end.

(** ** Writing *)

Definition writeRawMessage (ty : Z) (data : view) : tm Z :=
  let length := view_len data in
  if 65530 <? length then throw 0 ErrMessageTooLarge
  else
    t ← get;
    put Buf 0 (magic (options t));;
    put Buf 4 [ty];;
    put Buf 5 (be_put 2 length);;
    copy_at Buf 7 (7 + length) data;;
    write_upstream Buf 0 (7 + length) (7 + length).

Definition writeEncryptedMessage (encryptedBuf : Z) (encryptedLen : Z) : tm Z :=
  t ← get;
  put Buf 0 (magic (options t));;
  put Buf 4 [TypeEncrypted];;
  put Buf 5 (be_put 2 encryptedLen);;
  d ← reslice Crypto encryptedBuf encryptedLen;
  copy_at Buf 7 (zlen (buffer t)) d;;
  write_upstream Buf 0 (7 + encryptedLen) (7 + encryptedLen).

(** Whether the data starts at the first byte of the crypto array. *)
Definition dataInCryptoBuffer (v : view) : bool :=
  match v with VArr Crypto off len => (0 <? len) && (off =? 0) | _ => false end.

(** The compression step of [WriteMessage]: the data and type to go on with. *)
Definition write_compress (ty : Z) (data : list Z) : tm (Z * view) :=
  t ← get;
  let o := options t in
  let n := zlen data in
  match compressor o with
  | Some c =>
      if compress o && ((ty =? TypeTransport) || (ty =? TypeBatchTransport)) && (compressThreshold o <=? n)
      then
        let headerLen := 3 + n in
        let cap := zlen (cryptoBuffer t) in
        if (headerLen + 1000 <? cap) && (headerLen + 17 <=? cap - headerLen) then
          put Crypto 0 [ty];;
          put Crypto 1 (be_put 2 n);;
          copy_at Crypto 3 cap (VBytes data);;
          compressedLen ← call_codec (Compress c) (VArr Crypto 0 headerLen) Crypto headerLen cap;
          if compressedLen <? n then
            v ← reslice Crypto headerLen compressedLen; mret (TypeCompress, v)
          else mret (ty, VBytes data)
        else
          compressedLen ← call_codec (Compress c) (VBytes (temp_message ty n data)) Crypto 7 cap;
          if compressedLen <? n then
            v ← reslice Crypto 7 compressedLen; mret (TypeCompress, v)
          else mret (ty, VBytes data)
      else mret (ty, VBytes data)
  | None => mret (ty, VBytes data)
  end.

Definition WriteMessage (rnd : option (list Z)) (ty : Z) (data : list Z) : tm Z :=
  '(currentTyp, currentData) ← write_compress ty data;
  t ← get;
  let o := options t in
  match encryptor o with
  | Some e =>
      if encrypt o && ((ty =? TypeTransport) || (ty =? TypeBatchTransport) || (currentTyp =? TypeCompress))
      then
        let innerLen := view_len currentData in
        let innerMsgLen := 3 + innerLen in
        let encryptedMsgLen := innerMsgLen + Chacha20Poly1305NonceSize + Chacha20Poly1305Overhead in
        if 65530 <? encryptedMsgLen then throw 0 ErrMessageTooLarge
        else if dataInCryptoBuffer currentData then
          d ← fetch currentData;
          encryptedLen ← call_codec (Encrypt e rnd) (VBytes (temp_message currentTyp innerLen d))
                           Crypto 0 encryptedMsgLen;
          v ← reslice Crypto 0 encryptedLen;
          writeRawMessage TypeEncrypted v
        else if innerMsgLen + encryptedMsgLen <=? zlen (cryptoBuffer t) then
          put Crypto 0 [currentTyp];;
          put Crypto 1 (be_put 2 innerLen);;
          copy_at Crypto 3 (zlen (cryptoBuffer t)) currentData;;
          encryptedLen ← call_codec (Encrypt e rnd) (VArr Crypto 0 innerMsgLen)
                           Crypto innerMsgLen encryptedMsgLen;
          v ← reslice Crypto innerMsgLen encryptedLen;
          writeRawMessage TypeEncrypted v
        else
          d ← fetch currentData;
          encryptedLen ← call_codec (Encrypt e rnd) (VBytes (temp_message currentTyp innerLen d))
                           Crypto 0 encryptedMsgLen;
          v ← reslice Crypto 0 encryptedLen;
          writeRawMessage TypeEncrypted v
      else writeRawMessage currentTyp currentData
  | None => writeRawMessage currentTyp currentData
  end.

Definition Write (rnd : option (list Z)) (p : list Z) : tm Z := WriteMessage rnd TypeTransport p.

(** ** Batches *)

(** Space taken by the sizes of the messages. *)
Definition batch_len (sizes : list Z) : Z := foldl Z.add (2 + 2 * zlen sizes) sizes.

(** [for i := 0; i < len(sizes); i++ { PutUint16(buffer[offset:offset+2], ..) }] *)
Fixpoint put_sizes (offset : Z) (sizes : list Z) : tm Z :=
  match sizes with
  | [] => mret offset
  | s :: sizes' => put Buf offset (be_put 2 s);; put_sizes (offset + 2) sizes'
  end.

(** [for i := range buf { copy(buffer[offset:], buf[i][headerSize:headerSize+sizes[i]]) }] *)
Fixpoint put_data (offset headerSize : Z) (buf : list (list Z)) (sizes : list Z) : tm Z :=
  match buf, sizes with
  | [], _ => mret offset
  | _ :: _, [] => panic
  | b :: buf', s :: sizes' =>
      t ← get;
      d ← or_panics (slice b headerSize (headerSize + s));
      copy_at Buf offset (zlen (buffer t)) (VBytes d);;
      put_data (offset + s) headerSize buf' sizes'
  end.

(** The compression step of [batchWrite]: final type and data. *)
Definition batch_compress (dataLen : Z) : tm (Z * view) :=
  t ← get;
  let o := options t in
  let finalData := VArr Buf 7 dataLen in
  match compressor o with
  | Some c =>
      if compress o && (compressThreshold o <=? dataLen) then
        let headerLen := 3 + dataLen in
        let cap := zlen (cryptoBuffer t) in
        if (headerLen + 1000 <? cap) && (headerLen + 17 <=? cap - headerLen) then
          put Crypto 0 [TypeBatchTransport];;
          put Crypto 1 (be_put 2 dataLen);;
          copy_at Crypto 3 cap finalData;;
          compressedLen ← call_codec (Compress c) (VArr Crypto 0 headerLen) Crypto headerLen cap;
          if compressedLen <? dataLen then
            v ← reslice Crypto headerLen compressedLen; mret (TypeCompress, v)
          else mret (TypeBatchTransport, finalData)
        else if cap - 7 <? headerLen then throw 0 ErrMessageTooLarge
        else
          put Crypto 7 [TypeBatchTransport];;
          put Crypto 8 (be_put 2 dataLen);;
          copy_at Crypto 10 (7 + headerLen) finalData;;
          compressedLen ← call_codec (Compress c) (VArr Crypto 7 headerLen) Crypto (7 + headerLen) cap;
          if compressedLen <? dataLen then
            v ← reslice Crypto (7 + headerLen) compressedLen; mret (TypeCompress, v)
          else mret (TypeBatchTransport, finalData)
      else mret (TypeBatchTransport, finalData)
  | None => mret (TypeBatchTransport, finalData)
  end.

Definition write_final (finalType : Z) (finalData : view) : tm Z :=
  t ← get;
  put Buf 0 (magic (options t));;
  put Buf 4 [finalType];;
  put Buf 5 (be_put 2 (view_len finalData));;
  copy_at Buf 7 (zlen (buffer t)) finalData;;
  write_upstream Buf 0 (7 + view_len finalData) (7 + view_len finalData).

Definition batchWrite (rnd : option (list Z)) (buf : list (list Z)) (sizes : list Z) (headerSize : Z) : tm Z :=
  let dataLen := batch_len sizes in
  if 65530 <? dataLen then throw 0 ErrMessageTooLarge
  else
    t0 ← get;
    put Buf 0 (magic (options t0));;
    put Buf 4 [TypeBatchTransport];;
    put Buf 5 (be_put 2 dataLen);;
    put Buf 7 (be_put 2 (zlen sizes));;
    offset ← put_sizes 9 sizes;
    put_data offset headerSize buf sizes;;
    reslice Buf 7 dataLen;;
    '(finalType, finalData) ← batch_compress dataLen;
    t ← get;
    let o := options t in
    match encryptor o with
    | Some e =>
        if encrypt o then
          let finalDataLen := view_len finalData in
          let innerMsgLen := 3 + finalDataLen in
          let encryptedMsgLen := innerMsgLen + Chacha20Poly1305NonceSize + Chacha20Poly1305Overhead in
          if MaxTransportByteSize - 7 <? encryptedMsgLen then throw 0 ErrMessageTooLarge
          else if negb (dataInCryptoBuffer finalData) then
            if innerMsgLen + encryptedMsgLen <=? zlen (cryptoBuffer t) then
              put Crypto 0 [finalType];;
              put Crypto 1 (be_put 2 finalDataLen);;
              copy_at Crypto 3 (zlen (cryptoBuffer t)) finalData;;
              encryptedLen ← call_codec (Encrypt e rnd) (VArr Crypto 0 innerMsgLen)
                               Crypto innerMsgLen encryptedMsgLen;
              writeEncryptedMessage innerMsgLen encryptedLen
            else
              reslice Buf 0 innerMsgLen;;
              put Buf 0 [finalType];;
              put Buf 1 (be_put 2 finalDataLen);;
              copy_at Buf 3 innerMsgLen finalData;;
              encryptedLen ← call_codec (Encrypt e rnd) (VArr Buf 0 innerMsgLen)
                               Crypto 0 encryptedMsgLen;
              writeEncryptedMessage 0 encryptedLen
          else write_final finalType finalData
        else write_final finalType finalData
    | None => write_final finalType finalData
    end.

(** The inner loop of [BatchWrite]: how many messages the next batch takes.
    [None]: [sizes] is shorter than [buf]. *)
Fixpoint take_batch (n : nat) (stop length : Z) (remaining : Z) (start : Z) (sizes : list Z) : option Z :=
  match n with
  | O => Some stop
  | S n' =>
      if stop <? length then
        s ← index sizes stop;
        if (2 + s <=? remaining) && (stop - start <? MaxTransportBatchSize)
        then take_batch n' (stop + 1) length (remaining - (2 + s)) start sizes
        else Some stop
      else Some stop
  end.

Definition batch_space (o : TransportOptions) : Z :=
  let baseOverhead := 7 + 2 in
  let baseOverhead := if encrypt o && bool_decide (is_Some (encryptor o))
                      then baseOverhead + Chacha20Poly1305Overhead else baseOverhead in
  MaxTransportByteSize - baseOverhead.

(** The outer loop; every round takes at least one message, so [len(buf)]
    rounds are enough. [rnds] yields the random bytes of each round. *)
Fixpoint batch_loop (fuel : nat) (rnds : Z -> option (list Z)) (buf : list (list Z)) (sizes : list Z)
    (headerSize start n nn : Z) : tm Z :=
  let length := zlen buf in
  match fuel with
  | O => mret n
  | S f =>
      if start <? length then
        t ← get;
        stop ← or_panics (take_batch (Datatypes.length buf) start length (batch_space (options t)) start sizes);
        if stop =? start then throw nn ErrMessageTooLarge
        else
          nn ← batchWrite (rnds start) (sub_list buf start stop) (sub_list sizes start stop) headerSize;
          batch_loop f rnds buf sizes headerSize stop (n + nn) nn
      else mret n
  end.

Definition BatchWrite (rnds : Z -> option (list Z)) (buf : list (list Z)) (sizes : list Z)
    (headerSize : Z) : tm Z :=
  batch_loop (length buf) rnds buf sizes headerSize 0 0 0.

(** [ParseBatch]: the first loop stores the sizes, the second the data. The
    slices of the caller are returned as they are left, also with an error. *)
Fixpoint parse_sizes (n : nat) (i : nat) (data : list Z) (dataOffset : Z) (sizes : list Z)
    : outcome (Z * perr) Z * list Z :=
  match n with
  | O => (Ret dataOffset, sizes)
  | S n' =>
      if bool_decide (length sizes <= i)%nat then (Fail (0, ErrSizesTooSmall), sizes)
      else match slice data dataOffset (dataOffset + 2) with
           | None => (Panic, sizes)
           | Some d => parse_sizes n' (S i) data (dataOffset + 2) (<[i := be_get d]> sizes)
           end
  end.

Fixpoint parse_data (n : nat) (i : nat) (data : list Z) (dataOffset offset : Z) (buf : list (list Z))
    (sizes : list Z) : outcome (Z * perr) unit * list (list Z) :=
  match n with
  | O => (Ret tt, buf)
  | S n' =>
      match buf !! i, sizes !! i with
      | None, _ => (Fail (0, ErrBufArrayTooSmall), buf)
      | Some _, None => (Panic, buf)
      | Some b, Some s =>
          if zlen b <? offset + s then (Fail (0, ErrBufSliceTooSmall), buf)
          else match slice b offset (offset + s), slice data dataOffset (dataOffset + s) with
               | Some _, Some d =>
                   parse_data n' (S i) data (dataOffset + s) offset (<[i := blit b offset d]> buf) sizes
               | _, _ => (Panic, buf)
               end
      end
  end.

Definition ParseBatch (data : list Z) (buf : list (list Z)) (sizes : list Z) (offset : Z)
    : outcome (Z * perr) Z * list (list Z) * list Z :=
  match slice data 0 2 with
  | None => (Panic, buf, sizes)
  | Some h =>
      let sizesLen := Z.to_nat (be_get h) in
      match parse_sizes sizesLen 0 data 2 sizes with
      | (Ret dataOffset, sizes') =>
          match parse_data sizesLen 0 data dataOffset offset buf sizes' with
          | (Ret _, buf') => (Ret (be_get h), buf', sizes')
          | (Fail e, buf') => (Fail e, buf', sizes')
          | (Panic, buf') => (Panic, buf', sizes')
          end
      | (Fail e, sizes') => (Fail e, buf, sizes')
      | (Panic, sizes') => (Panic, buf, sizes')
      end
  end.

(** ** Reading *)

(** The result of a read: the count and what [copy] leaves in the caller's slice. *)
Definition copy_out (p : list Z) (d : list Z) : list Z := blit p 0 (take (length p) d).

Definition Read (p : list Z) : tm (Z * list Z) :=
  ReadFull Buf 0 4;;
  t ← get;
  if bool_decide (sub_list (buffer t) 0 4 <> magic (options t)) then throw 0 ErrInvalidMagic
  else
    ReadFull Buf 4 7;;
    t ← get;
    let length := be_get (sub_list (buffer t) 5 7) in
    if 65530 <? length then throw 0 ErrMessageTooLarge
    else
      ReadFull Buf 7 (u16 (7 + length));;
      d ← fetch (VArr Buf 7 (u16 (7 + length) - 7));
      mret (length, copy_out p d).

(** The decryption step: type and length to go on with. *)
Definition read_decrypt (msgTyp length : Z) : tm (Z * Z) :=
  if msgTyp =? TypeEncrypted then
    t ← get;
    match encryptor (options t) with
    | None => throw 0 ErrMissingEncryptor
    | Some e =>
        decryptedLen ← call_codec (Decrypt e) (VArr Buf 7 (u16 (7 + length) - 7)) Crypto 7
                         (zlen (cryptoBuffer t));
        if MaxTransportByteSize - 7 <? decryptedLen then throw 0 ErrMessageTooLarge
        else
          copy_at Buf 7 (7 + decryptedLen) (VArr Crypto 7 decryptedLen);;
          let length := u16 decryptedLen in
          if 3 <=? length then
            t ← get;
            let msgTyp := be_get (sub_list (buffer t) 7 8) in
            let innerLength := be_get (sub_list (buffer t) 8 10) in
            if u16 (3 + innerLength) <=? length then
              copy_at Buf 7 (zlen (buffer t)) (VArr Buf 10 innerLength);;
              mret (msgTyp, u16 innerLength)
            else mret (msgTyp, length)
          else mret (msgTyp, length)
    end
  else mret (msgTyp, length).

(** The decompression step. *)
Definition read_decompress (msgTyp length : Z) : tm (Z * Z) :=
  if msgTyp =? TypeCompress then
    t ← get;
    match compressor (options t) with
    | None => throw 0 ErrMissingCompressor
    | Some c =>
        decompressedLen ← call_codec (Decompress c) (VArr Buf 7 (u16 (7 + length) - 7)) Crypto 7
                            (zlen (cryptoBuffer t));
        if MaxTransportByteSize - 7 <? decompressedLen then throw 0 ErrMessageTooLarge
        else if 3 <=? decompressedLen then
          t ← get;
          let msgTyp := be_get (sub_list (cryptoBuffer t) 7 8) in
          let innerLength := be_get (sub_list (cryptoBuffer t) 8 10) in
          if u16 (3 + innerLength) <=? u16 decompressedLen then
            copy_at Buf 7 (zlen (buffer t)) (VArr Crypto 10 innerLength);;
            mret (msgTyp, u16 innerLength)
          else throw 0 ErrDecompressionFailed
        else throw 0 ErrDecompressionFailed
    end
  else mret (msgTyp, length).

Definition ReadMessage (data : list Z) : tm (Z * Z * list Z) :=
  ReadFull Buf 0 4;;
  t ← get;
  if bool_decide (sub_list (buffer t) 0 4 <> magic (options t)) then throw 0 ErrInvalidMagic
  else
    ReadFull Buf 4 7;;
    t ← get;
    let msgTyp := be_get (sub_list (buffer t) 4 5) in
    let length := be_get (sub_list (buffer t) 5 7) in
    ReadFull Buf 7 (u16 (7 + length));;
    '(msgTyp, length) ← read_decrypt msgTyp length;
    '(msgTyp, length) ← read_decompress msgTyp length;
    d ← fetch (VArr Buf 7 (u16 (7 + length) - 7));
    mret (msgTyp, length, copy_out data d).

Definition Close : tm unit := fun t =>
  let u := upstream t in
  (Ret tt, set_upstream t (MkUpstream (u_in u) (u_out u) false (u_fail u))).

Definition Type_ (t : Transport) : string := typ (options t).
