(* ===== verification/ProtocolSteps.v ===== *)
(** * Steps of the transport

    What the primitive writes, copies and codec calls do to the two arrays, and
    the laws the transport relies on of a compressor and an encryptor. *)

From S2P Require Import Prelude Protocol.

(** ** Contents of an array *)

(** The bytes [p] are stored at [off]. *)
Definition holds (l : list Z) (off : Z) (p : list Z) : Prop :=
  0 <= off /\ off + zlen p <= zlen l /\ sub_list l off (off + zlen p) = p.

Lemma holds_slice l off p : holds l off p -> slice l off (off + zlen p) = Some p.
Proof.
  intros (H0 & H1 & H2). pose proof (zlen_nonneg p). rewrite slice_in by lia. by rewrite H2.
Qed.

Lemma holds_blit l off p : 0 <= off -> off + zlen p <= zlen l -> holds (blit l off p) off p.
Proof.
  intros. pose proof (zlen_nonneg p). split_and!; [done| |by apply sub_list_blit_same].
  rewrite zlen_blit; lia.
Qed.

Lemma holds_blit_other l off p o s :
  holds l off p -> 0 <= o -> o + zlen s <= zlen l -> off + zlen p <= o \/ o + zlen s <= off ->
  holds (blit l o s) off p.
Proof.
  intros (H0 & H1 & H2) Ho Hs Hd. pose proof (zlen_nonneg s). pose proof (zlen_nonneg p).
  split_and!; [done|rewrite zlen_blit; lia|]. destruct Hd.
  - rewrite sub_list_blit_before by lia. done.
  - rewrite sub_list_blit_after by lia. done.
Qed.

Lemma holds_app l off p q : holds l off p -> holds l (off + zlen p) q -> holds l off (p ++ q).
Proof.
  intros (H0 & H1 & H2) (H3 & H4 & H5). pose proof (zlen_nonneg p). pose proof (zlen_nonneg q).
  split_and!; [done|rewrite zlen_app; lia|]. rewrite zlen_app, Z.add_assoc.
  rewrite <- (sub_list_take_drop l off (off + zlen p)) by lia. by rewrite H2, H5.
Qed.

Lemma holds_app_inv l off p q :
  holds l off (p ++ q) -> holds l off p /\ holds l (off + zlen p) q.
Proof.
  intros (H0 & H1 & H2). rewrite zlen_app in *. pose proof (zlen_nonneg p). pose proof (zlen_nonneg q).
  rewrite Z.add_assoc in *.
  assert (sub_list l off (off + zlen p) ++ sub_list l (off + zlen p) (off + zlen p + zlen q) = p ++ q) as E
    by (rewrite sub_list_take_drop by lia; done).
  apply app_inj_1 in E as [E1 E2].
  - split; (split_and!; [lia|lia|done]).
  - pose proof (zlen_sub_list l off (off + zlen p) ltac:(lia) ltac:(lia) ltac:(lia)). zlen_lia.
Qed.

Lemma holds_sub l off p : holds l off p -> sub_list l off (off + zlen p) = p.
Proof. by intros (_ & _ & ?). Qed.

Lemma holds_sub_at l off p n : holds l off p -> n = zlen p -> sub_list l off (off + n) = p.
Proof. intros H ->. by apply holds_sub. Qed.

Lemma holds_slice_at l off p n : holds l off p -> n = zlen p -> slice l off (off + n) = Some p.
Proof. intros H ->. by apply holds_slice. Qed.

(** The target region of a codec call reaches to the end of the array. *)
Lemma holds_region l lo r p :
  0 <= lo <= zlen l -> zlen r = zlen l - lo -> holds r 0 p -> holds (blit l lo r) lo p.
Proof.
  intros Hlo Hr (_ & H1 & H2). rewrite !Z.add_0_l in *. pose proof (zlen_nonneg p).
  split_and!; [lia|rewrite zlen_blit; lia|].
  pose proof (sub_list_blit_same l lo r ltac:(lia) ltac:(lia)) as E.
  assert (sub_list (sub_list (blit l lo r) lo (lo + zlen r)) 0 (zlen p) = p) as E' by (by rewrite E).
  rewrite sub_list_sub in E' by lia. by rewrite Z.add_0_r in E'.
Qed.

Lemma holds_bytes_ok l off p : bytes_ok l -> holds l off p -> bytes_ok p.
Proof. intros Hl (_ & _ & <-). by apply Forall_sub_list. Qed.

(** ** Laws of the codecs *)

Definition decrypts_to (d : Encryptor) (ct pt : list Z) : Prop :=
  forall len r, zlen pt <= len <= zlen r ->
  exists r', Decrypt d ct len r = (Ret (zlen pt), r') /\ zlen r' = zlen r /\ holds r' 0 pt.

Definition decompresses_to (d : Compressor) (cd pt : list Z) : Prop :=
  forall len r, zlen pt <= len <= zlen r ->
  exists r', Decompress d cd len r = (Ret (zlen pt), r') /\ zlen r' = zlen r /\ holds r' 0 pt.

(** What the transport relies on of a sender's encryptor and a receiver's: the
    result is 40 bytes longer, is stored at the start of the target and is
    undone by the other side. *)
Class EncryptPair (e d : Encryptor) : Prop := {
  encrypt_ok : forall nonce x len r,
    zlen nonce = Chacha20Poly1305NonceSize -> bytes_ok nonce -> bytes_ok x -> zlen x + 40 <= zlen r ->
    exists ct r', Encrypt e (Some nonce) x len r = (Ret (zlen ct), r') /\ zlen ct = zlen x + 40 /\
      bytes_ok ct /\ zlen r' = zlen r /\ holds r' 0 ct /\ decrypts_to d ct x }.

(** Of a compressor: with room for 17 more bytes it succeeds; a result that fits
    the target is stored there and is undone by the other side. *)
Class CompressPair (c d : Compressor) : Prop := {
  compress_ok : forall x len r,
    x <> [] -> bytes_ok x -> zlen x + 17 <= len -> len <= zlen r ->
    exists n r', Compress c x len r = (Ret n, r') /\ 0 <= n /\ zlen r' = zlen r /\
      (n <= len -> exists cd, zlen cd = n /\ bytes_ok cd /\ holds r' 0 cd /\ decompresses_to d cd x) }.

(** ** Running a step *)

Lemma tm_bind_ret {A B} (m : tm A) (f : A -> tm B) t a t' :
  m t = (Ret a, t') -> (m ≫= f) t = f a t'.
Proof. intros H. unfold mbind, tm_mbind. by rewrite H. Qed.

Lemma tm_bind_fail {A B} (m : tm A) (f : A -> tm B) t e t' :
  m t = (Fail e, t') -> (m ≫= f) t = (Fail e, t').
Proof. intros H. unfold mbind, tm_mbind. by rewrite H. Qed.

Lemma tm_bind_panic {A B} (m : tm A) (f : A -> tm B) t t' :
  m t = (Panic, t') -> (m ≫= f) t = (Panic, t').
Proof. intros H. unfold mbind, tm_mbind. by rewrite H. Qed.

Lemma get_run t : get t = (Ret t, t).
Proof. done. Qed.

(** The arrays have their full size and the magic number four bytes. *)
Record wf (t : Transport) : Prop := {
  wf_buffer : zlen (buffer t) = 65535;
  wf_crypto : zlen (cryptoBuffer t) = 65535;
  wf_magic : zlen (magic (options t)) = 4 }.

Lemma wf_arr t x : wf t -> zlen (arr t x) = 65535.
Proof. intros []. by destruct x. Qed.

Lemma arr_set t x l : arr (set_arr t x l) x = l.
Proof. by destruct x. Qed.

Lemma arr_set_ne t x y l : x <> y -> arr (set_arr t x l) y = arr t y.
Proof. by destruct x, y. Qed.

Lemma set_set t x l1 l2 : set_arr (set_arr t x l1) x l2 = set_arr t x l2.
Proof. by destruct x. Qed.

Lemma options_set t x l : options (set_arr t x l) = options t.
Proof. by destruct x. Qed.

Lemma upstream_set t x l : upstream (set_arr t x l) = upstream t.
Proof. by destruct x. Qed.

Lemma wf_set t x l : wf t -> zlen l = 65535 -> wf (set_arr t x l).
Proof. intros [] H. by destruct x; split. Qed.

Lemma put_run x off src t :
  0 <= off -> off + zlen src <= zlen (arr t x) ->
  put x off src t = (Ret tt, set_arr t x (blit (arr t x) off src)).
Proof.
  intros. unfold put. by rewrite !(proj2 (Z.leb_le _ _)) by lia.
Qed.

Lemma copy_run x lo hi v d t :
  view_bytes t v = Some d -> 0 <= lo -> lo + zlen d <= hi -> hi <= zlen (arr t x) ->
  copy_at x lo hi v t = (Ret tt, set_arr t x (blit (arr t x) lo d)).
Proof.
  intros Hv H0 H1 H2. pose proof (zlen_nonneg d). unfold copy_at. rewrite Hv.
  rewrite !(proj2 (Z.leb_le _ _)) by lia. simpl. rewrite take_ge; [done|]. zlen_lia.
Qed.

Lemma copy_panics x lo hi v d t :
  view_bytes t v = Some d -> zlen (arr t x) < hi -> copy_at x lo hi v t = (Panic, t).
Proof.
  intros Hv Hh. unfold copy_at. rewrite Hv, (proj2 (Z.leb_gt hi _)) by lia. by rewrite andb_false_r.
Qed.

Lemma reslice_run x off n t :
  0 <= off -> 0 <= n -> off + n <= zlen (arr t x) -> reslice x off n t = (Ret (VArr x off n), t).
Proof. intros. unfold reslice. by rewrite !(proj2 (Z.leb_le _ _)) by lia. Qed.

Lemma write_run x lo hi n d t :
  slice (arr t x) lo hi = Some d -> u_fail (upstream t) = false ->
  write_upstream x lo hi n t =
  (Ret n, set_upstream t (MkUpstream (u_in (upstream t)) (u_out (upstream t) ++ d)
                            (u_open (upstream t)) false)).
Proof. intros Hs Hf. unfold write_upstream. by rewrite Hs, Hf. Qed.

Lemma codec_run f v d x lo hi n r' t :
  view_bytes t v = Some d -> 0 <= lo -> lo <= hi -> hi <= zlen (arr t x) ->
  f d (hi - lo) (sub_list (arr t x) lo (zlen (arr t x))) = (Ret n, r') ->
  call_codec f v x lo hi t = (Ret n, set_arr t x (blit (arr t x) lo r')).
Proof.
  intros Hv H0 H1 H2 Hf. unfold call_codec. rewrite Hv, !(proj2 (Z.leb_le _ _)) by lia.
  simpl. by rewrite Hf.
Qed.

Lemma ReadFull_run x lo hi p rest t :
  u_in (upstream t) = p ++ rest -> zlen p = hi - lo -> 0 <= lo -> hi <= zlen (arr t x) ->
  ReadFull x lo hi t =
  (Ret tt, set_upstream (set_arr t x (blit (arr t x) lo p))
             (MkUpstream rest (u_out (upstream t)) (u_open (upstream t)) (u_fail (upstream t)))).
Proof.
  intros Hin Hp H0 H1. pose proof (zlen_nonneg p). pose proof (zlen_nonneg rest).
  unfold ReadFull. rewrite Hin, zlen_app, <- Hp, !(proj2 (Z.leb_le _ _)) by lia. simpl.
  rewrite sub_list_app_l, sub_list_all by lia.
  rewrite sub_list_app_r, Z.sub_diag by lia.
  replace (zlen p + zlen rest - zlen p) with (zlen rest) by lia. by rewrite sub_list_all.
Qed.

(** ** Message blocks *)

(** A view that the header written to [x] does not overlap. *)
Definition view_clear (x : array) (n : Z) (v : view) : Prop :=
  match v with VBytes _ => True | VArr y off _ => y = x -> n <= off end.

Lemma view_bytes_set t x l n v d :
  view_bytes t v = Some d -> view_clear x n v ->
  (forall off p, n <= off -> holds (arr t x) off p -> holds l off p) ->
  view_bytes (set_arr t x l) v = Some d.
Proof.
  intros Hv Hc Hk. destruct v as [b|y off len]; [done|]. simpl in *.
  apply slice_Some in Hv as (Hd & H0 & H1 & H2).
  destruct (decide (y = x)) as [->|Hne].
  - rewrite arr_set. assert (zlen d = len) as Hlen by (rewrite Hd, zlen_sub_list; lia).
    assert (holds (arr t x) off d) as Hh by (split_and!; [done|lia|by rewrite Hlen]).
    rewrite <- Hlen. apply holds_slice, Hk; auto.
  - rewrite arr_set_ne by auto. rewrite slice_in by done. by rewrite Hd.
Qed.

Lemma zlen_be2 v : zlen (be_put 2 v) = 2.
Proof. by rewrite zlen_be_put. Qed.

Lemma zlen_temp ty n d : zlen (temp_message ty n d) = 3 + zlen d.
Proof. unfold temp_message. rewrite zlen_cons, zlen_app, zlen_be2. lia. Qed.

Ltac arr_norm := rewrite ?set_set, ?arr_set, ?options_set, ?upstream_set.

(** The three writes that build an inner message at the start of an array. *)
Lemma inner_block x hi ty n v d t :
  wf t -> view_bytes t v = Some d -> view_clear x 3 v -> 3 + zlen d <= hi -> hi <= 65535 ->
  exists b, zlen b = 65535 /\ holds b 0 (temp_message ty n d) /\
    forall A (k : tm A),
      (put x 0 [ty];; put x 1 (be_put 2 n);; copy_at x 3 hi v;; k) t = k (set_arr t x b).
Proof.
  intros Hwf Hv Hc Hd Hhi. pose proof (wf_arr t x Hwf) as Hz. pose proof (zlen_nonneg d) as Hd0.
  pose proof (zlen_be2 n) as H2. assert (zlen [ty] = 1) as H1 by done.
  set (b1 := blit (blit (arr t x) 0 [ty]) 1 (be_put 2 n)).
  assert (zlen b1 = 65535) as Hb1 by (unfold b1; rewrite !zlen_blit; rewrite ?zlen_blit; lia).
  exists (blit b1 3 d). split_and!; [rewrite zlen_blit; lia| |].
  - change (temp_message ty n d) with ([ty] ++ be_put 2 n ++ d). repeat apply holds_app.
    + apply holds_blit_other; [|lia..]. apply holds_blit_other; [|lia|rewrite zlen_blit; lia|lia].
      apply holds_blit; lia.
    + rewrite H1, Z.add_0_l. apply holds_blit_other; [|lia..]. apply holds_blit; [lia|]. rewrite zlen_blit; lia.
    + rewrite H1, H2. apply holds_blit; lia.
  - intros A k. erewrite tm_bind_ret by (apply put_run; lia).
    erewrite tm_bind_ret by (apply put_run; arr_norm; rewrite ?zlen_blit; lia).
    arr_norm. fold b1. assert (view_bytes (set_arr t x b1) v = Some d) as Hv1.
    2:{ erewrite tm_bind_ret by (apply (copy_run _ _ _ _ d); [done|lia|lia|arr_norm; lia]). by arr_norm. }
    eapply view_bytes_set; [done..|]. intros off p Ho Hp. unfold b1.
    apply holds_blit_other; [|lia|rewrite zlen_blit; lia|lia].
    apply holds_blit_other; [done|lia..].
Qed.

(** The bytes of a message on the wire. *)
Definition frame (m : list Z) (ty : Z) (d : list Z) : list Z := m ++ [ty] ++ be_put 2 (zlen d) ++ d.

Lemma zlen_frame m ty d : zlen (frame m ty d) = zlen m + 3 + zlen d.
Proof. unfold frame. rewrite !zlen_app, zlen_be2. change (zlen [ty]) with 1. lia. Qed.

(** [u] after writing [d]. *)
Definition sent (u : Upstream) (d : list Z) : Upstream :=
  MkUpstream (u_in u) (u_out u ++ d) (u_open u) (u_fail u).

(** The writes that put a frame into the main array and send it. *)
Lemma frame_block hi ty v d t :
  wf t -> view_bytes t v = Some d -> view_clear Buf 7 v -> view_len v = zlen d ->
  7 + zlen d <= hi -> hi <= 65535 -> u_fail (upstream t) = false ->
  exists t', (put Buf 0 (magic (options t));; put Buf 4 [ty];; put Buf 5 (be_put 2 (view_len v));;
              copy_at Buf 7 hi v;; write_upstream Buf 0 (7 + view_len v) (7 + view_len v)) t
             = (Ret (7 + zlen d), t') /\
    wf t' /\ options t' = options t /\ upstream t' = sent (upstream t) (frame (magic (options t)) ty d).
Proof.
  intros Hwf Hv Hc Hl Hd Hhi Hf. pose proof (wf_arr t Buf Hwf) as Hz. pose proof (zlen_nonneg d) as Hd0.
  pose proof (wf_magic t Hwf) as Hm. set (m := magic (options t)) in *. rewrite Hl.
  pose proof (zlen_be2 (zlen d)) as H2. assert (zlen [ty] = 1) as H1 by done.
  erewrite tm_bind_ret by (apply put_run; lia).
  erewrite tm_bind_ret by (apply put_run; arr_norm; rewrite ?zlen_blit; lia).
  arr_norm. set (b1 := blit (blit (arr t Buf) 0 m) 4 [ty]).
  assert (zlen b1 = 65535) as Hb1 by (unfold b1; rewrite !zlen_blit; rewrite ?zlen_blit; lia).
  erewrite tm_bind_ret by (apply put_run; arr_norm; lia). arr_norm.
  set (b2 := blit b1 5 (be_put 2 (zlen d))).
  assert (zlen b2 = 65535) as Hb2 by (unfold b2; rewrite !zlen_blit; lia).
  erewrite tm_bind_ret.
  2:{ apply (copy_run _ _ _ _ d); [|lia|lia|arr_norm; lia].
      eapply view_bytes_set; [done..|]. intros off p Ho Hp. unfold b2, b1.
      apply holds_blit_other; [|lia|fold b1; lia|lia].
      apply holds_blit_other; [|lia|rewrite zlen_blit; lia|lia].
      apply holds_blit_other; [done|lia..]. }
  arr_norm. set (b3 := blit b2 7 d).
  assert (zlen b3 = 65535) as Hb3 by (unfold b3; rewrite !zlen_blit; lia).
  assert (holds b3 0 (frame m ty d)) as Hh.
  { unfold frame. repeat apply holds_app; rewrite ?Hm, ?H1, ?H2; unfold b3.
    - apply holds_blit_other; [|lia..]. apply holds_blit_other; [|lia..].
      apply holds_blit_other; [|lia|rewrite zlen_blit; lia|lia]. apply holds_blit; lia.
    - apply holds_blit_other; [|lia..]. apply holds_blit_other; [|lia..].
      apply holds_blit; [lia|]. rewrite zlen_blit; lia.
    - apply holds_blit_other; [|lia..]. apply holds_blit; lia.
    - apply holds_blit; lia. }
  erewrite write_run; [|arr_norm|by arr_norm].
  2:{ replace (7 + zlen d) with (0 + zlen (frame m ty d)) by (rewrite zlen_frame; lia).
      by apply holds_slice. }
  arr_norm. eexists. split_and!; [done| | |].
  - destruct Hwf. by split.
  - by destruct t.
  - simpl. unfold sent. by rewrite Hf.
Qed.
