(* ===== verification/ProtocolProps.v ===== *)
(** * Properties of the framed transport *)

From S2P Require Import Prelude Protocol ProtocolSteps.

(** ** What is on the wire *)

(** The receiver, with options [o], turns the coded payload [(c, d)] into the
    message [(ty, data)]: either it is the message, or it decompresses to its
    type, length and data. *)
Definition coded (o : TransportOptions) (c : Z) (d : list Z) (ty : Z) (data : list Z) : Prop :=
  (c = ty /\ d = data) \/
  (c = TypeCompress /\ 3 + zlen data <= 65528 /\ exists dc, compressor o = Some dc /\
     decompresses_to dc d (temp_message ty (zlen data) data)).

(** The same for encryption, the outer layer. *)
Definition sealed (o : TransportOptions) (c' : Z) (d' : list Z) (c : Z) (d : list Z) : Prop :=
  (c' = c /\ d' = d) \/
  (c' = TypeEncrypted /\ 3 + zlen d <= 65528 /\ exists de, encryptor o = Some de /\
     decrypts_to de d' (temp_message c (zlen d) d)).

(** The receiver has the counterparts of the sender's codecs. *)
Record matching (o o' : TransportOptions) : Prop := {
  match_magic : magic o' = magic o;
  match_compressor : forall c, compress o = true -> compressor o = Some c ->
    exists c', compressor o' = Some c' /\ CompressPair c c';
  match_encryptor : forall e, encrypt o = true -> encryptor o = Some e ->
    exists e', encryptor o' = Some e' /\ EncryptPair e e' }.

Definition encrypting (o : TransportOptions) : bool := encrypt o && bool_decide (is_Some (encryptor o)).
Definition compressing (o : TransportOptions) : bool := compress o && bool_decide (is_Some (compressor o)).

(** The largest data every configuration can carry. *)
Definition max_data (o : TransportOptions) : Z :=
  if encrypting o then 65485 else if compressing o then 65508 else 65528.

Definition plain_type (ty : Z) : Prop := byte_ok ty /\ ty <> TypeCompress /\ ty <> TypeEncrypted.

Lemma temp_ok ty n d : byte_ok ty -> bytes_ok d -> bytes_ok (temp_message ty n d).
Proof. intros. apply Forall_cons_2; [done|]. apply Forall_app_2; [apply be_put_ok|done]. Qed.

Lemma temp_not_nil ty n d : temp_message ty n d <> [].
Proof. done. Qed.

Lemma set_arr_id t x : set_arr t x (arr t x) = t.
Proof. by destruct t, x. Qed.

Lemma view_arr t x b off d : holds b off d -> view_bytes (set_arr t x b) (VArr x off (zlen d)) = Some d.
Proof. intros H. simpl. rewrite arr_set. by apply holds_slice. Qed.

(** ** Writing *)

Lemma writeRawMessage_run ty v d t :
  wf t -> view_bytes t v = Some d -> view_clear Buf 7 v -> view_len v = zlen d ->
  zlen d <= 65528 -> u_fail (upstream t) = false ->
  exists t', writeRawMessage ty v t = (Ret (7 + zlen d), t') /\ wf t' /\ options t' = options t /\
    upstream t' = sent (upstream t) (frame (magic (options t)) ty d).
Proof.
  intros Hwf Hv Hc Hl Hd Hf. unfold writeRawMessage. rewrite (proj2 (Z.ltb_ge _ _)) by lia.
  rewrite (tm_bind_ret get _ t t t) by done. apply frame_block; auto; lia.
Qed.

(** The compression step, whichever array the message is built in. *)
Lemma codec_compress c dc w msg lo t :
  CompressPair c dc -> wf t -> view_bytes t w = Some msg -> msg <> [] -> bytes_ok msg ->
  0 <= lo -> lo + zlen msg + 17 <= 65535 ->
  exists n b, call_codec (Compress c) w Crypto lo (zlen (cryptoBuffer t)) t =
              (Ret n, set_arr t Crypto b) /\ 0 <= n /\ zlen b = 65535 /\
    (n <= 65535 - lo -> exists cd, zlen cd = n /\ bytes_ok cd /\ holds b lo cd /\ decompresses_to dc cd msg).
Proof.
  intros Hp Hwf Hw Hne Hok H0 Hlo. pose proof (wf_crypto t Hwf) as Hz. pose proof (zlen_nonneg msg).
  assert (arr t Crypto = cryptoBuffer t) as Ha by done.
  destruct (compress_ok msg (65535 - lo) (sub_list (cryptoBuffer t) lo (zlen (cryptoBuffer t))))
    as (n & r' & Hc & Hn & Hr & Hfit); [done|done|lia|rewrite zlen_sub_list; lia|].
  rewrite zlen_sub_list in Hr by lia.
  exists n, (blit (cryptoBuffer t) lo r'). split_and!; [|done|rewrite zlen_blit; lia|].
  - erewrite (codec_run _ _ msg); [done|done|lia|lia|rewrite Ha; lia|]. rewrite Ha, Hz in *. exact Hc.
  - intros Hle. destruct (Hfit Hle) as (cd & H1 & H2 & H3 & H4). exists cd. split_and!; auto.
    apply holds_region; [lia|lia|done].
Qed.

(** The outcome of a compression step: only the crypto array has changed, and
    the view to go on with holds a coding of the message. *)
Definition compress_post (o' : TransportOptions) (ty : Z) (data : list Z) (t : Transport)
    (r : outcome (Z * perr) (Z * view) * Transport) : Prop :=
  exists c v d b, r = (Ret (c, v), set_arr t Crypto b) /\ zlen b = 65535 /\
    view_bytes (set_arr t Crypto b) v = Some d /\ view_len v = zlen d /\ zlen d <= zlen data /\
    (byte_ok c /\ bytes_ok d /\ c <> TypeEncrypted) /\
    (view_clear Crypto 3 v /\ view_clear Buf 7 v /\ dataInCryptoBuffer v = false) /\
    coded o' c d ty data.

Lemma compress_post_id o' ty data t v :
  wf t -> plain_type ty -> bytes_ok data -> view_bytes t v = Some data -> view_len v = zlen data ->
  view_clear Crypto 3 v -> view_clear Buf 7 v -> dataInCryptoBuffer v = false ->
  compress_post o' ty data t (Ret (ty, v), t).
Proof.
  intros Hwf (Hty & Hnc & Hne) Hok Hv Hl H1 H2 H3.
  exists ty, v, data, (arr t Crypto). rewrite set_arr_id.
  split_and!; try done; [by apply wf_crypto|by left].
Qed.

Lemma compress_post_cd o' dc ty data t b lo cd :
  zlen b = 65535 -> 3 <= lo -> holds b lo cd -> zlen cd <= zlen data -> bytes_ok cd ->
  3 + zlen data <= 65528 -> compressor o' = Some dc -> decompresses_to dc cd (temp_message ty (zlen data) data) ->
  compress_post o' ty data t (Ret (TypeCompress, VArr Crypto lo (zlen cd)), set_arr t Crypto b).
Proof.
  intros Hb Hlo Hh Hz Hok Hsz Hdc Hdec. exists TypeCompress, (VArr Crypto lo (zlen cd)), cd, b.
  split_and!; try done.
  - by apply view_arr.
  - simpl. intros _. lia.
  - simpl. rewrite (proj2 (Z.eqb_neq lo 0)) by lia. by rewrite andb_false_r.
  - right. split_and!; [done..|]. by exists dc.
Qed.

(** The two ways of compressing: the message has been built at [lo] of the
    crypto array (or in a fresh slice), the target starts at [tgt]. *)
Lemma compress_tail o' c dc ty data w tgt v t :
  CompressPair c dc -> compressor o' = Some dc -> wf t -> plain_type ty -> bytes_ok data ->
  view_bytes t w = Some (temp_message ty (zlen data) data) -> 3 <= tgt ->
  tgt + 3 + zlen data + 17 <= 65535 ->
  (forall b, zlen b = 65535 -> view_bytes (set_arr t Crypto b) v = Some data) -> view_len v = zlen data ->
  view_clear Crypto 3 v -> view_clear Buf 7 v -> dataInCryptoBuffer v = false ->
  exists b, zlen b = 65535 /\ compress_post o' ty data (set_arr t Crypto b)
    ((compressedLen ← call_codec (Compress c) w Crypto tgt (zlen (cryptoBuffer t));
      if compressedLen <? zlen data then
        v ← reslice Crypto tgt compressedLen; mret (TypeCompress, v)
      else mret (ty, v)) t).
Proof.
  intros Hp Hdc Hwf Hty Hok Hw Htgt Hsz Hv Hl H1 H2 H3. pose proof (zlen_nonneg data).
  destruct Hty as (Hb & Hnc & Hne).
  destruct (codec_compress c dc w (temp_message ty (zlen data) data) tgt t)
    as (n & b & Hrun & Hn & Hbz & Hfit); auto using temp_ok; [lia|rewrite zlen_temp; lia|].
  exists b. split; [done|]. rewrite (tm_bind_ret _ _ _ _ _ Hrun).
  destruct (n <? zlen data) eqn:E; bool_cases.
  - destruct (Hfit ltac:(lia)) as (cd & <- & Hcd & Hh & Hdec).
    rewrite (tm_bind_ret _ _ _ _ _ (reslice_run Crypto tgt (zlen cd) (set_arr t Crypto b) ltac:(lia) Hn
      ltac:(rewrite arr_set; lia))).
    rewrite <- (set_set t Crypto b b). eapply compress_post_cd; eauto; lia.
  - apply compress_post_id; auto; [by apply wf_set|done].
Qed.

Lemma compress_post_set o' ty data t b r :
  compress_post o' ty data (set_arr t Crypto b) r -> compress_post o' ty data t r.
Proof.
  intros (c & v & d & b' & -> & H). rewrite set_set in *. by exists c, v, d, b'.
Qed.

Lemma write_compress_run o' ty data t :
  wf t -> matching (options t) o' -> plain_type ty -> bytes_ok data ->
  (compressing (options t) = true -> zlen data <= 65508) ->
  compress_post o' ty data t (write_compress ty data t).
Proof.
  intros Hwf Hm Hty Hok Hmax. pose proof (wf_crypto t Hwf) as Hz. pose proof (zlen_nonneg data) as H0.
  assert (compress_post o' ty data t (Ret (ty, VBytes data), t)) as Hid by by apply compress_post_id.
  unfold write_compress. rewrite (tm_bind_ret get _ t t t) by done.
  destruct (compressor (options t)) as [c|] eqn:Ec; [|exact Hid].
  destruct (compress (options t)) eqn:Eo; [|exact Hid]. cbn [andb].
  destruct (_ && _) eqn:Ecnd in |- *; [|exact Hid].
  destruct (match_compressor _ _ Hm c Eo Ec) as (dc & Hdc & Hp).
  assert (zlen data <= 65508) as Hmax'.
  { apply Hmax. unfold compressing. rewrite Eo, Ec. by apply bool_decide_eq_true_2. }
  destruct (_ && _) eqn:Ereuse in |- *.
  - bool_cases. rewrite Hz in *.
    destruct (inner_block Crypto 65535 ty (zlen data) (VBytes data) data t) as (b & Hb & Hh & Hk);
      [done..|lia|lia|]. rewrite Hk.
    destruct (compress_tail o' c dc ty data (VArr Crypto 0 (3 + zlen data)) (3 + zlen data) (VBytes data)
      (set_arr t Crypto b)) as (b' & _ & Hpost); auto; try done; [by apply wf_set| |lia|lia|].
    { rewrite <- (zlen_temp ty (zlen data)). by apply view_arr. }
    change (cryptoBuffer (set_arr t Crypto b)) with b in Hpost. rewrite Hb in Hpost.
    by eapply compress_post_set, compress_post_set.
  - rewrite Hz in *.
    destruct (compress_tail o' c dc ty data (VBytes (temp_message ty (zlen data) data)) 7 (VBytes data) t)
      as (b' & _ & Hpost); auto; try done; [lia|].
    rewrite Hz in Hpost. by eapply compress_post_set.
Qed.

(** Encrypting a message and sending the result. *)
Lemma codec_encrypt e de nonce w msg lo hi t :
  EncryptPair e de -> wf t -> zlen nonce = 24 -> bytes_ok nonce ->
  view_bytes t w = Some msg -> bytes_ok msg -> 0 <= lo <= hi -> hi <= 65535 ->
  lo + zlen msg + 40 <= 65535 ->
  exists ct b, call_codec (Encrypt e (Some nonce)) w Crypto lo hi t = (Ret (zlen ct), set_arr t Crypto b) /\
    zlen ct = zlen msg + 40 /\ bytes_ok ct /\ zlen b = 65535 /\ holds b lo ct /\ decrypts_to de ct msg.
Proof.
  intros Hp Hwf Hn Hnok Hw Hok Hlo Hhi Hfit. pose proof (wf_crypto t Hwf) as Hz. pose proof (zlen_nonneg msg).
  destruct (encrypt_ok nonce msg (hi - lo) (sub_list (arr t Crypto) lo (zlen (arr t Crypto))))
    as (ct & r' & Hc & Hct & Hctok & Hr & Hh & Hdec); [done|done|done| |].
  { rewrite zlen_sub_list; rewrite ?(wf_arr t Crypto Hwf); lia. }
  rewrite zlen_sub_list in Hr by (rewrite ?(wf_arr t Crypto Hwf); lia).
  exists ct, (blit (arr t Crypto) lo r'). rewrite (wf_arr t Crypto Hwf) in *.
  split_and!; [|done|done|rewrite zlen_blit; rewrite (wf_arr t Crypto Hwf); lia| |done].
  - apply (codec_run _ _ msg); [done|lia|lia|rewrite (wf_arr t Crypto Hwf); lia|].
    by rewrite (wf_arr t Crypto Hwf).
  - apply holds_region; [rewrite (wf_arr t Crypto Hwf); lia..|done].
Qed.

Lemma encrypt_send e de nonce w msg lo hi t :
  EncryptPair e de -> wf t -> zlen nonce = 24 -> bytes_ok nonce ->
  view_bytes t w = Some msg -> bytes_ok msg -> 0 <= lo <= hi -> hi <= 65535 ->
  lo + zlen msg + 40 <= 65535 -> zlen msg + 40 <= 65528 -> u_fail (upstream t) = false ->
  exists ct t', (encryptedLen ← call_codec (Encrypt e (Some nonce)) w Crypto lo hi;
                 v ← reslice Crypto lo encryptedLen; writeRawMessage TypeEncrypted v) t
                = (Ret (7 + zlen ct), t') /\ wf t' /\ options t' = options t /\
    upstream t' = sent (upstream t) (frame (magic (options t)) TypeEncrypted ct) /\
    zlen ct <= 65528 /\ bytes_ok ct /\ decrypts_to de ct msg.
Proof.
  intros Hp Hwf Hn Hnok Hw Hok Hlo Hhi Hfit Hmax Hf. pose proof (zlen_nonneg msg).
  destruct (codec_encrypt e de nonce w msg lo hi t) as (ct & b & Hrun & Hct & Hctok & Hb & Hh & Hdec); auto.
  rewrite (tm_bind_ret _ _ _ _ _ Hrun).
  rewrite (tm_bind_ret _ _ _ _ _ (reslice_run Crypto lo (zlen ct) (set_arr t Crypto b) ltac:(lia)
    ltac:(lia) ltac:(rewrite arr_set; lia))).
  destruct (writeRawMessage_run TypeEncrypted (VArr Crypto lo (zlen ct)) ct (set_arr t Crypto b))
    as (t' & -> & Hwf' & Ho & Hu); auto using wf_set, view_arr; [done|lia|].
  rewrite options_set, upstream_set in *. exists ct, t'. split_and!; auto. lia.
Qed.

(** The bytes a message travels as, for a receiver with options [o']. *)
Definition carries (o' : TransportOptions) (m wire : list Z) (ty : Z) (data : list Z) : Prop :=
  exists c d c' d', wire = frame m c' d' /\ zlen d' <= 65528 /\ (byte_ok c' /\ bytes_ok d') /\
    byte_ok c /\ c <> TypeEncrypted /\ sealed o' c' d' c d /\ coded o' c d ty data.

Lemma encrypting_true o e : encrypt o = true -> encryptor o = Some e -> encrypting o = true.
Proof. intros H1 H2. unfold encrypting. rewrite H1, H2. by apply bool_decide_eq_true_2. Qed.

Lemma compressing_max o n : n <= max_data o -> compressing o = true -> n <= 65508.
Proof. unfold max_data. intros H H'. rewrite H' in H. destruct (encrypting o); lia. Qed.

Lemma max_data_le o : max_data o <= 65528.
Proof. unfold max_data. destruct (encrypting o), (compressing o); lia. Qed.

(** A call sent the message: it returns the number of bytes written, which carry
    the message for a receiver with options [o']. *)
Definition send_post (o' : TransportOptions) (ty : Z) (data : list Z) (t : Transport)
    (r : outcome (Z * perr) Z * Transport) : Prop :=
  exists t' wire, r = (Ret (zlen wire), t') /\ wf t' /\ options t' = options t /\
    upstream t' = sent (upstream t) wire /\ carries o' (magic (options t)) wire ty data.

Lemma send_post_plain o' ty data t c d r t' :
  wf t -> r = (Ret (7 + zlen d), t') -> wf t' -> options t' = options t ->
  upstream t' = sent (upstream t) (frame (magic (options t)) c d) ->
  zlen d <= 65528 -> byte_ok c -> bytes_ok d -> c <> TypeEncrypted -> coded o' c d ty data ->
  send_post o' ty data t r.
Proof.
  intros Hwf -> Hwf' Ho Hu Hd Hc Hdok Hne Hcod. eexists t', _. split_and!; [|done|done|exact Hu|].
  - rewrite zlen_frame, (wf_magic t Hwf). do 2 f_equal; lia.
  - exists c, d, c, d. split_and!; try done. by left.
Qed.

Lemma send_post_sealed o' de ty data t c d ct r t' :
  wf t -> r = (Ret (7 + zlen ct), t') -> wf t' -> options t' = options t ->
  upstream t' = sent (upstream t) (frame (magic (options t)) TypeEncrypted ct) ->
  zlen ct <= 65528 -> bytes_ok ct -> encryptor o' = Some de -> decrypts_to de ct (temp_message c (zlen d) d) ->
  byte_ok c -> c <> TypeEncrypted -> zlen d <= 65525 -> coded o' c d ty data ->
  send_post o' ty data t r.
Proof.
  intros Hwf -> Hwf' Ho Hu Hct Hctok Hde Hdec Hc Hne Hd Hcod.
  eexists t', _. split_and!; [|done|done|exact Hu|].
  - rewrite zlen_frame, (wf_magic t Hwf). do 2 f_equal; lia.
  - exists c, d, TypeEncrypted, ct. split_and!; try done. right. split_and!; [done|lia|]. by exists de.
Qed.

(** The encryption step of [WriteMessage] on a coded payload. *)
Lemma WriteMessage_encrypted o' e de nonce ty data c v d t :
  EncryptPair e de -> encryptor o' = Some de -> wf t -> zlen nonce = 24 -> bytes_ok nonce ->
  view_bytes t v = Some d -> view_len v = zlen d -> zlen d <= 65485 -> byte_ok c -> bytes_ok d ->
  c <> TypeEncrypted -> view_clear Crypto 3 v -> dataInCryptoBuffer v = false ->
  coded o' c d ty data -> u_fail (upstream t) = false ->
  let innerLen := view_len v in
  let innerMsgLen := 3 + innerLen in
  let encryptedMsgLen := innerMsgLen + Chacha20Poly1305NonceSize + Chacha20Poly1305Overhead in
  send_post o' ty data t
    ((if 65530 <? encryptedMsgLen then throw 0 ErrMessageTooLarge
     else if dataInCryptoBuffer v then
       d ← fetch v;
       encryptedLen ← call_codec (Encrypt e (Some nonce)) (VBytes (temp_message c innerLen d))
                        Crypto 0 encryptedMsgLen;
       v ← reslice Crypto 0 encryptedLen;
       writeRawMessage TypeEncrypted v
     else if innerMsgLen + encryptedMsgLen <=? zlen (cryptoBuffer t) then
       put Crypto 0 [c];;
       put Crypto 1 (be_put 2 innerLen);;
       copy_at Crypto 3 (zlen (cryptoBuffer t)) v;;
       encryptedLen ← call_codec (Encrypt e (Some nonce)) (VArr Crypto 0 innerMsgLen)
                        Crypto innerMsgLen encryptedMsgLen;
       v ← reslice Crypto innerMsgLen encryptedLen;
       writeRawMessage TypeEncrypted v
     else
       d ← fetch v;
       encryptedLen ← call_codec (Encrypt e (Some nonce)) (VBytes (temp_message c innerLen d))
                        Crypto 0 encryptedMsgLen;
       v ← reslice Crypto 0 encryptedLen;
       writeRawMessage TypeEncrypted v) t).
Proof.
  intros Hp Hde Hwf Hn Hnok Hv Hl Hd Hc Hdok Hcne Hcl Hdin Hcod Hf. cbv zeta. rewrite Hl, Hdin.
  pose proof (zlen_nonneg d). pose proof (wf_crypto t Hwf) as Hz. pose proof (wf_magic t Hwf) as Hm.
  unfold Chacha20Poly1305NonceSize, Chacha20Poly1305Overhead.
  rewrite (proj2 (Z.ltb_ge _ _)) by lia.
  pose proof (temp_ok c (zlen d) d Hc Hdok) as Htok. pose proof (zlen_temp c (zlen d) d) as Htl.
  destruct (_ <=? _) eqn:E; bool_cases.
  - rewrite Hz in *.
    destruct (inner_block Crypto 65535 c (zlen d) v d t) as (b & Hb & Hh & Hk); [done..|lia|lia|].
    rewrite Hk.
    edestruct (encrypt_send e de nonce (VArr Crypto 0 (3 + zlen d)) (temp_message c (zlen d) d)
      (3 + zlen d) (3 + zlen d + 24 + 16) (set_arr t Crypto b))
      as (ct & t' & Hr & Hwf' & Ho & Hu & Hct & Hctok & Hdec); auto using wf_set; try lia.
    { rewrite <- Htl. by apply view_arr. }
    rewrite options_set, upstream_set in *. eapply send_post_sealed; eauto. lia.
  - unfold fetch. erewrite tm_bind_ret by (by rewrite Hv).
    edestruct (encrypt_send e de nonce (VBytes (temp_message c (zlen d) d)) (temp_message c (zlen d) d)
      0 (3 + zlen d + 24 + 16) t)
      as (ct & t' & Hr & Hwf' & Ho & Hu & Hct & Hctok & Hdec); auto; try lia.
    eapply send_post_sealed; eauto. lia.
Qed.

Lemma WriteMessage_run o' nonce ty data t :
  wf t -> matching (options t) o' -> plain_type ty -> bytes_ok data -> zlen data <= max_data (options t) ->
  zlen nonce = 24 -> bytes_ok nonce -> u_fail (upstream t) = false ->
  send_post o' ty data t (WriteMessage (Some nonce) ty data t).
Proof.
  intros Hwf Hm Hty Hok Hmax Hn Hnok Hf. pose proof (max_data_le (options t)).
  destruct (write_compress_run o' ty data t Hwf Hm Hty Hok (compressing_max _ _ Hmax))
    as (c & v & d & b & Hrun & Hb & Hv & Hl & Hd & (Hc & Hdok & Hcne) & (Hv1 & Hv2 & Hv3) & Hcod).
  unfold WriteMessage. rewrite (tm_bind_ret _ _ _ _ _ Hrun). cbv beta iota.
  rewrite (tm_bind_ret get _ _ _ _ (get_run _)). set (t1 := set_arr t Crypto b) in *.
  assert (wf t1) as Hwf1 by by apply wf_set. change (options t1) with (options t).
  assert (send_post o' ty data t (writeRawMessage c v t1)) as Hplain.
  { destruct (writeRawMessage_run c v d t1) as (t' & Hr & H1 & H2 & H3); auto; [lia|].
    eapply send_post_plain; eauto. lia. }
  destruct (encryptor (options t)) as [e|] eqn:Ee; [|exact Hplain].
  destruct (encrypt (options t)) eqn:Eo; [|exact Hplain]. cbn [andb].
  destruct (_ || _ || _); [|exact Hplain].
  destruct (match_encryptor _ _ Hm e Eo Ee) as (de & Hde & Hp).
  unfold max_data in Hmax. rewrite (encrypting_true _ _ Eo Ee) in Hmax.
  apply (WriteMessage_encrypted o' e de nonce ty data c v d t1); auto. lia.
Qed.

(** ** Reading *)

Lemma be_get_1 x : be_get [x] = x.
Proof. reflexivity. Qed.

Lemma be_get_len n : 0 <= n < 65536 -> be_get (be_put 2 n) = n.
Proof. intros. by apply be_get_put. Qed.

(** The header fields of a stored inner message. *)
Lemma temp_fields b off c d :
  holds b off (temp_message c (zlen d) d) -> zlen d < 65536 ->
  be_get (sub_list b off (off + 1)) = c /\ be_get (sub_list b (off + 1) (off + 3)) = zlen d /\
  holds b (off + 3) d.
Proof.
  intros H Hd. pose proof (zlen_nonneg d).
  change (temp_message c (zlen d) d) with ([c] ++ be_put 2 (zlen d) ++ d) in H.
  apply holds_app_inv in H as [H1 H]. apply holds_app_inv in H as [H2 H3].
  rewrite zlen_be2 in H3. change (zlen [c]) with 1 in *. split_and!.
  - by rewrite (holds_sub_at _ _ _ 1 H1), be_get_1.
  - replace (off + 3) with (off + 1 + 2) by lia.
    rewrite (holds_sub_at _ _ _ 2 H2) by (by rewrite zlen_be2). apply be_get_len. lia.
  - by replace (off + 3) with (off + 1 + 2) by lia.
Qed.

Lemma view_holds t x off d : holds (arr t x) off d -> view_bytes t (VArr x off (zlen d)) = Some d.
Proof. intros H. by apply holds_slice. Qed.

Lemma u16_end n : 0 <= n <= 65528 -> u16 (7 + n) - 7 = n.
Proof. intros. rewrite u16_small; lia. Qed.

(** A decoding call on the payload, into the crypto array. *)
Lemma decode_run (f : codec_op) d pt t :
  (forall len r, zlen pt <= len <= zlen r ->
     exists r', f d len r = (Ret (zlen pt), r') /\ zlen r' = zlen r /\ holds r' 0 pt) ->
  wf t -> holds (buffer t) 7 d -> zlen d <= 65528 -> zlen pt <= 65528 ->
  exists b, call_codec f (VArr Buf 7 (u16 (7 + zlen d) - 7)) Crypto 7 (zlen (cryptoBuffer t)) t
            = (Ret (zlen pt), set_arr t Crypto b) /\ zlen b = 65535 /\ holds b 7 pt.
Proof.
  intros Hf Hwf Hh Hd Hpt. pose proof (zlen_nonneg d). pose proof (wf_crypto t Hwf) as Hz.
  rewrite u16_end by lia.
  destruct (Hf (65535 - 7) (sub_list (arr t Crypto) 7 (zlen (arr t Crypto)))) as (r' & Hr & Hrz & Hrh).
  { rewrite zlen_sub_list; rewrite ?(wf_arr t Crypto Hwf); lia. }
  rewrite zlen_sub_list in Hrz by (rewrite ?(wf_arr t Crypto Hwf); lia).
  rewrite (wf_arr t Crypto Hwf) in *. exists (blit (arr t Crypto) 7 r'). split_and!.
  - apply (codec_run _ _ d); [by apply view_holds|lia|lia|by rewrite Hz, (wf_arr t Crypto Hwf)|].
    by rewrite Hz, (wf_arr t Crypto Hwf).
  - rewrite zlen_blit; rewrite (wf_arr t Crypto Hwf); lia.
  - apply holds_region; [rewrite (wf_arr t Crypto Hwf); lia..|done].
Qed.

(** A layer of reading: the payload [(c', d')] in the main array becomes [(c, d)]. *)
Definition layer_post (t : Transport) (c : Z) (d : list Z)
    (r : outcome (Z * perr) (Z * Z) * Transport) : Prop :=
  exists t', r = (Ret (c, zlen d), t') /\ wf t' /\ options t' = options t /\
    upstream t' = upstream t /\ holds (buffer t') 7 d.

Lemma read_decrypt_run c' d' c d t :
  wf t -> holds (buffer t) 7 d' -> zlen d' <= 65528 -> c <> TypeEncrypted ->
  sealed (options t) c' d' c d -> layer_post t c d (read_decrypt c' (zlen d') t).
Proof.
  intros Hwf Hh Hd' Hc [[-> ->]|(-> & Hd & de & Hde & Hdec)]; unfold read_decrypt.
  { rewrite (proj2 (Z.eqb_neq c TypeEncrypted)) by done. by exists t. }
  rewrite Z.eqb_refl, (tm_bind_ret get _ _ _ _ (get_run _)), Hde.
  pose proof (zlen_nonneg d) as H0. set (pt := temp_message c (zlen d) d) in *.
  assert (zlen pt = 3 + zlen d) as Hpt by apply zlen_temp.
  destruct (decode_run (Decrypt de) d' pt t) as (b & Hrun & Hb & Hbh); auto; [lia|].
  rewrite (tm_bind_ret _ _ _ _ _ Hrun). cbv beta. unfold MaxTransportByteSize.
  rewrite (proj2 (Z.ltb_ge _ _)) by lia. set (t1 := set_arr t Crypto b).
  assert (wf t1) as Hwf1 by by apply wf_set.
  rewrite (tm_bind_ret _ _ _ _ _ (copy_run Buf 7 (7 + zlen pt) (VArr Crypto 7 (zlen pt)) pt t1
    (view_holds t1 Crypto 7 pt Hbh) ltac:(lia) ltac:(lia) ltac:(rewrite (wf_arr t1 Buf Hwf1); lia))).
  set (b2 := blit (arr t1 Buf) 7 pt). set (t2 := set_arr t1 Buf b2).
  assert (zlen b2 = 65535) as Hb2 by (unfold b2; rewrite zlen_blit; rewrite (wf_arr t1 Buf Hwf1); lia).
  assert (holds b2 7 pt) as Hh2 by (apply holds_blit; [lia|rewrite (wf_arr t1 Buf Hwf1); lia]).
  assert (wf t2) as Hwf2 by by apply wf_set.
  rewrite u16_small by lia. rewrite (proj2 (Z.leb_le 3 _)) by lia.
  rewrite (tm_bind_ret get _ _ _ _ (get_run _)). change (buffer t2) with b2.
  destruct (temp_fields b2 7 c d Hh2) as (F1 & F2 & F3); [lia|].
  change (7 + 1) with 8 in *. change (7 + 3) with 10 in *. rewrite F1, F2.
  rewrite (u16_small (3 + zlen d)), (u16_small (zlen d)) by lia. rewrite (proj2 (Z.leb_le _ _)) by lia.
  rewrite (tm_bind_ret _ _ _ _ _ (copy_run Buf 7 (zlen b2) (VArr Buf 10 (zlen d)) d t2
    (view_holds t2 Buf 10 d F3) ltac:(lia) ltac:(lia) ltac:(rewrite (wf_arr t2 Buf Hwf2); lia))).
  eexists. split_and!; [done|apply wf_set; [done|rewrite zlen_blit; rewrite ?(wf_arr t2 Buf Hwf2); lia]|done|done|].
  apply (holds_blit b2); lia.
Qed.

Lemma read_decompress_run c d ty data t :
  wf t -> holds (buffer t) 7 d -> zlen d <= 65528 -> ty <> TypeCompress ->
  coded (options t) c d ty data -> layer_post t ty data (read_decompress c (zlen d) t).
Proof.
  intros Hwf Hh Hd Hc [[-> ->]|(-> & Hdata & dc & Hdc & Hdec)]; unfold read_decompress.
  { rewrite (proj2 (Z.eqb_neq ty TypeCompress)) by done. by exists t. }
  rewrite Z.eqb_refl, (tm_bind_ret get _ _ _ _ (get_run _)), Hdc.
  pose proof (zlen_nonneg data) as H0. set (pt := temp_message ty (zlen data) data) in *.
  assert (zlen pt = 3 + zlen data) as Hpt by apply zlen_temp.
  destruct (decode_run (Decompress dc) d pt t) as (b & Hrun & Hb & Hbh); auto; [lia|].
  rewrite (tm_bind_ret _ _ _ _ _ Hrun). cbv beta. unfold MaxTransportByteSize.
  rewrite (proj2 (Z.ltb_ge _ _)) by lia. rewrite (proj2 (Z.leb_le 3 _)) by lia.
  set (t1 := set_arr t Crypto b). assert (wf t1) as Hwf1 by by apply wf_set.
  rewrite (tm_bind_ret get _ _ _ _ (get_run _)). change (cryptoBuffer t1) with b.
  destruct (temp_fields b 7 ty data Hbh) as (F1 & F2 & F3); [lia|].
  change (7 + 1) with 8 in *. change (7 + 3) with 10 in *. rewrite F1, F2.
  rewrite (u16_small (3 + zlen data)), (u16_small (zlen data)), (u16_small (zlen pt)) by lia.
  rewrite (proj2 (Z.leb_le _ _)) by lia.
  rewrite (tm_bind_ret _ _ _ _ _ (copy_run Buf 7 (zlen (buffer t1)) (VArr Crypto 10 (zlen data)) data t1
    (view_holds t1 Crypto 10 data F3) ltac:(lia) ltac:(rewrite (wf_buffer _ Hwf1); lia)
    ltac:(rewrite (wf_buffer _ Hwf1), (wf_arr t1 Buf Hwf1); lia))).
  eexists. split_and!; [done|apply wf_set; [done|rewrite zlen_blit; rewrite ?(wf_arr t1 Buf Hwf1); lia]|done|done|].
  apply (holds_blit (arr t1 Buf)); rewrite ?(wf_arr t1 Buf Hwf1); lia.
Qed.

Lemma copy_out_app p d : copy_out p d = take (length p) d ++ drop (length d) p.
Proof.
  unfold copy_out, blit. simpl. rewrite Nat.sub_0_r, take_take, Nat.min_id. f_equal.
  rewrite length_take. destruct (decide (length p <= length d)%nat).
  - rewrite !drop_ge by lia. done.
  - f_equal. lia.
Qed.

(** Reading the header of a frame. *)
Lemma read_header m c' n tail t :
  wf t -> magic (options t) = m -> u_in (upstream t) = m ++ [c'] ++ be_put 2 n ++ tail -> 0 <= n < 65536 ->
  exists t', wf t' /\ options t' = options t /\
    upstream t' = MkUpstream tail (u_out (upstream t)) (u_open (upstream t)) (u_fail (upstream t)) /\
    be_get (sub_list (buffer t') 4 5) = c' /\ be_get (sub_list (buffer t') 5 7) = n /\
    forall A (k : Transport -> tm A), (ReadFull Buf 0 4;;
     t ← get;
     if bool_decide (sub_list (buffer t) 0 4 <> magic (options t)) then throw 0 ErrInvalidMagic
     else ReadFull Buf 4 7;; t ← get; k t) t = k t' t'.
Proof.
  intros Hwf Hm Hin Hn. pose proof (wf_magic t Hwf) as Hm4. rewrite Hm in Hm4.
  pose proof (wf_buffer t Hwf) as Hz.
  set (b1 := blit (buffer t) 0 m). set (p := [c'] ++ be_put 2 n).
  assert (holds b1 0 m) as Hh1 by (apply holds_blit; lia).
  assert (zlen b1 = 65535) as Hb1 by (unfold b1; rewrite zlen_blit; lia).
  assert (zlen p = 3) as Hp by (unfold p; rewrite zlen_app, zlen_be2; done).
  pose proof (holds_blit b1 4 p ltac:(lia) ltac:(lia)) as Hh.
  apply holds_app_inv in Hh as [H1 H2]. change (4 + zlen [c']) with 5 in H2.
  exists (set_upstream (set_buffer t (blit b1 4 p))
    (MkUpstream tail (u_out (upstream t)) (u_open (upstream t)) (u_fail (upstream t)))).
  split_and!; [| done | done | | |].
  - destruct Hwf. split; [|done|done]. cbn [buffer set_upstream set_buffer]. rewrite zlen_blit; lia.
  - exact (f_equal be_get (holds_sub_at _ _ _ 1 H1 eq_refl)).
  - pose proof (f_equal be_get (holds_sub_at _ _ _ 2 H2 ltac:(by rewrite zlen_be2))) as E.
    rewrite be_get_len in E by lia. exact E.
  - intros A k.
    rewrite (tm_bind_ret _ _ _ _ _ (ReadFull_run Buf 0 4 _ _ t Hin ltac:(lia) ltac:(lia) ltac:(simpl; lia))).
    rewrite (tm_bind_ret get _ _ _ _ (get_run _)).
    cbn [buffer options set_upstream set_arr set_buffer arr]. fold b1. rewrite bool_decide_eq_false_2.
    2:{ rewrite Hm. pose proof (holds_sub_at b1 0 m 4 Hh1 ltac:(lia)) as E. rewrite Z.add_0_l in E.
        rewrite E. auto. }
    set (t1 := set_upstream _ _).
    rewrite (tm_bind_ret _ _ _ _ _ (ReadFull_run Buf 4 7 p tail t1
      ltac:(unfold p; rewrite <- app_assoc; done) ltac:(lia) ltac:(lia) ltac:(simpl; lia))).
    done.
Qed.

Lemma ReadMessage_run wire ty data rest p t :
  wf t -> carries (options t) (magic (options t)) wire ty data -> zlen data <= 65528 ->
  ty <> TypeCompress -> u_in (upstream t) = wire ++ rest ->
  exists t', ReadMessage p t = (Ret (ty, zlen data, copy_out p data), t') /\ wf t' /\
    options t' = options t /\
    upstream t' = MkUpstream rest (u_out (upstream t)) (u_open (upstream t)) (u_fail (upstream t)).
Proof.
  intros Hwf (c & d & c' & d' & -> & Hd' & [Hc'ok Hd'ok] & Hc & Hcne & Hseal & Hcod) Hdata Hty Hin.
  pose proof (zlen_nonneg d') as H0. pose proof (zlen_nonneg data).
  unfold ReadMessage.
  unfold frame in Hin. rewrite <- !app_assoc in Hin.
  destruct (read_header _ c' (zlen d') (d' ++ rest) t Hwf eq_refl Hin ltac:(lia))
    as (t1 & Hwf1 & Ho1 & Hu1 & F1 & F2 & Hk). rewrite Hk, F1, F2. cbv zeta. rewrite u16_small by lia.
  rewrite (tm_bind_ret _ _ _ _ _ (ReadFull_run Buf 7 (7 + zlen d') d' rest t1 ltac:(by rewrite Hu1) ltac:(lia)
    ltac:(lia) ltac:(rewrite (wf_arr t1 Buf Hwf1); lia))).
  set (t2 := set_upstream _ _).
  assert (wf t2) as Hwf2.
  { split; [|exact (wf_crypto t1 Hwf1)|exact (wf_magic t1 Hwf1)].
    cbn [t2 buffer set_upstream set_arr set_buffer]. rewrite zlen_blit; rewrite (wf_arr t1 Buf Hwf1); lia. }
  assert (holds (buffer t2) 7 d') as Hh2.
  { cbn [t2 buffer set_upstream set_arr set_buffer]. apply holds_blit; [lia|]. rewrite (wf_arr t1 Buf Hwf1). lia. }
  assert (options t2 = options t) as Ho2 by exact Ho1.
  assert (upstream t2 = MkUpstream rest (u_out (upstream t)) (u_open (upstream t)) (u_fail (upstream t))) as Hu2
    by (cbn [t2 upstream set_upstream]; by rewrite Hu1).
  clearbody t2. rewrite <- Ho2 in Hseal, Hcod |- *.
  destruct (read_decrypt_run c' d' c d t2) as (t3 & Hr3 & Hwf3 & Ho3 & Hu3 & Hh3); auto.
  rewrite (tm_bind_ret _ _ _ _ _ Hr3). cbv beta iota. rewrite <- Ho3 in Hcod.
  assert (zlen d <= 65528) as Hd.
  { destruct Hh3 as (_ & Hl & _). rewrite (wf_buffer _ Hwf3) in Hl. lia. }
  destruct (read_decompress_run c d ty data t3) as (t4 & Hr4 & Hwf4 & Ho4 & Hu4 & Hh4); auto.
  rewrite (tm_bind_ret _ _ _ _ _ Hr4). cbv beta iota. rewrite u16_end by lia.
  unfold fetch at 1. erewrite tm_bind_ret.
  2:{ rewrite (view_holds t4 Buf 7 data Hh4). reflexivity. }
  exists t4. split_and!; [done|done|congruence|congruence].
Qed.
