(* ===== verification/Codecs.v ===== *)
(** * Compressor and encryptor implementations
      (common/protocol/compressor.go, encryptor.go)

    The zstd library and the XChaCha20-Poly1305 library are parameters: their
    pure functions, and whether a call that appends to a given slice used it
    (it can only when the result fits its capacity) or returned a new one. The
    pools of encoders and decoders only recycle stateless objects. *)

From S2P Require Import Prelude Protocol ProtocolSteps.

Definition DefaultCompressionLevel : Z := 2.
Definition FastestCompressionLevel : Z := 1.
Definition BestCompressionLevel : Z := 4.
Definition ZstdOverhead : Z := 17.

(** [EncodeAll(level, data)], [DecodeAll(data)], and whether the target slice
    was used, given the data and the capacity. *)
Record ZstdLib := MkZstdLib {
  EncodeAll : Z -> list Z -> list Z;
  DecodeAll : list Z -> option (list Z);
  enc_in_place : list Z -> Z -> bool;
  dec_in_place : list Z -> Z -> bool }.

Record ZstdCompressor := MkZstd { compressionLevel : Z }.

Definition NewZstdCompressor (level : Z) : outcome perr ZstdCompressor :=
  if (level <? FastestCompressionLevel) || (BestCompressionLevel <? level) then Fail ErrLevel
  else Ret (MkZstd level).

Definition NewDefaultZstdCompressor : outcome perr ZstdCompressor := NewZstdCompressor DefaultCompressionLevel.

(** The contents of a target of length [len] after a call that returned
    [result], written in place or copied back. *)
Definition returned (in_place : bool) (result : list Z) (len : Z) (region : list Z) : list Z :=
  if in_place && (zlen result <=? zlen region) then blit region 0 result
  else blit region 0 (take (Z.to_nat len) result).

Definition zstd_Compress (lib : ZstdLib) (c : ZstdCompressor) : codec_op := fun data len region =>
  if zlen data =? 0 then (Ret 0, region)
  else
    let requiredCapacity := zlen data + ZstdOverhead in
    if zlen region <? requiredCapacity then (Fail ErrCapacity, region)
    else
      let compressed := EncodeAll lib (compressionLevel c) data in
      if 0 <? zlen compressed then
        (Ret (zlen compressed), returned (enc_in_place lib data (zlen region)) compressed len region)
      else (Fail ErrCapacity, region).

Definition zstd_Decompress (lib : ZstdLib) : codec_op := fun data len region =>
  if zlen data =? 0 then (Fail ErrDecompressionFailed, region)
  else match DecodeAll lib data with
       | None => (Fail ErrDecompressionFailed, region)
       | Some decompressed =>
           if (0 <? zlen decompressed) && (zlen decompressed <=? zlen region) then
             (Ret (zlen decompressed),
              returned (dec_in_place lib data (zlen region)) decompressed len region)
           else (Fail ErrCapacity, region)
       end.

Definition zstd (lib : ZstdLib) (c : ZstdCompressor) : Compressor :=
  MkCompressor (zstd_Compress lib c) (zstd_Decompress lib).

(** [Seal(key, nonce, plaintext)], [Open(key, nonce, ciphertext)], [Overhead()],
    and whether [Open] used the target slice. *)
Record AeadLib := MkAeadLib {
  Seal : list Z -> list Z -> list Z -> list Z;
  Open : list Z -> list Z -> list Z -> option (list Z);
  Overhead : Z;
  open_in_place : list Z -> Z -> bool }.

Record Chacha20Poly1305Encryptor := MkChacha { aead_key : list Z }.

Definition NewChacha20Poly1305Encryptor (key : list Z) : outcome perr Chacha20Poly1305Encryptor :=
  if zlen key =? Chacha20Poly1305KeySize then Ret (MkChacha key) else Fail ErrKey.

(** The nonce is written to the first 24 bytes, the sealed data is appended to
    an empty slice behind it whose capacity has been checked. *)
Definition chacha_Encrypt (lib : AeadLib) (e : Chacha20Poly1305Encryptor) (rnd : option (list Z))
    : codec_op := fun data len region =>
  let totalLen := Chacha20Poly1305NonceSize + zlen data + Overhead lib in
  if zlen region <? totalLen then (Fail ErrCapacity, region)
  else match rnd with
       | None => (Fail ErrRandom, region)
       | Some nonce =>
           let region := blit region 0 nonce in
           (Ret totalLen,
            blit region Chacha20Poly1305NonceSize (Seal lib (aead_key e) nonce data))
       end.

Definition chacha_Decrypt (lib : AeadLib) (e : Chacha20Poly1305Encryptor) : codec_op :=
  fun data len region =>
  if zlen data <? Chacha20Poly1305NonceSize then (Fail ErrInvalidCiphertext, region)
  else
    let nonce := sub_list data 0 Chacha20Poly1305NonceSize in
    let ciphertext := sub_list data Chacha20Poly1305NonceSize (zlen data) in
    match Open lib (aead_key e) nonce ciphertext with
    | None => (Fail ErrInvalidCiphertext, region)
    | Some plaintext =>
        if zlen plaintext <=? zlen region then
          (Ret (zlen plaintext),
           if 0 <? zlen plaintext
           then returned (open_in_place lib data (zlen region)) plaintext len region else region)
        else (Fail ErrCapacity, region)
    end.

Definition chacha (lib : AeadLib) (e : Chacha20Poly1305Encryptor) : Encryptor :=
  MkEncryptor (chacha_Encrypt lib e) (chacha_Decrypt lib e).

(** ** What the libraries document *)

(** Decoding undoes encoding, and an encoded frame is not empty. *)
Class ZstdLibOK (lib : ZstdLib) : Prop := {
  zstd_roundtrip : forall level x, DecodeAll lib (EncodeAll lib level x) = Some x;
  zstd_frame : forall level x, x <> [] -> EncodeAll lib level x <> [];
  zstd_bytes : forall level x, bytes_ok x -> bytes_ok (EncodeAll lib level x) }.

(** Sealing adds a 16-byte tag; opening what was sealed with the same key and
    nonce yields the plaintext. *)
Class AeadLibOK (lib : AeadLib) : Prop := {
  aead_roundtrip : forall k n p, Open lib k n (Seal lib k n p) = Some p;
  aead_length : forall k n p, zlen (Seal lib k n p) = zlen p + 16;
  aead_overhead : Overhead lib = 16;
  aead_bytes : forall k n p, bytes_ok p -> bytes_ok (Seal lib k n p) }.

Lemma zlen_0 {A} (l : list A) : zlen l = 0 -> l = [].
Proof. destruct l; [done|]. unfold zlen. simpl. lia. Qed.

Lemma returned_holds in_place result len region :
  zlen result <= len -> len <= zlen region ->
  returned in_place result len region = blit region 0 result.
Proof.
  intros H1 H2. unfold returned. destruct (_ && _); [done|]. by rewrite take_ge by zlen_lia.
Qed.

#[export] Instance zstd_pair lib c c' : ZstdLibOK lib -> CompressPair (zstd lib c) (zstd lib c').
Proof.
  intros Hlib. split. intros x len r Hx Hok Hlen Hr. simpl.
  set (y := EncodeAll lib (compressionLevel c) x).
  assert (0 < zlen x) as Hx0.
  { pose proof (zlen_nonneg x). destruct (decide (zlen x = 0)) as [E%zlen_0|]; [done|lia]. }
  assert (0 < zlen y) as Hy0.
  { pose proof (zlen_nonneg y). destruct (decide (zlen y = 0)) as [E%zlen_0|]; [|lia].
    by apply (zstd_frame (compressionLevel c) x) in Hx. }
  unfold zstd_Compress. unfold ZstdOverhead.
  rewrite (proj2 (Z.eqb_neq _ _)), (proj2 (Z.ltb_ge _ _)) by lia. fold y.
  rewrite (proj2 (Z.ltb_lt 0 _)) by lia.
  eexists _, _. split_and!; [done|lia|unfold returned; case_match; rewrite zlen_blit; lia|].
  intros Hfit. exists y. split_and!; [done|by apply zstd_bytes| |].
  - rewrite returned_holds by lia. apply holds_blit; lia.
  - intros len2 r2 Hr2. simpl. unfold zstd_Decompress. rewrite (proj2 (Z.eqb_neq _ _)) by lia.
    unfold y at 1. rewrite zstd_roundtrip, (proj2 (Z.ltb_lt 0 _)), (proj2 (Z.leb_le _ _)) by lia.
    rewrite returned_holds by lia. cbn [andb]. eexists. split_and!; [done|rewrite zlen_blit; lia|].
    apply holds_blit; lia.
Qed.

#[export] Instance chacha_pair lib e : AeadLibOK lib -> EncryptPair (chacha lib e) (chacha lib e).
Proof.
  intros Hlib. split. intros nonce x len r Hn Hnok Hok Hr. simpl. unfold Chacha20Poly1305NonceSize in Hn.
  set (s := Seal lib (aead_key e) nonce x). pose proof (zlen_nonneg x) as Hx0.
  assert (zlen s = zlen x + 16) as Hs by apply aead_length.
  unfold chacha_Encrypt. rewrite aead_overhead. unfold Chacha20Poly1305NonceSize.
  rewrite (proj2 (Z.ltb_ge _ _)) by lia. fold s. exists (nonce ++ s).
  assert (zlen (nonce ++ s) = zlen x + 40) as Hns by (rewrite zlen_app; lia).
  eexists. split_and!; [by rewrite Hns; do 2 f_equal; lia|done| | | |].
  - apply Forall_app_2; [done|by apply aead_bytes].
  - rewrite !zlen_blit; rewrite ?zlen_blit; lia.
  - apply holds_app.
    + apply holds_blit_other; [|lia|rewrite zlen_blit; lia|lia]. apply holds_blit; lia.
    + rewrite Z.add_0_l, Hn. apply holds_blit; [lia|]. rewrite zlen_blit; lia.
  - intros len2 r2 Hr2. simpl. unfold chacha_Decrypt, Chacha20Poly1305NonceSize.
    rewrite (proj2 (Z.ltb_ge _ _)) by lia.
    assert (sub_list (nonce ++ s) 0 24 = nonce) as -> by (rewrite sub_list_app_l, <- Hn, sub_list_all by lia; done).
    assert (sub_list (nonce ++ s) 24 (zlen (nonce ++ s)) = s) as ->.
    { rewrite sub_list_app_r, Hn, zlen_app by lia. replace (zlen nonce + zlen s - 24) with (zlen s) by lia.
      by rewrite Z.sub_diag, sub_list_all. }
    unfold s. rewrite aead_roundtrip, (proj2 (Z.leb_le _ _)) by lia.
    eexists. split_and!; [done|..].
    + destruct (0 <? zlen x); [|done]. rewrite returned_holds, zlen_blit by lia. done.
    + destruct (0 <? zlen x) eqn:E; bool_cases.
      * rewrite returned_holds by lia. apply holds_blit; lia.
      * assert (x = []) as -> by (apply zlen_0; lia). split_and!; [lia|unfold zlen; simpl; lia|done].
Qed.
