(* ===== verification/BatchProps.v ===== *)
(** * Batches of packets

    [BatchWrite] packs packets into messages, [ParseBatch] unpacks a message. *)

From S2P Require Import Prelude Protocol ProtocolSteps ProtocolProps.

(** ** The body of a batch *)

Definition sizes_bytes (sizes : list Z) : list Z := sizes ≫= be_put 2.

Definition batch_body (datas : list (list Z)) : list Z :=
  be_put 2 (zlen datas) ++ sizes_bytes (zlen <$> datas) ++ concat datas.

(** The packets of the caller: each starts [headerSize] bytes into its buffer. *)
Definition packets_in (headerSize : Z) (buf datas : list (list Z)) : Prop :=
  Forall2 (fun b d => slice b headerSize (headerSize + zlen d) = Some d) buf datas.

Lemma zlen_sizes_bytes sizes : zlen (sizes_bytes sizes) = 2 * zlen sizes.
Proof.
  induction sizes as [|s sizes IH]; [done|]. unfold sizes_bytes in *. cbn [mbind list_bind].
  rewrite zlen_app, zlen_cons, IH, zlen_be2. lia.
Qed.

Lemma zlen_fmap {A B} (f : A -> B) (l : list A) : zlen (f <$> l) = zlen l.
Proof. unfold zlen. by rewrite length_fmap. Qed.

Lemma batch_len_acc sizes n : foldl Z.add n sizes = n + foldl Z.add 0 sizes.
Proof.
  revert n. induction sizes as [|s sizes IH]; intros n; cbn [foldl]; [lia|]. rewrite (IH (n + s)), (IH (0 + s)). lia.
Qed.

Lemma foldl_concat (datas : list (list Z)) : foldl Z.add 0 (zlen <$> datas) = zlen (concat datas).
Proof.
  induction datas as [|d datas IH]; [done|]. cbn [fmap list_fmap foldl concat].
  rewrite batch_len_acc, zlen_app, IH. done.
Qed.

Lemma zlen_batch_body (datas : list (list Z)) : zlen (batch_body datas) = batch_len (zlen <$> datas).
Proof.
  unfold batch_body, batch_len. rewrite !zlen_app, zlen_be2, zlen_sizes_bytes, batch_len_acc, foldl_concat.
  lia.
Qed.

Lemma bytes_ok_concat datas : Forall bytes_ok datas -> bytes_ok (concat datas).
Proof. induction 1; simpl; [constructor|]. by apply Forall_app_2. Qed.

Lemma batch_body_ok datas : Forall bytes_ok datas -> bytes_ok (batch_body datas).
Proof.
  intros H. apply Forall_app_2; [apply be_put_ok|]. apply Forall_app_2; [|by apply bytes_ok_concat].
  unfold sizes_bytes. clear H. induction (zlen <$> datas); cbn [mbind list_bind]; [constructor|].
  apply Forall_app_2; [apply be_put_ok|done].
Qed.

(** ** Building the body *)

(** [b'] has everything [b] has before [off]. *)
Definition extends (off : Z) (b b' : list Z) : Prop :=
  zlen b' = zlen b /\ forall o p, o + zlen p <= off -> holds b o p -> holds b' o p.

Lemma extends_blit off b s :
  0 <= off -> off + zlen s <= zlen b -> extends off b (blit b off s).
Proof.
  intros H0 H1. pose proof (zlen_nonneg s). split; [rewrite zlen_blit; lia|].
  intros o p Ho Hp. apply holds_blit_other; [done|lia..].
Qed.

Lemma extends_trans off off' b b' b'' :
  off <= off' -> extends off b b' -> extends off' b' b'' -> extends off b b''.
Proof.
  intros Ho [H1 H2] [H3 H4]. split; [congruence|]. intros o p Hp Hh. apply H4; [lia|]. by apply H2.
Qed.

Lemma holds_nil l off : 0 <= off <= zlen l -> holds l off [].
Proof.
  intros H. unfold holds. change (zlen (@nil Z)) with 0. rewrite Z.add_0_r. split_and!; [lia|lia|].
  unfold sub_list. by rewrite Z.sub_diag.
Qed.

Lemma put_sizes_run sizes off t :
  wf t -> 0 <= off -> off + 2 * zlen sizes <= 65535 ->
  exists b, put_sizes off sizes t = (Ret (off + 2 * zlen sizes), set_arr t Buf b) /\
    extends off (buffer t) b /\ holds b off (sizes_bytes sizes).
Proof.
  revert off t. induction sizes as [|s sizes IH]; intros off t Hwf H0 H1; cbn [put_sizes].
  - exists (arr t Buf). rewrite set_arr_id. change (zlen (@nil Z)) with 0 in *.
    rewrite Z.mul_0_r, Z.add_0_r in *. split_and!; [done|done|].
    apply holds_nil. rewrite (wf_arr t Buf Hwf). lia.
  - rewrite zlen_cons in *. pose proof (zlen_nonneg sizes). pose proof (wf_arr t Buf Hwf) as Hz.
    pose proof (zlen_be2 s) as H2.
    rewrite (tm_bind_ret _ _ _ _ _ (put_run Buf off (be_put 2 s) t H0 ltac:(lia))).
    set (b1 := blit (arr t Buf) off (be_put 2 s)).
    assert (zlen b1 = 65535) as Hb1 by (unfold b1; rewrite zlen_blit; lia).
    destruct (IH (off + 2) (set_arr t Buf b1)) as (b & Hrun & [Hz' Hext] & Hh); [by apply wf_set|lia|lia|].
    exists b. arr_norm. rewrite Hrun, set_set. change (buffer (set_arr t Buf b1)) with b1 in *. split_and!.
    + do 2 f_equal. lia.
    + eapply (extends_trans _ (off + 2)); [lia| |by split]. apply (extends_blit off (arr t Buf)); lia.
    + unfold sizes_bytes. cbn [mbind list_bind]. apply holds_app; [|by rewrite H2].
      apply Hext; [lia|]. apply holds_blit; lia.
Qed.

Lemma put_data_run h buf datas off t :
  wf t -> packets_in h buf datas -> 0 <= off -> off + zlen (concat datas) <= 65535 ->
  exists b, put_data off h buf (zlen <$> datas) t = (Ret (off + zlen (concat datas)), set_arr t Buf b) /\
    extends off (buffer t) b /\ holds b off (concat datas).
Proof.
  intros Hwf Hp. revert off t Hwf. induction Hp as [|x d buf datas Hx Hp IH]; intros off t Hwf H0 H1;
    cbn [put_data fmap list_fmap concat].
  - exists (arr t Buf). rewrite set_arr_id. cbn [concat] in *. change (zlen (@nil Z)) with 0 in *.
    rewrite Z.add_0_r in *. split_and!; [done|done|].
    apply holds_nil. rewrite (wf_arr t Buf Hwf). lia.
  - cbn [concat] in H1. rewrite zlen_app in *. pose proof (zlen_nonneg d). pose proof (zlen_nonneg (concat datas)).
    pose proof (wf_arr t Buf Hwf) as Hz.
    rewrite (tm_bind_ret get _ _ _ _ (get_run _)), Hx. cbn [or_panics].
    rewrite (tm_bind_ret (mret d) _ t d t) by done.
    rewrite (tm_bind_ret _ _ _ _ _ (copy_run Buf off (zlen (buffer t)) (VBytes d) d t eq_refl H0
      ltac:(rewrite (wf_buffer t Hwf); lia) ltac:(rewrite (wf_buffer t Hwf), Hz; lia))).
    set (b1 := blit (arr t Buf) off d).
    assert (zlen b1 = 65535) as Hb1 by (unfold b1; rewrite zlen_blit; lia).
    destruct (IH (off + zlen d) (set_arr t Buf b1)) as (b & Hrun & [Hz' Hext] & Hh); [by apply wf_set|lia|lia|].
    exists b. arr_norm. rewrite Hrun, set_set. change (buffer (set_arr t Buf b1)) with b1 in *. split_and!.
    + do 2 f_equal. lia.
    + eapply (extends_trans _ (off + zlen d)); [lia| |by split]. apply (extends_blit off (arr t Buf)); lia.
    + apply holds_app; [|done]. apply Hext; [lia|]. apply holds_blit; lia.
Qed.

(** ** Sending one batch *)

Definition batch_ok (o : TransportOptions) (n : Z) : Prop :=
  n <= 65528 /\ (encrypting o = true -> n <= 65485) /\
  (compressing o = true -> compressThreshold o <= n -> n <= 32756).

Lemma batch_compress_run o' body t :
  wf t -> matching (options t) o' -> bytes_ok body -> holds (buffer t) 7 body ->
  (compressing (options t) = true -> compressThreshold (options t) <= zlen body -> zlen body <= 32756) ->
  compress_post o' TypeBatchTransport body t (batch_compress (zlen body) t).
Proof.
  intros Hwf Hm Hok Hh Hmax. pose proof (wf_crypto t Hwf) as Hz. pose proof (zlen_nonneg body) as H0.
  assert (plain_type TypeBatchTransport) as Hty by done.
  assert (forall b, view_bytes (set_arr t Crypto b) (VArr Buf 7 (zlen body)) = Some body) as Hv.
  { intros b. apply (view_holds (set_arr t Crypto b) Buf). done. }
  assert (compress_post o' TypeBatchTransport body t (Ret (TypeBatchTransport, VArr Buf 7 (zlen body)), t)) as Hid.
  { apply compress_post_id; try done. by apply (view_holds t Buf). }
  unfold batch_compress. rewrite (tm_bind_ret get _ t t t) by done.
  destruct (compressor (options t)) as [c|] eqn:Ec; [|exact Hid].
  destruct (compress (options t)) eqn:Eo; [|exact Hid]. cbn [andb].
  destruct (_ <=? _) eqn:Ethr; [|exact Hid]. bool_cases.
  destruct (match_compressor _ _ Hm c Eo Ec) as (dc & Hdc & Hp).
  assert (zlen body <= 32756) as Hmax'.
  { apply Hmax; [|done]. unfold compressing. rewrite Eo, Ec. by apply bool_decide_eq_true_2. }
  rewrite Hz, (proj2 (Z.ltb_lt _ _)), (proj2 (Z.leb_le _ _)) by lia. cbn [andb].
  destruct (inner_block Crypto 65535 TypeBatchTransport (zlen body) (VArr Buf 7 (zlen body)) body t)
    as (b & Hb & Hbh & Hk); [done|by apply (view_holds t Buf)|done|lia|lia|]. rewrite Hk.
  destruct (compress_tail o' c dc TypeBatchTransport body (VArr Crypto 0 (3 + zlen body)) (3 + zlen body)
    (VArr Buf 7 (zlen body)) (set_arr t Crypto b)) as (b' & _ & Hpost); auto; try done;
    [by apply wf_set| |lia|lia| |].
  { rewrite <- (zlen_temp TypeBatchTransport (zlen body)). by apply view_arr. }
  { intros b2 _. rewrite set_set. apply Hv. }
  change (cryptoBuffer (set_arr t Crypto b)) with b in Hpost. rewrite Hb in Hpost.
  by eapply compress_post_set, compress_post_set.
Qed.

Lemma put_crypto_same x off s t r t' :
  x = Buf -> put x off s t = (r, t') -> cryptoBuffer t' = cryptoBuffer t.
Proof. intros ->. unfold put. case_match; by intros [= <- <-]. Qed.

(** The slice of the result is taken after the header is written; the header
    does not touch the crypto array. *)
Lemma writeEncrypted_frame off n t :
  0 <= off -> 0 <= n -> off + n <= zlen (cryptoBuffer t) ->
  writeEncryptedMessage off n t =
  (put Buf 0 (magic (options t));; put Buf 4 [TypeEncrypted];; put Buf 5 (be_put 2 n);;
   copy_at Buf 7 (zlen (buffer t)) (VArr Crypto off n);; write_upstream Buf 0 (7 + n) (7 + n)) t.
Proof.
  intros H0 H1 H2. unfold writeEncryptedMessage. rewrite (tm_bind_ret get _ _ _ _ (get_run _)).
  unfold mbind, tm_mbind.
  destruct (put Buf 0 _ t) as [[[]| |] t1] eqn:E1; [|done..]. apply put_crypto_same in E1; [|done].
  destruct (put Buf 4 _ t1) as [[[]| |] t2] eqn:E2; [|done..]. apply put_crypto_same in E2; [|done].
  destruct (put Buf 5 _ t2) as [[[]| |] t3] eqn:E3; [|done..]. apply put_crypto_same in E3; [|done].
  rewrite reslice_run; [done..|simpl; congruence].
Qed.

Lemma writeEncrypted_run off ct t :
  wf t -> holds (cryptoBuffer t) off ct -> zlen ct <= 65528 -> u_fail (upstream t) = false ->
  exists t', writeEncryptedMessage off (zlen ct) t = (Ret (7 + zlen ct), t') /\ wf t' /\
    options t' = options t /\ upstream t' = sent (upstream t) (frame (magic (options t)) TypeEncrypted ct).
Proof.
  intros Hwf Hh Hc Hf. pose proof (zlen_nonneg ct). destruct Hh as (Hh0 & Hh1 & Hh2).
  rewrite writeEncrypted_frame by (done || lia). rewrite (wf_buffer t Hwf).
  apply (frame_block 65535 TypeEncrypted (VArr Crypto off (zlen ct)) ct); auto; try done; try lia.
  by apply (view_holds t Crypto).
Qed.

Lemma encrypt_write e de nonce w msg lo hi t :
  EncryptPair e de -> wf t -> zlen nonce = 24 -> bytes_ok nonce ->
  view_bytes t w = Some msg -> bytes_ok msg -> 0 <= lo <= hi -> hi <= 65535 ->
  lo + zlen msg + 40 <= 65535 -> zlen msg + 40 <= 65528 -> u_fail (upstream t) = false ->
  exists ct t', (encryptedLen ← call_codec (Encrypt e (Some nonce)) w Crypto lo hi;
                 writeEncryptedMessage lo encryptedLen) t
                = (Ret (7 + zlen ct), t') /\ wf t' /\ options t' = options t /\
    upstream t' = sent (upstream t) (frame (magic (options t)) TypeEncrypted ct) /\
    zlen ct <= 65528 /\ bytes_ok ct /\ decrypts_to de ct msg.
Proof.
  intros Hp Hwf Hn Hnok Hw Hok Hlo Hhi Hfit Hmax Hf. pose proof (zlen_nonneg msg).
  destruct (codec_encrypt e de nonce w msg lo hi t) as (ct & b & Hrun & Hct & Hctok & Hb & Hh & Hdec); auto.
  rewrite (tm_bind_ret _ _ _ _ _ Hrun).
  destruct (writeEncrypted_run lo ct (set_arr t Crypto b)) as (t' & -> & Hwf' & Ho & Hu);
    auto using wf_set; [lia|].
  rewrite options_set, upstream_set in *. exists ct, t'. split_and!; auto. lia.
Qed.

Lemma write_final_run ty v d t :
  wf t -> view_bytes t v = Some d -> view_clear Buf 7 v -> view_len v = zlen d ->
  zlen d <= 65528 -> u_fail (upstream t) = false ->
  exists t', write_final ty v t = (Ret (7 + zlen d), t') /\ wf t' /\ options t' = options t /\
    upstream t' = sent (upstream t) (frame (magic (options t)) ty d).
Proof.
  intros Hwf Hv Hc Hl Hd Hf. unfold write_final. rewrite (tm_bind_ret get _ t t t) by done.
  rewrite (wf_buffer t Hwf). apply frame_block; auto; lia.
Qed.

(** The message a batch is built as, before compression and encryption. *)
Lemma batch_prologue h buf datas n t :
  wf t -> packets_in h buf datas -> n = zlen (batch_body datas) -> n <= 65528 ->
  exists b, zlen b = 65535 /\ holds b 7 (batch_body datas) /\ forall A (k : tm A),
    (put Buf 0 (magic (options t));; put Buf 4 [TypeBatchTransport];; put Buf 5 (be_put 2 n);;
     put Buf 7 (be_put 2 (zlen (zlen <$> datas)));;
     offset ← put_sizes 9 (zlen <$> datas);
     put_data offset h buf (zlen <$> datas);;
     reslice Buf 7 n;; k) t = k (set_arr t Buf b).
Proof.
  intros Hwf Hp Hn Hmax. pose proof (wf_magic t Hwf) as Hm.
  set (cnt := be_put 2 (zlen (zlen <$> datas))). assert (zlen cnt = 2) as Hcnt by apply zlen_be2.
  assert (n = 2 + 2 * zlen datas + zlen (concat datas)) as Hn'.
  { rewrite Hn. unfold batch_body. rewrite !zlen_app, zlen_be2, zlen_sizes_bytes, zlen_fmap. lia. }
  pose proof (zlen_nonneg datas). pose proof (zlen_nonneg (concat datas)).
  pose proof (wf_arr t Buf Hwf) as Hz. pose proof (zlen_be2 n) as H2.
  set (b1 := blit (blit (blit (blit (arr t Buf) 0 (magic (options t))) 4 [TypeBatchTransport]) 5 (be_put 2 n)) 7 cnt).
  assert (zlen b1 = 65535) as Hb1 by (unfold b1; rewrite !zlen_blit; rewrite ?zlen_blit; rewrite ?zlen_blit; rewrite ?zlen_blit; lia).
  assert (holds b1 7 cnt) as Hh1.
  { apply holds_blit; [lia|]. rewrite !zlen_blit; rewrite ?zlen_blit; rewrite ?zlen_blit; lia. }
  destruct (put_sizes_run (zlen <$> datas) 9 (set_arr t Buf b1)) as (b2 & Hr2 & [Hz2 He2] & Hh2);
    [by apply wf_set|lia|rewrite zlen_fmap; lia|].
  rewrite zlen_fmap in Hr2. change (buffer (set_arr t Buf b1)) with b1 in *. rewrite set_set in Hr2.
  rewrite Hb1 in Hz2.
  destruct (put_data_run h buf datas (9 + 2 * zlen datas) (set_arr t Buf b2)) as (b3 & Hr3 & [Hz3 He3] & Hh3);
    [by apply wf_set|done|lia|lia|].
  change (buffer (set_arr t Buf b2)) with b2 in *. rewrite set_set in Hr3. rewrite Hz2 in Hz3.
  exists b3. split_and!; [done| |].
  - unfold batch_body. rewrite <- (zlen_fmap zlen). fold cnt. apply holds_app.
    + apply He3; [lia|]. apply He2; [lia|done].
    + rewrite Hcnt. apply holds_app.
      * apply He3; [rewrite zlen_sizes_bytes, zlen_fmap; lia|done].
      * by rewrite zlen_sizes_bytes, zlen_fmap.
  - intros A k. erewrite tm_bind_ret by (apply put_run; lia).
    erewrite tm_bind_ret by (apply put_run; arr_norm; rewrite ?zlen_blit; change (zlen [TypeBatchTransport]) with 1; lia).
    erewrite tm_bind_ret by (apply put_run; arr_norm; rewrite ?zlen_blit; rewrite ?zlen_blit; lia).
    erewrite tm_bind_ret by (apply put_run; arr_norm; rewrite ?zlen_blit; rewrite ?zlen_blit; rewrite ?zlen_blit; lia).
    arr_norm. fold b1. rewrite (tm_bind_ret _ _ _ _ _ Hr2), (tm_bind_ret _ _ _ _ _ Hr3).
    erewrite tm_bind_ret by (apply reslice_run; [lia|lia|arr_norm; lia]). done.
Qed.

(** The encryption step of [batchWrite]. *)
Lemma batchWrite_encrypted o' e de nonce body c v d t :
  EncryptPair e de -> encryptor o' = Some de -> wf t -> zlen nonce = 24 -> bytes_ok nonce ->
  view_bytes t v = Some d -> view_len v = zlen d -> zlen d <= 65485 -> byte_ok c -> bytes_ok d ->
  c <> TypeEncrypted -> view_clear Crypto 3 v -> view_clear Buf 7 v ->
  coded o' c d TypeBatchTransport body -> u_fail (upstream t) = false ->
  let innerMsgLen := 3 + zlen d in
  let encryptedMsgLen := innerMsgLen + 24 + 16 in
  send_post o' TypeBatchTransport body t
    ((if innerMsgLen + encryptedMsgLen <=? zlen (cryptoBuffer t) then
        put Crypto 0 [c];;
        put Crypto 1 (be_put 2 (zlen d));;
        copy_at Crypto 3 (zlen (cryptoBuffer t)) v;;
        encryptedLen ← call_codec (Encrypt e (Some nonce)) (VArr Crypto 0 innerMsgLen)
                         Crypto innerMsgLen encryptedMsgLen;
        writeEncryptedMessage innerMsgLen encryptedLen
      else
        reslice Buf 0 innerMsgLen;;
        put Buf 0 [c];;
        put Buf 1 (be_put 2 (zlen d));;
        copy_at Buf 3 innerMsgLen v;;
        encryptedLen ← call_codec (Encrypt e (Some nonce)) (VArr Buf 0 innerMsgLen)
                         Crypto 0 encryptedMsgLen;
        writeEncryptedMessage 0 encryptedLen) t).
Proof.
  intros Hpair Hde Hwf Hn Hnok Hv Hl Hd Hc Hdok Hcne Hv1 Hv2 Hcod Hf. cbv zeta.
  pose proof (zlen_nonneg d). rewrite (wf_crypto _ Hwf).
  pose proof (temp_ok c (zlen d) d Hc Hdok) as Htok. pose proof (zlen_temp c (zlen d) d) as Htl.
  destruct (_ <=? _) eqn:E; bool_cases.
  - destruct (inner_block Crypto 65535 c (zlen d) v d t) as (b2 & Hb2 & Hh2 & Hk2); [done..|lia|lia|].
    rewrite Hk2.
    destruct (encrypt_write e de nonce (VArr Crypto 0 (3 + zlen d)) (temp_message c (zlen d) d)
      (3 + zlen d) (3 + zlen d + 24 + 16) (set_arr t Crypto b2))
      as (ct & t' & Hr & Hwf' & Ho & Hu & Hct & Hctok & Hdec); auto using wf_set; try lia.
    { rewrite <- Htl. by apply view_arr. }
    eapply send_post_sealed; eauto. lia.
  - rewrite (tm_bind_ret _ _ _ _ _ (reslice_run Buf 0 (3 + zlen d) t ltac:(lia) ltac:(lia)
      ltac:(rewrite (wf_arr t Buf Hwf); lia))).
    destruct (inner_block Buf (3 + zlen d) c (zlen d) v d t) as (b2 & Hb2 & Hh2 & Hk2);
      [done|done| |lia|lia|].
    { destruct v; simpl in *; [done|]. intros Hx. specialize (Hv2 Hx). lia. }
    rewrite Hk2.
    destruct (encrypt_write e de nonce (VArr Buf 0 (3 + zlen d)) (temp_message c (zlen d) d)
      0 (3 + zlen d + 24 + 16) (set_arr t Buf b2))
      as (ct & t' & Hr & Hwf' & Ho & Hu & Hct & Hctok & Hdec); auto using wf_set; try lia.
    { rewrite <- Htl. by apply view_arr. }
    eapply send_post_sealed; eauto. lia.
Qed.

Lemma batchWrite_run o' nonce h buf datas t :
  wf t -> matching (options t) o' -> packets_in h buf datas -> Forall bytes_ok datas ->
  batch_ok (options t) (zlen (batch_body datas)) ->
  zlen nonce = 24 -> bytes_ok nonce -> u_fail (upstream t) = false ->
  send_post o' TypeBatchTransport (batch_body datas) t
    (batchWrite (Some nonce) buf (zlen <$> datas) h t).
Proof.
  intros Hwf Hm Hp Hdok (Hmax & Hmaxe & Hmaxc) Hn Hnok Hf.
  pose proof (batch_body_ok datas Hdok) as Hok. set (body := batch_body datas) in *.
  unfold batchWrite. rewrite <- zlen_batch_body. fold body. rewrite (proj2 (Z.ltb_ge _ _)) by lia.
  rewrite (tm_bind_ret get _ _ _ _ (get_run _)).
  destruct (batch_prologue h buf datas (zlen body) t) as (b0 & Hb0 & Hh0 & Hk); [done..|].
  rewrite Hk. set (t0 := set_arr t Buf b0). assert (wf t0) as Hwf0 by by apply wf_set.
  destruct (batch_compress_run o' body t0) as (c & v & d & b & Hrun & Hb & Hv & Hl & Hd & (Hc & Hdok' & Hcne)
    & (Hv1 & Hv2 & Hv3) & Hcod); [done..|].
  rewrite (tm_bind_ret _ _ _ _ _ Hrun). cbv beta iota.
  rewrite (tm_bind_ret get _ _ _ _ (get_run _)). set (t1 := set_arr t0 Crypto b) in *.
  assert (wf t1) as Hwf1 by by apply wf_set. change (options t1) with (options t).
  assert (send_post o' TypeBatchTransport body t (write_final c v t1)) as Hplain.
  { destruct (write_final_run c v d t1) as (t' & Hr & H1 & H2 & H3); auto; [lia|].
    eapply send_post_plain; eauto. lia. }
  destruct (encryptor (options t)) as [e|] eqn:Ee; [|exact Hplain].
  destruct (encrypt (options t)) eqn:Eo; [|exact Hplain].
  destruct (match_encryptor _ _ Hm e Eo Ee) as (de & Hde & Hpair).
  specialize (Hmaxe (encrypting_true _ _ Eo Ee)). cbv zeta. rewrite Hl, Hv3. cbn [negb].
  unfold Chacha20Poly1305NonceSize, Chacha20Poly1305Overhead, MaxTransportByteSize.
  rewrite (proj2 (Z.ltb_ge _ _)) by lia.
  apply (batchWrite_encrypted o' e de nonce body c v d t1); auto. lia.
Qed.

(** ** Splitting into batches *)

Lemma sub_list_fmap {A B} (f : A -> B) (l : list A) a b : sub_list (f <$> l) a b = f <$> sub_list l a b.
Proof. unfold sub_list. by rewrite <- fmap_drop, <- fmap_take. Qed.

Lemma sub_list_packets h buf datas a b :
  packets_in h buf datas -> packets_in h (sub_list buf a b) (sub_list datas a b).
Proof. intros H. by apply Forall2_take, Forall2_drop. Qed.

Lemma sub_list_empty {A} (l : list A) a : sub_list l a a = [].
Proof. unfold sub_list. by rewrite Z.sub_diag. Qed.

Lemma batch_body_snoc datas d :
  zlen (batch_body (datas ++ [d])) = zlen (batch_body datas) + 2 + zlen d.
Proof.
  unfold batch_body. rewrite !zlen_app, !zlen_be2, !zlen_sizes_bytes, !zlen_fmap, concat_app, !zlen_app.
  cbn [concat]. rewrite app_nil_r. change (zlen [d]) with 1. lia.
Qed.

Lemma sub_list_snoc {A} (l : list A) a b x :
  0 <= a <= b -> l !! Z.to_nat b = Some x -> sub_list l a (b + 1) = sub_list l a b ++ [x].
Proof.
  intros Hab Hx. unfold sub_list. replace (Z.to_nat (b + 1 - a)) with (S (Z.to_nat (b - a))) by lia.
  apply take_S_r. rewrite lookup_drop. rewrite <- Hx. f_equal. lia.
Qed.

(** The batch taken: it fits the space, has at most 128 packets, and is not
    empty when the next packet fits. *)
Lemma take_batch_spec datas n start stop remaining space :
  0 <= start <= stop -> stop <= zlen datas -> (Z.to_nat (zlen datas - stop) <= n)%nat ->
  zlen (batch_body (sub_list datas start stop)) + remaining = 2 + space -> 0 <= remaining ->
  stop - start <= 128 ->
  exists stop', take_batch n stop (zlen datas) remaining start (zlen <$> datas) = Some stop' /\
    stop <= stop' <= zlen datas /\ stop' - start <= 128 /\
    zlen (batch_body (sub_list datas start stop')) <= 2 + space /\
    (start = stop -> stop < zlen datas -> Forall (fun d => 2 + zlen d <= remaining) datas -> stop < stop').
Proof.
  revert stop remaining. induction n as [|n IH]; intros stop remaining H0 H1 Hn Hsp Hr Hc; cbn [take_batch].
  { exists stop. split_and!; try done; lia. }
  destruct (stop <? zlen datas) eqn:E; bool_cases.
  2:{ exists stop. split_and!; try done; lia. }
  rewrite index_lookup, list_lookup_fmap by lia.
  destruct (lookup_lt_is_Some_2 datas (Z.to_nat stop)) as [d Hd]; [zlen_lia|]. rewrite Hd.
  cbn [fmap option_fmap option_map mbind option_bind]. unfold MaxTransportBatchSize.
  destruct (_ && _) eqn:E2.
  - bool_cases. pose proof (zlen_nonneg d).
    destruct (IH (stop + 1) (remaining - (2 + zlen d))) as (stop' & Hrun & Hb & Hcnt & Hz & _); try lia.
    { rewrite (sub_list_snoc _ _ _ d) by (lia || done). rewrite batch_body_snoc. lia. }
    exists stop'. split_and!; try done; lia.
  - exists stop. split_and!; [done|lia|lia|lia|lia|]. intros <- _ Hall.
    rewrite Forall_forall in Hall. apply list_elem_of_lookup_2 in Hd. apply Hall in Hd.
    apply andb_false_iff in E2 as [E2|E2]; bool_cases; lia.
Qed.

(** Any run of packets that fits the space can be sent as one batch. *)
Definition batches_ok (o : TransportOptions) (datas : list (list Z)) : Prop :=
  forall a b, 0 <= a <= b -> b <= zlen datas -> b - a <= 128 ->
    zlen (batch_body (sub_list datas a b)) <= 2 + batch_space o ->
    batch_ok o (zlen (batch_body (sub_list datas a b))).

Lemma sub_list_cat {A} (l : list A) a b : 0 <= a <= b -> b <= zlen l ->
  sub_list l a b ++ sub_list l b (zlen l) = sub_list l a (zlen l).
Proof. intros. apply sub_list_take_drop; lia. Qed.

Lemma Forall_sub {A} (P : A -> Prop) l a b : Forall P l -> Forall P (sub_list l a b).
Proof. intros. by apply Forall_take, Forall_drop. Qed.

Lemma sent_sent u a b : sent (sent u a) b = sent u (a ++ b).
Proof. unfold sent. simpl. by rewrite <- app_assoc. Qed.

Lemma sent_nil u : u = sent u [].
Proof. unfold sent. rewrite app_nil_r. by destruct u. Qed.

Section BatchLoop.
Context (o' : TransportOptions) (rnds : Z -> option (list Z)) (h : Z).
Context (buf datas : list (list Z)).
Context (Hrnd : forall i, exists nonce, rnds i = Some nonce /\ zlen nonce = 24 /\ bytes_ok nonce).
Context (Hp : packets_in h buf datas) (Hdok : Forall bytes_ok datas).

Lemma batch_loop_run fuel start n nn t :
  wf t -> matching (options t) o' -> u_fail (upstream t) = false ->
  batches_ok (options t) datas -> Forall (fun d => 2 + zlen d <= batch_space (options t)) datas ->
  0 <= start <= zlen datas -> (Z.to_nat (zlen datas - start) <= fuel)%nat ->
  exists chunks wires t',
    batch_loop fuel rnds buf (zlen <$> datas) h start n nn t = (Ret (n + zlen (concat wires)), t') /\
    wf t' /\ options t' = options t /\ upstream t' = sent (upstream t) (concat wires) /\
    concat chunks = sub_list datas start (zlen datas) /\
    Forall (fun ch => ch <> [] /\ zlen ch <= 128 /\ zlen (batch_body ch) <= 65528) chunks /\
    Forall2 (fun ch wire => carries o' (magic (options t)) wire TypeBatchTransport (batch_body ch))
      chunks wires.
Proof.
  assert (zlen buf = zlen datas) as Hlen by (unfold zlen; f_equal; by eapply Forall2_length).
  revert start n nn t. induction fuel as [|fuel IH]; intros start n nn t Hwf Hm Hf Hbok Hfit Hs Hfuel;
    cbn [batch_loop]; rewrite ?Hlen.
  { exists [], [], t. assert (start = zlen datas) as -> by lia. rewrite sub_list_empty. pose proof (sent_nil (upstream t)).
    cbn [concat]. rewrite zlen_nil, Z.add_0_r. split_and!; done || constructor. }
  destruct (start <? zlen datas) eqn:E; bool_cases.
  2:{ exists [], [], t. assert (start = zlen datas) as -> by lia. rewrite sub_list_empty. pose proof (sent_nil (upstream t)).
      cbn [concat]. rewrite zlen_nil, Z.add_0_r. split_and!; done || constructor. }
  rewrite (tm_bind_ret get _ _ _ _ (get_run _)).
  assert (0 <= batch_space (options t)) as Hsp0 by (unfold batch_space; case_match; vm_compute; congruence).
  destruct (take_batch_spec datas (length buf) start start (batch_space (options t)) (batch_space (options t)))
    as (stop & Hstop & Hb & Hc & Hz & Hprog); [lia|lia|unfold zlen in *; lia| |done|lia|].
  { rewrite sub_list_empty. change (zlen (batch_body [])) with 2. lia. }
  rewrite Hstop. cbn [or_panics]. rewrite (tm_bind_ret (mret stop) _ t stop t) by done.
  specialize (Hprog eq_refl E Hfit). rewrite (proj2 (Z.eqb_neq _ _)) by lia.
  destruct (Hrnd start) as (nonce & -> & Hn & Hnok).
  rewrite sub_list_fmap.
  assert (batch_ok (options t) (zlen (batch_body (sub_list datas start stop)))) as Hbk
    by (apply Hbok; lia || done).
  destruct (batchWrite_run o' nonce h (sub_list buf start stop) (sub_list datas start stop) t)
    as (t1 & wire & Hrun & Hwf1 & Ho1 & Hu1 & Hcar); auto using sub_list_packets, Forall_sub.
  rewrite (tm_bind_ret _ _ _ _ _ Hrun). rewrite <- Ho1 in Hm, Hbok, Hfit.
  destruct (IH stop (n + zlen wire) (zlen wire) t1) as (chunks & wires & t' & -> & Hwf' & Ho' & Hu' & Hcat & Hch & Hw);
    auto; try lia. { by rewrite Hu1. }
  exists (sub_list datas start stop :: chunks), (wire :: wires), t'. cbn [concat].
  rewrite zlen_app, Hcat, sub_list_cat by lia. rewrite Ho1 in *. split_and!; try done.
  - do 2 f_equal. lia.
  - by rewrite Hu', Hu1, sent_sent.
  - constructor; [|done]. pose proof (zlen_sub_list datas start stop ltac:(lia) ltac:(lia) ltac:(lia)) as Hzl.
    split_and!; [|lia|apply Hbk]. intros E0. rewrite E0 in Hzl. unfold zlen in Hzl. simpl in Hzl. lia.
  - by constructor.
Qed.
End BatchLoop.

(** ** Unpacking *)

(** The caller's slices after unpacking: the packets are stored at [offset] of
    the first buffers, their sizes in the first entries. *)
Fixpoint fill (offset : Z) (bufs datas : list (list Z)) : list (list Z) :=
  match bufs, datas with
  | b :: bufs', d :: datas' => blit b offset d :: fill offset bufs' datas'
  | bufs, _ => bufs
  end.

Lemma insert_middle {A} (l : list A) x y r : <[length l := y]> (l ++ x :: r) = (l ++ [y]) ++ r.
Proof. rewrite insert_app_r_alt by lia. rewrite Nat.sub_diag. simpl. by rewrite <- app_assoc. Qed.

Lemma slice_middle {A} (p q r : list A) :
  slice (p ++ q ++ r) (zlen p) (zlen p + zlen q) = Some q.
Proof.
  pose proof (zlen_nonneg p). pose proof (zlen_nonneg q). pose proof (zlen_nonneg r).
  rewrite slice_in by (rewrite ?zlen_app; lia). f_equal.
  rewrite sub_list_app_r by lia. rewrite sub_list_app_l by lia.
  replace (zlen p - zlen p) with 0 by lia. replace (zlen p + zlen q - zlen p) with (zlen q) by lia.
  apply sub_list_all.
Qed.

Lemma parse_sizes_run szs pre post done rest off :
  Forall (fun s => 0 <= s < 65536) szs -> off = zlen pre -> (length szs <= length rest)%nat ->
  parse_sizes (length szs) (length done) (pre ++ sizes_bytes szs ++ post) off (done ++ rest) =
  (Ret (off + 2 * zlen szs), done ++ szs ++ drop (length szs) rest).
Proof.
  intros Hs. revert pre done rest off. induction Hs as [|s szs Hs _ IH]; intros pre dn rest off -> Hl.
  { cbn [length parse_sizes app]. change (zlen (@nil Z)) with 0. by rewrite drop_0, Z.mul_0_r, Z.add_0_r. }
  destruct rest as [|x rest]; [simpl in Hl; lia|].
  cbn [length parse_sizes]. rewrite bool_decide_eq_false_2 by (rewrite length_app; simpl; lia).
  unfold sizes_bytes. cbn [mbind list_bind]. rewrite <- app_assoc.
  pose proof (slice_middle pre (be_put 2 s) ((szs ≫= be_put 2) ++ post)) as Hsl.
  rewrite zlen_be2 in Hsl. rewrite Hsl. rewrite be_get_len by lia. rewrite insert_middle.
  rewrite (app_assoc pre). replace (S (length dn)) with (length (dn ++ [s])) by (rewrite length_app; simpl; lia).
  rewrite IH; [|rewrite zlen_app, zlen_be2; lia|simpl in Hl; lia].
  rewrite zlen_cons, <- app_assoc. simpl. do 2 f_equal. lia.
Qed.

Lemma parse_data_run datas pre post done rest offset sdone srest off :
  off = zlen pre -> length sdone = length done -> 0 <= offset ->
  Forall2 (fun b d => offset + zlen d <= zlen b) (take (length datas) rest) datas ->
  parse_data (length datas) (length done) (pre ++ concat datas ++ post) off offset (done ++ rest)
    (sdone ++ (zlen <$> datas) ++ srest) =
  (Ret tt, done ++ fill offset rest datas).
Proof.
  revert pre done rest sdone off. induction datas as [|d datas IH]; intros pre dn rest sdone off -> Hsd Ho Hr.
  { simpl. by destruct rest. }
  destruct rest as [|b rest]; [inversion Hr|]. cbn [length take] in Hr.
  apply Forall2_cons in Hr as [Hb Hr]. cbn [length parse_data fmap list_fmap].
  rewrite lookup_app_r by lia. rewrite Nat.sub_diag. cbn [lookup list_lookup].
  rewrite lookup_app_r by lia. rewrite Hsd, Nat.sub_diag. cbn [lookup list_lookup app].
  pose proof (zlen_nonneg d). rewrite (proj2 (Z.ltb_ge _ _)) by lia.
  rewrite (slice_in b) by lia. cbn [concat]. rewrite <- app_assoc, slice_middle, insert_middle.
  rewrite (app_assoc pre). replace (S (length dn)) with (length (dn ++ [blit b offset d]))
    by (rewrite length_app; simpl; lia).
  replace (sdone ++ zlen d :: (zlen <$> datas) ++ srest) with ((sdone ++ [zlen d]) ++ (zlen <$> datas) ++ srest)
    by (by rewrite <- !app_assoc).
  rewrite IH; [|rewrite zlen_app; lia|rewrite !length_app; simpl; lia|done|done].
  cbn [fill]. by rewrite <- app_assoc.
Qed.

Lemma ParseBatch_run datas bufs sizes offset :
  zlen datas < 65536 -> Forall (fun d => zlen d < 65536) datas ->
  (length datas <= length sizes)%nat -> 0 <= offset ->
  Forall2 (fun b d => offset + zlen d <= zlen b) (take (length datas) bufs) datas ->
  ParseBatch (batch_body datas) bufs sizes offset =
  (Ret (zlen datas), fill offset bufs datas, (zlen <$> datas) ++ drop (length datas) sizes).
Proof.
  intros Hn Hd Hs Ho Hb. unfold ParseBatch, batch_body. pose proof (zlen_nonneg datas).
  pose proof (slice_middle [] (be_put 2 (zlen datas)) (sizes_bytes (zlen <$> datas) ++ concat datas)) as H2.
  rewrite zlen_be2, app_nil_l in H2. change (zlen (@nil Z) + 2) with 2 in H2.
  change (zlen (@nil Z)) with 0 in H2. rewrite H2, be_get_len by lia.
  replace (Z.to_nat (zlen datas)) with (length datas) by (unfold zlen; lia).
  pose proof (parse_sizes_run (zlen <$> datas) (be_put 2 (zlen datas)) (concat datas) [] sizes 2) as H3.
  rewrite length_fmap in H3. simpl length in H3. rewrite zlen_fmap in H3. cbn [app] in H3. rewrite H3.
  2:{ apply Forall_fmap. eapply Forall_impl; [done|]. intros d Hd'. split; [apply zlen_nonneg|exact Hd']. }
  2:{ by rewrite zlen_be2. } 2:{ done. }
  pose proof (parse_data_run datas (be_put 2 (zlen datas) ++ sizes_bytes (zlen <$> datas)) [] [] bufs offset []
    (drop (length datas) sizes) (2 + 2 * zlen datas)) as H4.
  rewrite app_nil_r, <- app_assoc in H4. cbn [length app] in H4. rewrite H4; [done| |done|done|done].
  rewrite zlen_app, zlen_be2, zlen_sizes_bytes, zlen_fmap. lia.
Qed.
