(* ===== verification/TransportProps.v ===== *)
(** * Properties of the transport

    Streams of messages and batches sent by one transport and read by another,
    the sizes at which writing and reading stop working, and the transports
    built from the zstd and XChaCha20-Poly1305 implementations. *)

From S2P Require Import Prelude Protocol ProtocolSteps ProtocolProps Codecs BatchProps.

(** ** Streams *)

(** Writing messages one after the other; [rnds] are the random bytes of each
    call. *)
Fixpoint write_all (rnds : nat -> option (list Z)) (msgs : list (Z * list Z)) : tm unit :=
  match msgs with
  | [] => mret tt
  | (ty, data) :: msgs' => WriteMessage (rnds O) ty data;; write_all (fun i => rnds (S i)) msgs'
  end.

(** Reading [n] messages into the caller's slice [p]. *)
Fixpoint read_all (n : nat) (p : list Z) : tm (list (Z * list Z)) :=
  match n with
  | O => mret []
  | S n' =>
      '(ty, len, d) ← ReadMessage p;
      rest ← read_all n' p;
      mret ((ty, take (Z.to_nat len) d) :: rest)
  end.

Definition fresh_nonces (rnds : nat -> option (list Z)) : Prop :=
  forall i, exists nonce, rnds i = Some nonce /\ zlen nonce = 24 /\ bytes_ok nonce.

Definition sendable (o : TransportOptions) (msg : Z * list Z) : Prop :=
  plain_type msg.1 /\ bytes_ok msg.2 /\ zlen msg.2 <= max_data o.

Lemma take_copy_out p d : zlen d <= zlen p -> take (Z.to_nat (zlen d)) (copy_out p d) = d.
Proof.
  intros H. rewrite copy_out_app. unfold zlen in *. rewrite Nat2Z.id.
  rewrite (take_ge d (length p)) by lia. by rewrite take_app_length.
Qed.

Lemma write_all_run o' rnds msgs t :
  wf t -> matching (options t) o' -> fresh_nonces rnds -> Forall (sendable (options t)) msgs ->
  u_fail (upstream t) = false ->
  exists t' wires, write_all rnds msgs t = (Ret tt, t') /\ wf t' /\ options t' = options t /\
    upstream t' = sent (upstream t) (concat wires) /\
    Forall2 (fun m wire => carries o' (magic (options t)) wire m.1 m.2) msgs wires.
Proof.
  intros Hwf Hm Hr Hs. revert rnds t Hwf Hm Hr Hs. induction msgs as [|[ty data] msgs IH];
    intros rnds t Hwf Hm Hr Hs Hf.
  { exists t, []. split_and!; try done. apply sent_nil. }
  apply Forall_cons in Hs as [(Hty & Hok & Hmax) Hs]. cbn [write_all fst snd] in *.
  destruct (Hr O) as (nonce & -> & Hn & Hnok).
  destruct (WriteMessage_run o' nonce ty data t) as (t1 & wire & Hrun & Hwf1 & Ho1 & Hu1 & Hc); auto.
  rewrite (tm_bind_ret _ _ _ _ _ Hrun). rewrite <- Ho1 in Hm, Hs.
  destruct (IH (fun i => rnds (S i)) t1) as (t' & wires & -> & Hwf' & Ho' & Hu' & Hcs); auto.
  { intros i. apply Hr. } { by rewrite Hu1. }
  exists t', (wire :: wires). rewrite Ho1 in *. split_and!; try done.
  - by rewrite Hu', Hu1, sent_sent.
  - by constructor.
Qed.

Lemma read_all_run p rest wires msgs t :
  wf t -> zlen p >= 65535 ->
  Forall2 (fun m wire => carries (options t) (magic (options t)) wire m.1 m.2) msgs wires ->
  Forall (fun m : Z * list Z => m.1 <> TypeCompress /\ zlen m.2 <= 65528) msgs ->
  u_in (upstream t) = concat wires ++ rest ->
  exists t', read_all (length msgs) p t = (Ret msgs, t') /\ wf t' /\ u_in (upstream t') = rest.
Proof.
  intros Hwf Hp Hc. remember (options t) as o eqn:Eo. revert t Hwf Eo.
  induction Hc as [|[ty data] wire msgs wires Hcar _ IH]; intros t Hwf -> Hm Hin.
  { by exists t. }
  apply Forall_cons in Hm as [[Hty Hd] Hm]. cbn [fst snd concat length read_all] in *.
  rewrite <- app_assoc in Hin.
  destruct (ReadMessage_run wire ty data (concat wires ++ rest) p t) as (t1 & Hrun & Hwf1 & Ho1 & Hu1); auto.
  rewrite (tm_bind_ret _ _ _ _ _ Hrun). cbv beta iota.
  destruct (IH t1) as (t' & Hr & Hwf' & Hin'); auto. { by rewrite Hu1. }
  rewrite (tm_bind_ret _ _ _ _ _ Hr). exists t'. split_and!; try done.
  rewrite take_copy_out by lia. done.
Qed.

(** C4. Whatever sequence of messages a transport accepts, within the size of
    its configuration, arrives: a receiver with the matching codecs, fed the
    bytes written, reads back exactly the types and data, in order, and leaves
    the following bytes of the stream unread. Compression and encryption, and
    the reuse of the two arrays for both, do not show. *)
Theorem message_stream_roundtrip o' rnds msgs tx :
  wf tx -> matching (options tx) o' -> fresh_nonces rnds -> Forall (sendable (options tx)) msgs ->
  u_fail (upstream tx) = false ->
  exists tx' wire, write_all rnds msgs tx = (Ret tt, tx') /\
    u_out (upstream tx') = u_out (upstream tx) ++ wire /\
    forall rx p rest, wf rx -> options rx = o' -> u_in (upstream rx) = wire ++ rest -> zlen p >= 65535 ->
      exists rx', read_all (length msgs) p rx = (Ret msgs, rx') /\ u_in (upstream rx') = rest.
Proof.
  intros Hwf Hm Hr Hs Hf.
  destruct (write_all_run o' rnds msgs tx) as (tx' & wires & Hrun & _ & _ & Hu & Hc); auto.
  exists tx', (concat wires). split_and!; [done|by rewrite Hu|].
  intros rx p rest Hwfr <- Hin Hp.
  destruct (read_all_run p rest wires msgs rx) as (rx' & Hread & _ & Hrest); auto.
  - by rewrite (match_magic _ _ Hm).
  - eapply Forall_impl; [exact Hs|]. intros m (Hty & _ & Hd). pose proof (max_data_le (options tx)).
    split; [apply Hty|lia].
  - by exists rx'.
Qed.

(** ** Concrete codecs *)

(** Trivial stand-ins for the libraries, to show that what is assumed of them
    can hold. *)
Definition toy_zstd : ZstdLib :=
  MkZstdLib (fun _ x => 40 :: x) (fun y => match y with _ :: x => Some x | [] => None end)
    (fun _ _ => true) (fun _ _ => false).

Definition toy_aead : AeadLib :=
  MkAeadLib (fun _ _ p => p ++ replicate 16 0) (fun _ _ c => Some (take (length c - 16) c)) 16
    (fun _ _ => true).

#[export] Instance toy_zstd_ok : ZstdLibOK toy_zstd.
Proof. split; [done|done|]. intros l x Hx. by apply Forall_cons_2. Qed.

#[export] Instance toy_aead_ok : AeadLibOK toy_aead.
Proof.
  split; [..|done|]; intros; simpl.
  - rewrite length_app. simpl. f_equal. rewrite take_app_le by lia. apply take_ge. lia.
  - rewrite zlen_app. done.
  - apply Forall_app_2; [done|]. by repeat constructor.
Qed.

(** The options a peer is configured with. *)
Definition peer_options (compr : Compressor) (encr : Encryptor) (compress_on : bool) (threshold : Z)
    : list TransportOpt :=
  [EnableCompress compress_on; WithCompressor (Some compr); WithCompressThreshold threshold;
   WithEncryptor (Some encr); EnableEncrypt true].

Lemma NewTransport_wf up opts :
  zlen (magic (options (NewTransport up opts))) = 4 -> wf (NewTransport up opts).
Proof.
  intros H. split; [..|done]; cbn [NewTransport buffer cryptoBuffer]; unfold zlen, MaxTransportByteSize;
    rewrite length_replicate, Z2Nat.id; lia.
Qed.

Lemma peers_match c c' e e' on on' th th' up up' :
  CompressPair c c' -> EncryptPair e e' ->
  matching (options (NewTransport up (peer_options c e on th)))
           (options (NewTransport up' (peer_options c' e' on' th'))).
Proof.
  intros Hc He. split; [done|..]; simpl; intros x _ [= <-]; eauto.
Qed.

Lemma message_stream_roundtrip_witness :
  exists tx' wire, write_all (fun _ => Some (replicate 24 7)) [(TypeTransport, [1; 2; 3]); (5, [])]
      (NewTransport (MkUpstream [] [] true false)
         (peer_options (zstd toy_zstd (MkZstd 2)) (chacha toy_aead (MkChacha [])) true 2)) = (Ret tt, tx') /\
    exists rx', read_all 2 (replicate (Z.to_nat 65535) 0)
      (NewTransport (MkUpstream (wire ++ [9]) [] true false)
         (peer_options (zstd toy_zstd (MkZstd 1)) (chacha toy_aead (MkChacha [])) false 2))
      = (Ret [(TypeTransport, [1; 2; 3]); (5, [])], rx') /\ u_in (upstream rx') = [9].
Proof.
  set (up := MkUpstream [] [] true false).
  set (tx := NewTransport up (peer_options (zstd toy_zstd (MkZstd 2)) (chacha toy_aead (MkChacha [])) true 2)).
  destruct (message_stream_roundtrip
    (options (NewTransport up (peer_options (zstd toy_zstd (MkZstd 1)) (chacha toy_aead (MkChacha [])) false 2)))
    (fun _ => Some (replicate 24 7)) [(TypeTransport, [1; 2; 3]); (5, [])] tx) as (tx' & wire & Hw & _ & Hr).
  - by apply NewTransport_wf.
  - apply peers_match; apply _.
  - intros i. exists (replicate 24 7). split_and!; [done|done|]. by repeat constructor.
  - repeat apply Forall_cons_2; [..|apply Forall_nil_2]; (split_and!; [done| |vm_compute; congruence]);
      by repeat constructor.
  - done.
  - exists tx', wire. split; [done|]. apply Hr; [by apply NewTransport_wf|done|done|].
    unfold zlen. rewrite length_replicate. lia.
Defined.

(** What [BatchWrite] sends: the runs it forms and the bytes on the wire, which
    any matching receiver reads as these runs. *)
Lemma BatchWrite_run o' rnds h buf datas tx :
  wf tx -> matching (options tx) o' ->
  (forall i, exists nonce, rnds i = Some nonce /\ zlen nonce = 24 /\ bytes_ok nonce) ->
  packets_in h buf datas -> Forall bytes_ok datas -> batches_ok (options tx) datas ->
  Forall (fun d => 2 + zlen d <= batch_space (options tx)) datas -> u_fail (upstream tx) = false ->
  exists tx' wire chunks, BatchWrite rnds buf (zlen <$> datas) h tx = (Ret (zlen wire), tx') /\
    u_out (upstream tx') = u_out (upstream tx) ++ wire /\ concat chunks = datas /\
    Forall (fun ch => ch <> [] /\ zlen ch <= 128) chunks /\
    forall rx p rest, wf rx -> options rx = o' -> u_in (upstream rx) = wire ++ rest -> zlen p >= 65535 ->
      exists rx', read_all (length chunks) p rx =
        (Ret ((fun ch => (TypeBatchTransport, batch_body ch)) <$> chunks), rx') /\
        u_in (upstream rx') = rest.
Proof.
  intros Hwf Hm Hr Hp Hok Hb Hfit Hf. pose proof (zlen_nonneg datas).
  assert (length buf = length datas) as Hlen by by eapply Forall2_length.
  destruct (batch_loop_run o' rnds h buf datas Hr Hp Hok (length buf) 0 0 0 tx)
    as (chunks & wires & tx' & Hrun & _ & _ & Hu & Hcat & Hch & Hc); auto; [lia|unfold zlen; lia|].
  rewrite sub_list_all in Hcat. rewrite Z.add_0_l in Hrun.
  exists tx', (concat wires), chunks. split_and!; [exact Hrun|by rewrite Hu|done| |].
  - eapply Forall_impl; [exact Hch|]. naive_solver.
  - intros rx p rest Hwfr <- Hin Hpl.
    destruct (read_all_run p rest wires ((fun ch => (TypeBatchTransport, batch_body ch)) <$> chunks) rx)
      as (rx' & Hread & _ & Hrest); auto.
    + apply Forall2_fmap_l. rewrite (match_magic _ _ Hm). exact Hc.
    + apply Forall_fmap. eapply Forall_impl; [exact Hch|]. intros ch (_ & _ & Hz). by split.
    + rewrite length_fmap in Hread. by exists rx'.
Qed.

(** C6. A batch of packets arrives in batches, up to the sizes the code can
    send: [BatchWrite] splits the packets into runs of at most 128, in order and
    without losing any, sends each run as one message, and a matching receiver
    reads back the bodies of those runs. Each packet has to fit a message of its
    own, and every run of up to 128 packets that the space [BatchWrite] reckons
    with allows (the body may then have 65528 bytes, or 65512 on an encrypting
    transport) must have a body of at most 65485 bytes on an encrypting transport,
    and on a compressing one be below the threshold or have at most 32756 bytes:
    beyond these limits the write fails. *)
Theorem batch_stream_roundtrip o' rnds h buf datas tx :
  wf tx -> matching (options tx) o' ->
  (forall i, exists nonce, rnds i = Some nonce /\ zlen nonce = 24 /\ bytes_ok nonce) ->
  packets_in h buf datas -> Forall bytes_ok datas -> batches_ok (options tx) datas ->
  Forall (fun d => 2 + zlen d <= batch_space (options tx)) datas -> u_fail (upstream tx) = false ->
  exists tx' wire chunks, BatchWrite rnds buf (zlen <$> datas) h tx = (Ret (zlen wire), tx') /\
    u_out (upstream tx') = u_out (upstream tx) ++ wire /\ concat chunks = datas /\
    Forall (fun ch => ch <> [] /\ zlen ch <= 128) chunks /\
    forall rx p rest, wf rx -> options rx = o' -> u_in (upstream rx) = wire ++ rest -> zlen p >= 65535 ->
      exists rx', read_all (length chunks) p rx =
        (Ret ((fun ch => (TypeBatchTransport, batch_body ch)) <$> chunks), rx') /\
        u_in (upstream rx') = rest.
Proof. apply BatchWrite_run. Qed.

Lemma plain_batches_ok o datas :
  encrypting o = false -> compressing o = false -> batches_ok o datas.
Proof.
  intros He Hc a b _ _ _ Hz. unfold batch_ok. rewrite He, Hc. split_and!; [|done|done].
  unfold batch_space, encrypting in *. rewrite He in Hz. unfold MaxTransportByteSize in Hz. lia.
Qed.

Lemma zlen_replicate {A} n (x : A) : 0 <= n -> zlen (replicate (Z.to_nat n) x) = n.
Proof. intros. unfold zlen. rewrite length_replicate. lia. Qed.

Lemma slice_behind {A} (x : A) d : slice (x :: d) 1 (1 + zlen d) = Some d.
Proof. pose proof (slice_middle [x] d []) as H. rewrite app_nil_r in H. exact H. Qed.

Lemma packets_in_self datas : packets_in 0 datas datas.
Proof.
  induction datas as [|d datas IH]; constructor; [|done].
  rewrite slice_in by (rewrite ?Z.add_0_l; pose proof (zlen_nonneg d); lia). by rewrite Z.add_0_l, sub_list_all.
Qed.

Lemma batch_body_1 d : zlen (batch_body [d]) = 4 + zlen d.
Proof. change [d] with ([] ++ [d]). rewrite batch_body_snoc. change (zlen (batch_body [])) with 2. lia. Qed.

(** Packets that fit one batch of 32756 bytes can be sent whatever the options. *)
Lemma small_batches_ok o datas : zlen (batch_body datas) <= 32756 -> batches_ok o datas.
Proof.
  intros Hz a b Hab Hb _ _.
  assert (zlen (batch_body (sub_list datas a b)) <= zlen (batch_body datas)) as Hle; [|unfold batch_ok; lia].
  rewrite <- (take_drop (Z.to_nat a) datas) at 2. rewrite <- (take_drop (Z.to_nat (b - a)) (drop _ _)).
  fold (sub_list datas a b). set (l1 := take _ datas). set (l2 := drop _ (drop _ _)).
  unfold batch_body. rewrite !zlen_app, !zlen_be2, !zlen_sizes_bytes, !zlen_fmap, !concat_app, !zlen_app.
  pose proof (zlen_nonneg l1). pose proof (zlen_nonneg l2).
  pose proof (zlen_nonneg (concat l1)). pose proof (zlen_nonneg (concat l2)). lia.
Qed.

(** Two packets of 6000 bytes on a transport that compresses and encrypts: the
    batch is above the threshold of compression. *)
Definition long_packet : list Z := replicate (Z.to_nat 6000) 1.

Lemma long_packet_ok : bytes_ok long_packet /\ zlen long_packet = 6000.
Proof.
  unfold long_packet. split; [by apply Forall_replicate|]. apply zlen_replicate. lia.
Qed.

Lemma batch_stream_roundtrip_witness :
  exists tx' wire chunks, BatchWrite (fun _ => Some (replicate 24 7)) [0 :: long_packet; 5 :: long_packet]
      [zlen long_packet; zlen long_packet] 1
      (NewTransport (MkUpstream [] [] true false)
         (peer_options (zstd toy_zstd (MkZstd 2)) (chacha toy_aead (MkChacha [])) true 10240)) = (Ret (zlen wire), tx') /\
    concat chunks = [long_packet; long_packet] /\
    exists rx', read_all (length chunks) (replicate (Z.to_nat 65535) 0)
      (NewTransport (MkUpstream (wire ++ [9]) [] true false)
         (peer_options (zstd toy_zstd (MkZstd 1)) (chacha toy_aead (MkChacha [])) false 10240))
      = (Ret ((fun ch => (TypeBatchTransport, batch_body ch)) <$> chunks), rx') /\ u_in (upstream rx') = [9].
Proof.
  generalize long_packet_ok. generalize long_packet. intros d [Hd Hz].
  set (up := MkUpstream [] [] true false).
  set (tx := NewTransport up (peer_options (zstd toy_zstd (MkZstd 2)) (chacha toy_aead (MkChacha [])) true 10240)).
  destruct (batch_stream_roundtrip
    (options (NewTransport up (peer_options (zstd toy_zstd (MkZstd 1)) (chacha toy_aead (MkChacha [])) false 10240)))
    (fun _ => Some (replicate 24 7)) 1 [0 :: d; 5 :: d]
    [d; d] tx) as (tx' & wire & chunks & Hw & _ & Hc & _ & Hr).
  - by apply NewTransport_wf.
  - apply peers_match; apply _.
  - intros i. exists (replicate 24 7). split_and!; [done|done|]. by repeat constructor.
  - repeat constructor; apply slice_behind.
  - by repeat apply Forall_cons_2.
  - apply small_batches_ok. change [d; d] with ([d] ++ [d]).
    rewrite batch_body_snoc, batch_body_1. lia.
  - repeat apply Forall_cons_2; [..|apply Forall_nil_2]; rewrite Hz; vm_compute; congruence.
  - done.
  - exists tx', wire, chunks. split; [exact Hw|]. split; [exact Hc|].
    apply Hr; [by apply NewTransport_wf|done|done|]. unfold zlen. rewrite length_replicate. lia.
Defined.

Lemma fill_spec offset bufs datas :
  0 <= offset -> Forall2 (fun b d => offset + zlen d <= zlen b) (take (length datas) bufs) datas ->
  (forall i d, datas !! i = Some d -> exists b, fill offset bufs datas !! i = Some b /\
     slice b offset (offset + zlen d) = Some d) /\
  (forall i, (length datas <= i)%nat -> fill offset bufs datas !! i = bufs !! i).
Proof.
  intros Ho. revert bufs. induction datas as [|d datas IH]; intros bufs Hb.
  { split; [done|]. intros i _. by destruct bufs. }
  destruct bufs as [|b bufs]; [inversion Hb|]. cbn [length take] in Hb. apply Forall2_cons in Hb as [Hbd Hb].
  destruct (IH bufs Hb) as [H1 H2]. split.
  - intros [|i] d' Hd; cbn [lookup list_lookup fill] in *; [|by apply H1].
    simplify_eq. eexists. split; [done|]. by apply holds_slice, holds_blit.
  - intros [|i] Hi; simpl in Hi; [lia|]. cbn [lookup list_lookup fill]. apply H2. lia.
Qed.

(** Unpacking the body of a batch yields its packets: the count, the size
    of every packet, and its bytes at [offset] of the slice with the same
    index; the slices behind the last packet are untouched. *)
Theorem ParseBatch_body datas bufs sizes offset :
  zlen datas < 65536 -> Forall (fun d => zlen d < 65536) datas ->
  (length datas <= length sizes)%nat -> 0 <= offset ->
  Forall2 (fun b d => offset + zlen d <= zlen b) (take (length datas) bufs) datas ->
  exists bufs' sizes',
    ParseBatch (batch_body datas) bufs sizes offset = (Ret (zlen datas), bufs', sizes') /\
    (forall i d, datas !! i = Some d -> sizes' !! i = Some (zlen d) /\
       exists b, bufs' !! i = Some b /\ slice b offset (offset + zlen d) = Some d) /\
    (forall i, (length datas <= i)%nat -> bufs' !! i = bufs !! i /\ sizes' !! i = sizes !! i).
Proof.
  intros Hn Hd Hs Ho Hb. rewrite ParseBatch_run by done. eexists _, _. split; [done|].
  destruct (fill_spec offset bufs datas Ho Hb) as [H1 H2]. split.
  - intros i d Hi. split; [|by apply H1].
    rewrite lookup_app_l, list_lookup_fmap, Hi; [done|]. rewrite length_fmap. by eapply lookup_lt_Some.
  - intros i Hi. split; [by apply H2|]. rewrite lookup_app_r by (by rewrite length_fmap).
    rewrite length_fmap, lookup_drop. f_equal. lia.
Qed.

(** A body unpacks to the packets: into any slices with enough room. *)
Definition unpacks_to (body : list Z) (datas : list (list Z)) : Prop :=
  forall bufs sizes offset, (length datas <= length sizes)%nat -> 0 <= offset ->
    Forall2 (fun b d => offset + zlen d <= zlen b) (take (length datas) bufs) datas ->
    exists bufs' sizes', ParseBatch body bufs sizes offset = (Ret (zlen datas), bufs', sizes') /\
      forall i d, datas !! i = Some d -> sizes' !! i = Some (zlen d) /\
        exists b, bufs' !! i = Some b /\ slice b offset (offset + zlen d) = Some d.

Lemma batch_space_small o : batch_space o < 65536.
Proof. unfold batch_space. case_match; vm_compute; congruence. Qed.

(** The bodies of runs of packets that fit a message each. *)
Lemma chunks_unpack o chunks :
  Forall (fun ch => ch <> [] /\ zlen ch <= 128) chunks ->
  Forall (fun d => 2 + zlen d <= batch_space o) (concat chunks) ->
  Forall2 unpacks_to (batch_body <$> chunks) chunks.
Proof.
  pose proof (batch_space_small o) as Hs. induction 1 as [|ch chunks [_ Hn] _ IH]; intros Hd; [constructor|].
  cbn [concat fmap list_fmap] in *. apply Forall_app in Hd as [Hd1 Hd2]. constructor; [|by apply IH].
  intros bufs sizes offset Hl Ho Hb. destruct (ParseBatch_body ch bufs sizes offset) as (bufs' & sizes' & Hrun & H & _);
    [lia| |done..|by exists bufs', sizes'].
  eapply Forall_impl; [exact Hd1|]. simpl. lia.
Qed.

Lemma ParseBatch_body_witness :
  exists bufs' sizes',
    ParseBatch (batch_body [[1; 2]; [3]]) [[0; 0; 0; 0]; [0; 0]; [9]] [0; 0; 7] 1 = (Ret 2, bufs', sizes') /\
    exists b, bufs' !! 0%nat = Some b /\ slice b 1 3 = Some [1; 2].
Proof.
  destruct (ParseBatch_body [[1; 2]; [3]] [[0; 0; 0; 0]; [0; 0]; [9]] [0; 0; 7] 1) as (bufs' & sizes' & H & H1 & _).
  - vm_compute. reflexivity.
  - repeat apply Forall_cons_2; [..|apply Forall_nil_2]; vm_compute; reflexivity.
  - simpl. lia.
  - lia.
  - repeat constructor; vm_compute; congruence.
  - exists bufs', sizes'. split; [exact H|]. by destruct (H1 0%nat [1; 2] eq_refl) as [_ Hb].
Defined.

(** The zstd compressor and the XChaCha20-Poly1305 encryptor fulfil what
    the transport expects of them: two peers created with the same key, with
    any compression levels, thresholds and compression switches, exchange any
    sequence of messages of up to 65485 bytes. *)
Theorem secure_peers_roundtrip zlib alib `{!ZstdLibOK zlib} `{!AeadLibOK alib} key level1 level2 c1 c2 e
    on1 on2 th1 th2 up rnds msgs :
  NewZstdCompressor level1 = Ret c1 -> NewZstdCompressor level2 = Ret c2 ->
  NewChacha20Poly1305Encryptor key = Ret e -> fresh_nonces rnds -> u_fail up = false ->
  Forall (fun m => plain_type m.1 /\ bytes_ok m.2 /\ zlen m.2 <= 65485) msgs ->
  exists tx' wire,
    write_all rnds msgs (NewTransport up (peer_options (zstd zlib c1) (chacha alib e) on1 th1))
      = (Ret tt, tx') /\ u_out (upstream tx') = u_out up ++ wire /\
    forall up2 p rest, u_in up2 = wire ++ rest -> zlen p >= 65535 ->
      exists rx', read_all (length msgs) p
        (NewTransport up2 (peer_options (zstd zlib c2) (chacha alib e) on2 th2)) = (Ret msgs, rx') /\
        u_in (upstream rx') = rest.
Proof.
  intros H1 H2 He Hr Hf Hs. set (tx := NewTransport up _).
  set (rxo := options (NewTransport up (peer_options (zstd zlib c2) (chacha alib e) on2 th2))).
  assert (matching (options tx) rxo) as Hm by (apply peers_match; apply _).
  destruct (write_all_run rxo rnds msgs tx) as (tx' & wires & Hrun & _ & _ & Hu & Hc); auto.
  { by apply NewTransport_wf. }
  exists tx', (concat wires). split_and!; [done|by rewrite Hu|]. intros up2 p rest Hin Hp.
  destruct (read_all_run p rest wires msgs
    (NewTransport up2 (peer_options (zstd zlib c2) (chacha alib e) on2 th2))) as (rx' & Hread & _ & Hrest); auto.
  - by apply NewTransport_wf.
  - eapply Forall_impl; [exact Hs|]. intros m (Hty & _ & Hd). split; [apply Hty|lia].
  - by exists rx'.
Qed.

Lemma secure_peers_roundtrip_witness :
  exists tx' wire,
    write_all (fun _ => Some (replicate 24 7)) [(TypeTransport, [1; 2; 3])]
      (NewTransport (MkUpstream [] [] true false)
        (peer_options (zstd toy_zstd (MkZstd 2)) (chacha toy_aead (MkChacha (replicate 32 1))) true 2))
      = (Ret tt, tx') /\ u_out (upstream tx') = [] ++ wire.
Proof.
  destruct (secure_peers_roundtrip toy_zstd toy_aead (replicate 32 1) 2 1 (MkZstd 2) (MkZstd 1)
    (MkChacha (replicate 32 1)) true false 2 2 (MkUpstream [] [] true false)
    (fun _ => Some (replicate 24 7)) [(TypeTransport, [1; 2; 3])]) as (tx' & wire & H & Hu & _).
  - reflexivity.
  - reflexivity.
  - reflexivity.
  - intros i. exists (replicate 24 7). split_and!; [done|done|]. by repeat constructor.
  - done.
  - apply Forall_cons_2; [|apply Forall_nil_2]. split_and!; [done| |vm_compute; congruence].
    by repeat constructor.
  - exists tx', wire. by split.
Defined.

(** ** Sizes at the limit *)

Lemma writeRawMessage_panics ty v d t :
  wf t -> view_bytes t v = Some d -> view_clear Buf 7 v -> view_len v = zlen d ->
  65528 < zlen d <= 65530 -> fst (writeRawMessage ty v t) = Panic.
Proof.
  intros Hwf Hv Hc Hl Hd. pose proof (wf_arr t Buf Hwf) as Hz. pose proof (wf_magic t Hwf) as Hm.
  unfold writeRawMessage. rewrite Hl, (proj2 (Z.ltb_ge _ _)) by lia.
  rewrite (tm_bind_ret get _ t t t) by done.
  assert (zlen [ty] = 1) as H1 by done. pose proof (zlen_be2 (zlen d)) as H2.
  erewrite tm_bind_ret by (apply put_run; lia).
  erewrite tm_bind_ret by (apply put_run; arr_norm; rewrite ?zlen_blit; lia).
  arr_norm. set (b1 := blit (blit (arr t Buf) 0 (magic (options t))) 4 [ty]).
  assert (zlen b1 = 65535) as Hb1 by (unfold b1; rewrite !zlen_blit; rewrite ?zlen_blit; lia).
  erewrite tm_bind_ret by (apply put_run; arr_norm; lia). arr_norm.
  set (b2 := blit b1 5 (be_put 2 (zlen d))).
  assert (zlen b2 = 65535) as Hb2 by (unfold b2; rewrite !zlen_blit; lia).
  erewrite tm_bind_panic; [done|]. apply (copy_panics _ _ _ _ d); [|arr_norm; lia].
  eapply view_bytes_set; [done..|]. intros off p Ho Hp. unfold b2, b1.
  apply holds_blit_other; [|lia|fold b1; lia|lia].
  apply holds_blit_other; [|lia|rewrite zlen_blit; lia|lia].
  apply holds_blit_other; [done|lia..].
Qed.

(** Without compression and encryption, data of up to 65528 bytes is sent
    as one frame, more than 65530 bytes are refused without an effect, and the
    two sizes in between pass the check but do not fit the 65535-byte array
    with its 7-byte header: the write panics. *)
Theorem WriteMessage_sizes rnd ty data t :
  wf t -> encrypting (options t) = false -> compressing (options t) = false -> u_fail (upstream t) = false ->
  (zlen data <= 65528 -> exists t', WriteMessage rnd ty data t = (Ret (7 + zlen data), t') /\
     upstream t' = sent (upstream t) (frame (magic (options t)) ty data)) /\
  (65528 < zlen data <= 65530 -> fst (WriteMessage rnd ty data t) = Panic) /\
  (65530 < zlen data -> WriteMessage rnd ty data t = (Fail (0, ErrMessageTooLarge), t)).
Proof.
  intros Hwf He Hc Hf.
  assert (WriteMessage rnd ty data t = writeRawMessage ty (VBytes data) t) as ->.
  { assert (write_compress ty data t = (Ret (ty, VBytes data), t)) as Hwc.
    { unfold write_compress. rewrite (tm_bind_ret get _ t t t) by done.
      unfold compressing in Hc. destruct (compressor (options t)); [|reflexivity].
      rewrite andb_true_r in Hc. by rewrite Hc. }
    unfold WriteMessage. rewrite (tm_bind_ret _ _ _ _ _ Hwc). cbv beta iota.
    rewrite (tm_bind_ret get _ t t t) by done. unfold encrypting in He.
    destruct (encryptor (options t)); [|done]. rewrite andb_true_r in He. by rewrite He. }
  split_and!.
  - intros Hd. destruct (writeRawMessage_run ty (VBytes data) data t) as (t' & H & _ & _ & Hu); auto; done || eauto.
  - intros Hd. by apply (writeRawMessage_panics _ _ data).
  - intros Hd. unfold writeRawMessage. cbn [view_len]. by rewrite (proj2 (Z.ltb_lt _ _)) by lia.
Qed.

Definition plain_transport : Transport :=
  NewTransport (MkUpstream [] [] true false) [EnableEncrypt false].

Lemma WriteMessage_sizes_witness :
  fst (WriteMessage None 0 (replicate (Z.to_nat 65529) 1) plain_transport) = Panic.
Proof.
  destruct (WriteMessage_sizes None 0 (replicate (Z.to_nat 65529) 1) plain_transport) as (_ & H & _);
    [by apply NewTransport_wf|reflexivity|reflexivity|reflexivity|].
  apply H. unfold zlen. rewrite length_replicate, Z2Nat.id; lia.
Defined.

(** Reading trusts the 16-bit length of the header: a frame announcing
    65529 bytes or more, from any peer and of any type, makes the end of the
    slice wrap around in 16 bits and the read panics, for [ReadMessage] and,
    at 65529 and 65530, also for [Read] behind its size check. *)
Theorem Read_length_panics ty n tail p t :
  wf t -> u_in (upstream t) = magic (options t) ++ [ty] ++ be_put 2 n ++ tail -> 65529 <= n < 65536 ->
  fst (ReadMessage p t) = Panic /\
  fst (Read p t) = if 65530 <? n then Fail (0, ErrMessageTooLarge) else Panic.
Proof.
  intros Hwf Hin Hn.
  destruct (read_header _ ty n tail t Hwf eq_refl Hin ltac:(lia)) as (t1 & Hwf1 & _ & _ & _ & F2 & Hk).
  assert (u16 (7 + n) = n - 65529) as Hw.
  { unfold u16, uwrap. change (2 ^ 16) with 65536. symmetry. apply Z.mod_unique with (q := 1); lia. }
  assert (forall A (k : tm A), fst ((ReadFull Buf 7 (n - 65529);; k) t1) = Panic) as Hp.
  { intros A k. erewrite tm_bind_panic; [done|]. unfold ReadFull.
    rewrite (proj2 (Z.leb_gt 7 _)) by lia. by rewrite andb_false_r. }
  split.
  - unfold ReadMessage. rewrite Hk, F2. cbv zeta. rewrite Hw. apply Hp.
  - unfold Read. rewrite Hk, F2. cbv zeta. rewrite Hw. destruct (65530 <? n); [done|]. apply Hp.
Qed.

Lemma Read_length_panics_witness :
  fst (ReadMessage [] (NewTransport (MkUpstream (transportMagicBytes ++ [0] ++ be_put 2 65535 ++ [1; 2]) [] true false)
    [])) = Panic.
Proof.
  destruct (Read_length_panics 0 65535 [1; 2] []
    (NewTransport (MkUpstream (transportMagicBytes ++ [0] ++ be_put 2 65535 ++ [1; 2]) [] true false) []))
    as [H _]; [by apply NewTransport_wf|done|lia|exact H].
Defined.

Lemma fst_bind_fail {A B} (m : tm A) (f : A -> tm B) t e :
  fst (m t) = Fail e -> fst ((m ≫= f) t) = Fail e.
Proof. unfold mbind, tm_mbind. destruct (m t) as [[]?]; simpl; congruence. Qed.

(** With compression on and zstd, a batch of 32757 to 65525 bytes at or
    above the threshold is never sent: the message and the target of the
    compression share the crypto array, whose rest is always smaller than the
    capacity the compressor asks for, so the write fails. *)
Theorem batch_compress_dead_zone lib c rnd h buf datas t :
  wf t -> compress (options t) = true -> compressor (options t) = Some (zstd lib c) ->
  packets_in h buf datas -> compressThreshold (options t) <= zlen (batch_body datas) ->
  32757 <= zlen (batch_body datas) <= 65525 ->
  fst (batchWrite rnd buf (zlen <$> datas) h t) = Fail (0, ErrCapacity).
Proof.
  intros Hwf Hon Hc Hp Hth Hn. set (body := batch_body datas) in *.
  unfold batchWrite. rewrite <- zlen_batch_body. fold body. rewrite (proj2 (Z.ltb_ge _ _)) by lia.
  rewrite (tm_bind_ret get _ _ _ _ (get_run _)).
  destruct (batch_prologue h buf datas (zlen body) t) as (b0 & Hb0 & Hh0 & Hk); [done..|lia|].
  rewrite Hk. set (t0 := set_arr t Buf b0). assert (wf t0) as Hwf0 by by apply wf_set.
  apply fst_bind_fail. unfold batch_compress. rewrite (tm_bind_ret get _ _ _ _ (get_run _)).
  change (options t0) with (options t). rewrite Hc, Hon, (proj2 (Z.leb_le _ _)) by lia. cbn [andb].
  rewrite (wf_crypto _ Hwf0), (proj2 (Z.leb_gt (3 + zlen body + 17) _)), andb_false_r by lia.
  rewrite (proj2 (Z.ltb_ge _ _)) by lia.
  pose proof (wf_arr t0 Crypto Hwf0) as Hz. pose proof (zlen_be2 (zlen body)) as H2.
  assert (zlen [TypeBatchTransport] = 1) as H1 by done.
  erewrite tm_bind_ret by (apply put_run; lia).
  erewrite tm_bind_ret by (apply put_run; arr_norm; rewrite ?zlen_blit; lia).
  arr_norm. set (b1 := blit (blit (arr t0 Crypto) 7 [TypeBatchTransport]) 8 (be_put 2 (zlen body))).
  assert (zlen b1 = 65535) as Hb1 by (unfold b1; rewrite !zlen_blit; rewrite ?zlen_blit; lia).
  erewrite tm_bind_ret.
  2:{ apply (copy_run _ _ _ _ body); [|lia|lia|arr_norm; lia]. by apply (view_holds (set_arr t0 Crypto b1) Buf). }
  arr_norm. set (b2 := blit b1 10 body).
  assert (zlen b2 = 65535) as Hb2 by (unfold b2; rewrite zlen_blit; lia).
  apply fst_bind_fail. unfold call_codec. cbn [view_bytes]. rewrite arr_set, slice_in by lia.
  rewrite (proj2 (Z.leb_le 0 _)), (proj2 (Z.leb_le (7 + (3 + zlen body)) _)), Hb2, Z.leb_refl by lia. cbn [negb andb].
  assert (zlen (sub_list b2 7 (7 + (3 + zlen body))) = 3 + zlen body) as Hm by (rewrite zlen_sub_list; lia).
  cbn [Compress zstd]. unfold zstd_Compress. rewrite Hm, (proj2 (Z.eqb_neq _ _)) by lia.
  rewrite zlen_sub_list, (proj2 (Z.ltb_lt _ _)) by (unfold ZstdOverhead; lia). done.
Qed.

Definition zstd_transport : Transport :=
  NewTransport (MkUpstream [] [] true false)
    [EnableCompress true; WithCompressor (Some (zstd toy_zstd (MkZstd 2))); EnableEncrypt false].

Lemma batch_compress_dead_zone_witness :
  fst (batchWrite None [replicate (Z.to_nat 40000) 1] (zlen <$> [replicate (Z.to_nat 40000) 1]) 0 zstd_transport)
  = Fail (0, ErrCapacity).
Proof.
  apply (batch_compress_dead_zone toy_zstd (MkZstd 2)).
  - by apply NewTransport_wf.
  - reflexivity.
  - reflexivity.
  - apply packets_in_self.
  - rewrite batch_body_1, zlen_replicate by lia.
    change (compressThreshold (options zstd_transport)) with 10240. lia.
  - rewrite batch_body_1, zlen_replicate by lia. lia.
Defined.

Lemma batchWrite_too_large rnd h buf datas t :
  wf t -> encrypting (options t) = true -> compressing (options t) = false ->
  packets_in h buf datas -> 65485 < zlen (batch_body datas) <= 65528 ->
  fst (batchWrite rnd buf (zlen <$> datas) h t) = Fail (0, ErrMessageTooLarge).
Proof.
  intros Hwf He Hc Hp Hn. unfold batchWrite. rewrite <- zlen_batch_body, (proj2 (Z.ltb_ge _ _)) by lia.
  rewrite (tm_bind_ret get _ _ _ _ (get_run _)).
  destruct (batch_prologue h buf datas (zlen (batch_body datas)) t) as (b0 & Hb0 & Hh0 & Hk); [done..|lia|].
  rewrite Hk. set (t0 := set_arr t Buf b0).
  assert (batch_compress (zlen (batch_body datas)) t0 =
    (Ret (TypeBatchTransport, VArr Buf 7 (zlen (batch_body datas))), t0)) as Hb.
  { unfold batch_compress. rewrite (tm_bind_ret get _ _ _ _ (get_run _)). change (options t0) with (options t).
    unfold compressing in Hc. destruct (compressor (options t)); [|reflexivity].
    rewrite andb_true_r in Hc. by rewrite Hc. }
  rewrite (tm_bind_ret _ _ _ _ _ Hb). cbv beta iota. rewrite (tm_bind_ret get _ _ _ _ (get_run _)).
  change (options t0) with (options t). unfold encrypting in He.
  destruct (encryptor (options t)); [|by rewrite andb_false_r in He].
  rewrite andb_true_r in He. rewrite He. cbn [view_len].
  unfold Chacha20Poly1305NonceSize, Chacha20Poly1305Overhead, MaxTransportByteSize.
  by rewrite (proj2 (Z.ltb_lt _ _)) by lia.
Qed.

(** [BatchWrite] counts the authentication tag but neither the nonce nor
    the inner header when it fills a batch: on an encrypting transport two
    packets that together need between 65486 and 65512 bytes are put into one
    batch, which is then refused as too large, although each of them alone
    could be sent. *)
Theorem batch_encrypt_gap rnds d1 d2 t :
  wf t -> encrypting (options t) = true -> compressing (options t) = false ->
  65485 < zlen (batch_body [d1; d2]) <= 65512 ->
  fst (BatchWrite rnds [d1; d2] [zlen d1; zlen d2] 0 t) = Fail (0, ErrMessageTooLarge).
Proof.
  intros Hwf He Hc Hn. pose proof (zlen_nonneg d1). pose proof (zlen_nonneg d2).
  assert (zlen (batch_body [d1; d2]) = 6 + zlen d1 + zlen d2) as Hb.
  { change [d1; d2] with ([d1] ++ [d2]). rewrite batch_body_snoc, batch_body_1. lia. }
  unfold BatchWrite. cbn [length batch_loop]. change (zlen [d1; d2]) with 2.
  change (0 <? 2) with true. cbv iota. rewrite (tm_bind_ret get _ _ _ _ (get_run _)).
  assert (batch_space (options t) = 65510) as -> by (unfold batch_space, encrypting in *; by rewrite He).
  assert (take_batch 2 0 2 65510 0 [zlen d1; zlen d2] = Some 2) as ->.
  { cbn [take_batch]. change (0 <? 2) with true. change (0 + 1 <? 2) with true.
    change (index [zlen d1; zlen d2] 0) with (Some (zlen d1)).
    change (index [zlen d1; zlen d2] (0 + 1)) with (Some (zlen d2)). cbv iota. cbn [mbind option_bind].
    rewrite !(proj2 (Z.leb_le _ _)) by lia. done. }
  cbn [or_panics]. rewrite (tm_bind_ret (mret 2) _ t 2 t) by done. change (2 =? 0) with false. cbv iota.
  apply fst_bind_fail. change (sub_list [d1; d2] 0 2) with [d1; d2].
  change (sub_list [zlen d1; zlen d2] 0 2) with (zlen <$> [d1; d2]).
  apply batchWrite_too_large; auto; [apply packets_in_self|lia].
Qed.

Definition chacha_transport : Transport :=
  NewTransport (MkUpstream [] [] true false) [WithEncryptor (Some (chacha toy_aead (MkChacha [])))].

Lemma batch_encrypt_gap_witness :
  let d := replicate (Z.to_nat 32745) 1 in
  fst (BatchWrite (fun _ => Some (replicate 24 7)) [d; d] [zlen d; zlen d] 0 chacha_transport)
  = Fail (0, ErrMessageTooLarge).
Proof.
  intros d. apply batch_encrypt_gap; [by apply NewTransport_wf|reflexivity|reflexivity|].
  change [d; d] with ([d] ++ [d]). rewrite batch_body_snoc, batch_body_1. unfold d.
  rewrite zlen_replicate by lia. lia.
Defined.
