(* ===== verification/Fragment.v ===== *)
(** * Messages over QUIC datagrams (common/session/session_quic.go)

    A datagram connection is the datagrams handed to it so far and, on the
    receiving side, the datagrams that will arrive. [accept] says whether the
    connection takes a datagram. The reassembler is a map from message ids to
    partial messages, changed under its mutex. *)

From S2P Require Import Prelude.

Definition MaxDatagramSize : Z := 1000.
Definition FragmentMagic : Z := 0xD0C0.

Record fragmentHeader := MkHeader {
  Magic : Z; MessageID : Z; FragmentIndex : Z; FragmentCount : Z }.

Definition encode (h : fragmentHeader) : list Z :=
  be_put 2 (Magic h) ++ be_put 4 (MessageID h) ++ be_put 2 (FragmentIndex h) ++ be_put 2 (FragmentCount h).

Inductive frag_error := TooShort | InvalidMagic | IndexNotBelowCount | SendDatagramFailed | SendFailed (i count : Z)
| ReceiveFailed.

Definition decodeFragmentHeader (data : list Z) : outcome frag_error (fragmentHeader * list Z) :=
  if zlen data <? 10 then Fail TooShort
  else
    let magic := be_get (sub_list data 0 2) in
    if negb (magic =? FragmentMagic) then Fail InvalidMagic
    else
      let header := MkHeader magic (be_get (sub_list data 2 6)) (be_get (sub_list data 6 8))
                      (be_get (sub_list data 8 10)) in
      if FragmentCount header <=? FragmentIndex header then Fail IndexNotBelowCount
      else Ret (header, sub_list data 10 (zlen data)).

(** A slot is [None] while it is nil. *)
Record partialMessage := MkPartial { fragments : list (option (list Z)); received : Z }.

Abbreviation messageReassembler := (gmap Z partialMessage).

Definition newMessageReassembler : messageReassembler := ∅.

(** [append(result, frag...)] over the slots *)
Definition assemble (slots : list (option (list Z))) : list Z := slots ≫= default [].

(** The result is the complete message, if this fragment completed it. *)
Definition addFragment (r : messageReassembler) (header : fragmentHeader) (data : list Z)
    : option (list Z) * messageReassembler :=
  let id := MessageID header in
  let msg := default (MkPartial (replicate (Z.to_nat (FragmentCount header)) None) 0) (r !! id) in
  let r := <[id := msg]> r in
  if negb (zlen (fragments msg) =? FragmentCount header) then (None, delete id r)
  else match fragments msg !! Z.to_nat (FragmentIndex header) with
       | None => (None, r)
       | Some (Some _) => (None, r)
       | Some None =>
           let msg := MkPartial (<[Z.to_nat (FragmentIndex header) := Some data]> (fragments msg))
                        (u16 (received msg + 1)) in
           if received msg =? FragmentCount header
           then (Some (assemble (fragments msg)), delete id r)
           else (None, <[id := msg]> r)
       end.

Definition cleanup (r : messageReassembler) : messageReassembler := ∅.

(** [messageIDCounter++] *)
Definition nextMessageID (messageIDCounter : Z) : Z := u32 (messageIDCounter + 1).

Section Sending.
Context (accept : list Z -> bool).

(** The loop over the fragments: [left] to go, the current index [i]. *)
Fixpoint send_fragments (left : nat) (i count msgID : Z) (data : list Z) (out : list (list Z))
    : outcome frag_error unit * list (list Z) :=
  match left with
  | O => (Ret tt, out)
  | S left' =>
      let maxPayloadSize := MaxDatagramSize - 10 in
      let start := i * maxPayloadSize in
      let stop := start + maxPayloadSize in
      let stop := if zlen data <? stop then zlen data else stop in
      match slice data start stop with
      | None => (Panic, out)
      | Some fragmentData =>
          let datagram := encode (MkHeader FragmentMagic msgID i count) ++ fragmentData in
          if accept datagram then send_fragments left' (i + 1) count msgID data (out ++ [datagram])
          else (Fail (SendFailed i count), out)
      end
  end.

(** [Send]: the id counter and the datagrams sent so far are the state. *)
Definition Send (counter : Z) (out : list (list Z)) (data : list Z)
    : outcome frag_error unit * Z * list (list Z) :=
  if zlen data <=? MaxDatagramSize - 10 then
    if accept data then (Ret tt, counter, out ++ [data]) else (Fail SendDatagramFailed, counter, out)
  else
    let msgID := nextMessageID counter in
    let maxPayloadSize := MaxDatagramSize - 10 in
    let fragmentCount := (zlen data + maxPayloadSize - 1) / maxPayloadSize in
    let fragmentCountUint := u16 fragmentCount in
    let '(res, out) := send_fragments (Z.to_nat fragmentCountUint) 0 fragmentCountUint msgID data out in
    (res, msgID, out).
End Sending.

(** The loop of [Receive]: datagrams are taken until one is a whole message or
    completes one; when no more arrive the read fails. *)
Fixpoint receive_loop (r : messageReassembler) (arriving : list (list Z))
    : outcome frag_error (list Z) * messageReassembler * list (list Z) :=
  match arriving with
  | [] => (Fail ReceiveFailed, r, [])
  | datagram :: rest =>
      if 10 <=? zlen datagram then
        match decodeFragmentHeader datagram with
        | Ret (header, payload) =>
            match addFragment r header payload with
            | (Some completeMsg, r') => (Ret completeMsg, r', rest)
            | (None, r') => receive_loop r' rest
            end
        | _ => (Ret datagram, r, rest)
        end
      else (Ret datagram, r, rest)
  end.

(** [Receive]: the reassembler is created on first use. *)
Definition Receive (reassembler : option messageReassembler) (arriving : list (list Z))
    : outcome frag_error (list Z) * option messageReassembler * list (list Z) :=
  let r := default newMessageReassembler reassembler in
  let '(res, r', rest) := receive_loop r arriving in
  (res, Some r', rest).

(** [CloseWithError]: the reassembler is emptied and the connection is closed
    with a code and a description. [err] is the error's text and, for a session
    error, its code. *)
Definition CloseWithError (reassembler : option messageReassembler) (err : option (string * option Z))
    : option messageReassembler * (Z * string) :=
  (cleanup <$> reassembler,
   match err with
   | None => (0, "connection closed"%string)
   | Some (text, code) => (default 0 code, text)
   end).
