(* ===== verification/FragmentProps.v ===== *)
(** * Properties of fragmentation *)

From S2P Require Import Prelude Fragment.

(** ** Fragments of a message *)

Definition frag_count (data : list Z) : Z := (zlen data + 989) / 990.

Definition nfrag (data : list Z) : nat := Z.to_nat (frag_count data).

Definition chunk (data : list Z) (i : nat) : list Z :=
  sub_list data (Z.of_nat i * 990) (Z.min (Z.of_nat i * 990 + 990) (zlen data)).

Definition datagram (id : Z) (data : list Z) (i : nat) : list Z :=
  encode (MkHeader FragmentMagic id (Z.of_nat i) (frag_count data)) ++ chunk data i.

(** A message that can be sent in fragments. *)
Definition fragmentable (data : list Z) : Prop := 0 < zlen data <= 65535 * 990.

Lemma frag_count_range data :
  fragmentable data -> 0 < frag_count data < 65536 /\ (frag_count data - 1) * 990 < zlen data <= frag_count data * 990.
Proof.
  intros [H0 H1]. unfold frag_count. pose proof (Z.div_mod (zlen data + 989) 990 ltac:(lia)).
  pose proof (Z.mod_pos_bound (zlen data + 989) 990 ltac:(lia)). nia.
Qed.

Lemma zlen_encode h : zlen (encode h) = 10.
Proof. unfold encode. by rewrite !zlen_app, !zlen_be_put. Qed.

Lemma sub_list_mid {A} (p q r : list A) a b :
  a = zlen p -> b = zlen p + zlen q -> sub_list (p ++ q ++ r) a b = q.
Proof.
  intros -> ->. pose proof (zlen_nonneg p). pose proof (zlen_nonneg q).
  rewrite sub_list_app_r, Z.sub_diag by lia. replace (zlen p + zlen q - zlen p) with (zlen q) by lia.
  rewrite sub_list_app_l by lia. apply sub_list_all.
Qed.

Lemma decode_encode id i count payload :
  0 <= id < 2 ^ 32 -> 0 <= i < count -> count < 65536 ->
  decodeFragmentHeader (encode (MkHeader FragmentMagic id i count) ++ payload) =
  Ret (MkHeader FragmentMagic id i count, payload).
Proof.
  intros Hid Hi Hc. pose proof (zlen_nonneg payload). unfold decodeFragmentHeader.
  rewrite zlen_app, zlen_encode, (proj2 (Z.ltb_ge _ _)) by lia.
  assert (forall p q r a b v n, (p ++ q ++ r) = encode (MkHeader FragmentMagic id i count) ++ payload ->
    a = zlen p -> b = zlen p + zlen q -> q = be_put n v -> 0 <= v < 2 ^ (8 * Z.of_nat n) ->
    be_get (sub_list (encode (MkHeader FragmentMagic id i count) ++ payload) a b) = v) as Hf.
  { intros p q r a b v n <- -> -> -> Hv. rewrite sub_list_mid by done. by apply be_get_put. }
  unfold encode in *. cbn [Magic MessageID FragmentIndex FragmentCount] in *.
  rewrite (Hf [] (be_put 2 FragmentMagic) (be_put 4 id ++ be_put 2 i ++ be_put 2 count ++ payload) 0 2 FragmentMagic 2%nat);
    [|by rewrite <- !app_assoc|done|done|done|by vm_compute].
  change (negb (FragmentMagic =? FragmentMagic)) with false. cbv iota.
  rewrite (Hf (be_put 2 FragmentMagic) (be_put 4 id) (be_put 2 i ++ be_put 2 count ++ payload) 2 6 id 4%nat);
    [|by rewrite <- !app_assoc|done|done|done|done].
  rewrite (Hf (be_put 2 FragmentMagic ++ be_put 4 id) (be_put 2 i) (be_put 2 count ++ payload) 6 8 i 2%nat);
    [|by rewrite <- !app_assoc|done|done|done|change (2 ^ (8 * Z.of_nat 2)) with 65536; lia].
  rewrite (Hf (be_put 2 FragmentMagic ++ be_put 4 id ++ be_put 2 i) (be_put 2 count) payload 8 10 count 2%nat);
    [|by rewrite <- !app_assoc|done|done|done|change (2 ^ (8 * Z.of_nat 2)) with 65536; lia].
  rewrite (proj2 (Z.leb_gt _ _)) by lia. do 3 f_equal.
  rewrite sub_list_app_r by (rewrite !zlen_app, !zlen_be_put; lia). rewrite !zlen_app, !zlen_be_put.
  change (Z.of_nat 2 + (Z.of_nat 4 + (Z.of_nat 2 + Z.of_nat 2))) with 10.
  replace (10 + zlen payload - 10) with (zlen payload) by lia. apply sub_list_all.
Qed.

Lemma chunks_prefix data n :
  (Z.of_nat n - 1) * 990 < zlen data -> (0 < n)%nat ->
  concat (chunk data <$> seq 0 n) = sub_list data 0 (Z.min (Z.of_nat n * 990) (zlen data)).
Proof.
  intros Hn H0. induction n as [|n IH]; [lia|]. pose proof (zlen_nonneg data).
  rewrite seq_S, fmap_app, concat_app. simpl concat. rewrite app_nil_r.
  destruct (decide (n = 0%nat)) as [->|].
  { simpl. unfold chunk. f_equal. }
  rewrite IH by lia. unfold chunk. rewrite Z.min_l by lia.
  replace (Z.of_nat n * 990 + 990) with (Z.of_nat (S n) * 990) by lia.
  apply sub_list_take_drop; lia.
Qed.

Lemma chunks_concat data : fragmentable data -> concat (chunk data <$> seq 0 (nfrag data)) = data.
Proof.
  intros H. pose proof (frag_count_range data H) as [Hc Hz]. unfold nfrag.
  rewrite chunks_prefix by lia. rewrite Z2Nat.id, Z.min_r by lia. apply sub_list_all.
Qed.

(** ** Sending *)

Lemma send_fragments_run data id left i out :
  fragmentable data -> (i + left = nfrag data)%nat ->
  send_fragments (fun _ => true) left (Z.of_nat i) (frag_count data) id data out =
  (Ret tt, out ++ (datagram id data <$> seq i left)).
Proof.
  intros Hf. pose proof (frag_count_range data Hf) as [Hc Hz]. unfold nfrag.
  revert i out. induction left as [|left IH]; intros i out Hi; cbn [send_fragments].
  { simpl. by rewrite app_nil_r. }
  change (MaxDatagramSize - 10) with 990. cbv zeta.
  assert ((if zlen data <? Z.of_nat i * 990 + 990 then zlen data else Z.of_nat i * 990 + 990)
    = Z.min (Z.of_nat i * 990 + 990) (zlen data)) as -> by (case_match; bool_cases; lia).
  rewrite slice_in by nia. cbv iota beta.
  replace (Z.of_nat i + 1) with (Z.of_nat (S i)) by lia. rewrite IH by lia.
  cbn [seq fmap list_fmap]. by rewrite <- app_assoc.
Qed.

Lemma Send_fragmented counter out data :
  990 < zlen data -> fragmentable data ->
  Send (fun _ => true) counter out data =
  (Ret tt, nextMessageID counter, out ++ (datagram (nextMessageID counter) data <$> seq 0 (nfrag data))).
Proof.
  intros Hd Hf. pose proof (frag_count_range data Hf) as [Hc _]. unfold Send.
  change (MaxDatagramSize - 10) with 990. rewrite (proj2 (Z.leb_gt _ _)) by lia.
  replace (zlen data + 990 - 1) with (zlen data + 989) by lia. fold (frag_count data).
  rewrite u16_small by lia. pose proof (send_fragments_run data (nextMessageID counter) (nfrag data) 0 out Hf eq_refl) as H.
  change (Z.of_nat 0) with 0 in H. fold (nfrag data). by rewrite H.
Qed.

(** ** Delivering datagrams *)

(** One datagram: the message it yields, if any. *)
Definition deliver_one (r : messageReassembler) (dg : list Z) : option (list Z) * messageReassembler :=
  if 10 <=? zlen dg then
    match decodeFragmentHeader dg with
    | Ret (header, payload) => addFragment r header payload
    | _ => (Some dg, r)
    end
  else (Some dg, r).

Fixpoint deliver (r : messageReassembler) (dgs : list (list Z)) : list (list Z) * messageReassembler :=
  match dgs with
  | [] => ([], r)
  | dg :: dgs' =>
      match deliver_one r dg with
      | (Some m, r') => let '(ms, r'') := deliver r' dgs' in (m :: ms, r'')
      | (None, r') => deliver r' dgs'
      end
  end.

(** Calling [Receive] until the datagrams are used up. *)
Fixpoint receive_all (fuel : nat) (q : option messageReassembler) (arriving : list (list Z))
    : list (list Z) * option messageReassembler :=
  match fuel with
  | O => ([], q)
  | S f =>
      match Receive q arriving with
      | (Ret m, q', rest) => let '(ms, q'') := receive_all f q' rest in (m :: ms, q'')
      | (_, q', _) => ([], q')
      end
  end.

Lemma receive_loop_step r dg dgs :
  receive_loop r (dg :: dgs) =
  match deliver_one r dg with
  | (Some m, r') => (Ret m, r', dgs)
  | (None, r') => receive_loop r' dgs
  end.
Proof.
  cbn [receive_loop]. unfold deliver_one. destruct (10 <=? zlen dg); [|done].
  destruct (decodeFragmentHeader dg) as [[h p]| |]; [|done..]. by destruct (addFragment r h p) as [[]].
Qed.

Lemma receive_all_deliver dgs fuel r :
  (length dgs < fuel)%nat ->
  receive_all fuel (Some r) dgs = let '(ms, r') := deliver r dgs in (ms, Some r').
Proof.
  revert fuel r. induction dgs as [|dg dgs IH]; intros fuel r Hf; (destruct fuel as [|f]; [simpl in Hf; lia|]).
  { done. }
  cbn [receive_all deliver]. unfold Receive. cbn [default from_option id]. rewrite receive_loop_step.
  destruct (deliver_one r dg) as [[m|] r'].
  - rewrite IH by (simpl in Hf; lia). by destruct (deliver r' dgs).
  - specialize (IH (S f) r' ltac:(simpl in Hf; lia)). cbn [receive_all] in IH. unfold Receive in IH.
    cbn [default from_option id] in IH. exact IH.
Qed.

(** ** Reassembly in any order *)

Lemma filter_ext_in {A} (Q Q' : A -> Prop) `{forall x, Decision (Q x)} `{forall x, Decision (Q' x)} (l : list A) :
  (forall x, x ∈ l -> Q x <-> Q' x) -> filter Q l = filter Q' l.
Proof.
  induction l as [|x l IH]; intros HQ; [done|].
  assert (filter Q l = filter Q' l) as E by (apply IH; intros y Hy; apply HQ; by right).
  destruct (decide (Q x)) as [Hq|Hq].
  - rewrite !filter_cons_True; [by rewrite E|apply HQ; [by left|done]|done].
  - rewrite !filter_cons_False; [done| |done]. rewrite <- HQ; [done|by left].
Qed.

(** One more element of a list satisfies the predicate. *)
Lemma filter_add {A} (Q Q' : A -> Prop) `{forall x, Decision (Q x)} `{forall x, Decision (Q' x)} (l : list A) i :
  NoDup l -> i ∈ l -> ~ Q i -> (forall x, x ∈ l -> Q' x <-> Q x \/ x = i) ->
  filter Q' l ≡ₚ i :: filter Q l.
Proof.
  intros Hnd. induction Hnd as [|x l Hx Hnd IH]; intros Hin Hq HQ; [by apply not_elem_of_nil in Hin|].
  assert (forall y, y ∈ l -> Q' y <-> Q y \/ y = i) as HQl by (intros y Hy; apply HQ; by right).
  assert (Q' x <-> Q x \/ x = i) as Hqx by (apply HQ; by left).
  apply elem_of_cons in Hin as [->|Hin].
  - rewrite filter_cons_True by (apply Hqx; by right). rewrite filter_cons_False by done.
    erewrite filter_ext_in; [done|]. intros y Hy. rewrite (HQl y Hy). split; [|by left].
    intros [?| ->]; done.
  - assert (x <> i) by (intros ->; done). specialize (IH Hin Hq HQl). destruct (decide (Q x)) as [Hq'|Hq'].
    + rewrite !filter_cons_True by tauto. rewrite IH. apply Permutation_swap.
    + rewrite !filter_cons_False by tauto. done.
Qed.

Section Reassembly.
Context (msgs : gmap Z (list Z)).
Context (Hmsgs : forall id data, msgs !! id = Some data -> 0 <= id < 2 ^ 32 /\ fragmentable data).

(** The datagram of the arrival of fragment [e.2] of the message [e.1]. *)
Definition event_datagram (e : Z * nat) : list Z :=
  match msgs !! e.1 with Some data => datagram e.1 data e.2 | None => [] end.

Definition seen (P : list (Z * nat)) (id : Z) (n : nat) : list nat :=
  filter (fun i => (id, i) ∈ P) (seq 0 n).

Definition slots (P : list (Z * nat)) (id : Z) (data : list Z) : list (option (list Z)) :=
  (fun i => if bool_decide ((id, i) ∈ P) then Some (chunk data i) else None) <$> seq 0 (nfrag data).

(** What the reassembler holds for a message after the arrivals [P]. *)
Definition partial_of (P : list (Z * nat)) (id : Z) : option partialMessage :=
  data ← msgs !! id;
  let k := length (seen P id (nfrag data)) in
  if bool_decide (k = 0%nat \/ k = nfrag data) then None
  else Some (MkPartial (slots P id data) (Z.of_nat k)).

Definition complete (P : list (Z * nat)) (m : Z * list Z) : Prop :=
  length (seen P m.1 (nfrag m.2)) = nfrag m.2.

#[export] Instance complete_dec P m : Decision (complete P m).
Proof. unfold complete. apply _. Defined.


Lemma seen_add P id i n :
  (i < n)%nat -> (id, i) ∉ P -> length (seen (P ++ [(id, i)]) id n) = S (length (seen P id n)).
Proof.
  intros Hi Hn. change (S (length (seen P id n))) with (length (i :: seen P id n)). apply Permutation_length.
  apply filter_add; [apply NoDup_seq|apply elem_of_seq; lia|done|].
  intros x _. rewrite elem_of_app, list_elem_of_singleton. naive_solver.
Qed.

Lemma seen_other P id id' i n : id' <> id -> seen (P ++ [(id, i)]) id' n = seen P id' n.
Proof.
  intros Hne. apply filter_ext_in. intros x _. rewrite elem_of_app, list_elem_of_singleton. naive_solver.
Qed.

Lemma slots_other P id id' i data : id' <> id -> slots (P ++ [(id, i)]) id' data = slots P id' data.
Proof.
  intros Hne. apply list_fmap_ext. intros _ x _. f_equal.
  rewrite (bool_decide_ext _ ((id', x) ∈ P)); [done|].
  rewrite elem_of_app, list_elem_of_singleton. naive_solver.
Qed.

Lemma slots_add P id i data :
  <[i := Some (chunk data i)]> (slots P id data) = slots (P ++ [(id, i)]) id data.
Proof.
  apply list_eq. intros j. unfold slots. rewrite !list_lookup_fmap.
  destruct (decide (j = i)) as [->|Hne].
  - destruct (decide (i < nfrag data)%nat) as [Hl|Hl].
    + rewrite list_lookup_insert_eq by (by rewrite length_fmap, length_seq).
      rewrite lookup_seq_lt by done. simpl. rewrite bool_decide_eq_true_2; [done|].
      rewrite elem_of_app, list_elem_of_singleton. by right.
    + rewrite list_insert_ge by (rewrite length_fmap, length_seq; lia).
      rewrite list_lookup_fmap, lookup_seq_ge by lia. done.
  - rewrite list_lookup_insert_ne, list_lookup_fmap by done.
    destruct (seq 0 (nfrag data) !! j) as [x|] eqn:E; [|done]. apply lookup_seq in E as [-> _]. simpl. f_equal.
    rewrite (bool_decide_ext ((id, j) ∈ P) ((id, j) ∈ P ++ [(id, i)])); [done|].
    rewrite elem_of_app, list_elem_of_singleton. naive_solver.
Qed.

Lemma assemble_all P id data :
  (forall i, (i < nfrag data)%nat -> (id, i) ∈ P) -> fragmentable data -> assemble (slots P id data) = data.
Proof.
  intros Hall Hf. rewrite <- (chunks_concat data Hf) at 2. unfold assemble, slots.
  assert (forall i, i ∈ seq 0 (nfrag data) -> (id, i) ∈ P) as Hin
    by (intros i Hi; apply Hall; apply elem_of_seq in Hi; lia).
  clear Hall. induction (seq 0 (nfrag data)) as [|x l IH]; [done|]. cbn [fmap list_fmap mbind list_bind concat].
  rewrite bool_decide_eq_true_2 by (apply Hin; by left). change (default [] (Some (chunk data x))) with (chunk data x).
  f_equal. apply IH. intros i Hi. apply Hin. by right.
Qed.

(** All fragments are among the arrivals when as many have been seen. *)
Lemma seen_all P id n : length (seen P id n) = n -> forall i, (i < n)%nat -> (id, i) ∈ P.
Proof.
  intros Hl i Hi. destruct (decide ((id, i) ∈ P)) as [|Hn]; [done|].
  assert (length (filter (fun i => (id, i) ∈ P) (seq 0 n)) < length (seq 0 n))%nat as Hlt.
  { apply length_filter_lt with i; [apply elem_of_seq; lia|done]. }
  rewrite length_seq in Hlt. unfold seen in Hl. lia.
Qed.

Definition tracked (P : list (Z * nat)) (r : messageReassembler) : Prop :=
  forall id, r !! id = partial_of P id.

(** The partial message an arrival starts from. *)
Lemma partial_default P id data :
  msgs !! id = Some data -> (length (seen P id (nfrag data)) < nfrag data)%nat ->
  default (MkPartial (replicate (nfrag data) None) 0) (partial_of P id) =
  MkPartial (slots P id data) (Z.of_nat (length (seen P id (nfrag data)))).
Proof.
  intros Hm Hk. unfold partial_of. rewrite Hm. cbn [mbind option_bind].
  case_bool_decide as Hk0; [|done]. simpl. assert (length (seen P id (nfrag data)) = 0)%nat as Hs by lia.
  rewrite Hs. f_equal. apply length_zero_iff_nil in Hs. unfold slots. apply list_eq. intros j.
  rewrite list_lookup_fmap. destruct (decide (j < nfrag data)%nat) as [Hj|Hj].
  - rewrite lookup_replicate_2, lookup_seq_lt by done. simpl. rewrite bool_decide_eq_false_2; [done|].
    intros Hin. assert (j ∈ seen P id (nfrag data)) as Hin'.
    { apply list_elem_of_filter. split; [done|]. apply elem_of_seq. lia. }
    rewrite Hs in Hin'. by apply not_elem_of_nil in Hin'.
  - rewrite (lookup_ge_None_2 (replicate _ _)), lookup_seq_ge by (rewrite ?length_replicate; lia). done.
Qed.

(** The arrival of a fragment not seen before. *)
Lemma arrival P r id i data :
  tracked P r -> msgs !! id = Some data -> (i < nfrag data)%nat -> (id, i) ∉ P ->
  exists r', deliver_one r (event_datagram (id, i)) =
    (if bool_decide (complete (P ++ [(id, i)]) (id, data)) then Some data else None, r') /\
    tracked (P ++ [(id, i)]) r'.
Proof.
  intros Ht Hm Hi Hn. destruct (Hmsgs _ _ Hm) as [Hid Hf]. pose proof (frag_count_range data Hf) as [Hc _].
  pose proof (seen_add P id i (nfrag data) Hi Hn) as Hseen. set (k := length (seen P id (nfrag data))) in *.
  assert (Z.of_nat (nfrag data) = frag_count data) as Hnf by (unfold nfrag; lia).
  assert (k < nfrag data)%nat as Hk.
  { pose proof (length_filter (fun j => (id, j) ∈ P ++ [(id, i)]) (seq 0 (nfrag data))) as Hle.
    rewrite length_seq in Hle. fold (seen (P ++ [(id, i)]) id (nfrag data)) in Hle. lia. }
  unfold event_datagram. simpl fst; simpl snd. rewrite Hm. unfold deliver_one, datagram.
  pose proof (zlen_nonneg (chunk data i)).
  rewrite zlen_app, zlen_encode, (proj2 (Z.leb_le _ _)) by lia. rewrite decode_encode by (done || lia).
  unfold addFragment. cbn [MessageID FragmentCount FragmentIndex].
  set (msg := default _ (r !! id)).
  assert (msg = MkPartial (slots P id data) (Z.of_nat k)) as Hmsg.
  { unfold msg. rewrite (Ht id). by apply partial_default. }
  rewrite Hmsg. cbn [fragments received].
  assert (zlen (slots P id data) = frag_count data) as -> by (unfold zlen, slots; rewrite length_fmap, length_seq; lia).
  rewrite Z.eqb_refl. cbn [negb]. rewrite Nat2Z.id.
  assert (slots P id data !! i = Some None) as ->.
  { unfold slots. rewrite list_lookup_fmap, lookup_seq_lt by done. simpl. by rewrite bool_decide_eq_false_2. }
  rewrite slots_add. rewrite u16_small by lia.
  assert (forall id', id' <> id -> partial_of (P ++ [(id, i)]) id' = partial_of P id') as Hother.
  { intros id' Hne. unfold partial_of. destruct (msgs !! id'); [|done]. cbn [mbind option_bind].
    by rewrite seen_other, slots_other. }
  unfold tracked in *. case_bool_decide as Hall; unfold complete in Hall; cbn [fst snd] in Hall; rewrite Hseen in Hall.
  - rewrite (proj2 (Z.eqb_eq _ _)) by lia. eexists. split.
    + rewrite assemble_all; [done| |done]. apply seen_all. congruence.
    + intros id'. destruct (decide (id' = id)) as [->|Hne].
      * rewrite lookup_delete_eq. unfold partial_of. rewrite Hm. cbn [mbind option_bind].
        rewrite Hseen, bool_decide_eq_true_2 by lia. done.
      * rewrite lookup_delete_ne, lookup_insert_ne, Hother by done. apply Ht.
  - rewrite (proj2 (Z.eqb_neq _ _)) by lia. eexists. split; [done|].
    intros id'. destruct (decide (id' = id)) as [->|Hne].
    + rewrite lookup_insert_eq. unfold partial_of. rewrite Hm. cbn [mbind option_bind].
      rewrite Hseen, bool_decide_eq_false_2 by lia. do 2 f_equal. lia.
    + rewrite !lookup_insert_ne, Hother by done. apply Ht.
Qed.

Lemma complete_other P id i id' data' : id' <> id -> complete (P ++ [(id, i)]) (id', data') <-> complete P (id', data').
Proof. intros Hne. unfold complete. cbn [fst snd]. by rewrite seen_other. Qed.

(** The messages completed so far, in some order. *)
Definition completed (P : list (Z * nat)) : list (list Z) :=
  (filter (complete P) (map_to_list msgs)).*2.

Lemma completed_add P id i data :
  msgs !! id = Some data -> (i < nfrag data)%nat -> (id, i) ∉ P ->
  completed (P ++ [(id, i)]) ≡ₚ
  (if bool_decide (complete (P ++ [(id, i)]) (id, data)) then [data] else []) ++ completed P.
Proof.
  intros Hm Hi Hn. unfold completed.
  pose proof (seen_add P id i (nfrag data) Hi Hn) as Hseen.
  assert (length (seen (P ++ [(id, i)]) id (nfrag data)) <= nfrag data)%nat as Hle.
  { rewrite <- (length_seq (nfrag data) 0) at 2. apply length_filter. }
  assert (~ complete P (id, data)) as Hnc by (unfold complete; cbn [fst snd]; lia).
  assert (forall m, m ∈ map_to_list msgs -> m.1 = id -> m = (id, data)) as Huniq.
  { intros [id' data'] Hin%elem_of_map_to_list E. simpl in *. congruence. }
  case_bool_decide as Hall.
  - change ([data] ++ (filter (complete P) (map_to_list msgs)).*2)
      with (((id, data) :: filter (complete P) (map_to_list msgs)).*2).
    apply Permutation_map. apply filter_add; [apply NoDup_map_to_list|by apply elem_of_map_to_list|done|].
    intros [id' data'] Hin. destruct (decide (id' = id)) as [->|Hne].
    + rewrite (Huniq _ Hin eq_refl). tauto.
    + rewrite complete_other by done. naive_solver.
  - apply Permutation_map. erewrite filter_ext_in; [done|].
    intros [id' data'] Hin. destruct (decide (id' = id)) as [->|Hne].
    + rewrite (Huniq _ Hin eq_refl). tauto.
    + by apply complete_other.
Qed.

Definition valid_event (e : Z * nat) : Prop :=
  exists data, msgs !! e.1 = Some data /\ (e.2 < nfrag data)%nat.

Lemma deliver_events L P r :
  tracked P r -> NoDup (P ++ L) -> Forall valid_event L ->
  exists ms r', deliver r (event_datagram <$> L) = (ms, r') /\ tracked (P ++ L) r' /\
    ms ++ completed P ≡ₚ completed (P ++ L).
Proof.
  revert P r. induction L as [|[id i] L IH]; intros P r Ht Hnd Hv.
  { exists [], r. rewrite app_nil_r. done. }
  apply Forall_cons in Hv as [(data & Hm & Hi) Hv]. simpl fst in Hm; simpl snd in Hi.
  assert ((id, i) ∉ P) as Hn.
  { intros Hin. apply NoDup_app in Hnd as (_ & Hd & _). apply (Hd _ Hin). by left. }
  destruct (arrival P r id i data Ht Hm Hi Hn) as (r1 & Hone & Ht1).
  replace (P ++ (id, i) :: L) with ((P ++ [(id, i)]) ++ L) in * by (by rewrite <- app_assoc).
  destruct (IH (P ++ [(id, i)]) r1 Ht1 Hnd Hv) as (ms & r' & Hd & Ht' & Hp).
  pose proof (completed_add P id i data Hm Hi Hn) as Hadd.
  cbn [fmap list_fmap deliver]. rewrite Hone. case_bool_decide as Hc.
  - fold (event_datagram <$> L). rewrite Hd. exists (data :: ms), r'. split_and!; [done|done|].
    rewrite <- Hp, Hadd. simpl. apply Permutation_middle.
  - exists ms, r'. split_and!; [exact Hd|done|]. by rewrite <- Hp, Hadd.
Qed.
End Reassembly.

Lemma filter_true {A} (l : list A) : filter (fun _ => True) l = l.
Proof. induction l as [|x l IH]; [done|]. by rewrite filter_cons_True, IH. Qed.

Lemma filter_false {A} (l : list A) : filter (fun _ => False) l = [].
Proof. induction l as [|x l IH]; [done|]. rewrite filter_cons_False; auto. Qed.

Lemma seen_nil id n : seen [] id n = [].
Proof.
  unfold seen. rewrite (filter_ext_in _ (fun _ => False)); [apply filter_false|].
  intros x _. split; [|done]. apply not_elem_of_nil.
Qed.

Lemma seen_full P id n : (forall i, (i < n)%nat -> (id, i) ∈ P) -> seen P id n = seq 0 n.
Proof.
  intros H. unfold seen. rewrite (filter_ext_in _ (fun _ => True)); [apply filter_true|].
  intros x Hx. split; [done|]. intros _. apply H. apply elem_of_seq in Hx. lia.
Qed.

Section Whole.
Context (msgs : gmap Z (list Z)).
Context (Hmsgs : forall id data, msgs !! id = Some data -> 0 <= id < 2 ^ 32 /\ fragmentable data).

Lemma tracked_nil : tracked msgs [] ∅.
Proof.
  intros id. rewrite lookup_empty. unfold partial_of. destruct (msgs !! id) as [data|]; [|done].
  cbn [mbind option_bind]. rewrite seen_nil, bool_decide_eq_true_2; [done|by left].
Qed.

Lemma completed_nil : completed msgs [] = [].
Proof using Hmsgs.
  unfold completed. rewrite (filter_ext_in _ (fun _ => False)); [by rewrite filter_false|].
  intros [id data] Hin%elem_of_map_to_list. split; [|done]. unfold complete. cbn [fst snd]. rewrite seen_nil.
  destruct (Hmsgs _ _ Hin) as [_ Hf]. pose proof (frag_count_range data Hf) as [Hc _]. unfold nfrag. simpl. lia.
Qed.

(** All fragments, each once, in any order. *)
Lemma deliver_whole L :
  NoDup L -> (forall id i, (id, i) ∈ L <-> exists data, msgs !! id = Some data /\ (i < nfrag data)%nat) ->
  exists ms, receive_all (S (length L)) None (event_datagram msgs <$> L) = (ms, Some ∅) /\
    ms ≡ₚ (map_to_list msgs).*2.
Proof using Hmsgs.
  intros Hnd Hall.
  assert (forall id data, msgs !! id = Some data -> seen L id (nfrag data) = seq 0 (nfrag data)) as Hseen.
  { intros id data Hm. apply seen_full. intros i Hi. apply Hall. by exists data. }
  destruct (deliver_events msgs Hmsgs L [] ∅ tracked_nil) as (ms & r' & Hd & Ht & Hp); [done| |].
  { apply Forall_forall. intros [id i] Hin. by apply Hall. }
  exists ms. assert (r' = ∅) as ->.
  { apply map_eq. intros id. rewrite (Ht id), lookup_empty. unfold partial_of.
    destruct (msgs !! id) as [data|] eqn:Hm; [|done]. cbn [mbind option_bind app].
    rewrite (Hseen id data Hm), length_seq, bool_decide_eq_true_2; [done|by right]. }
  split.
  - pose proof (receive_all_deliver (event_datagram msgs <$> L) (S (length L)) ∅) as Hr.
    rewrite Hd in Hr. rewrite length_fmap in Hr. rewrite <- Hr by lia. reflexivity.
  - rewrite completed_nil, app_nil_r in Hp. rewrite Hp. simpl app. unfold completed.
    rewrite (filter_ext_in _ (fun _ => True)); [by rewrite filter_true|].
    intros [id data] Hin%elem_of_map_to_list. split; [done|]. intros _. unfold complete. cbn [fst snd].
    by rewrite (Hseen id data Hin), length_seq.
Qed.
End Whole.

(** ** Properties *)

(** C17. Whatever the network does to the order of the datagrams of any number
    of fragmented messages with different ids, receiving until they are used
    up yields every message exactly once and intact, and leaves no partial
    message behind. *)
Theorem fragments_any_order msgs (arrivals : list (Z * nat)) :
  (forall id data, msgs !! id = Some data -> 0 <= id < 2 ^ 32 /\ fragmentable data) ->
  NoDup arrivals ->
  (forall id i, (id, i) ∈ arrivals <-> exists data, msgs !! id = Some data /\ (i < nfrag data)%nat) ->
  exists ms, receive_all (S (length arrivals)) None (event_datagram msgs <$> arrivals) = (ms, Some ∅) /\
    ms ≡ₚ (map_to_list msgs).*2.
Proof. intros Hmsgs. by apply deliver_whole. Qed.

Lemma nfrag_991 : nfrag (replicate 991 1) = 2%nat.
Proof. vm_compute. reflexivity. Qed.

Definition two_messages : gmap Z (list Z) := <[1 := replicate 991 1]> (<[2 := [5]]> ∅).

Lemma two_messages_cases id data :
  two_messages !! id = Some data -> (id = 1 /\ data = replicate 991 1) \/ (id = 2 /\ data = [5]).
Proof.
  unfold two_messages. intros [[<- <-]|[_ [[<- <-]|[_ H]]%lookup_insert_Some]]%lookup_insert_Some; auto.
  by rewrite lookup_empty in H.
Qed.

Lemma fragments_any_order_witness :
  exists ms, receive_all 4 None (event_datagram two_messages <$> [(1, 1%nat); (2, 0%nat); (1, 0%nat)]) = (ms, Some ∅) /\
    ms ≡ₚ (map_to_list two_messages).*2.
Proof.
  apply fragments_any_order.
  - intros id data [[-> ->]|[-> ->]]%two_messages_cases; (split; [lia|split; vm_compute; congruence]).
  - repeat constructor; set_solver.
  - intros id i. split.
    + intros Hin. repeat (apply elem_of_cons in Hin as [[= -> ->]|Hin]);
        [eexists; split; [reflexivity|vm_compute; lia]..|by apply not_elem_of_nil in Hin].
    + intros (data & [[-> ->]|[-> ->]]%two_messages_cases & Hi).
      * rewrite nfrag_991 in Hi. destruct i as [|[|i]]; [set_solver|set_solver|lia].
      * change (nfrag [5]) with 1%nat in Hi. destruct i as [|i]; [set_solver|lia].
Defined.

Lemma chunk_length data i : zlen (chunk data i) <= 990.
Proof.
  unfold chunk, sub_list, zlen. rewrite length_take. lia.
Qed.

(** On a connection that accepts its datagrams, sending succeeds with
    datagrams of at most 1000 bytes: the message itself up to 990 bytes, the
    fragments under a fresh id up to 65535 fragments, and these are received as
    the one message; beyond that the 16-bit fragment count wraps, and with
    65536 fragments nothing is sent although the call reports success. *)
Theorem Send_receive counter out data :
  zlen data <= 65536 * 990 ->
  exists counter' dgs, Send (fun _ => true) counter out data = (Ret tt, counter', out ++ dgs) /\
    (zlen data <= 65535 * 990 -> Forall (fun dg => zlen dg <= 1000) dgs) /\
    (zlen data <= 990 -> dgs = [data] /\ counter' = counter) /\
    (990 < zlen data <= 65535 * 990 ->
       counter' = u32 (counter + 1) /\ zlen dgs = (zlen data + 989) / 990 /\
       receive_all (S (length dgs)) None dgs = ([data], Some ∅)) /\
    (65535 * 990 < zlen data <= 65536 * 990 -> dgs = []).
Proof.
  intros Hb. destruct (decide (zlen data <= 990)) as [Hs|Hs].
  { exists counter, [data]. unfold Send. change (MaxDatagramSize - 10) with 990.
    rewrite (proj2 (Z.leb_le _ _)) by done. split_and!; try done; try lia.
    intros _. apply Forall_singleton. lia. }
  destruct (decide (zlen data <= 65535 * 990)) as [Hm|Hm].
  - set (id := nextMessageID counter). assert (fragmentable data) as Hf by (split; lia).
    assert (0 <= id < 2 ^ 32) as Hid by (apply (uwrap_range 32); lia).
    exists id, (datagram id data <$> seq 0 (nfrag data)).
    rewrite Send_fragmented by (done || lia). split_and!; try done; try lia.
    + intros _. apply Forall_fmap, Forall_forall. intros i _. simpl. unfold datagram.
      rewrite zlen_app, zlen_encode. pose proof (chunk_length data i). lia.
    + intros _. split_and!; [done| |].
      { unfold zlen at 1. rewrite length_fmap, length_seq. pose proof (frag_count_range data Hf) as [Hc _].
        unfold nfrag, frag_count in *. lia. }
      set (msgs := <[id := data]> (∅ : gmap Z (list Z))).
      assert (forall j d, msgs !! j = Some d <-> j = id /\ d = data) as Hms.
      { intros j d. unfold msgs. rewrite lookup_insert_Some, lookup_empty. naive_solver. }
      destruct (deliver_whole msgs) with (L := pair id <$> seq 0 (nfrag data)) as (ms & Hr & Hp).
      * intros j d [-> ->]%Hms. done.
      * apply NoDup_fmap_2; [by intros x y [= ->]|apply NoDup_seq].
      * intros j i. rewrite list_elem_of_fmap. split.
        -- intros (x & [= -> ->] & Hx%elem_of_seq). exists data. split; [by apply Hms|lia].
        -- intros (d & [-> ->]%Hms & Hi). exists i. split; [done|]. apply elem_of_seq. lia.
      * rewrite <- list_fmap_compose in Hr. rewrite !length_fmap in *.
        assert ((event_datagram msgs ∘ pair id) <$> seq 0 (nfrag data) = datagram id data <$> seq 0 (nfrag data)) as E.
        { apply list_fmap_ext. intros _ x _. unfold compose, event_datagram. simpl.
          by rewrite (proj2 (Hms id data)). }
        rewrite E in Hr. rewrite Hr. unfold msgs in Hp. rewrite map_to_list_insert, map_to_list_empty in Hp by done.
        simpl in Hp. symmetry in Hp. apply Permutation_singleton_l in Hp. by rewrite Hp.
  - exists (nextMessageID counter), []. unfold Send. change (MaxDatagramSize - 10) with 990.
    rewrite (proj2 (Z.leb_gt _ _)) by lia.
    assert ((zlen data + 990 - 1) / 990 = 65536) as -> by
      (symmetry; apply Z.div_unique with (r := zlen data + 989 - 65536 * 990); lia).
    change (u16 65536) with 0. simpl. rewrite app_nil_r. split_and!; try done; lia.
Qed.

Lemma Send_receive_witness :
  exists counter' dgs, Send (fun _ => true) 7 [] (replicate 1000 3) = (Ret tt, counter', dgs) /\
    receive_all (S (length dgs)) None dgs = ([replicate 1000 3], Some ∅).
Proof.
  destruct (Send_receive 7 [] (replicate 1000 3)) as (c & dgs & Hs & _ & _ & Hr & _); [vm_compute; congruence|].
  exists c, dgs. split; [exact Hs|]. apply Hr. vm_compute. split; congruence.
Defined.

(** A short message is sent without a header, so one that happens to begin
    like a fragment of several is taken for one: it is never received. *)
Theorem lookalike_swallowed counter out h payload :
  Magic h = FragmentMagic -> 0 <= MessageID h < 2 ^ 32 ->
  0 <= FragmentIndex h < FragmentCount h -> 2 <= FragmentCount h < 65536 -> zlen payload <= 980 ->
  let data := encode h ++ payload in
  Send (fun _ => true) counter out data = (Ret tt, counter, out ++ [data]) /\
  exists r, Receive None [data] = (Fail ReceiveFailed, Some r, []).
Proof.
  intros Hm Hid Hi Hc Hp data. destruct h as [m id i count]. cbn [Magic MessageID FragmentIndex FragmentCount] in *.
  subst m. pose proof (zlen_nonneg payload).
  assert (zlen data = 10 + zlen payload) as Hz by (unfold data; rewrite zlen_app, zlen_encode; done). split.
  - unfold Send. change (MaxDatagramSize - 10) with 990. by rewrite (proj2 (Z.leb_le _ _)) by lia.
  - unfold Receive. cbn [default from_option]. rewrite receive_loop_step. unfold deliver_one.
    rewrite (proj2 (Z.leb_le _ _)) by lia. unfold data. rewrite decode_encode by lia.
    unfold addFragment, newMessageReassembler. cbn [MessageID FragmentIndex FragmentCount].
    rewrite lookup_empty. cbn [default from_option fragments received].
    assert (zlen (replicate (Z.to_nat count) (@None (list Z))) = count) as ->
      by (unfold zlen; rewrite length_replicate; lia).
    rewrite Z.eqb_refl. cbn [negb]. rewrite lookup_replicate_2 by lia.
    change (u16 (0 + 1)) with 1. rewrite (proj2 (Z.eqb_neq 1 _)) by lia. by eexists.
Qed.

Lemma lookalike_swallowed_witness :
  exists r, Receive None [[0xD0; 0xC0; 0; 0; 0; 1; 0; 0; 0; 2; 42]] = (Fail ReceiveFailed, Some r, []).
Proof.
  destruct (lookalike_swallowed 0 [] (MkHeader FragmentMagic 1 0 2) [42]) as [_ H];
    [reflexivity|simpl; lia|simpl; lia|simpl; lia|vm_compute; congruence|exact H].
Defined.
