(* ===== verification/Session.v ===== *)
(** * Sessions over a stream connection
      (common/session/session.go, session_conn.go)

    Errors of the session layer, the device record, and the length-prefixed
    messages of a TCP session. The JSON codec of an error message is a
    parameter. *)

From S2P Require Import Prelude.

(** ** Errors *)

(** A Go error: another package's (its text), a wrapping one (its text and what
    [Unwrap] returns), or a session error. *)
Inductive error :=
| EText (text : string)
| EWrap (text : string) (inner : error)
| ESession (msg : string) (code : Z) (cause : option error).

(** [%d] of an [int] *)
Definition int_text (n : Z) : string :=
  if n <? 0 then String "-" (dec (- n)) else dec n.

Fixpoint Error (e : error) : string :=
  match e with
  | EText t => t
  | EWrap t _ => t
  | ESession msg code (Some cause) =>
      "[" +:+ int_text code +:+ "]" +:+ msg +:+ ": " +:+ Error cause
  | ESession msg code None => "[" +:+ int_text code +:+ "]" +:+ msg
  end%string.

Definition NewError (msg : string) (code : Z) : error := ESession msg code None.

Definition Code (e : error) : option Z := match e with ESession _ c _ => Some c | _ => None end.

(** [errors.As(err, &sErr)]: message and code of the first session error along
    the [Unwrap] chain; a session error has no [Unwrap]. *)
Fixpoint errors_As (e : error) : option (string * Z) :=
  match e with
  | EText _ => None
  | EWrap _ inner => errors_As inner
  | ESession msg code _ => Some (msg, code)
  end.

(** [WithCause], on a session error: a copy with the cause set. *)
Definition WithCause (e : error) (cause : error) : error :=
  match e with ESession msg code _ => ESession msg code (Some cause) | _ => e end.

Record Quota := MkQuota { q_Id : Z; q_Unit : string; q_Value : Z; q_Period : string }.

(** Pointers to quotas are shared by a clone. *)
Record Device := MkDevice {
  d_Id : string; d_Name : string; d_CIDR : string; d_MTU : Z; d_Key : string;
  d_DataTrafficQuota : option Quota; d_BandwidthQuota : option Quota }.

Definition Clone (d : Device) : Device :=
  MkDevice (d_Id d) (d_Name d) (d_CIDR d) (d_MTU d) (d_Key d) (d_DataTrafficQuota d) (d_BandwidthQuota d).

(** ** Messages *)

Definition msgTypeData : Z := 0.
Definition msgTypeError : Z := 1.

(** Bytes that arrive, bytes written, and whether the connection is open. *)
Record conn := MkConn { c_in : list Z; c_out : list Z; c_open : bool }.

Section ConnSendReceiver.
Context (marshal : string -> Z -> list Z) (unmarshal : list Z -> option (string * Z)).

Definition send (c : conn) (typ : Z) (data : list Z) : option error * conn :=
  let buf := typ :: be_put 4 (zlen data) ++ data in
  if c_open c then (None, MkConn (c_in c) (c_out c ++ buf) true)
  else (Some (EText "use of closed network connection"), c).

Definition Send (c : conn) (data : list Z) : option error * conn := send c msgTypeData data.

Definition CloseWithError (c : conn) (err : option error) : conn :=
  let c :=
    match err with
    | None => c
    | Some e =>
        let '(msg, code) := default (Error e, 500) (errors_As e) in
        snd (send c msgTypeError (marshal msg code))
    end in
  MkConn (c_in c) (c_out c) false.

(** [io.ReadFull(c.conn, make([]byte, n))] *)
Definition ReadFull (c : conn) (n : Z) : outcome error (list Z) * conn :=
  if n <=? zlen (c_in c)
  then (Ret (sub_list (c_in c) 0 n), MkConn (sub_list (c_in c) n (zlen (c_in c))) (c_out c) (c_open c))
  else (Fail (EText (if zlen (c_in c) =? 0 then "EOF" else "unexpected EOF")), MkConn [] (c_out c) (c_open c)).

(** The data and the error returned; a buffer that could not be filled is
    returned with what arrived. *)
Definition Receive (c : conn) : list Z * option error * conn :=
  match ReadFull c 5 with
  | (Ret header, c) =>
      let dataLen := be_get (sub_list header 1 5) in
      if dataLen =? 0 then ([], None, c)
      else
        match ReadFull c dataLen with
        | (Ret data, c) =>
            if be_get (sub_list header 0 1) =? msgTypeError then
              ([], match unmarshal data with Some (msg, code) => Some (NewError msg code) | None => None end, c)
            else (data, None, c)
        | (Fail e, c') => (c_in c ++ replicate (Z.to_nat (dataLen - zlen (c_in c))) 0, Some e, c')
        | (Panic, c) => ([], None, c)
        end
  | (Fail e, c) => ([], Some e, c)
  | (Panic, c) => ([], None, c)
  end.
End ConnSendReceiver.

(** ** Properties *)

Lemma ReadFull_app p rest out open :
  ReadFull (MkConn (p ++ rest) out open) (zlen p) = (Ret p, MkConn rest out open).
Proof.
  pose proof (zlen_nonneg rest). pose proof (zlen_nonneg p). unfold ReadFull. simpl.
  rewrite zlen_app, (proj2 (Z.leb_le _ _)) by lia.
  rewrite sub_list_app_l, sub_list_all by lia. rewrite sub_list_app_r, Z.sub_diag by lia.
  replace (zlen p + zlen rest - zlen p) with (zlen rest) by lia. by rewrite sub_list_all.
Qed.

(** The bytes of one message. *)
Definition packet (typ : Z) (data : list Z) : list Z := typ :: be_put 4 (zlen data) ++ data.

Lemma Receive_packet unmarshal typ data rest out open :
  0 < zlen data < 2 ^ 32 ->
  Receive unmarshal (MkConn (packet typ data ++ rest) out open) =
  (if typ =? msgTypeError
   then ([], match unmarshal data with Some (msg, code) => Some (NewError msg code) | None => None end,
         MkConn rest out open)
   else (data, None, MkConn rest out open)).
Proof.
  intros Hd. unfold Receive, packet.
  replace ((typ :: be_put 4 (zlen data) ++ data) ++ rest) with ((typ :: be_put 4 (zlen data)) ++ data ++ rest)
    by (cbn [app]; by rewrite <- app_assoc).
  assert (zlen (typ :: be_put 4 (zlen data)) = 5) as H5 by (by rewrite zlen_cons, zlen_be_put).
  rewrite <- H5 at 1. rewrite ReadFull_app.
  assert (sub_list (typ :: be_put 4 (zlen data)) 1 5 = be_put 4 (zlen data)) as -> by reflexivity.
  assert (sub_list (typ :: be_put 4 (zlen data)) 0 1 = [typ]) as -> by reflexivity.
  rewrite be_get_put by (change (2 ^ (8 * Z.of_nat 4)) with (2 ^ 32); lia). rewrite (proj2 (Z.eqb_neq _ _)) by lia. rewrite ReadFull_app.
  change (be_get [typ]) with (Z.lor 0 typ). by rewrite Z.lor_0_l.
Qed.

Lemma Receive_empty unmarshal typ rest out open :
  Receive unmarshal (MkConn (packet typ [] ++ rest) out open) = ([], None, MkConn rest out open).
Proof.
  unfold Receive. assert (zlen (packet typ []) = 5) as <- by reflexivity. rewrite ReadFull_app. reflexivity.
Qed.

Fixpoint send_all (c : conn) (msgs : list (list Z)) : conn :=
  match msgs with [] => c | m :: msgs' => send_all (snd (Send c m)) msgs' end.

Fixpoint recv_n (unmarshal : list Z -> option (string * Z)) (n : nat) (c : conn)
    : list (list Z * option error) * conn :=
  match n with
  | O => ([], c)
  | S n' =>
      let '(d, e, c) := Receive unmarshal c in
      let '(rest, c) := recv_n unmarshal n' c in ((d, e) :: rest, c)
  end.

Lemma send_all_out msgs c :
  c_open c = true -> send_all c msgs = MkConn (c_in c) (c_out c ++ (msgs ≫= packet msgTypeData)) true.
Proof.
  revert c. induction msgs as [|m msgs IH]; intros c Hc; cbn [send_all mbind list_bind].
  { rewrite app_nil_r. destruct c. simpl in *. by subst. }
  unfold Send, send. rewrite Hc. cbn [snd]. rewrite IH by done. cbn [c_in c_out]. by rewrite <- app_assoc.
Qed.

Lemma recv_n_packets unmarshal msgs rest out open :
  Forall (fun m => zlen m < 2 ^ 32) msgs ->
  recv_n unmarshal (length msgs) (MkConn ((msgs ≫= packet msgTypeData) ++ rest) out open) =
  ((fun m => (m, None)) <$> msgs, MkConn rest out open).
Proof.
  induction 1 as [|m msgs Hm _ IH]; [done|]. cbn [length recv_n mbind list_bind fmap list_fmap].
  rewrite <- app_assoc. destruct m as [|b m].
  - rewrite Receive_empty. by rewrite IH.
  - rewrite Receive_packet by (rewrite zlen_cons in *; pose proof (zlen_nonneg m); lia).
    change (msgTypeData =? msgTypeError) with false. cbv iota. by rewrite IH.
Qed.

Lemma recv_n_add unmarshal k l (cn : conn) :
  recv_n unmarshal (l + k) cn =
  let '(r1, c1) := recv_n unmarshal l cn in
  let '(r2, c2) := recv_n unmarshal k c1 in (r1 ++ r2, c2).
Proof.
  revert cn. induction l as [|l IH]; intros cn; cbn [Nat.add recv_n].
  - by destruct (recv_n unmarshal k cn).
  - destruct (Receive unmarshal cn) as [[d e] cn1]. rewrite IH.
    destruct (recv_n unmarshal l cn1) as [r1 c1]. by destruct (recv_n unmarshal k c1).
Qed.

(** What the peer is told of an error: the message and code of the session
    error in its chain, else its text and 500. *)
Definition reported (err : error) : string * Z := default (Error err, 500) (errors_As err).

(** Over a stream connection every message sent (of less than 4 GiB) is
    received as it was, in order, empty ones included; closing with an error
    delivers after them an error with the message and code of the session
    error found in the error's chain, or its text and code 500 (when the JSON
    codec carries that message and code); then the stream ends, and nothing
    can be sent any more. *)
Theorem conn_session_roundtrip marshal unmarshal msgs err out m c :
  reported err = (m, c) ->
  unmarshal (marshal m c) = Some (m, c) ->
  0 < zlen (marshal m c) < 2 ^ 32 ->
  Forall (fun d => zlen d < 2 ^ 32) msgs ->
  let closed := CloseWithError marshal (send_all (MkConn [] out true) msgs) (Some err) in
  (forall d, exists e, Send closed d = (Some e, closed)) /\
  exists wire, c_out closed = out ++ wire /\
    forall out',
    recv_n unmarshal (length msgs + 2) (MkConn wire out' true) =
    (((fun d => (d, None)) <$> msgs) ++ [([], Some (NewError m c)); ([], Some (EText "EOF"))],
     MkConn [] out' true).
Proof.
  intros Hrep Hjson Hlen Hm closed. unfold reported in Hrep. subst closed.
  rewrite send_all_out by done. unfold CloseWithError. rewrite Hrep.
  split; [intros d; by eexists|]. unfold send. cbn [snd c_out c_in c_open].
  exists ((msgs ≫= packet msgTypeData) ++ packet msgTypeError (marshal m c)). split; [by rewrite <- app_assoc|].
  intros out'. rewrite recv_n_add, recv_n_packets by done. cbn [recv_n].
  rewrite <- (app_nil_r (packet msgTypeError _)), Receive_packet by apply Hlen.
  change (msgTypeError =? msgTypeError) with true. cbv iota. by rewrite Hjson.
Qed.

(** A stand-in for the JSON codec, for codes of one byte: the code, then the
    text. *)
Definition toy_marshal (msg : string) (code : Z) : list Z :=
  code :: (ord <$> list_ascii_of_string msg).

Definition toy_unmarshal (data : list Z) : option (string * Z) :=
  match data with
  | c :: text => Some (string_of_list_ascii (chr <$> text), c)
  | _ => None
  end.

Lemma conn_session_roundtrip_witness :
  let err := EWrap "dial: gone" (WithCause (NewError "gone" 4) (EText "EOF")) in
  exists wire,
    c_out (CloseWithError toy_marshal (send_all (MkConn [] [7] true) [[1; 2]; []]) (Some err)) = [7] ++ wire /\
    recv_n toy_unmarshal 4 (MkConn wire [] true) =
    ([([1; 2], None); ([], None); ([], Some (NewError "gone" 4)); ([], Some (EText "EOF"))], MkConn [] [] true).
Proof.
  intros err.
  destruct (conn_session_roundtrip toy_marshal toy_unmarshal [[1; 2]; []] err [7] "gone" 4)
    as (_ & wire & Hw & Hr); try reflexivity.
  - by vm_compute.
  - repeat constructor.
  - exists wire. split; [exact Hw|]. exact (Hr []).
Defined.
