(* ===== verification/Threads.v ===== *)
(** * Interleaved calls

    Calls of several goroutines on a shared object: a call is where it stands
    ([P]), [tstep] performs its next atomic operation on the shared state
    ([S]), and a schedule names the call that goes next. *)

From S2P Require Import Prelude.

Section Threads.
Context {S P : Type} (tstep : S -> P -> S * P).

(** A schedule that names no call does nothing. *)
Fixpoint run (sched : list nat) (s : S) (ts : list P) : S * list P :=
  match sched with
  | [] => (s, ts)
  | i :: sched' =>
      match ts !! i with
      | None => run sched' s ts
      | Some p => let '(s', p') := tstep s p in run sched' s' (<[i := p']> ts)
      end
  end.

(** A call that makes [k] steps alone. *)
Fixpoint solo (k : nat) (s : S) (p : P) : S * P :=
  match k with O => (s, p) | Datatypes.S k' => let '(s', p') := tstep s p in solo k' s' p' end.

(** What every step preserves holds after every schedule. *)
Lemma run_invariant (I : S -> list P -> Prop) sched s ts :
  (forall s ts i p, I s ts -> ts !! i = Some p -> I (tstep s p).1 (<[i := (tstep s p).2]> ts)) ->
  I s ts -> I (run sched s ts).1 (run sched s ts).2.
Proof.
  intros Hstep. revert s ts. induction sched as [|i sched IH]; intros s ts HI; [done|]. cbn [run].
  destruct (ts !! i) as [p|] eqn:Hi; [|by apply IH].
  specialize (Hstep s ts i p HI Hi). destruct (tstep s p). by apply IH.
Qed.

Lemma run_solo k s p : run (replicate k 0%nat) s [p] = (let '(s', p') := solo k s p in (s', [p'])).
Proof.
  revert s p. induction k as [|k IH]; intros s p; [done|]. cbn [replicate run lookup list_lookup solo].
  destruct (tstep s p) as [s' p']. cbn [insert list_insert]. apply IH.
Qed.

Lemma solo_done k s p : tstep s p = (s, p) -> solo k s p = (s, p).
Proof. intros H. induction k as [|k IH]; [done|]. cbn [solo]. by rewrite H. Qed.
End Threads.

(** Sum of a measure over the calls. *)
Definition total {P} (f : P -> Z) (ts : list P) : Z := foldr (fun p s => f p + s) 0 ts.

Section Totals.
Context {P : Type}.
Implicit Types (f : P -> Z) (ts : list P).

Lemma total_insert f ts i p q :
  ts !! i = Some p -> total f (<[i := q]> ts) = total f ts - f p + f q.
Proof.
  revert i. induction ts as [|t ts IH]; intros [|i] Hi; [done|done| |]; simpl in *.
  - injection Hi as ->. lia.
  - rewrite (IH i Hi). lia.
Qed.

Lemma total_zero f ts : Forall (fun p => f p = 0) ts -> total f ts = 0.
Proof. induction 1 as [|p ts Hp _ IH]; [done|]. simpl. lia. Qed.

Lemma total_nonneg f ts : Forall (fun p => 0 <= f p) ts -> 0 <= total f ts.
Proof. induction 1 as [|p ts Hp _ IH]; simpl; lia. Qed.

Lemma total_others f ts i p : Forall (fun p => 0 <= f p) ts -> ts !! i = Some p -> 0 <= total f ts - f p.
Proof.
  intros Hts. revert i. induction Hts as [|q ts Hq Hts IH]; intros [|i] Hi; simplify_eq/=.
  - pose proof (total_nonneg f ts Hts). lia.
  - specialize (IH i Hi). lia.
Qed.
End Totals.
