(* ===== verification/Limiter.v ===== *)
(** * The lock-free token bucket (common/rate/limiter.go)

    [AllowN], [PutBack] and [PutBackFromLast] as threads that interleave at
    their atomic operations: [tstep] is one atomic operation of a call. [AllowN] and [PutBack] are the same calls
    without interference. Tokens are kept multiplied by [precision]. *)

From S2P Require Import Prelude Threads.

(** ** The limiter *)

Record Limiter := MkLimiter {
  lastUpdate : Z; available : Z; rate : Z; burst : Z; precision : Z; lastConsumed : Z }.

Definition NewLimiter (now rate burst : Z) : Limiter :=
  let precision := 1000000 in
  MkLimiter now (i64 (burst * precision)) (i64 (rate * precision)) (i64 (burst * precision)) precision 0.

Definition set_lastUpdate (l : Limiter) (v : Z) : Limiter :=
  MkLimiter v (available l) (rate l) (burst l) (precision l) (lastConsumed l).
Definition set_available (l : Limiter) (v : Z) : Limiter :=
  MkLimiter (lastUpdate l) v (rate l) (burst l) (precision l) (lastConsumed l).
Definition set_lastConsumed (l : Limiter) (v : Z) : Limiter :=
  MkLimiter (lastUpdate l) (available l) (rate l) (burst l) (precision l) v.

(** [elapsed * l.rate / 1e9], when time has passed *)
Definition added_tokens (l : Limiter) (elapsed : Z) : Z :=
  if 0 <? elapsed then Z.quot (i64 (elapsed * rate l)) 1000000000 else 0.

(** [if x > l.burst { x = l.burst }] *)
Definition capped (l : Limiter) (x : Z) : Z := if burst l <? x then burst l else x.

(** ** Calls as threads *)

(** Where a call stands. [n] and [now] are the argument and the clock read at
    the start, the other values those held in local variables. *)
Inductive pc :=
| AEnter (n now : Z)
| ALoop (n now : Z)
| ALoaded (n now seen : Z)
| AAdd (n now added : Z)
| AAddCas (n now added current : Z)
| ACheck (n now : Z)
| AConsume (n now current : Z)
| AStore (n : Z)
| ADone (n : Z) (ok : bool)
| PEnter (n : Z)
| PLoop (n : Z)
| PCas (n current : Z)
| PLast (n actual : Z)
| PStore (n actual seen : Z)
| PDone (n actual : Z)
| BEnter (used : Z).

(** One atomic operation of a call, with the local computation up to the next. *)
Definition tstep (l : Limiter) (p : pc) : Limiter * pc :=
  match p with
  | AEnter n now => (l, if n <=? 0 then ADone n false else ALoop n now)
  | ALoop n now => (l, ALoaded n now (lastUpdate l))
  | ALoaded n now last =>
      let elapsed := i64 (now - last) in
      let added := added_tokens l elapsed in
      if (0 <? elapsed) && (lastUpdate l =? last)
      then (set_lastUpdate l now, if 0 <? added then AAdd n now added else ACheck n now)
      else (l, ACheck n now)
  | AAdd n now added => (l, AAddCas n now added (available l))
  | AAddCas n now added current =>
      if available l =? current
      then (set_available l (capped l (i64 (current + added))), ACheck n now)
      else (l, AAdd n now added)
  | ACheck n now =>
      (l, if i64 (n * precision l) <=? available l then AConsume n now (available l) else ADone n false)
  | AConsume n now current =>
      if available l =? current
      then (set_available l (i64 (current - i64 (n * precision l))), AStore n)
      else (l, ALoop n now)
  | AStore n => (set_lastConsumed l n, ADone n true)
  | PEnter n => (l, if n <=? 0 then PDone n 0 else PLoop n)
  | PLoop n => (l, PCas n (available l))
  | PCas n current =>
      let newCurrent := capped l (i64 (current + i64 (n * precision l))) in
      if available l =? current
      then
        let actualPutback := i64 (newCurrent - current) in
        let actualPutback := if actualPutback <? 0 then 0 else actualPutback in
        (set_available l newCurrent, PLast n (Z.quot actualPutback (precision l)))
      else (l, PLoop n)
  | PLast n actual => (l, PStore n actual (lastConsumed l))
  | PStore n actual last =>
      (set_lastConsumed l (if n <=? last then last - n else 0), PDone n actual)
  | BEnter used =>
      (l, if used <? 0 then PDone 0 0
          else if lastConsumed l <=? 0 then PDone 0 0
          else let availablePutback := lastConsumed l - used in
               if availablePutback <=? 0 then PDone 0 0 else PEnter availablePutback)
  | ADone _ _ | PDone _ _ => (l, p)
  end.

(** ** Calls without interference *)

Definition AllowN (l : Limiter) (now n : Z) : bool * Limiter :=
  if n <=? 0 then (false, l)
  else
    let requestTokens := i64 (n * precision l) in
    let elapsed := i64 (now - lastUpdate l) in
    let added := added_tokens l elapsed in
    let l :=
      if 0 <? elapsed then
        let l := set_lastUpdate l now in
        if 0 <? added then set_available l (capped l (i64 (available l + added))) else l
      else l in
    if requestTokens <=? available l
    then (true, set_lastConsumed (set_available l (i64 (available l - requestTokens))) n)
    else (false, l).

Definition Allow (l : Limiter) (now : Z) : bool * Limiter := AllowN l now 1.

Definition PutBack (l : Limiter) (n : Z) : Z * Limiter :=
  if n <=? 0 then (0, l)
  else
    let current := available l in
    let newCurrent := capped l (i64 (current + i64 (n * precision l))) in
    let actualPutback := i64 (newCurrent - current) in
    let actualPutback := if actualPutback <? 0 then 0 else actualPutback in
    let last := lastConsumed l in
    (Z.quot actualPutback (precision l),
     set_lastConsumed (set_available l newCurrent) (if n <=? last then last - n else 0)).

Definition PutBackFromLast (l : Limiter) (used : Z) : Z * Limiter :=
  if used <? 0 then (0, l)
  else if lastConsumed l <=? 0 then (0, l)
  else
    let availablePutback := lastConsumed l - used in
    if availablePutback <=? 0 then (0, l) else PutBack l availablePutback.

(** [Tokens], before the conversion of tokens and precision to floats *)
Definition Tokens (l : Limiter) (now : Z) : Z :=
  let elapsed := i64 (now - lastUpdate l) in
  if 0 <? elapsed then capped l (i64 (available l + added_tokens l elapsed)) else available l.

Definition Rate (l : Limiter) : Z := Z.quot (rate l) (precision l).
Definition Burst (l : Limiter) : Z := Z.quot (burst l) (precision l).

(** ** The budget invariant *)

(** Tokens a call has been granted, tokens it put back (an upper bound: the
    argument of the call), and tokens it has won for the elapsed time but not
    yet added. *)
Definition granted (p : pc) : Z := match p with AStore n => n | ADone n true => n | _ => 0 end.
Definition returned (p : pc) : Z :=
  match p with PLast n _ | PStore n _ _ => n | PDone n _ => Z.max 0 n | _ => 0 end.
Definition pending (p : pc) : Z := match p with AAdd _ _ a | AAddCas _ _ a _ => a | _ => 0 end.

Section Budget.
(** Tokens per second and burst size, start and end of the observation. *)
Context (r b t0 T : Z).
Context (Hr : 0 <= r) (Hb : 0 <= b <= 2 ^ 42) (Ht : t0 <= T).
Context (Ht0 : 0 <= t0) (HT : T < 2 ^ 63) (Hr2 : r * 1000000 < 2 ^ 63).

(** What every call's local variables satisfy. *)
Definition pc_ok (p : pc) : Prop :=
  match p with
  | AEnter n now => n <= 2 ^ 42 /\ t0 <= now <= T
  | ALoop n now | ACheck n now => 0 < n <= 2 ^ 42 /\ t0 <= now <= T
  | ALoaded n now last => 0 < n <= 2 ^ 42 /\ t0 <= now <= T /\ t0 <= last <= T
  | AAdd n now a => 0 < n <= 2 ^ 42 /\ t0 <= now <= T /\ 0 <= a <= 2 ^ 34
  | AAddCas n now a c => 0 < n <= 2 ^ 42 /\ t0 <= now <= T /\ 0 <= a <= 2 ^ 34 /\ 0 <= c <= b * 1000000
  | AConsume n now c => 0 < n <= 2 ^ 42 /\ t0 <= now <= T /\ n * 1000000 <= c <= b * 1000000
  | AStore n => 0 < n <= 2 ^ 42
  | ADone n ok => if ok then 0 < n <= 2 ^ 42 else True
  | PEnter n => n <= 2 ^ 42
  | PLoop n | PLast n _ => 0 < n <= 2 ^ 42
  | PCas n c => 0 < n <= 2 ^ 42 /\ 0 <= c <= b * 1000000
  | PStore n _ lc => 0 < n <= 2 ^ 42 /\ 0 <= lc <= 2 ^ 42
  | PDone _ _ | BEnter _ => True
  end.

(** What the shared fields satisfy. *)
Definition lim_ok (l : Limiter) : Prop :=
  rate l = r * 1000000 /\ burst l = b * 1000000 /\ precision l = 1000000 /\
  t0 <= lastUpdate l <= T /\ 0 <= available l <= b * 1000000 /\ 0 <= lastConsumed l <= 2 ^ 42.

(** Tokens in the bucket, on their way to it and granted, against the burst, the
    tokens put back and the time accounted for. *)
Definition within_budget (l : Limiter) (pend gr ret : Z) : Prop :=
  1000000000 * (available l + pend + 1000000 * gr) <=
  1000000000 * (1000000 * b + 1000000 * ret) + r * 1000000 * (lastUpdate l - t0).

(** A wrapped product is never more than the product. *)
Lemma added_spec l last now :
  lim_ok l -> t0 <= last < now -> now <= T ->
  let a := added_tokens l (i64 (now - last)) in
  i64 (now - last) = now - last /\ a <= 2 ^ 34 /\ 1000000000 * a <= r * 1000000 * (now - last).
Proof using Hr Ht0 HT.
  intros (HR & _) Hl Hn. cbv zeta. unfold added_tokens.
  rewrite (i64_small (now - last)) by lia. rewrite (proj2 (Z.ltb_lt _ _)) by lia. rewrite HR.
  set (x := (now - last) * (r * 1000000)). assert (0 <= x) as Hx by (unfold x; nia).
  pose proof (i64_range x) as Hrange. pose proof (i64_le x Hx) as Hle.
  pose proof (Z.quot_rem' (i64 x) 1000000000) as Hq. pose proof (Z.rem_bound_abs (i64 x) 1000000000 ltac:(lia)) as Hrem.
  assert (0 <= i64 x -> 0 <= Z.rem (i64 x) 1000000000) by (intros; apply Z.rem_nonneg; lia).
  assert (i64 x <= 0 -> Z.quot (i64 x) 1000000000 <= 0) by (intros; apply Z.quot_le_upper_bound; lia).
  unfold x in *. lia.
Qed.

(** A call in place, and the others' measures. *)
Definition call_ok (l : Limiter) (p : pc) (pend gr ret : Z) : Prop :=
  lim_ok l /\ pc_ok p /\ within_budget l (pend + pending p) (gr + granted p) (ret + returned p).

Ltac budget := unfold call_ok, within_budget, lim_ok in *; simpl in *; split_and!; try done; try lia.

Lemma tstep_ok l p pend gr ret :
  call_ok l p pend gr ret -> 0 <= pend -> 0 <= gr ->
  call_ok (tstep l p).1 (tstep l p).2 pend gr ret.
Proof using Hr Hb Ht Ht0 HT Hr2.
  intros (Hl & Hp & Hw) Hpend Hgr. destruct p; cbn [tstep].
  - destruct (Z.leb_spec n 0); budget.
  - budget.
  - destruct (Z.ltb_spec 0 (i64 (now - seen))) as [He|He]; [|budget].
    destruct (Z.eqb_spec (lastUpdate l) seen) as [Heq|Hne]; [|budget]. cbn [andb].
    destruct Hp as (Hn & Hnow & Hlast). rewrite i64_small in He by lia.
    destruct (added_spec l seen now Hl) as (_ & Ha1 & Ha2); [lia|lia|].
    set (a := added_tokens l (i64 (now - seen))) in *. subst seen.
    destruct (Z.ltb_spec 0 a); budget; nia.
  - budget.
  - destruct (Z.eqb_spec (available l) current) as [<-|Hne]; [|budget].
    unfold capped. destruct Hl as (HR & HB & HP & HU & HA & HC). rewrite HB.
    rewrite i64_small by (simpl in Hp; lia).
    destruct (Z.ltb_spec (b * 1000000) (available l + added)); budget.
  - assert (precision l = 1000000) as -> by (unfold lim_ok in Hl; lia).
    rewrite i64_small by (simpl in Hp; lia).
    destruct (Z.leb_spec (n * 1000000) (available l)); budget.
  - destruct (Z.eqb_spec (available l) current) as [<-|Hne]; [|budget].
    assert (precision l = 1000000) as -> by (unfold lim_ok in Hl; lia).
    rewrite (i64_small (n * 1000000)) by (simpl in Hp; lia).
    rewrite i64_small by (simpl in Hp; unfold lim_ok in Hl; lia). budget.
  - budget.
  - budget.
  - destruct (Z.leb_spec n 0); budget.
  - budget.
  - destruct (Z.eqb_spec (available l) current) as [<-|Hne]; [|budget].
    unfold capped. destruct Hl as (HR & HB & HP & HU & HA & HC). rewrite HB, HP.
    rewrite (i64_small (n * 1000000)) by (simpl in Hp; lia).
    rewrite (i64_small (available l + _)) by (simpl in Hp; lia).
    destruct (Z.ltb_spec (b * 1000000) (available l + n * 1000000)); budget.
  - budget.
  - destruct (Z.leb_spec n seen); budget.
  - budget.
  - destruct (Z.ltb_spec used 0); [budget|]. destruct (Z.leb_spec (lastConsumed l) 0); [budget|].
    destruct (Z.leb_spec (lastConsumed l - used) 0); budget.
Qed.

Lemma pc_ok_measures p : pc_ok p -> 0 <= pending p /\ 0 <= granted p.
Proof. destruct p as [| | | | | | | |n []| | | | | | |]; simpl; lia. Qed.

(** The invariant of a schedule. *)
Definition budget_inv (l : Limiter) (ts : list pc) : Prop :=
  lim_ok l /\ Forall pc_ok ts /\ within_budget l (total pending ts) (total granted ts) (total returned ts).

Lemma measures_nonneg ts : Forall pc_ok ts -> Forall (fun p => 0 <= pending p) ts /\ Forall (fun p => 0 <= granted p) ts.
Proof. intros H. split; (eapply Forall_impl; [exact H|]); intros p Hp; by apply pc_ok_measures. Qed.

Lemma budget_step l ts i p :
  budget_inv l ts -> ts !! i = Some p -> budget_inv (tstep l p).1 (<[i := (tstep l p).2]> ts).
Proof using Hr Hb Ht Ht0 HT Hr2.
  intros (Hl & Hts & Hw) Hi. destruct (measures_nonneg ts Hts) as [Hp0 Hg0].
  destruct (tstep_ok l p (total pending ts - pending p) (total granted ts - granted p)
    (total returned ts - returned p)) as (Hl' & Hp' & Hw').
  - split_and!; [done|by eapply Forall_lookup_1|]. by rewrite !Z.sub_add.
  - by eapply total_others.
  - by eapply total_others.
  - split_and!; [done|by apply Forall_insert|]. by rewrite !(total_insert _ _ _ p) by done.
Qed.
End Budget.

(** A call that has not started yet, with arguments of up to 2^42 tokens, at a
    time between [t0] and [T]. *)
Definition call_between (t0 T : Z) (p : pc) : Prop :=
  match p with
  | AEnter n now => n <= 2 ^ 42 /\ t0 <= now <= T
  | PEnter n => n <= 2 ^ 42
  | BEnter _ => True
  | _ => False
  end.

(** C10. However the atomic operations of concurrent calls interleave, the
    bucket never holds less than nothing or more than the burst, and the tokens
    granted up to time [T] are at most the burst, the tokens put back and the
    rate times the time passed. Burst and requests are at most 2^42 tokens, so
    that they fit 64 bits when scaled; the product of rate and time may
    overflow, which only loses tokens. *)
Theorem token_bucket_bound r b t0 T calls sched :
  0 <= r -> 0 <= b <= 2 ^ 42 -> 0 <= t0 <= T -> T < 2 ^ 63 ->
  r * 1000000 < 2 ^ 63 ->
  Forall (call_between t0 T) calls ->
  let '(l, ts) := run tstep sched (NewLimiter t0 r b) calls in
  0 <= available l <= b * 1000000 /\
  1000000000 * total granted ts <= 1000000000 * (b + total returned ts) + r * (T - t0).
Proof.
  intros Hr Hb Ht HT Hr2 Hcalls.
  assert (NewLimiter t0 r b = MkLimiter t0 (b * 1000000) (r * 1000000) (b * 1000000) 1000000 0) as Hnew
    by (unfold NewLimiter; by rewrite !i64_small by lia).
  assert (forall f : pc -> Z, (forall p, call_between t0 T p -> f p = 0) -> total f calls = 0) as Hz
    by (intros f Hf; apply total_zero; by eapply Forall_impl).
  destruct (run_invariant tstep (budget_inv r b t0 T) sched (NewLimiter t0 r b) calls) as (Hl & Hts & Hw).
  - intros l ts i p. apply budget_step; lia.
  - split_and!.
    + rewrite Hnew. unfold lim_ok; simpl; lia.
    + eapply Forall_impl; [exact Hcalls|]. by intros [].
    + rewrite !Hz by (by intros []). rewrite Hnew. unfold within_budget; simpl; lia.
  - destruct (run tstep sched (NewLimiter t0 r b) calls) as [l ts]. cbn [fst snd] in *.
    destruct (measures_nonneg _ _ _ ts Hts) as [Hp0 _]. apply total_nonneg in Hp0.
    unfold lim_ok, within_budget in *. split; [lia|]. nia.
Qed.

(** Two calls race for the last tokens; the loser is refused. *)
Lemma token_bucket_bound_witness :
  let '(l, ts) := run tstep [0; 1; 0; 1; 0; 1; 0; 1; 0; 1; 0; 1; 1; 1; 1; 1; 0; 0; 0]%nat (NewLimiter 5 10 4)
                    [AEnter 3 100000005; AEnter 3 100000005; PEnter 1] in
  0 <= available l <= 4 * 1000000 /\
  1000000000 * total granted ts <= 1000000000 * (4 + total returned ts) + 10 * (100000005 - 5).
Proof.
  apply (token_bucket_bound 10 4 5 100000005 [AEnter 3 100000005; AEnter 3 100000005; PEnter 1]
    [0; 1; 0; 1; 0; 1; 0; 1; 0; 1; 0; 1; 1; 1; 1; 1; 0; 0; 0]%nat); [lia..|].
  repeat apply Forall_cons_2; [..|apply Forall_nil_2]; simpl; lia.
Defined.

(** ** Calls without interference *)

(** A step of a lone call: its compare-and-swaps succeed. *)
Ltac lone := cbn [solo tstep]; rewrite ?Z.eqb_refl, ?andb_true_r; cbv zeta.

Lemma AllowN_check k l now n :
  solo tstep (3 + k) l (ACheck n now) =
  (let requestTokens := i64 (n * precision l) in
   if requestTokens <=? available l
   then (set_lastConsumed (set_available l (i64 (available l - requestTokens))) n, ADone n true)
   else (l, ADone n false)).
Proof.
  cbn [Nat.add]. lone. destruct (i64 (n * precision l) <=? available l).
  - do 2 lone. by apply solo_done.
  - lone. by apply solo_done.
Qed.

Lemma AllowN_solo l now n :
  solo tstep 8 l (AEnter n now) = (let '(ok, l') := AllowN l now n in (l', ADone n ok)).
Proof.
  unfold AllowN. cbn [solo tstep]. destruct (n <=? 0); [by apply (solo_done tstep 7)|]. do 2 lone.
  set (elapsed := i64 (now - lastUpdate l)). set (added := added_tokens l elapsed).
  assert (forall k l, solo tstep (3 + k) l (ACheck n now) = (let '(ok, l') :=
    if i64 (n * precision l) <=? available l
    then (true, set_lastConsumed (set_available l (i64 (available l - i64 (n * precision l)))) n)
    else (false, l) in (l', ADone n ok))) as Hc.
  { intros k l0. rewrite AllowN_check. cbv zeta. by destruct (_ <=? _). }
  destruct (0 <? elapsed); [|exact (Hc 2%nat l)].
  destruct (0 <? added); [|exact (Hc 2%nat _)]. do 2 lone. exact (Hc 0%nat _).
Qed.

Lemma PutBack_solo l n : solo tstep 5 l (PEnter n) = (let '(actual, l') := PutBack l n in (l', PDone n actual)).
Proof.
  unfold PutBack. cbn [solo tstep]. destruct (n <=? 0); [done|]. by do 4 lone.
Qed.

Lemma PutBackFromLast_solo l used :
  exists n, solo tstep 6 l (BEnter used) = (let '(actual, l') := PutBackFromLast l used in (l', PDone n actual)).
Proof.
  unfold PutBackFromLast. change (solo tstep 6 l (BEnter used)) with (let '(l', p') := tstep l (BEnter used) in solo tstep 5 l' p').
  cbn [tstep]. destruct (used <? 0); [by exists 0|]. destruct (lastConsumed l <=? 0); [by exists 0|]. cbv zeta.
  destruct (lastConsumed l - used <=? 0); [by exists 0|]. exists (lastConsumed l - used). apply PutBack_solo.
Qed.

(** A call that nothing interferes with has the outcome of the sequential
    [AllowN], [PutBack] or [PutBackFromLast] after at most eight atomic
    operations, whatever the state and the arguments. *)
Theorem solo_calls_sequential l :
  (forall now n, solo tstep 8 l (AEnter n now) = (let '(ok, l') := AllowN l now n in (l', ADone n ok))) /\
  (forall n, solo tstep 5 l (PEnter n) = (let '(actual, l') := PutBack l n in (l', PDone n actual))) /\
  (forall used, exists n,
     solo tstep 6 l (BEnter used) = (let '(actual, l') := PutBackFromLast l used in (l', PDone n actual))).
Proof. split_and!; [apply AllowN_solo|apply PutBack_solo|apply PutBackFromLast_solo]. Qed.

(** The product of elapsed nanoseconds and scaled rate is not protected: an
    empty limiter left alone so long that it reaches 2^63 but not 2^64 (10
    seconds at 1000 tokens a second) refuses every request although the bucket
    should be full again, and forgets the time that has passed. *)
Theorem idle_overflow_starves l now n :
  0 <= lastUpdate l < now -> now < 2 ^ 63 -> 0 < n <= 2 ^ 42 -> precision l = 1000000 -> available l = 0 ->
  2 ^ 63 <= (now - lastUpdate l) * rate l < 2 ^ 64 ->
  AllowN l now n = (false, set_lastUpdate l now).
Proof.
  intros Hu Hnow Hn HP HA Hp. unfold AllowN. rewrite (proj2 (Z.leb_gt n 0)) by lia. cbv zeta.
  rewrite (i64_small (now - lastUpdate l)) by lia. rewrite (proj2 (Z.ltb_lt 0 (now - lastUpdate l))) by lia.
  assert (added_tokens l (now - lastUpdate l) <= 0) as Hadd.
  { unfold added_tokens. rewrite (proj2 (Z.ltb_lt _ _)) by lia.
    assert (i64 ((now - lastUpdate l) * rate l) = (now - lastUpdate l) * rate l - 2 ^ 64) as ->.
    { unfold i64, swrap. change (64 - 1) with 63.
      rewrite <- (Z.mod_unique ((now - lastUpdate l) * rate l + 2 ^ 63) (2 ^ 64) 1
                    ((now - lastUpdate l) * rate l - 2 ^ 63)); lia. }
    apply Z.quot_le_upper_bound; lia. }
  rewrite (proj2 (Z.ltb_ge 0 _)) by done. cbn [set_lastUpdate available precision].
  rewrite HP, HA, i64_small by lia. by rewrite (proj2 (Z.leb_gt _ _)) by lia.
Qed.

Lemma idle_overflow_starves_witness :
  let l := MkLimiter 0 0 (1000 * 1000000) (1000 * 1000000) 1000000 1000 in
  AllowN l 10000000000 1 = (false, set_lastUpdate l 10000000000).
Proof. apply idle_overflow_starves; simpl; try reflexivity; lia. Defined.
