(* ===== verification/QuotaCounter.v ===== *)
(** * Usage counters (common/quota/quota.go)

    The adaptor is what it returns when the counter is created and the usages
    submitted to it. Calls of several goroutines interleave at their atomic
    operations on [usage]. *)

From S2P Require Import Prelude Threads.

Definition ValueNoLimit : Z := -1.

(** [submitted] is what the adaptor has been given so far. *)
Record Quota := MkQuota { used : Z; maxLimit : Z; usage : Z; submitted : list Z }.

(** [load] is the result of [LoadUsage]. *)
Definition New (quotaMaxUsage : Z) (load : option Z) : option Quota :=
  used ← load; Some (MkQuota used quotaMaxUsage 0 []).

Definition set_usage (q : Quota) (v : Z) : Quota := MkQuota (used q) (maxLimit q) v (submitted q).
Definition submit (q : Quota) (v : Z) : Quota :=
  MkQuota (used q) (maxLimit q) (usage q) (submitted q ++ [v]).

Definition isExceeded (q : Quota) : bool :=
  (maxLimit q <? i64 (usage q + used q)) && negb (maxLimit q =? ValueNoLimit).

Definition IsExceeded (q : Quota) : bool := isExceeded q.
Definition GetUsage (q : Quota) : Z := usage q.
Definition GetMaxLimit (q : Quota) : Z := maxLimit q.
Definition Reset (q : Quota) : Quota := set_usage q 0.

Definition CommitUsage (q : Quota) : Z * Quota :=
  if usage q =? 0 then (0, q)
  else let currentUsage := usage q in (currentUsage, submit (set_usage q 0) currentUsage).

(** The result is whether [ErrQuotaExceeded] is returned. *)
Definition AddUsage (q : Quota) (value : Z) : bool * Quota :=
  if value =? 0 then (false, q)
  else if isExceeded q then (true, snd (CommitUsage q))
  else (false, set_usage q (i64 (usage q + value))).

(** ** Concurrent calls *)

(** Where a call stands: [AddUsage] before its check, before its addition and
    done; [CommitUsage], also as part of an [AddUsage] that is refused, before
    its load, before the swap, before the submission and done. *)
Inductive qpc :=
| AddCheck (value : Z)
| AddDo (value : Z)
| AddDone (value : Z)
| CommitLoad
| CommitSwap
| CommitSubmit (currentUsage : Z)
| CommitDone.

Definition qstep (q : Quota) (p : qpc) : Quota * qpc :=
  match p with
  | AddCheck v => (q, if v =? 0 then AddDone v else if isExceeded q then CommitLoad else AddDo v)
  | AddDo v => (set_usage q (i64 (usage q + v)), AddDone v)
  | CommitLoad => (q, if usage q =? 0 then CommitDone else CommitSwap)
  | CommitSwap => (set_usage q 0, CommitSubmit (usage q))
  | CommitSubmit v => (submit q v, CommitDone)
  | AddDone _ | CommitDone => (q, p)
  end.

(** Amounts a call has added, and amounts it has taken off the counter but not
    submitted yet. *)
Definition added (p : qpc) : Z := match p with AddDone v => v | _ => 0 end.
Definition in_flight (p : qpc) : Z := match p with CommitSubmit v => v | _ => 0 end.

Definition sum (l : list Z) : Z := foldr Z.add 0 l.

Lemma sum_app l1 l2 : sum (l1 ++ l2) = sum l1 + sum l2.
Proof. induction l1 as [|x l1 IH]; simpl; [done|]. unfold sum in *. lia. Qed.

(** ** Conservation *)

Lemma i64_cong x : exists k, i64 x = x + k * 2 ^ 64.
Proof.
  exists (- ((x + 2 ^ 63) / 2 ^ 64)). unfold i64, swrap. change (64 - 1) with 63.
  pose proof (Z_div_mod_eq_full (x + 2 ^ 63) (2 ^ 64)). lia.
Qed.

Lemma i64_eq x y k : x = y + k * 2 ^ 64 -> i64 x = i64 y.
Proof.
  intros ->. unfold i64, swrap.
  replace (y + k * 2 ^ 64 + 2 ^ (64 - 1)) with (y + 2 ^ (64 - 1) + k * 2 ^ 64) by lia. by rewrite Z_mod_plus_full.
Qed.

(** Everything added is on the counter, in flight or submitted, modulo 2^64. *)
Definition conserved (q : Quota) (ts : list qpc) : Prop :=
  exists k, sum (submitted q) + usage q + total in_flight ts = total added ts + k * 2 ^ 64.

Lemma conserved_step q ts i p :
  conserved q ts -> ts !! i = Some p -> conserved (qstep q p).1 (<[i := (qstep q p).2]> ts).
Proof.
  intros [k Hk] Hi. unfold conserved. rewrite !(total_insert _ _ _ p) by done.
  destruct p as [v|v|v| | |v|]; cbn [qstep fst snd]; try (exists k; simpl; lia).
  - exists k. destruct (v =? 0) eqn:Hv; [simpl; lia|]. destruct (isExceeded q); simpl; lia.
  - destruct (i64_cong (usage q + v)) as [k' Hk']. exists (k + k'). simpl. lia.
  - exists k. destruct (usage q =? 0); simpl; lia.
  - exists k. unfold submit. cbn [submitted usage added in_flight]. rewrite sum_app. simpl. lia.
Qed.

(** A call that has not started. *)
Definition fresh_call (p : qpc) : Prop := match p with AddCheck _ | CommitLoad => True | _ => False end.

(** C9. No usage is lost or counted twice: however concurrent calls of
    [AddUsage] and [CommitUsage] on a new counter interleave, what was submitted
    to the adaptor, what the counter holds and what is between the two add up
    to what was added, in 64-bit arithmetic. *)
Theorem usage_conserved quotaMaxUsage load q calls sched :
  New quotaMaxUsage (Some load) = Some q -> Forall fresh_call calls ->
  let '(q', ts) := run qstep sched q calls in
  i64 (sum (submitted q') + usage q' + total in_flight ts) = i64 (total added ts).
Proof.
  intros [= <-] Hc.
  destruct (run_invariant qstep conserved sched (MkQuota load quotaMaxUsage 0 []) calls) as [k Hk].
  - apply conserved_step.
  - exists 0. assert (total in_flight calls = 0 /\ total added calls = 0) as [-> ->]; [|done].
    split; apply total_zero; (eapply Forall_impl; [exact Hc|]); by intros [].
  - destruct (run qstep sched _ calls) as [q' ts]. by apply i64_eq with k.
Qed.

(** Two commits race for the same usage. *)
Lemma usage_conserved_witness :
  let '(q', ts) := run qstep [0; 0; 1; 2; 1; 2; 1; 2; 3; 3]%nat (MkQuota 5 100 0 [])
                     [AddCheck 70; CommitLoad; CommitLoad; AddCheck 4] in
  i64 (sum (submitted q') + usage q' + total in_flight ts) = i64 (total added ts).
Proof. apply (usage_conserved 100 5); [reflexivity|repeat constructor]. Defined.

(** ** The limit *)

(** Adding values one after the other, and adding them with a commit after
    each, as the minute ticker of the server does: the values accepted. *)
Fixpoint add_all (q : Quota) (values : list Z) : list Z * Quota :=
  match values with
  | [] => ([], q)
  | v :: values' =>
      let '(refused, q) := AddUsage q v in
      let '(acc, q) := add_all q values' in ((if refused then acc else v :: acc), q)
  end.

Fixpoint add_commit_all (q : Quota) (values : list Z) : list Z * Quota :=
  match values with
  | [] => ([], q)
  | v :: values' =>
      let '(refused, q) := AddUsage q v in
      let q := snd (CommitUsage q) in
      let '(acc, q) := add_commit_all q values' in ((if refused then acc else v :: acc), q)
  end.

Lemma commit_not_exceeded q :
  - 2 ^ 63 <= used q <= maxLimit q -> maxLimit q < 2 ^ 63 -> isExceeded (snd (CommitUsage q)) = false.
Proof.
  intros Hu Hm. unfold isExceeded, CommitUsage. destruct (Z.eqb_spec (usage q) 0) as [Hz|Hz]; simpl;
    rewrite ?Hz, Z.add_0_l, i64_small by lia; by rewrite (proj2 (Z.ltb_ge _ _)) by lia.
Qed.

Lemma commit_usage q :
  usage (snd (CommitUsage q)) = 0 /\ used (snd (CommitUsage q)) = used q /\
  maxLimit (snd (CommitUsage q)) = maxLimit q.
Proof. unfold CommitUsage. by destruct (Z.eqb_spec (usage q) 0). Qed.

Lemma AddUsage_fields q v :
  used (snd (AddUsage q v)) = used q /\ maxLimit (snd (AddUsage q v)) = maxLimit q.
Proof.
  unfold AddUsage. destruct (v =? 0); [done|]. destruct (isExceeded q); [|done]. simpl. apply commit_usage.
Qed.

Lemma add_commit_accepts values q :
  - 2 ^ 63 <= used q <= maxLimit q -> maxLimit q < 2 ^ 63 -> usage q = 0 ->
  fst (add_commit_all q values) = values.
Proof.
  revert q. induction values as [|v values IH]; intros q Hu Hm Hz; [done|]. cbn [add_commit_all].
  assert (fst (AddUsage q v) = false) as Hf.
  { unfold AddUsage. destruct (v =? 0); [done|]. unfold isExceeded.
    rewrite Hz, Z.add_0_l, i64_small by lia. by rewrite (proj2 (Z.ltb_ge _ _)) by lia. }
  destruct (AddUsage_fields q v) as [H1 H2]. destruct (AddUsage q v) as [refused q1]. simpl in Hf, H1, H2. subst refused.
  destruct (commit_usage q1) as (Hc & H3 & H4).
  specialize (IH (snd (CommitUsage q1))). rewrite H3, H4, H1, H2 in IH. specialize (IH Hu Hm Hc).
  destruct (add_commit_all (snd (CommitUsage q1)) values) as [acc q2]. simpl in *. by subst.
Qed.

Lemma add_all_bound M values q :
  Forall (fun v => 0 < v <= M) values -> M < 2 ^ 62 -> 0 <= used q -> 0 <= maxLimit q < 2 ^ 62 -> 0 <= usage q ->
  used q + usage q <= maxLimit q + M -> fst (add_all q values) = values ->
  used q + usage q + sum values <= maxLimit q + M.
Proof.
  intros Hv HM. revert q. induction Hv as [|v values Hv Hvs IH]; intros q Hu Hm Hs Hb Hacc; [simpl; lia|].
  cbn [add_all] in Hacc. unfold AddUsage, isExceeded, ValueNoLimit in Hacc.
  rewrite (proj2 (Z.eqb_neq v 0)), (proj2 (Z.eqb_neq (maxLimit q) _)), andb_true_r, i64_small in Hacc by lia.
  assert (forall q l, length (fst (add_all q l)) <= length l)%nat as Hlen.
  { intros q0 l. revert q0. induction l as [|x l IHl]; intros q0; simpl; [lia|]. destruct (AddUsage q0 x) as [rf q1].
    specialize (IHl q1). destruct (add_all q1 l). destruct rf; simpl in *; lia. }
  destruct (Z.ltb_spec (maxLimit q) (usage q + used q)) as [Hx|Hx].
  - pose proof (Hlen (snd (CommitUsage q)) values) as Hl.
    destruct (add_all (snd (CommitUsage q)) values) as [acc q2]. simpl in Hacc, Hl. subst acc. simpl in Hl. lia.
  - rewrite i64_small in Hacc by lia. specialize (IH (set_usage q (usage q + v))).
    cbn [set_usage used maxLimit usage] in IH.
    destruct (add_all (set_usage q (usage q + v)) values) as [acc q2]. simpl in *. injection Hacc as ->.
    specialize (IH Hu Hm ltac:(lia) ltac:(lia) eq_refl). lia.
Qed.

(** The limit holds only between two commits. Values added to a new
    counter and all accepted exceed the limit by less than the last of them;
    but a commit takes the usage off the counter without adding it to [used],
    so the counter accepts again after every commit, also the one a refused
    [AddUsage] makes: with a commit after each value, as every minute in the
    server, any sequence of values is accepted. *)
Theorem limit_between_commits quotaMaxUsage load q M :
  New quotaMaxUsage (Some load) = Some q -> 0 <= load <= quotaMaxUsage -> quotaMaxUsage < 2 ^ 62 -> M < 2 ^ 62 ->
  (forall values, Forall (fun v => 0 < v <= M) values -> fst (add_all q values) = values ->
     load + sum values <= quotaMaxUsage + Z.max 0 M) /\
  (forall values, fst (add_commit_all q values) = values) /\
  (forall q' v, used q' = load -> maxLimit q' = quotaMaxUsage -> fst (AddUsage q' v) = true ->
     isExceeded (snd (AddUsage q' v)) = false).
Proof.
  intros [= <-] Hl Hq HM. split_and!.
  - intros [|v values] Hv Hacc; [simpl; lia|].
    pose proof (add_all_bound M (v :: values) (MkQuota load quotaMaxUsage 0 []) Hv) as H.
    inversion Hv; subst. cbn [used usage maxLimit] in H. rewrite Z.add_0_r in H.
    specialize (H HM ltac:(lia) ltac:(lia) ltac:(lia) ltac:(lia) Hacc). lia.
  - intros values. apply add_commit_accepts; simpl; lia.
  - intros q' v <- <- Hr. unfold AddUsage in *. destruct (v =? 0); [done|].
    destruct (isExceeded q'); [|done]. apply commit_not_exceeded; lia.
Qed.

Lemma limit_between_commits_witness :
  fst (add_commit_all (MkQuota 5 100 0 []) [90; 90; 90]) = [90; 90; 90] /\
  (fst (add_all (MkQuota 5 100 0 []) [90; 90]) = [90; 90] -> 5 + sum [90; 90] <= 100 + Z.max 0 90).
Proof.
  destruct (limit_between_commits 100 5 (MkQuota 5 100 0 []) 90) as (H1 & H2 & _); [reflexivity|lia..|].
  split; [apply H2|]. apply H1. repeat apply Forall_cons_2; [lia..|apply Forall_nil_2].
Defined.
