(* ===== verification/GoFloat.v ===== *)
(** * Go's [float64]

    IEEE 754 binary64 as the Standard Library's executable specification of
    floats, with the conversions from and to integers the program uses. *)

From Stdlib Require Export SpecFloat.
From S2P Require Import Prelude.

Abbreviation float64 := spec_float.

(** [float64(z)] of an integer *)
Definition f64 (z : Z) : float64 := binary_normalize 53 1024 z 0 false.

Definition f_mul (x y : float64) : float64 := SFmul 53 1024 x y.
Definition f_div (x y : float64) : float64 := SFdiv 53 1024 x y.
Definition f_lt (x y : float64) : bool := SFltb x y.
Definition f_le (x y : float64) : bool := SFleb x y.

(** The integer part of a finite float. *)
Definition f_trunc (x : float64) : option Z :=
  match x with
  | S754_zero _ => Some 0
  | S754_finite s m e =>
      let n := if 0 <=? e then Z.pos m * 2 ^ e else Z.pos m / 2 ^ (- e) in
      Some (if s then - n else n)
  | _ => None
  end.

(** [int64(x)] and [uint64(x)]: Go leaves the result open when the integer part
    does not fit; [other] is what the implementation yields then. *)
Definition to_int64 (other : float64 -> Z) (x : float64) : Z :=
  match f_trunc x with
  | Some n => if (- 2 ^ 63 <=? n) && (n <? 2 ^ 63) then n else other x
  | None => other x
  end.

Definition to_uint64 (other : float64 -> Z) (x : float64) : Z :=
  match f_trunc x with
  | Some n => if (0 <=? n) && (n <? 2 ^ 64) then n else other x
  | None => other x
  end.
