(* ===== verification/LimiterWait.v ===== *)
(** * Waiting for tokens (common/rate/limiter.go: Wait, WaitN)

    The loop of [WaitN] asks at each reading of the clock; the sleeps in
    between are computed with floats. *)

From S2P Require Import Prelude Threads Limiter GoFloat.

Section Waiting.
(** What a conversion of a float outside the range of [int64] gives. *)
Context (other : float64 -> Z).

(** How long the loop sleeps after a refusal; 0: it does not. *)
Definition wait_time (l : Limiter) (n : Z) : Z :=
  let tokensToGenerate := i64 (i64 (n * precision l) - available l) in
  if 0 <? tokensToGenerate then
    let waitTime := to_int64 other (f_div (f_mul (f64 tokensToGenerate) (f64 1000000000)) (f64 (rate l))) in
    if 0 <? waitTime then waitTime else 0
  else 0.

(** The sleeps, and the limiter when the call returns; [None]: it has not
    returned by the last reading. *)
Fixpoint limiter_WaitN (l : Limiter) (n : Z) (clock : list Z) : list Z * option Limiter :=
  match clock with
  | [] => ([], None)
  | now :: clock' =>
      let '(ok, l) := AllowN l now n in
      if (ok : bool) then ([], Some l)
      else let '(sleeps, res) := limiter_WaitN l n clock' in (wait_time l n :: sleeps, res)
  end.

Definition limiter_Wait (l : Limiter) (clock : list Z) : list Z * option Limiter := limiter_WaitN l 1 clock.

(** ** When it returns *)

(** A limiter in order. *)
Record calm (b : Z) (l : Limiter) : Prop := {
  ca_burst : burst l = b * 1000000; ca_precision : precision l = 1000000;
  ca_available : 0 <= available l <= b * 1000000;
  ca_rate : 0 <= rate l; ca_time : 0 <= lastUpdate l < 2 ^ 62 }.

Lemma AllowN_rate l now n : rate (AllowN l now n).2 = rate l.
Proof. unfold AllowN. repeat case_match; done. Qed.

(** The bucket when the time [now] is accounted for. *)
Definition filled (l : Limiter) (now : Z) : Limiter :=
  let l' := set_lastUpdate l now in
  let added := added_tokens l (now - lastUpdate l) in
  if 0 <? added then set_available l' (capped l' (i64 (available l + added))) else l'.

Lemma filled_calm b l now :
  0 <= b <= 2 ^ 42 -> calm b l -> lastUpdate l < now < 2 ^ 62 ->
  calm b (filled l now) /\ lastUpdate (filled l now) = now /\
  ((now - lastUpdate l) * rate l < 2 ^ 63 ->
   Z.min (b * 1000000) ((now - lastUpdate l) * rate l / 1000000000) <= available (filled l now)).
Proof.
  intros Hb [HB HP HA HR HT] Hnow. unfold filled, added_tokens. rewrite (proj2 (Z.ltb_lt 0 (now - lastUpdate l))) by lia.
  set (x := (now - lastUpdate l) * rate l). assert (0 <= x) as Hx by (unfold x; nia).
  pose proof (i64_range x). assert (Z.quot (i64 x) 1000000000 <= 2 ^ 34) as Hq by (apply Z.quot_le_upper_bound; lia).
  unfold capped. cbn [set_lastUpdate burst available lastUpdate]. rewrite HB.
  destruct (Z.ltb_spec 0 (Z.quot (i64 x) 1000000000)) as [H0|H0].
  - rewrite i64_small by lia. destruct (Z.ltb_spec (b * 1000000) (available l + Z.quot (i64 x) 1000000000)) as [Hc|Hc];
      (split; [split; cbn; done || lia|]); (split; [done|]); intros Hsmall; cbn [set_available available]; [lia|].
    rewrite i64_small, Z.quot_div_nonneg in * by lia. lia.
  - split; [split; cbn; done || lia|]. split; [done|]. intros Hsmall. cbn [set_lastUpdate available].
    rewrite i64_small, Z.quot_div_nonneg in H0 by lia. lia.
Qed.

Lemma AllowN_filled b l now n :
  calm b l -> lastUpdate l < now < 2 ^ 62 -> 0 < n <= 2 ^ 42 ->
  AllowN l now n = if n * 1000000 <=? available (filled l now)
                   then (true, set_lastConsumed (set_available (filled l now) (i64 (available (filled l now) - n * 1000000))) n)
                   else (false, filled l now).
Proof.
  intros [HB HP HA HR HT] Hnow Hn. unfold AllowN, filled. rewrite (proj2 (Z.leb_gt n 0)) by lia.
  rewrite HP, (i64_small (n * 1000000)), (i64_small (now - lastUpdate l)) by lia. by rewrite (proj2 (Z.ltb_lt 0 (now - lastUpdate l))) by lia.
Qed.

(** Readings of a clock that moves on from [t]. *)
Fixpoint moves (t : Z) (clock : list Z) : Prop :=
  match clock with [] => True | now :: clock' => t < now < 2 ^ 62 /\ moves now clock' end.

Lemma AllowN_nonpositive l now n : n <= 0 -> AllowN l now n = (false, l).
Proof. intros Hn. unfold AllowN. by rewrite (proj2 (Z.leb_le n 0)). Qed.

(** Requests above the burst, and of no tokens, are never granted. *)
Lemma WaitN_stuck b l n clock :
  0 <= b <= 2 ^ 42 -> calm b l -> moves (lastUpdate l) clock -> n <= 0 \/ b < n <= 2 ^ 42 ->
  (limiter_WaitN l n clock).2 = None.
Proof.
  intros Hb Hc Hm Hn. revert l Hc Hm. induction clock as [|now clock IH]; intros l Hc Hm; [done|].
  destruct Hm as [Ht Hm]. cbn [limiter_WaitN].
  assert (exists l', AllowN l now n = (false, l') /\ calm b l' /\ moves (lastUpdate l') clock) as (l' & -> & Hc' & Hm').
  { destruct Hn as [Hn|Hn].
    - exists l. rewrite AllowN_nonpositive by done. split; [done|]. split; [done|].
      destruct clock as [|now' clock]; [done|]. cbn in *. intuition lia.
    - destruct (filled_calm b l now Hb Hc Ht) as (Hf & Hl & _). exists (filled l now). rewrite Hl.
      rewrite (AllowN_filled b) by (done || lia). pose proof (ca_available _ _ Hf). rewrite (proj2 (Z.leb_gt _ _)) by lia. done. }
  specialize (IH l' Hc' Hm'). by destruct (limiter_WaitN l' n clock).
Qed.

(** A gap in which the tokens are generated ends the waiting. *)
Lemma WaitN_ends b l n pre t1 t2 post :
  0 <= b <= 2 ^ 42 -> calm b l -> moves (lastUpdate l) (pre ++ t1 :: t2 :: post) -> 0 < n <= b ->
  n * 1000000 * 1000000000 <= (t2 - t1) * rate l < 2 ^ 63 -> is_Some (limiter_WaitN l n (pre ++ t1 :: t2 :: post)).2.
Proof.
  intros Hb Hc Hm Hn. revert l Hc Hm. induction pre as [|now pre IH]; intros l Hc Hm Hgap.
  - cbn [app limiter_WaitN]. destruct Hm as (Ht1 & Ht2 & Hm). rewrite (AllowN_filled b) by (done || lia).
    destruct (_ <=? _); [by eexists|]. destruct (filled_calm b l t1 Hb Hc Ht1) as (Hf & Hl & _).
    assert (rate (filled l t1) = rate l) as Hr by (unfold filled; by case_match).
    destruct (filled_calm b (filled l t1) t2 Hb Hf) as (_ & _ & Hge); [lia|]. rewrite Hl, Hr in Hge.
    rewrite (AllowN_filled b) by (done || lia).
    assert (n * 1000000 <= (t2 - t1) * rate l / 1000000000) by (apply Z.div_le_lower_bound; lia).
    rewrite (proj2 (Z.leb_le _ _)) by lia. by eexists.
  - cbn [app limiter_WaitN]. destruct Hm as (Ht & Hm). rewrite (AllowN_filled b) by (done || lia).
    destruct (_ <=? _); [by eexists|]. destruct (filled_calm b l now Hb Hc Ht) as (Hf & Hl & _).
    assert (rate (filled l now) = rate l) as Hr by (unfold filled; by case_match).
    specialize (IH (filled l now) Hf). rewrite Hl, Hr in IH. specialize (IH Hm Hgap). by destruct (limiter_WaitN (filled l now) n _).
Qed.
End Waiting.

(** C35. Waiting for tokens: a request of at most the burst is granted at the
    latest when the time between two readings of the clock generates the tokens
    without overflowing 64 bits (gap times scaled rate below 2^63, that is 9.2
    seconds at 1000 tokens per second; a longer sleep can lose its tokens). A
    request of more than the burst, or of no tokens, waits forever, however often
    the clock is read. Burst and request are at most 2^42 tokens. *)
Theorem waiting_ends other b l n clock :
  0 <= b <= 2 ^ 42 -> n <= 2 ^ 42 -> calm b l -> moves (lastUpdate l) clock ->
  (0 < n <= b -> forall pre t1 t2 post, clock = pre ++ t1 :: t2 :: post ->
     n * 1000000 * 1000000000 <= (t2 - t1) * rate l < 2 ^ 63 -> is_Some (limiter_WaitN other l n clock).2) /\
  (n <= 0 \/ b < n -> (limiter_WaitN other l n clock).2 = None).
Proof.
  intros Hb Hn Hc Hm. split.
  - intros Hn' pre t1 t2 post -> Hgap. by apply (WaitN_ends other b).
  - intros Hn'. apply (WaitN_stuck other b); [done..|]. lia.
Qed.

(** A bucket of ten tokens, refilled at five per second, is empty at time 0; it
    is asked again after a day, which overflows, and once more. *)
Lemma waiting_ends_witness :
  let l := MkLimiter 0 0 5000000 10000000 1000000 0 in
  is_Some (limiter_WaitN (fun _ => 0) l 3 [1000000; 86400000000000; 86400800000000]).2 /\
  (limiter_WaitN (fun _ => 0) l 11 [1000000; 100000000; 800000000]).2 = None.
Proof.
  split.
  - apply (waiting_ends (fun _ => 0) 10 (MkLimiter 0 0 5000000 10000000 1000000 0) 3 [1000000; 86400000000000; 86400800000000])
      with (pre := [1000000]) (t1 := 86400000000000) (t2 := 86400800000000) (post := []); try lia;
      [split; cbn; lia|cbn; lia|reflexivity|cbn; lia].
  - apply (waiting_ends (fun _ => 0) 10 (MkLimiter 0 0 5000000 10000000 1000000 0) 11 [1000000; 100000000; 800000000]); try lia;
      [split; cbn; lia|cbn; lia].
Defined.
