(* ===== verification/SmoothLimiter.v ===== *)
(** * The bandwidth limiter of a session (common/rate/smooth_limiter.go)

    A call of [WaitN] reads the clock ([now]), sleeps and reads the clock again
    ([wake]). *)

From S2P Require Import Prelude GoFloat.

Record SmoothLimiter := MkSmooth { rate : Z; lastTime : Z; smoothing : float64 }.

(** 1.05 is the float nearest to 105/100. *)
Definition NewSmoothLimiter (now rate : Z) : SmoothLimiter := MkSmooth rate now (f_div (f64 105) (f64 100)).

Definition SetSmoothing (l : SmoothLimiter) (factor : float64) : SmoothLimiter :=
  if f_lt (f64 0) factor && f_le factor (f64 1) then MkSmooth (rate l) (lastTime l) factor else l.

Definition Rate (l : SmoothLimiter) : Z := rate l.
Definition SetRate (l : SmoothLimiter) (rate : Z) : SmoothLimiter := MkSmooth rate (lastTime l) (smoothing l).

Section Waiting.
(** Conversions to [int64] of floats that do not fit. *)
Context (other : float64 -> Z).

(** Nanoseconds that [n] bytes should take; [n*1e9] is an integer product. *)
Definition expectedInterval (l : SmoothLimiter) (n : Z) : Z :=
  to_int64 other (f_div (f_div (f64 (i64 (n * 1000000000))) (f64 (rate l))) (smoothing l)).

(** How long the call sleeps (0: it does not) and the limiter afterwards. *)
Definition WaitN (l : SmoothLimiter) (n now wake : Z) : Z * SmoothLimiter :=
  if (n <=? 0) || (rate l <=? 0) then (0, l)
  else
    let elapsed := i64 (now - lastTime l) in
    let sleep :=
      if elapsed <? expectedInterval l n then
        let waitTime := i64 (expectedInterval l n - elapsed) in
        if 0 <? waitTime then waitTime else 0
      else 0 in
    (sleep, MkSmooth (rate l) wake (smoothing l)).

Definition Wait (l : SmoothLimiter) (now wake : Z) : Z * SmoothLimiter := WaitN l 1 now wake.

(** Calls one after the other: the bytes and the two readings of the clock. *)
Fixpoint wait_all (l : SmoothLimiter) (calls : list (Z * Z * Z)) : SmoothLimiter :=
  match calls with
  | [] => l
  | (n, now, wake) :: calls' => wait_all (WaitN l n now wake).2 calls'
  end.

(** The clock does not go back, and a sleep lasts at least as long as asked. *)
Fixpoint clock_ok (l : SmoothLimiter) (calls : list (Z * Z * Z)) : Prop :=
  match calls with
  | [] => True
  | (n, now, wake) :: calls' =>
      0 < n /\ lastTime l <= now < 2 ^ 62 /\ now + (WaitN l n now wake).1 <= wake < 2 ^ 62 /\
      clock_ok (WaitN l n now wake).2 calls'
  end.

Fixpoint intervals (l : SmoothLimiter) (calls : list (Z * Z * Z)) : Z :=
  match calls with
  | [] => 0
  | (n, now, wake) :: calls' => expectedInterval l n + intervals (WaitN l n now wake).2 calls'
  end.

Lemma to_int64_range x : (forall y, - 2 ^ 63 <= other y < 2 ^ 63) -> - 2 ^ 63 <= to_int64 other x < 2 ^ 63.
Proof. intros H. unfold to_int64. destruct (f_trunc x); [|apply H]. split_ifs; apply H || lia. Qed.

Lemma WaitN_spaced l n now wake :
  (forall y, - 2 ^ 63 <= other y < 2 ^ 63) ->
  0 < n -> 0 < rate l -> 0 <= lastTime l <= now -> now < 2 ^ 62 ->
  exists sleep, WaitN l n now wake = (sleep, MkSmooth (rate l) wake (smoothing l)) /\ 0 <= sleep /\
    lastTime l + expectedInterval l n <= now + sleep.
Proof.
  intros Ho Hn Hr Hl Hnow.
  assert (- 2 ^ 63 <= expectedInterval l n < 2 ^ 63) as He by (by apply to_int64_range).
  unfold WaitN. rewrite (proj2 (Z.leb_gt n 0)), (proj2 (Z.leb_gt _ _)) by lia. eexists. split; [reflexivity|].
  rewrite (i64_small (now - lastTime l)) by lia.
  destruct (Z.ltb_spec (now - lastTime l) (expectedInterval l n)) as [Hlt|Hge]; [|lia].
  rewrite i64_small by lia. rewrite (proj2 (Z.ltb_lt _ _)) by lia. lia.
Qed.
End Waiting.

(** C40. Transfers that go through the limiter one after the other are spaced:
    from the limiter's last transfer to the end of a sequence of transfers at
    least the sum of their expected intervals passes, whatever the caller's
    pauses and however long the sleeps overrun. *)
Theorem transfers_paced other l calls :
  (forall y, - 2 ^ 63 <= other y < 2 ^ 63) -> 0 < rate l -> 0 <= lastTime l -> clock_ok other l calls ->
  lastTime l + intervals other l calls <= lastTime (wait_all other l calls).
Proof.
  intros Ho. revert l. induction calls as [|[[n now] wake] calls IH]; intros l Hr Hl Hc; [simpl; lia|].
  destruct Hc as (Hn & Hnow & Hwake & Hc). cbn [intervals wait_all].
  destruct (WaitN_spaced other l n now wake Ho Hn Hr) as (sleep & Hw & Hs & Hsp); [lia..|].
  rewrite Hw in *. cbn [fst snd] in *.
  specialize (IH (MkSmooth (rate l) wake (smoothing l)) Hr). cbn [lastTime] in *. specialize (IH ltac:(lia) Hc). lia.
Qed.

(** At 128 KiB/s 1500 bytes take 10899135 ns, with the factor 1.05. *)
Lemma transfers_paced_witness :
  let l := NewSmoothLimiter 1000 131072 in
  let calls := [(1500, 2000, 10900200); (1500, 30000000, 30000005)] in
  1000 + intervals (fun _ => 0) l calls <= lastTime (wait_all (fun _ => 0) l calls) /\
  expectedInterval (fun _ => 0) l 1500 = 10899135.
Proof.
  split; [|reflexivity]. apply (transfers_paced (fun _ => 0) (NewSmoothLimiter 1000 131072)); [lia|simpl; lia..|].
  vm_compute. split_and!; exact I || congruence.
Defined.
