(* ===== verification/Metrics.v ===== *)
(** * Traffic counters (common/metrics/transport.go) and their aggregation over
      the sessions of a network (vnet/server/loop.go)

    [BytesCounter] and [PacketCounter] have the same fields and operations and
    are both [Counter]. *)

From S2P Require Import Prelude GoFloat Threads.

Record Counter := MkCounter { Total : Z; Last : Z; Speed : Z }.

Definition NewCounter : Counter := MkCounter 0 0 0.

Definition Add (c : Counter) (delta : Z) : Counter := MkCounter (u64 (Total c + delta)) (Last c) (Speed c).

Definition Get (c : Counter) : Z * Z * Z := (Total c, Last c, Speed c).

Definition UpdateStats (c : Counter) : Counter :=
  let total := Total c in
  let last := Last c in
  let delta := u64 (total - last) in
  MkCounter (Total c) total (if 0 <? delta then delta else 0).

Definition counter_Reset (c : Counter) : Counter := MkCounter 0 0 0.

Record TransportMetrics := MkMetrics {
  RxBytes : Counter; RxPackets : Counter; TxBytes : Counter; TxPackets : Counter }.

Definition NewTransportMetrics : TransportMetrics := MkMetrics NewCounter NewCounter NewCounter NewCounter.

Definition UpdateAll (t : TransportMetrics) : TransportMetrics :=
  MkMetrics (UpdateStats (RxBytes t)) (UpdateStats (RxPackets t)) (UpdateStats (TxBytes t)) (UpdateStats (TxPackets t)).

Definition Reset (t : TransportMetrics) : TransportMetrics :=
  MkMetrics (counter_Reset (RxBytes t)) (counter_Reset (RxPackets t)) (counter_Reset (TxBytes t)) (counter_Reset (TxPackets t)).

Definition quote (s : string) : string := String (chr 34) (s +:+ String (chr 34) "")%string.

Definition MarshalJSON (t : TransportMetrics) : string :=
  ("{" +:+ quote "rx_bytes_total" +:+ ":" +:+ dec (Total (RxBytes t)) +:+ "," +:+
   quote "rx_bytes_speed" +:+ ":" +:+ dec (Speed (RxBytes t)) +:+ "," +:+
   quote "rx_packets_total" +:+ ":" +:+ dec (Total (RxPackets t)) +:+ "," +:+
   quote "rx_packets_speed" +:+ ":" +:+ dec (Speed (RxPackets t)) +:+ "," +:+
   quote "tx_bytes_total" +:+ ":" +:+ dec (Total (TxBytes t)) +:+ "," +:+
   quote "tx_bytes_speed" +:+ ":" +:+ dec (Speed (TxBytes t)) +:+ "," +:+
   quote "tx_packets_total" +:+ ":" +:+ dec (Total (TxPackets t)) +:+ "," +:+
   quote "tx_packets_speed" +:+ ":" +:+ dec (Speed (TxPackets t)) +:+ "}")%string.

(** ** The speed of a single value *)

Record SpeedCalculator := MkSpeed { lastTime : Z; lastValue : Z }.

Definition NewSpeedCalculator : SpeedCalculator := MkSpeed 0 0.

Definition Calculate (other : float64 -> Z) (s : SpeedCalculator) (now currentValue : Z) : Z * SpeedCalculator :=
  if lastTime s =? 0 then (0, MkSpeed now currentValue)
  else
    let elapsedNs := i64 (now - lastTime s) in
    if elapsedNs <=? 0 then (0, s)
    else
      let elapsedSec := f_div (f64 elapsedNs) (f64 1000000000) in
      let delta := u64 (currentValue - lastValue s) in
      if delta =? 0 then (0, s)
      else (to_uint64 other (f_div (f64 delta) elapsedSec), MkSpeed now currentValue).

(** ** Sessions and their network *)

(** [updateSessionMetrics]: the metrics of the session and of its network. *)
Definition updateSessionMetrics (ss network : TransportMetrics) : TransportMetrics * TransportMetrics :=
  let ss := UpdateAll ss in
  (ss, MkMetrics (Add (RxBytes network) (Speed (RxBytes ss))) (Add (RxPackets network) (Speed (RxPackets ss)))
         (Add (TxBytes network) (Speed (TxBytes ss))) (Add (TxPackets network) (Speed (TxPackets ss)))).

(** What happens to the sessions of a network: traffic counted for session [i]
    ([proxy] counts both bytes and packets), the ticker visiting session [i],
    and the ticker updating the network itself. *)
Inductive event :=
| SentBy (i : nat) (bytes : Z)
| ReceivedBy (i : nat) (bytes : Z)
| Tick (i : nat)
| TickNetwork.

Definition count_tx (m : TransportMetrics) (bytes : Z) : TransportMetrics :=
  MkMetrics (RxBytes m) (RxPackets m) (Add (TxBytes m) bytes) (Add (TxPackets m) 1).
Definition count_rx (m : TransportMetrics) (bytes : Z) : TransportMetrics :=
  MkMetrics (Add (RxBytes m) bytes) (Add (RxPackets m) 1) (TxBytes m) (TxPackets m).

Definition handle (st : list TransportMetrics * TransportMetrics) (e : event)
    : list TransportMetrics * TransportMetrics :=
  let '(sessions, network) := st in
  match e with
  | SentBy i b => (alter (fun m => count_tx m b) i sessions, network)
  | ReceivedBy i b => (alter (fun m => count_rx m b) i sessions, network)
  | Tick i =>
      match sessions !! i with
      | None => st
      | Some m => let '(m', network') := updateSessionMetrics m network in (<[i := m']> sessions, network')
      end
  | TickNetwork => (sessions, UpdateAll network)
  end.

Definition handle_all (sessions : list TransportMetrics) (network : TransportMetrics) (events : list event) :=
  foldl handle (sessions, network) events.

(** The four counters. *)
Definition counters : list (TransportMetrics -> Counter) := [RxBytes; RxPackets; TxBytes; TxPackets].

(** A network's total is what its sessions have reported. *)
Definition reported (st : list TransportMetrics * TransportMetrics) : Prop :=
  Forall (fun c => Total (c st.2) = u64 (total (fun m => Last (c m)) st.1)) counters.

Lemma u64_add_r x y : u64 (x + u64 y) = u64 (x + y).
Proof. unfold u64, uwrap. by rewrite Zplus_mod_idemp_r. Qed.

Lemma u64_add_l x y : u64 (u64 x + y) = u64 (x + y).
Proof. unfold u64, uwrap. by rewrite Zplus_mod_idemp_l. Qed.

Lemma UpdateStats_speed c : Speed (UpdateStats c) = u64 (Total c - Last c).
Proof.
  cbn [UpdateStats Speed]. pose proof (uwrap_range 64 (Total c - Last c) ltac:(lia)). unfold u64 in *.
  destruct (Z.ltb_spec 0 (uwrap 64 (Total c - Last c))); lia.
Qed.

Lemma total_alter (g : TransportMetrics -> Z) f i sessions :
  (forall m, g (f m) = g m) -> total g (alter f i sessions) = total g sessions.
Proof.
  intros Hg. revert i. induction sessions as [|m sessions IH]; intros [|i]; [done..| |].
  - simpl. by rewrite Hg.
  - simpl. f_equal. apply IH.
Qed.

(** Reporting moves a session's difference to the network. *)
Lemma report_step (c : TransportMetrics -> Counter) sessions i m m' x x' :
  sessions !! i = Some m -> Total x = u64 (total (fun m => Last (c m)) sessions) ->
  c m' = UpdateStats (c m) -> x' = Add x (Speed (c m')) ->
  Total x' = u64 (total (fun m => Last (c m)) (<[i := m']> sessions)).
Proof.
  intros Hi Hx Hc ->. rewrite (total_insert _ _ _ m) by done. cbn [Add Total].
  rewrite Hc, UpdateStats_speed, Hx, u64_add_l, u64_add_r. cbn [UpdateStats Last]. f_equal. lia.
Qed.

(** Case analysis on one of the four counters. *)
Ltac each_counter Hc :=
  unfold counters in Hc; rewrite !elem_of_cons, elem_of_nil in Hc; destruct Hc as [->|[->|[->|[->|[]]]]].

Lemma handle_reported st e : reported st -> reported (handle st e).
Proof.
  destruct st as [sessions network]. unfold reported, counters. intros H. cbn [fst snd] in H.
  assert (forall sessions' network',
    (forall c, c ∈ counters -> Total (c network) = u64 (total (fun m => Last (c m)) sessions) ->
      Total (c network') = u64 (total (fun m => Last (c m)) sessions')) ->
    reported (sessions', network')) as Hall.
  { intros sessions' network' Hc. apply Forall_forall. intros c Hin. apply Hc; [done|].
    by apply (proj1 (Forall_forall _ _) H). }
  destruct e as [i b|i b|i|]; cbn [handle].
  - apply Hall. intros c Hc ->. rewrite total_alter; [done|].
    intros m. by each_counter Hc.
  - apply Hall. intros c Hc ->. rewrite total_alter; [done|].
    intros m. by each_counter Hc.
  - destruct (sessions !! i) as [m|] eqn:Hi; [|done]. cbn [updateSessionMetrics]. apply Hall. intros c Hc Hx.
    eapply report_step; [done|exact Hx| |]; by each_counter Hc.
  - apply Hall. intros c Hc Hx. rewrite <- Hx. by each_counter Hc.
Qed.

(** The totals of a network are the sums of what its sessions counted when
    the ticker last visited them (in 64-bit arithmetic), for bytes and packets
    in both directions and whatever the order of traffic and ticks: reporting
    neither loses traffic nor counts it twice. A session that was just visited
    is accounted for completely. *)
Theorem network_totals n events :
  let '(sessions, network) := handle_all (replicate n NewTransportMetrics) NewTransportMetrics events in
  Forall (fun c => Total (c network) = u64 (total (fun m => Last (c m)) sessions)) counters /\
  forall i m, sessions !! i = Some m ->
    Forall (fun c => Last (c (updateSessionMetrics m network).1) = Total (c m)) counters.
Proof.
  assert (reported (replicate n NewTransportMetrics, NewTransportMetrics)) as H0.
  { apply Forall_forall. intros c Hc. cbn [fst snd]. rewrite total_zero.
    - by each_counter Hc.
    - apply Forall_replicate. by each_counter Hc. }
  assert (forall st, reported st -> reported (foldl handle st events)) as H1.
  { induction events as [|e events IH]; intros st Hst; [done|]. by apply IH, handle_reported. }
  specialize (H1 _ H0). unfold handle_all. destruct (foldl handle _ events) as [sessions network].
  split; [exact H1|]. intros i m _. by repeat constructor.
Qed.

Example network_totals_run :
  let '(sessions, network) := handle_all (replicate 2 NewTransportMetrics) NewTransportMetrics
    [SentBy 0 100; ReceivedBy 1 100; Tick 0; SentBy 0 7; Tick 1; Tick 0; TickNetwork; SentBy 0 1] in
  (Total (TxBytes network), Total (RxPackets network), Speed (TxBytes network)) = (107, 1, 107).
Proof. reflexivity. Qed.
