(* ===== verification/Pool.v ===== *)
(** * Object pools (common/pool/pool.go, vnet/client/hub/hub_pool.go)

    A buffered channel [ch] of at most [capacity] objects in front of a
    [sync.Pool], whose objects are [spare]: its [Get] returns one of them or a
    new object. The two source files are the same code under two names. *)

From S2P Require Import Prelude.

Record EventPool (T : Type) := MkPool { ch : list T; capacity : Z; spare : list T; newFunc : T }.
Arguments MkPool {T} ch capacity spare newFunc.
Arguments ch {T}.
Arguments capacity {T}.
Arguments spare {T}.
Arguments newFunc {T}.

Section Operations.
Context {T : Type}.

(** [sync.Pool.Get] *)
Definition spare_Get (p : EventPool T) : T * EventPool T :=
  match spare p with
  | e :: rest => (e, MkPool (ch p) (capacity p) rest (newFunc p))
  | [] => (newFunc p, p)
  end.

(** The loop that fills the channel. *)
Fixpoint prefill (n : nat) (p : EventPool T) : EventPool T :=
  match n with
  | O => p
  | S n' =>
      let '(e, p) := spare_Get p in
      prefill n' (MkPool (ch p ++ [e]) (capacity p) (spare p) (newFunc p))
  end.

Definition NewEventPool (minPoolSize : Z) (newFunc : T) : EventPool T :=
  prefill (Z.to_nat minPoolSize) (MkPool [] minPoolSize [] newFunc).

Definition Get (p : EventPool T) : T * EventPool T :=
  match ch p with
  | e :: rest => (e, MkPool rest (capacity p) (spare p) (newFunc p))
  | [] => spare_Get p
  end.

Definition Put (p : EventPool T) (e : T) : EventPool T :=
  if zlen (ch p) <? capacity p then MkPool (ch p ++ [e]) (capacity p) (spare p) (newFunc p)
  else MkPool (ch p) (capacity p) (e :: spare p) (newFunc p).

Definition Size (p : EventPool T) : Z := zlen (ch p).

(** What holds of every object a pool can hand out. *)
Definition pool_all (P : T -> Prop) (p : EventPool T) : Prop :=
  Forall P (ch p) /\ Forall P (spare p) /\ P (newFunc p).

Lemma Get_all P p : pool_all P p -> P (Get p).1 /\ pool_all P (Get p).2.
Proof.
  intros (Hc & Hs & Hn). unfold Get, spare_Get. destruct (ch p) as [|e rest] eqn:Hch.
  - destruct (spare p) as [|e rest] eqn:Hsp; simpl.
    + split; [done|]. unfold pool_all. rewrite Hch, Hsp. by split_and!.
    + apply Forall_cons in Hs as [He Hs]. by split_and!.
  - apply Forall_cons in Hc as [He Hc]. by split_and!.
Qed.

Lemma Put_all P p e : pool_all P p -> P e -> pool_all P (Put p e).
Proof.
  intros (Hc & Hs & Hn) He. unfold Put. destruct (zlen (ch p) <? capacity p); split_and!; simpl; auto.
  apply Forall_app. by split; [|constructor].
Qed.

Lemma NewEventPool_all (P : T -> Prop) n newFunc : P newFunc -> pool_all P (NewEventPool n newFunc).
Proof.
  intros Hn. unfold NewEventPool.
  assert (pool_all P (MkPool [] n [] newFunc)) as Hp by by split_and!.
  revert Hp. generalize (MkPool [] n [] newFunc). induction (Z.to_nat n) as [|k IH]; intros p Hp; [done|].
  cbn [prefill]. destruct Hp as (Hc & Hs & Hf). unfold spare_Get. destruct (spare p) as [|e rest] eqn:Hsp; apply IH.
  - split_and!; simpl; [|by rewrite Hsp|done]. apply Forall_app. by split; [|constructor].
  - inversion Hs; subst. split_and!; simpl; [|done|done]. apply Forall_app. by split; [|constructor].
Qed.
End Operations.
