(* ===== verification/Hub.v ===== *)
(** * The packet hub of a client (vnet/client/hub: hub.go, hub_event.go, hub_tx.go,
      hub_rx.go)

    Packets read from the device are routed in batches and pushed to the
    channels of their destinations; a destination's loop packs what its channel
    holds and writes it to its transport; received messages are unpacked into
    events for the device. A destination pointer is a number, a nil route value
    is [None]; channels are lists. [None] as a result is a panic. *)

From S2P Require Import Prelude Router Protocol Pool.

Record Config := MkConfig { BatchSize : Z; HeaderSize : Z; MTU : Z; MaxRxEventBuf : Z; MaxTxEventBuf : Z }.

Record txEvent := MkTx { Buffer : list (list Z); Sizes : list Z; N : Z }.

Record rxEvent := MkRx { packet : list Z; buf : list (list Z); sizes : list Z; n : Z }.

(** The functions that create events for the pools ([NewHub]). *)
Definition new_txEvent (cfg : Config) : txEvent :=
  MkTx (replicate (Z.to_nat (BatchSize cfg)) (replicate (Z.to_nat (MTU cfg + HeaderSize cfg)) 0))
    (replicate (Z.to_nat (BatchSize cfg)) 0) 0.

Definition new_rxEvent (cfg : Config) : rxEvent :=
  MkRx (replicate (Z.to_nat MaxTransportByteSize) 0)
    (replicate (Z.to_nat (BatchSize cfg)) (replicate (Z.to_nat (MTU cfg + HeaderSize cfg)) 0))
    (replicate (Z.to_nat (BatchSize cfg)) 0) 0.

Definition getTxEvent (pool : EventPool txEvent) : txEvent * EventPool txEvent := Get pool.

Definition putTxEvent (pool : EventPool txEvent) (e : txEvent) : EventPool txEvent :=
  Put pool (MkTx (Buffer e) (Sizes e) 0).

Definition getRxEvent (pool : EventPool rxEvent) : rxEvent * EventPool rxEvent := Get pool.

Definition putRxEvent (pool : EventPool rxEvent) (e : rxEvent) : EventPool rxEvent :=
  Put pool (MkRx (packet e) (buf e) (sizes e) 0).

(** ** Dispatching a batch to its destinations *)

(** The packets of an event: [e.Buffer[i][HeaderSize : e.Sizes[i]+HeaderSize]] *)
Fixpoint packet_slices (h : Z) (n : nat) (i : nat) (e : txEvent) : option (list (list Z)) :=
  match n with
  | O => Some []
  | S n' =>
      b ← Buffer e !! i;
      s ← Sizes e !! i;
      p ← slice b h (s + h);
      rest ← packet_slices h n' (S i) e;
      Some (p :: rest)
  end.

(** The loop that collects the valid routes: destination and packet index. *)
Fixpoint collect_routes (targets : list (option (option Z))) (i : nat) (validRoutes validRouteCount : Z)
    : list (Z * nat) :=
  match targets with
  | [] => []
  | t :: targets' =>
      if validRoutes <? validRouteCount then
        match t with
        | Some (Some d) => (d, i) :: collect_routes targets' (S i) (validRoutes + 1) validRouteCount
        | _ => collect_routes targets' (S i) validRoutes validRouteCount
        end
      else []
  end.

(** The destinations' channels, the batches under construction and the pool. *)
Record tx_state := MkTxState {
  chans : gmap Z (list txEvent); dstBatches : gmap Z txEvent; txEventPool : EventPool txEvent }.

(** [dst.PushTxEvent(e)], its error ignored: without a transport and with a
    negotiation that fails the event is dropped. *)
Definition push (reachable : Z -> bool) (s : tx_state) (d : Z) (e : txEvent) : tx_state :=
  if reachable d
  then MkTxState (<[d := default [] (chans s !! d) ++ [e]]> (chans s)) (dstBatches s) (txEventPool s)
  else s.

(** [copy(dst, src)] of a whole slice *)
Definition copy_slice (dst src : list Z) : list Z := take (length dst) src ++ drop (length src) dst.

(** The batch of a destination, a new one if it has none. *)
Definition batch_for (s : tx_state) (dst : Z) : txEvent * tx_state :=
  match dstBatches s !! dst with
  | Some b => (b, s)
  | None =>
      let '(b, pool) := getTxEvent (txEventPool s) in
      (b, MkTxState (chans s) (<[dst := b]> (dstBatches s)) pool)
  end.

(** One packet of the source event is added to its destination's batch. *)
Definition aggregate_one (cfg : Config) (reachable : Z -> bool) (e : txEvent) (s : tx_state) (route : Z * nat)
    : option tx_state :=
  let '(dst, srcIdx) := route in
  let '(batch, s) := batch_for s dst in
  let dstIdx := Z.to_nat (N batch) in
  to ← Buffer batch !! dstIdx;
  from ← Buffer e !! srcIdx;
  size ← Sizes e !! srcIdx;
  _ ← Sizes batch !! dstIdx;
  let batch := MkTx (<[dstIdx := copy_slice to from]> (Buffer batch)) (<[dstIdx := size]> (Sizes batch)) (N batch + 1) in
  if N batch =? BatchSize cfg
  then
    let s := push reachable s dst batch in
    Some (MkTxState (chans s) (delete dst (dstBatches s)) (txEventPool s))
  else Some (MkTxState (chans s) (<[dst := batch]> (dstBatches s)) (txEventPool s)).

Fixpoint aggregate (cfg : Config) (reachable : Z -> bool) (e : txEvent) (s : tx_state) (routes : list (Z * nat))
    : option tx_state :=
  match routes with
  | [] => Some s
  | route :: routes' => s ← aggregate_one cfg reachable e s route; aggregate cfg reachable e s routes'
  end.

(** The batches that are left are pushed, in the order of the map. *)
Definition flush (reachable : Z -> bool) (s : tx_state) : tx_state :=
  let s' :=
    foldl (fun s '(d, b) => if 0 <? N b then push reachable s d b
                            else MkTxState (chans s) (dstBatches s) (putTxEvent (txEventPool s) b))
      s (map_to_list (dstBatches s)) in
  MkTxState (chans s') ∅ (txEventPool s').

(** One round of [txLoop]. *)
Definition dispatch (cfg : Config) (reachable : Z -> bool) (router : Router (option Z)) (s : tx_state) (e : txEvent)
    : option tx_state :=
  let cnt := Z.to_nat (N e) in
  packets ← packet_slices (HeaderSize cfg) cnt 0 e;
  '(targets, validRouteCount) ← RouteBatch router packets (replicate cnt None);
  let routes := collect_routes targets 0 0 validRouteCount in
  match routes with
  | (firstDst, _) :: _ =>
      if forallb (fun '(d, _) => d =? firstDst) routes then Some (push reachable s firstDst e)
      else
        s ← aggregate cfg reachable e s routes;
        Some (flush reachable (MkTxState (chans s) (dstBatches s) (putTxEvent (txEventPool s) e)))
  | [] => Some (flush reachable (MkTxState (chans s) (dstBatches s) (putTxEvent (txEventPool s) e)))
  end.

(** ** The loop of a destination *)

(** Buffers and sizes of the first [k] packets of an event. *)
Definition event_rows (e : txEvent) (k : Z) : option (list (list Z * Z)) :=
  if (k <=? zlen (Buffer e)) && (k <=? zlen (Sizes e))
  then Some (zip (take (Z.to_nat k) (Buffer e)) (take (Z.to_nat k) (Sizes e))) else None.

(** More events are taken from the channel while slots remain; of the last one
    only what fits. [acc] is what has been collected, [taken] the events to
    return. *)
Fixpoint collect_more (maxBuf : Z) (queue : list txEvent) (acc : list (list Z * Z)) (taken : list txEvent)
    : option (list (list Z * Z) * list txEvent * list txEvent) :=
  if 0 <? maxBuf - zlen acc then
    match queue with
    | [] => Some (acc, taken, [])
    | event :: queue' =>
        if maxBuf <=? zlen taken then None
        else rows ← event_rows event (Z.min (N event) (maxBuf - zlen acc));
             collect_more maxBuf queue' (acc ++ rows) (taken ++ [event])
    end
  else Some (acc, taken, queue).

(** What one round of [txLoopN] collects: all packets of the first event, for
    which there must be room, and then as much as fits. *)
Definition collect_events (maxBuf : Z) (queue : list txEvent)
    : option (list (list Z * Z) * list txEvent * list txEvent) :=
  match queue with
  | [] => Some ([], [], [])
  | event :: queue' =>
      rows ← event_rows event (N event);
      if maxBuf <? zlen rows then None
      else if maxBuf <=? 0 then None
      else collect_more maxBuf queue' rows [event]
  end.

(** One round of [txLoopN]: the collected packets are written in one call and
    the events go back to the pool. The result of the write decides whether
    [fallbackOrReportError] is called. *)
Definition txLoopN (cfg : Config) (rnds : Z -> option (list Z)) (t : Transport) (queue : list txEvent)
    (pool : EventPool txEvent)
    : option (outcome (Z * perr) Z * Transport * list txEvent * EventPool txEvent) :=
  '(rows, taken, rest) ← collect_events (MaxTxEventBuf cfg) queue;
  let '(res, t) :=
    if 0 <? zlen rows then BatchWrite rnds rows.*1 rows.*2 (HeaderSize cfg) t else (Ret 0, t) in
  Some (res, t, rest, foldl putTxEvent pool taken).

(** One round of the loop for single packets ([txLoop] of a destination): the
    first packet of as many events as the buffers hold. *)
Definition collect_single (maxBuf : Z) (queue : list txEvent) : option (list (list Z * Z) * list txEvent * list txEvent) :=
  match queue with
  | [] => Some ([], [], [])
  | _ =>
      if maxBuf <=? 0 then None
      else
        let taken := take (Z.to_nat maxBuf) queue in
        rows ← mapM (fun e => b ← Buffer e !! 0%nat; s ← Sizes e !! 0%nat; Some (b, s)) taken;
        Some (rows, taken, drop (Z.to_nat maxBuf) queue)
  end.

Definition txLoop1 (cfg : Config) (rnds : Z -> option (list Z)) (t : Transport) (queue : list txEvent)
    (pool : EventPool txEvent)
    : option (outcome (Z * perr) Z * Transport * list txEvent * EventPool txEvent) :=
  '(rows, taken, rest) ← collect_single (MaxTxEventBuf cfg) queue;
  match rows with
  | [] => Some (Ret 0, t, rest, pool)
  | _ => let '(res, t) := BatchWrite rnds rows.*1 rows.*2 (HeaderSize cfg) t in
         Some (res, t, rest, foldl putTxEvent pool taken)
  end.

(** ** Connections of a destination *)

Section Destination.
Context {RW : Type}.

Record Destination := MkDst { tx : option RW; fallback : option RW; closed : bool }.

(** What a negotiation meets: a failed dial, or a connection with the results
    of writing the address and reading the answer. *)
Inductive dialed := DialError | Dialed (rw : RW) (write_ok : bool) (answer : option Z).

Inductive neg_error := NegDial | NegWrite | NegRead | NegP2P | NegNoConnection | NegRefused (code : Z).

Definition NegotiateResponseSuccess : Z := 1.
Definition NegotiateResponseQuotaExceeded : Z := 2.

(** [tryP2P] is the function set for direct connections, if any, and
    [afterDial] the hook of that name; both may replace the transport. *)
Definition negotiate (dial : dialed) (tryP2P : option (Destination -> bool * Destination)) (afterDial : Destination -> Destination)
    (c : Destination) : option neg_error * Destination :=
  match tx c with
  | Some _ => (None, c)
  | None =>
      match dial with
      | DialError => (Some NegDial, c)
      | Dialed _ false _ => (Some NegWrite, c)
      | Dialed _ true None => (Some NegRead, c)
      | Dialed rw true (Some code) =>
          if code =? NegotiateResponseQuotaExceeded then
            match tryP2P with
            | Some f => let '(ok, c) := f c in ((if ok then None else Some NegP2P), c)
            | None => (Some NegNoConnection, c)
            end
          else if code =? NegotiateResponseSuccess then (None, afterDial (MkDst (Some rw) (fallback c) (closed c)))
          else (Some (NegRefused code), c)
      end
  end.

(** Whether the event goes to the channel; an error is reported. *)
Definition PushTxEvent (dial : dialed) (tryP2P : option (Destination -> bool * Destination)) (afterDial : Destination -> Destination)
    (c : Destination) : option neg_error * Destination :=
  match tx c with
  | None => negotiate dial tryP2P afterDial c
  | Some _ => (None, c)
  end.

Definition ReplaceTx (fn : option RW -> option RW * bool) (c : Destination) : bool * Destination :=
  match fallback c with
  | Some _ => (false, c)
  | None =>
      let '(newOne, replaced) := fn (tx c) in
      if replaced then (true, MkDst newOne (match tx c with Some _ => tx c | None => fallback c end) (closed c))
      else (false, c)
  end.

(** Whether the error is reported with [OnError]. *)
Definition fallbackOrReportError (c : Destination) : bool * Destination :=
  match fallback c with
  | Some _ => (false, MkDst (fallback c) (fallback c) (closed c))
  | None => (true, c)
  end.

(** The transports that are closed; closing twice panics. *)
Definition Destination_Close (c : Destination) : option (list RW * Destination) :=
  if closed c then None
  else Some (option_list (fallback c) ++ option_list (tx c), MkDst (tx c) (fallback c) true).
End Destination.

(** ** Receiving *)

(** One round of the loop of [HandleRx]: [None] panics; otherwise whether the
    loop goes on, with the transport, the pool and the events for the device. *)
Definition rx_round (cfg : Config) (t : Transport) (pool : EventPool rxEvent) (rxEventChan : list rxEvent)
    : option (bool * Transport * EventPool rxEvent * list rxEvent) :=
  let offset := HeaderSize cfg in
  let '(event, pool) := getRxEvent pool in
  match ReadMessage (packet event) t with
  | (Panic, _) => None
  | (Fail (_, err), t) =>
      Some (match err with ErrInvalidMagic => true | _ => false end, t, putRxEvent pool event, rxEventChan)
  | (Ret (typ, len, data), t) =>
      let event := MkRx data (buf event) (sizes event) (n event) in
      if typ =? TypeTransport then
        b ← buf event !! 0%nat;
        _ ← sizes event !! 0%nat;
        _ ← slice b offset (offset + len);
        d ← slice data 0 len;
        let event := MkRx data (<[0%nat := blit b offset d]> (buf event)) (<[0%nat := len]> (sizes event)) 1 in
        Some (true, t, pool, rxEventChan ++ [event])
      else if typ =? TypeBatchTransport then
        d ← slice data 0 len;
        match ParseBatch d (buf event) (sizes event) offset with
        | (Panic, _, _) => None
        | (Fail _, b, s) => Some (false, t, putRxEvent pool (MkRx data b s (n event)), rxEventChan)
        | (Ret nn, b, s) => Some (true, t, pool, rxEventChan ++ [MkRx data b s nn])
        end
      else Some (true, t, pool, rxEventChan)
  end.

(** The loop, for a number of rounds; it stops when a round says so. *)
Fixpoint rx_loop (rounds : nat) (cfg : Config) (t : Transport) (pool : EventPool rxEvent) (rxEventChan : list rxEvent)
    : option (bool * Transport * EventPool rxEvent * list rxEvent) :=
  match rounds with
  | O => Some (true, t, pool, rxEventChan)
  | S k =>
      '(go, t, pool, evs) ← rx_round cfg t pool rxEventChan;
      if (go : bool) then rx_loop k cfg t pool evs else Some (false, t, pool, evs)
  end.

(** What [writeDevice] writes for an event: [event.buf[i][:event.sizes[i]]]. *)
Fixpoint device_writes (k i : nat) (e : rxEvent) : option (list (list Z)) :=
  match k with
  | O => Some []
  | S k' =>
      b ← buf e !! i;
      s ← sizes e !! i;
      d ← slice b 0 s;
      rest ← device_writes k' (S i) e;
      Some (d :: rest)
  end.

(** What [writeDeviceLinux] hands to the device: the buffers with their header
    room; the device skips [HeaderSize] bytes of each. *)
Definition writeDeviceLinux (e : rxEvent) : option (list (list Z)) := slice (buf e) 0 (n e).
