(* ===== verification/HubProps.v ===== *)
(** * Properties of the packet hub *)

From S2P Require Import Prelude Router RouterSpec RouterProps Protocol Pool Hub.

(** ** Events *)

(** The [i]th packet of an event, and all its packets. *)
Definition packet_at (h : Z) (e : txEvent) (i : nat) : list Z :=
  match Buffer e !! i, Sizes e !! i with Some b, Some s => sub_list b h (h + s) | _, _ => [] end.

Definition packets (h : Z) (e : txEvent) : list (list Z) := packet_at h e <$> seq 0 (Z.to_nat (N e)).

Section Dispatch.
Context (cfg : Config) (Hbatch : 0 < BatchSize cfg) (Hh : 0 <= HeaderSize cfg).
Local Abbreviation h := (HeaderSize cfg).

(** The dimensions every event of the hub has, an event in a pool, and an event
    with packets. *)
Definition shaped (e : txEvent) : Prop :=
  zlen (Buffer e) = BatchSize cfg /\ zlen (Sizes e) = BatchSize cfg /\
  Forall (fun b => zlen b = MTU cfg + h) (Buffer e).

Definition idle (e : txEvent) : Prop := shaped e /\ N e = 0.

Definition loaded (e : txEvent) : Prop :=
  shaped e /\ 0 <= N e <= BatchSize cfg /\
  forall i s, (i < Z.to_nat (N e))%nat -> Sizes e !! i = Some s -> 0 <= s <= MTU cfg.

Lemma loaded_at e i :
  loaded e -> (i < Z.to_nat (N e))%nat ->
  exists b s, Buffer e !! i = Some b /\ Sizes e !! i = Some s /\ zlen b = MTU cfg + h /\ 0 <= s <= MTU cfg /\
    packet_at h e i = sub_list b h (h + s).
Proof.
  intros ((Hb & Hs & Hrow) & HN & Hsz) Hi.
  destruct (lookup_lt_is_Some_2 (Buffer e) i) as [b Hbi]; [unfold zlen in *; lia|].
  destruct (lookup_lt_is_Some_2 (Sizes e) i) as [s Hsi]; [unfold zlen in *; lia|].
  exists b, s. split_and!; try done; try (by apply (Hsz i)).
  - by apply (Forall_lookup_1 _ _ _ _ Hrow Hbi).
  - unfold packet_at. by rewrite Hbi, Hsi.
Qed.

Lemma packet_slices_run e n i :
  loaded e -> (i + n <= Z.to_nat (N e))%nat -> packet_slices h n i e = Some (packet_at h e <$> seq i n).
Proof.
  intros He. revert i. induction n as [|n IH]; intros i Hi; [done|]. cbn [packet_slices].
  destruct (loaded_at e i He) as (b & s & Hb & Hs & Hlen & Hr & Hp); [lia|]. rewrite Hb, Hs. cbn [mbind option_bind].
  rewrite slice_in by lia. cbn [mbind option_bind]. rewrite IH by lia. cbn [mbind option_bind seq fmap list_fmap].
  by rewrite Hp, (Z.add_comm s).
Qed.

(** A packet added at the end of a batch. *)
Definition append_packet (b : txEvent) (row : list Z) (s : Z) : txEvent :=
  MkTx (<[Z.to_nat (N b) := row]> (Buffer b)) (<[Z.to_nat (N b) := s]> (Sizes b)) (N b + 1).

Lemma append_loaded b row s :
  loaded b -> N b < BatchSize cfg -> zlen row = MTU cfg + h -> 0 <= s <= MTU cfg ->
  loaded (append_packet b row s) /\ packets h (append_packet b row s) = packets h b ++ [sub_list row h (h + s)].
Proof.
  intros ((Hb & Hs & Hrow) & HN & Hsz) Hlt Hr Hsr. unfold append_packet, loaded, shaped, zlen in *.
  cbn [Buffer Sizes N]. rewrite !length_insert. split.
  - split_and!; try done; try lia; [by apply Forall_insert|].
    intros i s' Hi. rewrite list_lookup_insert. case_decide as Hd; [intros [= <-]; lia|].
    intros Hs'. apply (Hsz i s'); [lia|done].
  - unfold packets. cbn [N]. replace (Z.to_nat (N b + 1)) with (S (Z.to_nat (N b))) by lia.
    rewrite seq_S, fmap_app. simpl. f_equal.
    + apply list_fmap_ext. intros i j Hij. apply lookup_seq in Hij as [-> Hi]. unfold packet_at. cbn [Buffer Sizes].
      by rewrite !list_lookup_insert_ne by lia.
    + unfold packet_at. cbn [Buffer Sizes]. by rewrite !list_lookup_insert_eq by lia.
Qed.

Lemma idle_loaded e : idle e -> loaded e /\ packets h e = [].
Proof. intros [Hs HN]. unfold loaded, packets. rewrite HN. split_and!; try done; lia. Qed.

Lemma copy_slice_same (to from : list Z) : zlen to = zlen from -> copy_slice to from = from.
Proof.
  intros H. unfold copy_slice, zlen in *. rewrite firstn_all2, drop_ge, app_nil_r by lia. done.
Qed.

(** ** Aggregating packets per destination *)

Context (reachable : Z -> bool) (e : txEvent) (He : loaded e).

(** The channel of a destination. *)
Definition chan (s : tx_state) (d : Z) : list txEvent := default [] (chans s !! d).

Lemma chan_push s d e' x :
  chan (push reachable s d e') x = chan s x ++ (if decide (x = d) then if reachable d then [e'] else [] else []).
Proof.
  unfold push, chan. destruct (reachable d); [|destruct (decide _); by rewrite app_nil_r]. cbn [chans].
  destruct (decide (x = d)) as [->|Hne]; [by rewrite lookup_insert_eq|]. by rewrite lookup_insert_ne, app_nil_r.
Qed.

(** The packets of the batch under construction for a destination. *)
Definition waiting (s : tx_state) (d : Z) : list (list Z) := default [] (packets h <$> (dstBatches s !! d)).

(** The packets of a list of (destination, packet) pairs for one destination. *)
Definition for_dst (d : Z) (l : list (Z * list Z)) : list (list Z) := (filter (fun x => x.1 = d) l).*2.

(** From [s0], the pairs [hist] have been handled. *)
Record handled (s0 : tx_state) (hist : list (Z * list Z)) (s : tx_state) : Prop := {
  h_pool : pool_all idle (txEventPool s);
  h_batches d b : dstBatches s !! d = Some b -> loaded b /\ 0 < N b < BatchSize cfg;
  h_chans d : exists evs, chan s d = chan s0 d ++ (if reachable d then evs else []) /\
    Forall (fun ev => loaded ev /\ 0 < N ev) evs /\ (evs ≫= packets h) ++ waiting s d = for_dst d hist }.

Lemma for_dst_snoc d l x p : for_dst d (l ++ [(x, p)]) = for_dst d l ++ (if decide (x = d) then [p] else []).
Proof.
  unfold for_dst. rewrite filter_app, fmap_app. f_equal. rewrite filter_cons, filter_nil. cbn [fst].
  by destruct (decide (x = d)).
Qed.

Lemma batch_for_spec s0 hist s d :
  handled s0 hist s ->
  exists b s1, batch_for s d = (b, s1) /\ loaded b /\ N b < BatchSize cfg /\ packets h b = waiting s d /\
    chans s1 = chans s /\ pool_all idle (txEventPool s1) /\
    (forall x, x <> d -> dstBatches s1 !! x = dstBatches s !! x).
Proof.
  intros [Hpool Hbs _]. unfold batch_for, waiting. destruct (dstBatches s !! d) as [b|] eqn:Hd.
  - destruct (Hbs d b Hd) as [? ?]. exists b, s. split_and!; try done; lia.
  - unfold getTxEvent. destruct (Get_all idle (txEventPool s) Hpool) as [Hi1 Hi2].
    destruct (Get (txEventPool s)) as [b pool]. cbn [fst snd] in *. destruct (idle_loaded b Hi1) as [Hl Hpk].
    exists b, (MkTxState (chans s) (<[d := b]> (dstBatches s)) pool). split_and!; try done.
    + destruct Hi1 as [_ ->]. lia.
    + intros x Hx. cbn [dstBatches]. by rewrite lookup_insert_ne.
Qed.

(** Adding a packet for [d]: its batch [b'] is either kept or pushed. *)
Lemma handled_extend s0 hist s s' d p b' :
  handled s0 hist s -> pool_all idle (txEventPool s') ->
  (forall x, x <> d -> dstBatches s' !! x = dstBatches s !! x /\ chan s' x = chan s x) ->
  loaded b' -> 0 < N b' -> packets h b' = waiting s d ++ [p] ->
  (dstBatches s' !! d = Some b' /\ N b' < BatchSize cfg /\ chan s' d = chan s d) \/
  (dstBatches s' !! d = None /\ chan s' d = chan s d ++ (if reachable d then [b'] else [])) ->
  handled s0 (hist ++ [(d, p)]) s'.
Proof.
  intros [Hpool Hbs Hch] Hp' Ho Hl HN Hpk Hcase. split; [done| |].
  - intros x b Hx. destruct (decide (x = d)) as [->|Hne].
    + destruct Hcase as [(Hd & HB & _)|[Hd _]]; rewrite Hd in Hx; simplify_eq. done.
    + apply (Hbs x). by rewrite <- (proj1 (Ho x Hne)).
  - intros x. destruct (Hch x) as (evs & Hc & Hevs & Hcat). rewrite for_dst_snoc.
    destruct (decide (d = x)) as [<-|Hne].
    + destruct Hcase as [(Hd & _ & Hcd)|[Hd Hcd]].
      * exists evs. rewrite Hcd. split_and!; [done|done|]. unfold waiting at 1. rewrite Hd. cbn [fmap option_fmap].
        simpl. by rewrite Hpk, app_assoc, Hcat.
      * exists (evs ++ [b']). rewrite Hcd, Hc, <- app_assoc. split_and!.
        -- f_equal. by destruct (reachable d).
        -- apply Forall_app. by split; [|constructor].
        -- unfold waiting at 1. rewrite Hd. simpl.
           rewrite app_nil_r, bind_app. simpl. by rewrite app_nil_r, Hpk, app_assoc, Hcat.
    + destruct (Ho x) as [Hb Hc']; [congruence|]. exists evs. rewrite app_nil_r, Hc'. split_and!; [done|done|].
      unfold waiting at 1. by rewrite Hb.
Qed.

Lemma aggregate_one_step s0 hist s d i :
  handled s0 hist s -> (i < Z.to_nat (N e))%nat ->
  exists s', aggregate_one cfg reachable e s (d, i) = Some s' /\ handled s0 (hist ++ [(d, packet_at h e i)]) s'.
Proof.
  intros Hs Hi. destruct (loaded_at e i He Hi) as (from & size & Hfrom & Hsize & Hlen & Hsr & Hp).
  destruct (batch_for_spec s0 hist s d Hs) as (b & s1 & Hbf & Hb & HbN & Hw & Hc1 & Hp1 & Ho1).
  unfold aggregate_one. rewrite Hbf.
  pose proof Hb as ((Hbl & Hsl & Hrows) & HN & _).
  destruct (lookup_lt_is_Some_2 (Buffer b) (Z.to_nat (N b))) as [to Hto]; [unfold zlen in *; lia|].
  destruct (lookup_lt_is_Some_2 (Sizes b) (Z.to_nat (N b))) as [sz Hsz]; [unfold zlen in *; lia|].
  rewrite Hto, Hfrom, Hsize, Hsz. cbn [mbind option_bind].
  rewrite copy_slice_same by (rewrite Hlen; by apply (Forall_lookup_1 _ _ _ _ Hrows Hto)).
  fold (append_packet b from size). destruct (append_loaded b from size Hb HbN Hlen Hsr) as [Hal Hap].
  rewrite <- Hp in Hap. change (N (append_packet b from size)) with (N b + 1).
  destruct Hs as [Hpool Hbs Hch].
  destruct (Z.eqb_spec (N b + 1) (BatchSize cfg)) as [Hfull|Hfull]; (eexists; split; [reflexivity|]);
    (apply (handled_extend s0 hist s _ d _ (append_packet b from size)); [done|..|done|cbn; lia|by rewrite Hap, Hw|]).
  - unfold push. by destruct (reachable d).
  - intros x Hx. unfold chan at 1. cbn [dstBatches chans]. fold (chan (push reachable s1 d (append_packet b from size)) x).
    rewrite chan_push, decide_False, app_nil_r by done. unfold push.
    assert (chan s1 x = chan s x) as -> by (unfold chan; by rewrite Hc1).
    split; [|done]. rewrite lookup_delete_ne by done. destruct (reachable d); by apply Ho1.
  - right. cbn [dstBatches]. rewrite lookup_delete_eq. split; [done|]. unfold chan at 1. cbn [chans].
    fold (chan (push reachable s1 d (append_packet b from size)) d). rewrite chan_push, decide_True by done.
    unfold chan. by rewrite Hc1.
  - done.
  - intros x Hx. cbn [dstBatches]. rewrite lookup_insert_ne by done. split; [by apply Ho1|]. unfold chan. cbn [chans].
    by rewrite Hc1.
  - left. cbn [dstBatches]. rewrite lookup_insert_eq. split_and!; [done|cbn; lia|]. unfold chan. cbn [chans]. by rewrite Hc1.
Qed.

Lemma aggregate_run s0 routes hist s :
  handled s0 hist s -> Forall (fun r => (r.2 < Z.to_nat (N e))%nat) routes ->
  exists s', aggregate cfg reachable e s routes = Some s' /\
    handled s0 (hist ++ ((fun r => (r.1, packet_at h e r.2)) <$> routes)) s'.
Proof.
  intros Hs Hr. revert hist s Hs. induction Hr as [|[d i] routes Hi _ IH]; intros hist s Hs.
  { exists s. by rewrite app_nil_r. }
  destruct (aggregate_one_step s0 hist s d i Hs Hi) as (s1 & H1 & Hs1). cbn [aggregate]. rewrite H1.
  cbn [mbind option_bind]. destruct (IH _ _ Hs1) as (s2 & H2 & Hs2). exists s2. split; [done|].
  by rewrite <- app_assoc in Hs2.
Qed.

(** Pushing the rest: every destination gets its batch, if it has one. *)
Lemma flush_list l s :
  NoDup l.*1 -> Forall (fun x => 0 < N x.2) l ->
  let s' := foldl (fun s '(d, b) => if 0 <? N b then push reachable s d b
                   else MkTxState (chans s) (dstBatches s) (putTxEvent (txEventPool s) b)) s l in
  txEventPool s' = txEventPool s /\
  forall d, chan s' d = chan s d ++ (if reachable d then (filter (fun x => x.1 = d) l).*2 else []).
Proof.
  revert s. induction l as [|[x b] l IH]; intros s Hnd HN; simpl.
  { split; [done|]. intros d. destruct (reachable d); by rewrite app_nil_r. }
  apply NoDup_cons in Hnd as [_ Hnd]. apply Forall_cons in HN as [Hb HN]. cbn [snd] in Hb.
  rewrite (proj2 (Z.ltb_lt _ _)) by done. destruct (IH (push reachable s x b) Hnd HN) as [Hp Hc]. split.
  - rewrite Hp. unfold push. by destruct (reachable x).
  - intros d. rewrite Hc, chan_push, <- app_assoc. f_equal. rewrite filter_cons. cbn [fst].
    destruct (decide (d = x)) as [->|Hne].
    + rewrite decide_True by done. by destruct (reachable x).
    + rewrite decide_False by congruence. done.
Qed.

Lemma filter_absent d (l : list (Z * txEvent)) : d ∉ l.*1 -> filter (fun x => x.1 = d) l = [].
Proof.
  induction l as [|[x b] l IH]; [done|]. cbn [fmap list_fmap fst]. intros [Hx Hl]%not_elem_of_cons.
  rewrite filter_cons. cbn [fst]. rewrite decide_False by congruence. by apply IH.
Qed.

Lemma filter_present d b (l : list (Z * txEvent)) :
  NoDup l.*1 -> (d, b) ∈ l -> filter (fun x => x.1 = d) l = [(d, b)].
Proof.
  induction l as [|[x c] l IH]; [by intros _ ?%elem_of_nil|]. cbn [fmap list_fmap fst].
  intros [Hx Hnd]%NoDup_cons Hin. rewrite filter_cons. cbn [fst]. apply elem_of_cons in Hin as [[= <- <-]|Hin].
  - rewrite decide_True by done. by rewrite filter_absent.
  - rewrite decide_False; [by apply IH|]. intros ->. apply Hx. apply list_elem_of_fmap. by exists (d, b).
Qed.

Lemma filter_key (m : gmap Z txEvent) d :
  (filter (fun x : Z * txEvent => x.1 = d) (map_to_list m)).*2 = default [] ((fun b => [b]) <$> m !! d).
Proof.
  destruct (m !! d) as [b|] eqn:Hd.
  - rewrite (filter_present d b); [done|apply NoDup_fst_map_to_list|by apply elem_of_map_to_list].
  - rewrite filter_absent; [done|]. intros ([x b] & Hx & Hin)%list_elem_of_fmap. simpl in Hx. subst x.
    apply elem_of_map_to_list in Hin. congruence.
Qed.

Lemma flush_run s0 hist s :
  handled s0 hist s ->
  let s' := flush reachable s in
  dstBatches s' = ∅ /\ pool_all idle (txEventPool s') /\
  forall d, exists evs, chan s' d = chan s0 d ++ (if reachable d then evs else []) /\
    Forall (fun ev => loaded ev /\ 0 < N ev) evs /\ (evs ≫= packets h) = for_dst d hist.
Proof.
  intros [Hpool Hbs Hch] s'. subst s'. unfold flush. cbn [dstBatches txEventPool].
  destruct (flush_list (map_to_list (dstBatches s)) s) as [Hp Hc].
  - apply NoDup_fst_map_to_list.
  - apply Forall_forall. intros [x b] Hin%elem_of_map_to_list. destruct (Hbs x b Hin). simpl. lia.
  - split_and!; [done|by rewrite Hp|]. intros d. destruct (Hch d) as (evs & Hcd & Hevs & Hcat).
    exists (evs ++ default [] ((fun b => [b]) <$> dstBatches s !! d)). unfold waiting in Hcat. split_and!.
    + etransitivity; [exact (Hc d)|]. rewrite filter_key, Hcd, <- app_assoc. by destruct (reachable d).
    + apply Forall_app. split; [done|]. destruct (dstBatches s !! d) as [b|] eqn:Hd; [|constructor].
      destruct (Hbs d b Hd). apply Forall_singleton. split; [done|lia].
    + rewrite bind_app, <- Hcat. f_equal. destruct (dstBatches s !! d); [|done]. simpl. by rewrite app_nil_r.
Qed.

(** ** Routes *)

(** Destination and index of every packet that has a destination. *)
Fixpoint all_routes (targets : list (option (option Z))) (i : nat) : list (Z * nat) :=
  match targets with
  | [] => []
  | t :: targets' =>
      match mjoin t with
      | Some d => (d, i) :: all_routes targets' (S i)
      | None => all_routes targets' (S i)
      end
  end.

Lemma collect_all targets i valid count :
  valid + zlen (all_routes targets i) <= count -> collect_routes targets i valid count = all_routes targets i.
Proof.
  revert i valid. induction targets as [|t targets IH]; intros i valid Hc; [done|]. cbn [collect_routes].
  destruct (Z.ltb_spec valid count) as [Hlt|Hge].
  - cbn [all_routes] in *. destruct t as [[d|]|]; cbn [mjoin option_join] in *;
      [rewrite zlen_cons in Hc; f_equal|..]; apply IH; lia.
  - destruct (all_routes (t :: targets) i) as [|r l]; [done|]. rewrite zlen_cons in Hc.
    pose proof (zlen_nonneg l). lia.
Qed.

Lemma all_routes_count targets i : zlen (all_routes targets i) <= zlen (filter is_Some targets).
Proof.
  revert i. induction targets as [|t targets IH]; intros i; [done|]. specialize (IH (S i)). cbn [all_routes].
  rewrite filter_cons. destruct t as [[d|]|]; cbn [mjoin option_join].
  - rewrite decide_True by by eexists. rewrite !zlen_cons. lia.
  - rewrite decide_True by by eexists. rewrite zlen_cons. lia.
  - rewrite decide_False by by intros [? ?]. done.
Qed.

Lemma all_routes_range targets i : Forall (fun r => (r.2 < i + length targets)%nat) (all_routes targets i).
Proof.
  revert i. induction targets as [|t targets IH]; intros i; [constructor|]. cbn [all_routes].
  assert (Forall (fun r => (r.2 < i + length (t :: targets))%nat) (all_routes targets (S i))) as H.
  { eapply Forall_impl; [apply IH|]. intros r Hr. simpl in *. lia. }
  destruct (mjoin t); [|done]. constructor; [simpl; lia|done].
Qed.

Lemma all_routes_for route d ps i :
  (forall k p, ps !! k = Some p -> packet_at h e (i + k) = p) ->
  for_dst d ((fun r => (r.1, packet_at h e r.2)) <$> all_routes (route <$> ps) i) =
  filter (fun p => mjoin (route p) = Some d) ps.
Proof.
  revert i. induction ps as [|p ps IH]; intros i Hp; [done|].
  specialize (IH (S i)). cbn [fmap list_fmap all_routes]. rewrite filter_cons.
  assert (forall k q, ps !! k = Some q -> packet_at h e (S i + k) = q) as Hps
    by (intros k q Hk; rewrite <- (Hp (S k) q Hk); f_equal; lia).
  specialize (IH Hps). specialize (Hp 0%nat p eq_refl). rewrite Nat.add_0_r in Hp.
  destruct (mjoin (route p)) as [x|] eqn:Hx.
  - unfold for_dst in *. cbn [fmap list_fmap]. rewrite filter_cons. cbn [fst]. destruct (decide (x = d)) as [->|Hne].
    + rewrite decide_True by done. cbn [fmap list_fmap snd]. rewrite Hp. by f_equal.
    + by rewrite decide_False by congruence.
  - by rewrite decide_False by congruence.
Qed.

Lemma all_routes_elem (route : list Z -> option (option Z)) ps i d :
  (exists k, (d, k) ∈ all_routes (route <$> ps) i) <-> exists p, p ∈ ps /\ mjoin (route p) = Some d.
Proof.
  revert i. induction ps as [|p ps IH]; intros i.
  { split; [intros [k Hk%elem_of_nil]|intros (p & Hp%elem_of_nil & _)]; done. }
  cbn [fmap list_fmap all_routes]. specialize (IH (S i)). destruct (mjoin (route p)) as [x|] eqn:Hx.
  - setoid_rewrite elem_of_cons. split.
    + intros [k [[= <- <-]|Hk]]; [by exists p; auto|]. destruct (proj1 IH) as (q & Hq & Hd); [by exists k|]. exists q. auto.
    + intros (q & [->|Hq] & Hd); [exists i; left; congruence|]. destruct (proj2 IH) as [k Hk]; [by exists q|]. eauto.
  - rewrite IH. split; intros (q & Hq & Hd); exists q; (split; [|done]).
    + by right.
    + apply elem_of_cons in Hq as [->|Hq]; [congruence|done].
Qed.
End Dispatch.

(** C27. A batch read from the device reaches the right destinations. When all
    routable packets belong to one destination the event itself is pushed to it,
    with every packet it holds (also those without a route); otherwise every
    reachable destination gets exactly its packets, in order, in events that
    are not empty, and packets without a route are dropped. No batch stays
    behind, and all events in the pool are empty ones. *)
Theorem dispatch_delivers cfg reachable r route e s :
  0 < BatchSize cfg -> 0 <= HeaderSize cfg ->
  BatchRouter r route -> loaded cfg e -> pool_all (idle cfg) (txEventPool s) -> dstBatches s = ∅ ->
  let ps := packets (HeaderSize cfg) e in
  let dest p := mjoin (route p) in
  exists s', dispatch cfg reachable r s e = Some s' /\ dstBatches s' = ∅ /\ pool_all (idle cfg) (txEventPool s') /\
    ((exists d, (exists p, p ∈ ps /\ dest p = Some d) /\ Forall (fun p => dest p = Some d \/ dest p = None) ps /\
        s' = push reachable s d e) \/
     forall d, exists evs, chan s' d = chan s d ++ (if reachable d then evs else []) /\
        Forall (fun ev => loaded cfg ev /\ 0 < N ev) evs /\
        (evs ≫= packets (HeaderSize cfg)) = filter (fun p => dest p = Some d) ps).
Proof.
  intros HB Hh Hr He Hpool Hbs ps dest. set (h := HeaderSize cfg) in *.
  assert (length ps = Z.to_nat (N e)) as Hlen by (unfold ps, packets; by rewrite length_fmap, length_seq).
  unfold dispatch. rewrite (packet_slices_run cfg HB Hh e _ 0) by (done || lia).
  change (packet_at (HeaderSize cfg) e <$> seq 0 (Z.to_nat (N e))) with ps. cbn [mbind option_bind].
  rewrite (route_batch (r := r) (route := route)) by (by rewrite length_replicate). cbn [mbind option_bind].
  rewrite collect_all by (rewrite Z.add_0_l; apply all_routes_count).
  set (routes := all_routes (route <$> ps) 0).
  assert (Forall (fun r => (r.2 < Z.to_nat (N e))%nat) routes) as Hrange.
  { eapply Forall_impl; [apply all_routes_range|]. intros x Hx. rewrite length_fmap, Hlen in Hx. lia. }
  (* the batches of the aggregation, with the source event put back *)
  assert (exists s1, aggregate cfg reachable e s routes = Some s1 /\
    let s' := flush reachable (MkTxState (chans s1) (dstBatches s1) (putTxEvent (txEventPool s1) e)) in
    dstBatches s' = ∅ /\ pool_all (idle cfg) (txEventPool s') /\
    forall d, exists evs, chan s' d = chan s d ++ (if reachable d then evs else []) /\
      Forall (fun ev => loaded cfg ev /\ 0 < N ev) evs /\
      (evs ≫= packets h) = filter (fun p => dest p = Some d) ps) as (s1 & Hs1 & Hflush).
  { destruct (aggregate_run cfg HB reachable e He s routes [] s) as (s1 & H1 & [Hp1 Hb1 Hc1]); [|done|].
    - split; [done| |].
      + intros d b. by rewrite Hbs, lookup_empty.
      + intros d. exists []. unfold waiting. rewrite Hbs, lookup_empty. split_and!; [|constructor|done].
        destruct (reachable d); by rewrite app_nil_r.
    - exists s1. split; [done|].
      assert (handled cfg reachable s ([] ++ ((fun r => (r.1, packet_at h e r.2)) <$> routes))
        (MkTxState (chans s1) (dstBatches s1) (putTxEvent (txEventPool s1) e))) as Hh1.
      { split; [|done|done]. apply Put_all; [done|]. destruct He as [Hsh _]. by split. }
      destruct (flush_run cfg reachable _ _ _ Hh1) as (F1 & F2 & F3). split_and!; [done|done|].
      intros d. destruct (F3 d) as (evs & E1 & E2 & E3). exists evs. split_and!; [done|done|].
      etransitivity; [exact E3|]. apply (all_routes_for cfg e route d ps 0). intros k p Hk. unfold ps, packets in Hk.
      apply list_lookup_fmap_Some_1 in Hk as (j & -> & Hj). apply lookup_seq in Hj as [-> _]. done. }
  destruct routes as [|[d0 i0] routes'] eqn:Hroutes.
  - injection Hs1 as <-. eexists. split; [reflexivity|]. destruct Hflush as (F1 & F2 & F3). by split_and!; auto.
  - destruct (forallb _ _) eqn:Hsame.
    + exists (push reachable s d0 e). split_and!; [done|unfold push; by destruct (reachable d0)..|]. left. exists d0.
      split_and!; [|apply Forall_forall; intros p Hp|done].
      * apply (all_routes_elem route ps 0 d0). exists i0. fold routes. rewrite Hroutes. by left.
      * unfold dest. destruct (mjoin (route p)) as [x|] eqn:Hx; [left|by right].
        destruct (proj2 (all_routes_elem route ps 0 x)) as [k Hk]; [by exists p|]. fold routes in Hk.
        rewrite Hroutes in Hk. apply list_elem_of_In in Hk. rewrite forallb_forall in Hsame.
        specialize (Hsame _ Hk). simpl in Hsame. apply Z.eqb_eq in Hsame. congruence.
    + rewrite Hs1. cbn [mbind option_bind]. eexists. split; [reflexivity|].
      destruct Hflush as (F1 & F2 & F3). by split_and!; auto.
Qed.

Definition two_hosts : list (route_op (option Z)) :=
  [OpRegister "10.0.0.1/32" (Some 1); OpRegister "10.0.0.2/32" (Some 2)].

Definition host_packet (d : Z) : list Z := [69; 0; 0; 20; 0; 0; 0; 0; 64; 6; 0; 0; 10; 0; 0; 9; 10; 0; 0; d].

Definition small_cfg : Config := MkConfig 2 1 20 4 4.

Definition two_packets : txEvent := MkTx [0 :: host_packet 1; 0 :: host_packet 2] [20; 20] 2.

Lemma two_packets_loaded : loaded small_cfg two_packets.
Proof.
  split_and!; try done; [by repeat constructor|]. intros [|[|i]] s Hi Hs; simpl in *; simplify_eq; lia.
Qed.

Lemma new_txEvent_idle : idle small_cfg (new_txEvent small_cfg).
Proof. split_and!; try done. by repeat constructor. Qed.

Lemma dispatch_delivers_witness :
  let s := MkTxState ∅ ∅ (NewEventPool 1 (new_txEvent small_cfg)) in
  exists r s', run_ops two_hosts NewRouter = Some r /\ dispatch small_cfg (fun _ => true) r s two_packets = Some s' /\
    dstBatches s' = ∅ /\ pool_all (idle small_cfg) (txEventPool s').
Proof.
  intros s. set (r := default NewRouter (run_ops two_hosts NewRouter)).
  destruct (reachable_tables r) as (t & Hr & _).
  { exists two_hosts. split; [repeat constructor|]. vm_compute. reflexivity. }
  destruct (dispatch_delivers small_cfg (fun _ => true) r (spec_packet t) two_packets s)
    as (s' & H1 & H2 & H3 & _); [done|done|by apply represents_batch_router|apply two_packets_loaded| |done|].
  - apply NewEventPool_all, new_txEvent_idle.
  - exists r, s'. split; [vm_compute; reflexivity|done].
Defined.

(** The two destinations get one event each. *)
Example dispatch_run :
  (fun s => (fun evs => evs ≫= packets 1) <$> chans s) <$>
    (r ← run_ops two_hosts NewRouter;
     dispatch small_cfg (fun _ => true) r (MkTxState ∅ ∅ (NewEventPool 1 (new_txEvent small_cfg))) two_packets) =
  Some (<[1 := [host_packet 1]]> (<[2 := [host_packet 2]]> ∅)).
Proof. vm_compute. reflexivity. Qed.
