(* ===== verification/HubFlow.v ===== *)
(** * Packets from the device of one client to the device of another *)

From S2P Require Import Prelude Protocol ProtocolSteps ProtocolProps Codecs BatchProps TransportProps.
From S2P Require Import Pool Hub HubProps.

(** ** What a destination's loop collects *)

Section Collect.
Context (cfg : Config) (Hbatch : 0 < BatchSize cfg) (Hh : 0 <= HeaderSize cfg).
Local Abbreviation h := (HeaderSize cfg).

(** A buffer with the size of its packet. *)
Definition row_packet (x : list Z * Z) : list Z := sub_list x.1 h (h + x.2).
Definition row_ok (x : list Z * Z) : Prop := zlen x.1 = MTU cfg + h /\ 0 <= x.2 <= MTU cfg.

Lemma event_rows_run e k :
  loaded cfg e -> 0 <= k <= N e ->
  exists rows, event_rows e k = Some rows /\ row_packet <$> rows = take (Z.to_nat k) (packets h e) /\
    Forall row_ok rows /\ zlen rows = k.
Proof.
  intros He Hk. pose proof He as ((Hb & Hs & _) & HN & _). unfold event_rows.
  rewrite !(proj2 (Z.leb_le _ _)) by lia. cbn [andb]. eexists. split; [reflexivity|].
  set (rows := zip _ _). assert (length rows = Z.to_nat k) as Hlen.
  { unfold rows. rewrite length_zip, !length_take. unfold zlen in *. lia. }
  assert (forall i x, rows !! i = Some x -> row_ok x /\ row_packet x = packet_at h e i) as Hrow.
  { intros i [b s] Hi. pose proof (lookup_lt_Some _ _ _ Hi) as Hlt. apply lookup_zip_Some in Hi as [Hbi Hsi].
    cbn [fst snd] in Hbi, Hsi. rewrite lookup_take_lt in Hbi by lia. rewrite lookup_take_lt in Hsi by lia.
    destruct (loaded_at cfg Hbatch e i He) as (b' & s' & Eb & Es & Hl & Hr & Hp); [lia|].
    simplify_eq/=. by split. }
  split_and!.
  - unfold packets. rewrite <- fmap_take, take_seq. apply list_eq. intros i. rewrite !list_lookup_fmap.
    destruct (rows !! i) as [x|] eqn:Hi.
    + pose proof (lookup_lt_Some _ _ _ Hi). rewrite lookup_seq_lt by lia. simpl. f_equal. by apply Hrow.
    + apply lookup_ge_None in Hi. rewrite lookup_seq_ge by lia. done.
  - apply Forall_lookup. intros i x Hi. by apply (Hrow i).
  - unfold zlen. lia.
Qed.

Lemma zlen_packets e : 0 <= N e -> zlen (packets h e) = N e.
Proof. intros. unfold packets, zlen. rewrite length_fmap, length_seq. lia. Qed.

Lemma take_app_z {A} (n : Z) (l1 l2 : list A) :
  0 <= n -> take (Z.to_nat n) (l1 ++ l2) =
  take (Z.to_nat (Z.min (zlen l1) n)) l1 ++ take (Z.to_nat (n - Z.min (zlen l1) n)) l2.
Proof.
  intros Hn. rewrite take_app. unfold zlen. f_equal.
  - destruct (decide (Z.of_nat (length l1) <= n)).
    + rewrite !take_ge by lia. done.
    + f_equal. lia.
  - f_equal. lia.
Qed.

Lemma collect_more_run maxBuf queue acc taken :
  Forall (fun e => loaded cfg e /\ 0 < N e) queue -> zlen taken <= zlen acc <= maxBuf ->
  exists rows more rest, collect_more maxBuf queue acc taken = Some (acc ++ rows, taken ++ more, rest) /\
    queue = more ++ rest /\ Forall row_ok rows /\
    row_packet <$> rows = take (Z.to_nat (maxBuf - zlen acc)) (more ≫= packets h) /\
    (rest = [] \/ maxBuf <= zlen acc + zlen (more ≫= packets h)).
Proof.
  intros Hq. revert acc taken. induction Hq as [|e queue [He HN] Hq IH]; intros acc taken Ht; cbn [collect_more].
  - exists [], [], []. rewrite !app_nil_r. split_and!; try done; [|by cbn; rewrite take_nil|by left].
    by destruct (0 <? maxBuf - zlen acc).
  - destruct (Z.ltb_spec 0 (maxBuf - zlen acc)) as [Hlt|Hge].
    2:{ exists [], [], (e :: queue). rewrite !app_nil_r. split_and!; try done; [by cbn; rewrite take_nil|right].
        cbn [mbind list_bind]. rewrite zlen_nil. lia. }
    rewrite (proj2 (Z.leb_gt _ _)) by lia.
    destruct (event_rows_run e (Z.min (N e) (maxBuf - zlen acc)) He) as (rows & -> & Hp & Hok & Hz); [lia|].
    cbn [mbind option_bind].
    destruct (IH (acc ++ rows) (taken ++ [e])) as (rows' & more & rest & Hrun & Hqq & Hok' & Hp' & Hend).
    { rewrite !zlen_app, Hz, zlen_cons, zlen_nil. lia. }
    exists (rows ++ rows'), (e :: more), rest. rewrite <- !app_assoc in Hrun. rewrite Hrun, Hqq.
    rewrite zlen_app, Hz in Hp', Hend. cbn [mbind list_bind]. split_and!; try done.
    + by apply Forall_app.
    + rewrite fmap_app, Hp, Hp', take_app_z, zlen_packets by lia. do 2 f_equal. lia.
    + rewrite zlen_app, zlen_packets by lia. destruct Hend as [->|Hend]; [by left|right]. lia.
Qed.
End Collect.

Lemma collect_events_run cfg e queue :
  0 < BatchSize cfg -> Forall (fun e => loaded cfg e /\ 0 < N e) (e :: queue) -> N e <= MaxTxEventBuf cfg ->
  exists rows taken rest, collect_events (MaxTxEventBuf cfg) (e :: queue) = Some (rows, taken, rest) /\
    taken ++ rest = e :: queue /\ Forall (row_ok cfg) rows /\
    row_packet cfg <$> rows =
      take (Z.to_nat (MaxTxEventBuf cfg)) (taken ≫= packets (HeaderSize cfg)) /\
    (rest = [] \/ MaxTxEventBuf cfg <= zlen (taken ≫= packets (HeaderSize cfg))).
Proof.
  intros HB [[He HN] Hq]%Forall_cons Hmax. unfold collect_events.
  destruct (event_rows_run cfg HB e (N e) He) as (rows & -> & Hp & Hok & Hz); [lia|]. cbn [mbind option_bind].
  rewrite (proj2 (Z.ltb_ge _ _)), (proj2 (Z.leb_gt _ _)) by lia.
  destruct (collect_more_run cfg HB (MaxTxEventBuf cfg) queue rows [e] Hq)
    as (rows' & more & rest & Hrun & -> & Hok' & Hp' & Hend).
  { rewrite zlen_cons, zlen_nil. lia. }
  exists (rows ++ rows'), ([e] ++ more), rest. split_and!; try done.
  - by apply Forall_app.
  - rewrite bind_app. cbn [mbind list_bind]. rewrite app_nil_r, fmap_app, take_app_z, zlen_packets by lia.
    rewrite Hp, Hp', Hz. do 3 f_equal; lia.
  - destruct Hend as [->|Hend]; [by left|right]. rewrite bind_app, zlen_app. cbn [mbind list_bind].
    rewrite app_nil_r, zlen_packets by lia. lia.
Qed.

(** With room for all packets the whole channel is taken. *)
Lemma collect_all_fit cfg taken rest :
  Forall (fun e => loaded cfg e /\ 0 < N e) (taken ++ rest) ->
  zlen ((taken ++ rest) ≫= packets (HeaderSize cfg)) <= MaxTxEventBuf cfg ->
  (rest = [] \/ MaxTxEventBuf cfg <= zlen (taken ≫= packets (HeaderSize cfg))) ->
  rest = [] /\ take (Z.to_nat (MaxTxEventBuf cfg)) (taken ≫= packets (HeaderSize cfg)) =
               (taken ++ rest) ≫= packets (HeaderSize cfg).
Proof.
  intros Hq Hfit Hend. assert (rest = []) as ->.
  { destruct Hend as [|Hend]; [done|]. destruct rest as [|e rest]; [done|]. exfalso.
    apply Forall_app in Hq as [_ [[He HN] _]%Forall_cons]. rewrite bind_app, zlen_app in Hfit. cbn [mbind list_bind] in Hfit.
    rewrite zlen_app, zlen_packets in Hfit by lia.
    pose proof (zlen_nonneg (rest ≫= packets (HeaderSize cfg))). lia. }
  split; [done|]. rewrite app_nil_r in *. apply take_ge. unfold zlen in Hfit. lia.
Qed.

(** A round of a destination's loop takes events from the front of its
    channel, until the channel is empty or the buffer is full, and writes their
    packets in order. When the packets of the channel fit the buffer all of
    them are written; otherwise those of the last event taken that do not fit
    are lost, since the event goes back to the pool. *)
Theorem collect_events_packs cfg e queue :
  0 < BatchSize cfg -> Forall (fun e => loaded cfg e /\ 0 < N e) (e :: queue) -> N e <= MaxTxEventBuf cfg ->
  exists rows taken rest, collect_events (MaxTxEventBuf cfg) (e :: queue) = Some (rows, taken, rest) /\
    taken ++ rest = e :: queue /\
    row_packet cfg <$> rows =
      take (Z.to_nat (MaxTxEventBuf cfg)) (taken ≫= packets (HeaderSize cfg)) /\
    (rest = [] \/ MaxTxEventBuf cfg <= zlen (taken ≫= packets (HeaderSize cfg))) /\
    (zlen ((e :: queue) ≫= packets (HeaderSize cfg)) <= MaxTxEventBuf cfg ->
       rest = [] /\ row_packet cfg <$> rows = (e :: queue) ≫= packets (HeaderSize cfg)).
Proof.
  intros HB Hq Hmax. destruct (collect_events_run cfg e queue HB Hq Hmax)
    as (rows & taken & rest & Hrun & Hcat & _ & Hp & Hend).
  exists rows, taken, rest. split_and!; try done. intros Hfit. rewrite <- Hcat in *.
  destruct (collect_all_fit cfg taken rest Hq Hfit Hend) as [-> Hall]. by rewrite Hp.
Qed.

Lemma collect_events_packs_witness :
  exists rows taken rest, collect_events 4 [two_packets; two_packets; two_packets] = Some (rows, taken, rest) /\
    taken ++ rest = [two_packets; two_packets; two_packets] /\
    row_packet small_cfg <$> rows = take 4 (taken ≫= packets 1).
Proof.
  destruct (collect_events_packs small_cfg two_packets [two_packets; two_packets])
    as (rows & taken & rest & H1 & H2 & H3 & _).
  - done.
  - repeat apply Forall_cons_2; [split; [apply two_packets_loaded|done]..|apply Forall_nil_2].
  - done.
  - by exists rows, taken, rest.
Defined.

(** ** Receiving batches *)

Definition rx_packet_at (h : Z) (e : rxEvent) (i : nat) : list Z :=
  match buf e !! i, sizes e !! i with Some b, Some s => sub_list b h (h + s) | _, _ => [] end.

Definition rx_packets (h : Z) (e : rxEvent) : list (list Z) := rx_packet_at h e <$> seq 0 (Z.to_nat (n e)).

Section Receive.
Context (cfg : Config) (Hh : 0 <= HeaderSize cfg).
Local Abbreviation h := (HeaderSize cfg).

Definition rx_shaped (e : rxEvent) : Prop :=
  zlen (packet e) = 65535 /\ zlen (buf e) = BatchSize cfg /\ zlen (sizes e) = BatchSize cfg /\
  Forall (fun b => zlen b = MTU cfg + h) (buf e).

(** A batch the receiver has room for. *)
Definition fits (ch : list (list Z)) : Prop :=
  zlen ch <= BatchSize cfg /\ zlen (batch_body ch) <= 65528 /\ Forall (fun d => zlen d <= MTU cfg) ch.

Lemma batch_body_parts ch :
  zlen (batch_body ch) <= 65528 -> zlen ch < 65536 /\ Forall (fun d => zlen d < 65536) ch.
Proof.
  unfold batch_body. rewrite !zlen_app, zlen_be2, zlen_sizes_bytes, zlen_fmap. intros H.
  pose proof (zlen_nonneg ch). pose proof (zlen_nonneg (concat ch)). split; [lia|].
  assert (forall l : list (list Z), Forall (fun d => zlen d <= zlen (concat l)) l) as Hl.
  { induction l as [|d l IH]; [constructor|]. cbn [concat]. rewrite zlen_app. pose proof (zlen_nonneg (concat l)).
    constructor; [lia|]. eapply Forall_impl; [exact IH|]. intros x Hx. simpl in Hx. pose proof (zlen_nonneg d). lia. }
  eapply Forall_impl; [apply Hl|]. intros d Hd. simpl in Hd. lia.
Qed.

(** The event a batch is unpacked into. *)
Lemma unpack_packets e ch data :
  rx_shaped e -> fits ch ->
  exists b s, ParseBatch (batch_body ch) (buf e) (sizes e) h = (Ret (zlen ch), b, s) /\
    rx_packets h (MkRx data b s (zlen ch)) = ch.
Proof using Hh.
  intros (Hp & Hb & Hs & Hrows) (Hn & Hbody & Hmtu). destruct (batch_body_parts ch Hbody) as [H1 H2].
  assert (Forall2 (fun b d => h + zlen d <= zlen b) (take (length ch) (buf e)) ch) as Hfit.
  { apply Forall2_same_length_lookup. split; [rewrite length_take; unfold zlen in *; lia|].
    intros i b d Hbi Hdi. rewrite lookup_take_lt in Hbi by (by eapply lookup_lt_Some).
    pose proof (Forall_lookup_1 _ _ _ _ Hrows Hbi). pose proof (Forall_lookup_1 _ _ _ _ Hmtu Hdi). simpl in *. lia. }
  eexists _, _. split; [apply ParseBatch_run; auto; unfold zlen in *; lia|].
  destruct (fill_spec h (buf e) ch Hh Hfit) as [Hfill _].
  unfold rx_packets. cbn [n]. replace (Z.to_nat (zlen ch)) with (length ch) by (unfold zlen; lia). apply list_eq. intros i. rewrite list_lookup_fmap.
  destruct (ch !! i) as [d|] eqn:Hd.
  - rewrite lookup_seq_lt by (by eapply lookup_lt_Some). simpl. f_equal. unfold rx_packet_at. cbn [buf sizes].
    destruct (Hfill i d Hd) as (b & -> & Hsl). rewrite lookup_app_l by (rewrite length_fmap; by eapply lookup_lt_Some).
    rewrite list_lookup_fmap, Hd. cbn [fmap option_fmap option_map]. apply slice_Some in Hsl as [Hsl _]. by symmetry.
  - apply lookup_ge_None in Hd. by rewrite lookup_seq_ge by lia.
Qed.

Lemma rx_round_batch t pool evs wire rest ch :
  wf t -> pool_all rx_shaped pool -> fits ch ->
  carries (options t) (magic (options t)) wire TypeBatchTransport (batch_body ch) ->
  u_in (upstream t) = wire ++ rest ->
  exists t' pool' ev, rx_round cfg t pool evs = Some (true, t', pool', evs ++ [ev]) /\ rx_packets h ev = ch /\
    wf t' /\ options t' = options t /\ u_in (upstream t') = rest /\ pool_all rx_shaped pool'.
Proof using Hh.
  intros Hwf Hpool Hfit Hc Hin. unfold rx_round, getRxEvent.
  destruct (Get_all rx_shaped pool Hpool) as [He Hpool']. destruct (Get pool) as [e pool']. cbn [fst snd] in *.
  pose proof Hfit as (_ & Hbody & _). pose proof He as (Hpk & _).
  destruct (ReadMessage_run wire TypeBatchTransport (batch_body ch) rest (packet e) t Hwf Hc Hbody)
    as (t' & Hrun & Hwf' & Ho & Hu); [done|done|].
  rewrite Hrun. cbv beta iota. change (TypeBatchTransport =? TypeTransport) with false.
  change (TypeBatchTransport =? TypeBatchTransport) with true. cbv iota.
  assert (slice (copy_out (packet e) (batch_body ch)) 0 (zlen (batch_body ch)) = Some (batch_body ch)) as ->.
  { pose proof (zlen_nonneg (batch_body ch)).
    assert (zlen (copy_out (packet e) (batch_body ch)) = 65535) as Hz.
    { rewrite copy_out_app. unfold zlen in *. rewrite length_app, length_take, length_drop. lia. }
    rewrite slice_in by lia. f_equal. unfold sub_list. rewrite Z.sub_0_r. cbn [Z.to_nat drop].
    apply take_copy_out. lia. }
  cbn [mbind option_bind buf sizes].
  destruct (unpack_packets e ch (copy_out (packet e) (batch_body ch)) He Hfit) as (b & s & -> & Hpk').
  eexists t', pool', _. split; [reflexivity|]. split_and!; try done. by rewrite Hu.
Qed.

Lemma rx_loop_batches t pool evs wires rest chunks :
  wf t -> pool_all rx_shaped pool -> Forall fits chunks ->
  Forall2 (fun ch wire => carries (options t) (magic (options t)) wire TypeBatchTransport (batch_body ch)) chunks wires ->
  u_in (upstream t) = concat wires ++ rest ->
  exists t' pool' new, rx_loop (length chunks) cfg t pool evs = Some (true, t', pool', evs ++ new) /\
    rx_packets h <$> new = chunks /\ u_in (upstream t') = rest /\ pool_all rx_shaped pool'.
Proof using Hh.
  intros Hwf Hpool Hfit Hc. remember (options t) as o eqn:Eo. revert t pool evs Hwf Hpool Eo.
  induction Hc as [|ch wire chunks wires Hcar _ IH]; intros t pool evs Hwf Hpool -> Hin.
  { exists t, pool, []. rewrite app_nil_r. by split_and!. }
  apply Forall_cons in Hfit as [Hch Hfit]. cbn [concat] in Hin. rewrite <- app_assoc in Hin. cbn [length rx_loop].
  destruct (rx_round_batch t pool evs wire (concat wires ++ rest) ch) as (t1 & pool1 & ev & -> & Hev & Hwf1 & Ho1 & Hu1 & Hp1);
    auto. cbn [mbind option_bind].
  destruct (IH Hfit t1 pool1 (evs ++ [ev])) as (t' & pool' & new & -> & Hnew & Hu & Hp); auto.
  exists t', pool', (ev :: new). rewrite <- app_assoc. cbn [fmap list_fmap app]. rewrite Hev, Hnew. by split_and!.
Qed.
End Receive.

(** ** From one client to the other *)

Lemma rows_packets_in cfg rows :
  0 <= HeaderSize cfg -> Forall (row_ok cfg) rows ->
  rows.*2 = zlen <$> (row_packet cfg <$> rows) /\ packets_in (HeaderSize cfg) rows.*1 (row_packet cfg <$> rows).
Proof.
  intros Hh. induction 1 as [|[b s] rows [Hb Hs] _ [IH1 IH2]]; [split; [done|constructor]|].
  cbn [fmap list_fmap fst snd] in *.
  assert (zlen (row_packet cfg (b, s)) = s) as Hz by (unfold row_packet; simpl; rewrite zlen_sub_list; lia).
  split; [by rewrite Hz, <- IH1|]. constructor; [|done]. rewrite Hz, slice_in by lia. done.
Qed.

Lemma txLoopN_run o' cfg rnds e queue t pool :
  let datas := (e :: queue) ≫= packets (HeaderSize cfg) in
  0 < BatchSize cfg -> 0 <= HeaderSize cfg -> Forall (fun e => loaded cfg e /\ 0 < N e) (e :: queue) ->
  zlen datas <= MaxTxEventBuf cfg ->
  wf t -> matching (options t) o' -> u_fail (upstream t) = false ->
  (forall i, exists nonce, rnds i = Some nonce /\ zlen nonce = 24 /\ bytes_ok nonce) ->
  Forall bytes_ok datas -> batches_ok (options t) datas ->
  Forall (fun d => 2 + zlen d <= batch_space (options t)) datas ->
  exists chunks wires t', txLoopN cfg rnds t (e :: queue) pool =
      Some (Ret (zlen (concat wires)), t', [], foldl putTxEvent pool (e :: queue)) /\
    upstream t' = sent (upstream t) (concat wires) /\ concat chunks = datas /\
    Forall (fun ch => ch <> [] /\ zlen ch <= 128 /\ zlen (batch_body ch) <= 65528) chunks /\
    Forall2 (fun ch wire => carries o' (magic (options t)) wire TypeBatchTransport (batch_body ch)) chunks wires.
Proof.
  intros datas HB Hh Hq Hfit Hwf Hm Hf Hr Hok Hb Hsp.
  assert (N e <= MaxTxEventBuf cfg) as Hmax.
  { pose proof Hq as [[_ HN] _]%Forall_cons. unfold datas in Hfit. cbn [mbind list_bind] in Hfit.
    rewrite zlen_app, zlen_packets in Hfit by lia.
    pose proof (zlen_nonneg (queue ≫= packets (HeaderSize cfg))). lia. }
  destruct (collect_events_run cfg e queue HB Hq Hmax) as (rows & taken & rest & Hrun & Hcat & Hrows & Hp & Hend).
  destruct (collect_all_fit cfg taken rest) as [Hrest Hall]; [by rewrite Hcat..|done|].
  rewrite Hall, Hcat in Hp. fold datas in Hp. subst rest. rewrite app_nil_r in Hcat. subst taken.
  destruct (rows_packets_in cfg rows Hh Hrows) as [Hs Hpi]. rewrite Hp in Hs, Hpi.
  unfold txLoopN. rewrite Hrun. cbn [mbind option_bind].
  destruct (batch_loop_run o' rnds (HeaderSize cfg) rows.*1 datas Hr Hpi Hok (length rows.*1) 0 0 0 t)
    as (chunks & wires & t' & Hloop & _ & _ & Hu & Hc & Hch & Hcar); auto.
  { pose proof (zlen_nonneg datas). lia. }
  { apply Forall2_length in Hpi. rewrite Hpi. unfold zlen. lia. }
  rewrite sub_list_all in Hc. rewrite Z.add_0_l in Hloop.
  exists chunks, wires, t'. split_and!; try done.
  assert (0 < zlen rows) as Hne.
  { pose proof Hq as [[_ HN] _]%Forall_cons. apply (f_equal zlen) in Hp. rewrite zlen_fmap in Hp. rewrite Hp. unfold datas.
    cbn [mbind list_bind]. rewrite zlen_app, zlen_packets by lia.
    pose proof (zlen_nonneg (queue ≫= packets (HeaderSize cfg))). lia. }
  rewrite (proj2 (Z.ltb_lt _ _)) by done. rewrite Hs. unfold BatchWrite. by rewrite Hloop.
Qed.

(** C18. Packets reach the other client, within the limits of both ends: a round
    of a destination's loop takes the packets of its channel and writes them all,
    and the receiving loop of a hub with the matching codecs turns the bytes into
    events for its device that hold exactly these packets, in order, leaves the
    following bytes of the stream unread and keeps its pool of events in shape.
    The sender's buffer must have room for the packets in the channel, each packet
    must fit a message of its own, the runs [BatchWrite] forms must keep to the
    limits of the transport ([batches_ok]: 65485 bytes when encrypting, 32756 from
    the threshold on when compressing), and the write must not fail; the receiver
    must take batches of at least 128 packets, which is so on a device with
    segmentation offload (one that takes fewer ends on such a batch), and its MTU
    must hold every packet. *)
Theorem hub_to_hub cfg cfg' o' rnds e queue t pool :
  let datas := (e :: queue) ≫= packets (HeaderSize cfg) in
  0 < BatchSize cfg -> 0 <= HeaderSize cfg -> Forall (fun e => loaded cfg e /\ 0 < N e) (e :: queue) ->
  zlen datas <= MaxTxEventBuf cfg ->
  wf t -> matching (options t) o' -> u_fail (upstream t) = false ->
  (forall i, exists nonce, rnds i = Some nonce /\ zlen nonce = 24 /\ bytes_ok nonce) ->
  Forall bytes_ok datas -> batches_ok (options t) datas ->
  Forall (fun d => 2 + zlen d <= batch_space (options t)) datas ->
  128 <= BatchSize cfg' -> 0 <= HeaderSize cfg' -> Forall (fun d => zlen d <= MTU cfg') datas ->
  exists t' wire rounds,
    txLoopN cfg rnds t (e :: queue) pool =
      Some (Ret (zlen wire), t', [], foldl putTxEvent pool (e :: queue)) /\
    u_out (upstream t') = u_out (upstream t) ++ wire /\
    forall rx rxpool rest evs, wf rx -> options rx = o' -> pool_all (rx_shaped cfg') rxpool ->
      u_in (upstream rx) = wire ++ rest ->
      exists rx' rxpool' new,
        rx_loop rounds cfg' rx rxpool evs = Some (true, rx', rxpool', evs ++ new) /\
        concat (rx_packets (HeaderSize cfg') <$> new) = datas /\
        u_in (upstream rx') = rest /\ pool_all (rx_shaped cfg') rxpool'.
Proof.
  intros datas HB Hh Hq Hfit Hwf Hm Hf Hr Hok Hb Hsp HB' Hh' Hmtu.
  destruct (txLoopN_run o' cfg rnds e queue t pool)
    as (chunks & wires & t' & Hrun & Hu & Hc & Hch & Hcar); auto.
  exists t', (concat wires), (length chunks). split_and!; [done|by rewrite Hu|].
  intros rx rxpool rest evs Hwfr <- Hpool Hin.
  assert (Forall (fits cfg') chunks) as Hfits.
  { fold datas in Hc. rewrite <- Hc in Hmtu. apply Forall_concat in Hmtu.
    apply Forall_forall. intros ch Hin'. rewrite Forall_forall in Hmtu, Hch.
    destruct (Hch ch Hin') as (_ & Hn & Hbody). split_and!; [lia|done|by apply Hmtu]. }
  destruct (rx_loop_batches cfg' Hh' rx rxpool evs wires rest chunks) as (rx' & rxpool' & new & Hloop & Hnew & Hrest & Hp');
    auto.
  { by rewrite (match_magic _ _ Hm). }
  exists rx', rxpool', new. split_and!; [done|by rewrite Hnew|done|done].
Qed.

Definition rx_cfg : Config := MkConfig 128 0 20 4 4.

Lemma new_rxEvent_shaped : rx_shaped rx_cfg (new_rxEvent rx_cfg).
Proof.
  unfold rx_shaped, new_rxEvent. cbn [packet buf sizes].
  split_and!; unfold zlen; rewrite ?length_replicate; try done.
  apply Forall_replicate. by rewrite length_replicate.
Qed.

Lemma hub_to_hub_witness :
  let t := NewTransport (MkUpstream [] [] true false) [EnableEncrypt false] in
  exists t' wire rounds,
    txLoopN small_cfg (fun _ => Some (replicate 24 7)) t [two_packets] (NewEventPool 1 (new_txEvent small_cfg)) =
      Some (Ret (zlen wire), t', [], putTxEvent (NewEventPool 1 (new_txEvent small_cfg)) two_packets) /\
    exists rx' rxpool' new,
      rx_loop rounds rx_cfg (NewTransport (MkUpstream wire [] true false) [EnableEncrypt false])
        (NewEventPool 2 (new_rxEvent rx_cfg)) [] = Some (true, rx', rxpool', new) /\
      concat (rx_packets 0 <$> new) = [host_packet 1; host_packet 2].
Proof.
  intros t. set (opts := options t).
  destruct (hub_to_hub small_cfg rx_cfg opts (fun _ => Some (replicate 24 7)) two_packets [] t
    (NewEventPool 1 (new_txEvent small_cfg))) as (t' & wire & rounds & Htx & _ & Hrx).
  - done.
  - done.
  - repeat apply Forall_cons_2; [split; [apply two_packets_loaded|done]|apply Forall_nil_2].
  - done.
  - by apply NewTransport_wf.
  - by split.
  - done.
  - intros i. exists (replicate 24 7). split_and!; [done|done|]. by repeat constructor.
  - by repeat constructor.
  - by apply plain_batches_ok.
  - repeat apply Forall_cons_2; [..|apply Forall_nil_2]; vm_compute; congruence.
  - done.
  - done.
  - repeat apply Forall_cons_2; [..|apply Forall_nil_2]; vm_compute; congruence.
  - exists t', wire, rounds. split; [exact Htx|].
    destruct (Hrx (NewTransport (MkUpstream wire [] true false) [EnableEncrypt false])
      (NewEventPool 2 (new_rxEvent rx_cfg)) [] []) as (rx' & rxpool' & new & H1 & H2 & _).
    + by apply NewTransport_wf.
    + done.
    + apply NewEventPool_all, new_rxEvent_shaped.
    + cbn [NewTransport upstream u_in]. by rewrite app_nil_r.
    + exists rx', rxpool', new. by split.
Defined.
