(* ===== verification/Device.v ===== *)
(** * The device loops of the hub (vnet/client/hub: hub.go, hub_tx.go readDevice,
      readDeviceLinux, hub_rx.go)

    The device is what it returns: an error, or the packets it has put into the
    buffers it was given. *)

From S2P Require Import Prelude Router Protocol Pool Hub HubProps.

#[local] Open Scope string_scope.
#[local] Open Scope Z_scope.

(** [NewHub] sets sizes that depend on the system; [lt] is what a Linux device
    reports. *)
Definition hub_config (goos : string) (lt : Z * Z) (cfg : Config) : Config :=
  if String.eqb goos "windows" then MkConfig 128 (HeaderSize cfg) (MTU cfg) (MaxRxEventBuf cfg) (MaxTxEventBuf cfg)
  else if String.eqb goos "linux" then MkConfig (fst lt) (snd lt) (MTU cfg) (MaxRxEventBuf cfg) (MaxTxEventBuf cfg)
  else cfg.

(** One turn of [readDevice]: whether the loop goes on. Go's [Read] fills the
    front of the buffer. *)
Definition readDevice (pool : EventPool txEvent) (txEventChan : list txEvent) (read : option (list Z))
    : option (bool * EventPool txEvent * list txEvent) :=
  let '(e, pool) := getTxEvent pool in
  b ← Buffer e !! 0%nat;
  match read with
  | None => Some (false, putTxEvent pool e, txEventChan)
  | Some data =>
      _ ← Sizes e !! 0%nat;
      let e := MkTx (<[0%nat := copy_slice b data]> (Buffer e)) (<[0%nat := zlen data]> (Sizes e)) 1 in
      if zlen data =? 0 then Some (true, putTxEvent pool e, txEventChan) else Some (true, pool, txEventChan ++ [e])%list
  end.

(** What [BatchRead] does: packet [i] is at [offset] of buffer [i], its size in
    slot [i]. *)
Definition batch_read (e : txEvent) (offset : Z) (data : list (list Z)) : txEvent :=
  MkTx (imap (fun i b => match data !! i with Some p => blit b offset p | None => b end) (Buffer e))
    (imap (fun i s => match data !! i with Some p => zlen p | None => s end) (Sizes e)) (N e).

Definition readDeviceLinux (offset : Z) (pool : EventPool txEvent) (txEventChan : list txEvent) (read : option (list (list Z)))
    : bool * EventPool txEvent * list txEvent :=
  let '(e, pool) := getTxEvent pool in
  match read with
  | None => (false, putTxEvent pool e, txEventChan)
  | Some data =>
      let e := batch_read e offset data in
      if zlen data =? 0 then (true, putTxEvent pool e, txEventChan)
      else (true, pool, txEventChan ++ [MkTx (Buffer e) (Sizes e) (zlen data)])%list
  end.

(** [writeDevice] on one event: the writes that are made until one fails
    ([accepts] of them succeed), and whether the loop goes on. *)
Definition writeDevice (e : rxEvent) (accepts : nat) (pool : EventPool rxEvent)
    : option (list (list Z) * bool * EventPool rxEvent) :=
  let cnt := Z.to_nat (n e) in
  out ← device_writes (Nat.min cnt (S accepts)) 0 e;
  Some (out, (cnt <=? accepts)%nat, if (cnt <=? accepts)%nat then putRxEvent pool e else pool).

(** ** What the loops put into the channel *)

Section Read.
Context (cfg : Config) (Hbatch : 0 < BatchSize cfg) (Hh : 0 <= HeaderSize cfg).

Lemma put_idle pool e : pool_all (idle cfg) pool -> shaped cfg e -> pool_all (idle cfg) (putTxEvent pool e).
Proof. intros Hp He. by apply Put_all. Qed.

Lemma batch_read_shaped e data :
  shaped cfg e -> Forall (fun p => zlen p <= MTU cfg) data -> shaped cfg (batch_read e (HeaderSize cfg) data).
Proof.
  intros (Hb & Hs & Hr) Hd. unfold shaped, batch_read, zlen in *. cbn [Buffer Sizes]. rewrite !length_imap. split_and!; [done..|].
  apply Forall_lookup. intros i b Hi. rewrite list_lookup_imap in Hi. apply fmap_Some in Hi as (b0 & Hb0 & ->).
  pose proof (Forall_lookup_1 _ _ _ _ Hr Hb0). destruct (data !! i) as [p|] eqn:Hp; [|done].
  pose proof (Forall_lookup_1 _ _ _ _ Hd Hp). fold (zlen b0) in *. fold (zlen (blit b0 (HeaderSize cfg) p)).
  rewrite zlen_blit; unfold zlen in *; lia.
Qed.

Lemma batch_read_packets e data :
  shaped cfg e -> zlen data <= BatchSize cfg -> Forall (fun p => zlen p <= MTU cfg) data ->
  packets (HeaderSize cfg) (MkTx (Buffer (batch_read e (HeaderSize cfg) data)) (Sizes (batch_read e (HeaderSize cfg) data)) (zlen data)) = data.
Proof.
  intros (Hb & Hs & Hr) Hl Hd. unfold packets. cbn [N]. unfold zlen in *. rewrite Nat2Z.id.
  apply list_eq_same_length with (length data); [done|by rewrite length_fmap, length_seq|].
  intros i x y Hi. rewrite list_lookup_fmap, lookup_seq_lt by lia. cbn [fmap option_fmap option_map]. intros [= <-] Hy.
  unfold packet_at, batch_read. cbn [Buffer Sizes]. rewrite !list_lookup_imap.
  destruct (lookup_lt_is_Some_2 (Buffer e) i) as [b Hbi]; [lia|]. destruct (lookup_lt_is_Some_2 (Sizes e) i) as [s Hsi]; [lia|].
  rewrite Hbi, Hsi. cbn [fmap option_fmap option_map]. rewrite Hy.
  pose proof (Forall_lookup_1 _ _ _ _ Hr Hbi). pose proof (Forall_lookup_1 _ _ _ _ Hd Hy).
  apply sub_list_blit_same; unfold zlen in *; cbn beta in *; lia.
Qed.

(** What a Linux device delivers is what the dispatching loop gets: an event of
    the right shape with exactly the device's packets; nothing else leaves the
    pool. *)
Lemma readDeviceLinux_loads pool chan data :
  pool_all (idle cfg) pool -> zlen data <= BatchSize cfg -> Forall (fun p => zlen p <= MTU cfg) data ->
  exists pool', pool_all (idle cfg) pool' /\
    ((data = [] /\ readDeviceLinux (HeaderSize cfg) pool chan (Some data) = (true, pool', chan)) \/
     exists e, readDeviceLinux (HeaderSize cfg) pool chan (Some data) = (true, pool', (chan ++ [e])%list) /\
       loaded cfg e /\ packets (HeaderSize cfg) e = data).
Proof.
  intros Hp Hl Hd. unfold readDeviceLinux, getTxEvent. destruct (Get_all _ _ Hp) as [[He _] Hp'].
  destruct (Get pool) as [e pool']. cbn [fst snd] in *. pose proof (batch_read_shaped e data He Hd) as Hs.
  destruct data as [|p0 data0] eqn:Ed; [|rewrite <- Ed in *].
  - cbn. eexists. split; [|left; by split]. by apply put_idle.
  - exists pool'. split; [done|]. right. rewrite (proj2 (Z.eqb_neq _ _)) by (subst; rewrite zlen_cons; pose proof (zlen_nonneg data0); lia).
    eexists. split; [done|]. split; [|by apply batch_read_packets].
    split; [done|]. cbn [N Sizes]. pose proof (zlen_nonneg data). split; [lia|]. intros i s Hi. unfold batch_read. cbn [Sizes].
    rewrite list_lookup_imap. intros (s0 & _ & ->)%fmap_Some. destruct (lookup_lt_is_Some_2 data i) as [p Hpi]; [unfold zlen in Hi; lia|].
    rewrite Hpi. pose proof (Forall_lookup_1 _ _ _ _ Hd Hpi). split; [apply zlen_nonneg|done].
Qed.
End Read.
