(* ===== verification/Server.v ===== *)
(** * Sessions of the server (vnet/server: session.go, network.go, network_mgr.go,
      server.go, server_tcp.go; manager/server/internal/logic/network/device.go)

    Sessions and networks are shared objects: a pointer is a number and the
    server state holds the two heaps. The operations a session goes through
    are complete handlers on that state. The outer result [None] is a run-time
    panic. The device and quota tables of the manager, the random numbers and
    the clock are arguments. *)

From S2P Require Import Prelude GoNet Router IPPool QuotaCounter GoFloat SmoothLimiter Metrics.

Inductive stored := StoredTime (t : Z) | StoredPeer (hostId : string) | StoredConn (c : nat).

(** [stopped]: the [sig] channel is closed; [conn_closed]: [CloseWithError] was
    called. *)
Record Session := MkSession {
  s_IP : string; s_SessionId : string; s_CIDR : string; s_network : option nat; s_quota : option Quota;
  s_bandwidth : Z; s_bandwidthLimiter : option SmoothLimiter; s_storage : gmap string stored; s_Metrics : TransportMetrics;
  s_stopped : bool; s_closed : bool }.

Definition sessionStorageKeyP2PPeer : string := "p2p_peer".
Definition sessionStorageKeyLastPing : string := "last_ping".

Definition newServerSession (sessionId : string) : Session :=
  MkSession "" sessionId "" None None 0 None ∅ NewTransportMetrics false false.

Definition Stop (s : Session) : Session :=
  MkSession (s_IP s) (s_SessionId s) (s_CIDR s) (s_network s) (s_quota s) (s_bandwidth s) (s_bandwidthLimiter s) (s_storage s)
    (s_Metrics s) true (s_closed s).

Definition set_address (s : Session) (ip cidr : string) : Session :=
  MkSession ip (s_SessionId s) cidr (s_network s) (s_quota s) (s_bandwidth s) (s_bandwidthLimiter s) (s_storage s)
    (s_Metrics s) (s_stopped s) (s_closed s).

Definition SetNetwork (s : Session) (w : nat) : Session :=
  MkSession (s_IP s) (s_SessionId s) (s_CIDR s) (Some w) (s_quota s) (s_bandwidth s) (s_bandwidthLimiter s) (s_storage s)
    (s_Metrics s) (s_stopped s) (s_closed s).

Definition set_quota (s : Session) (q : Quota) : Session :=
  MkSession (s_IP s) (s_SessionId s) (s_CIDR s) (s_network s) (Some q) (s_bandwidth s) (s_bandwidthLimiter s) (s_storage s)
    (s_Metrics s) (s_stopped s) (s_closed s).

Definition set_bandwidth (s : Session) (b : Z) (l : option SmoothLimiter) : Session :=
  MkSession (s_IP s) (s_SessionId s) (s_CIDR s) (s_network s) (s_quota s) b l (s_storage s)
    (s_Metrics s) (s_stopped s) (s_closed s).

Definition set_metrics (s : Session) (m : TransportMetrics) : Session :=
  MkSession (s_IP s) (s_SessionId s) (s_CIDR s) (s_network s) (s_quota s) (s_bandwidth s) (s_bandwidthLimiter s)
    (s_storage s) m (s_stopped s) (s_closed s).

Definition set_storage (s : Session) (st : gmap string stored) : Session :=
  MkSession (s_IP s) (s_SessionId s) (s_CIDR s) (s_network s) (s_quota s) (s_bandwidth s) (s_bandwidthLimiter s) st
    (s_Metrics s) (s_stopped s) (s_closed s).

Definition close_conn (s : Session) : Session :=
  MkSession (s_IP s) (s_SessionId s) (s_CIDR s) (s_network s) (s_quota s) (s_bandwidth s) (s_bandwidthLimiter s) (s_storage s)
    (s_Metrics s) (s_stopped s) true.

(** ** Networks *)

Record Network := MkNetwork {
  n_ID : string; n_CIDR : string; n_MTU : Z; n_sessions : gmap string nat; n_router : Router nat; n_pool : IPAllocator }.

Definition NewNetwork (ID CIDR : string) (MTU : Z) : outcome alloc_error Network :=
  allocator ← NewIPAllocator CIDR; Ret (MkNetwork ID CIDR MTU ∅ NewRouter allocator).

Definition set_sessions (n : Network) (m : gmap string nat) : Network :=
  MkNetwork (n_ID n) (n_CIDR n) (n_MTU n) m (n_router n) (n_pool n).
Definition set_router (n : Network) (r : Router nat) : Network :=
  MkNetwork (n_ID n) (n_CIDR n) (n_MTU n) (n_sessions n) r (n_pool n).
Definition set_pool (n : Network) (p : IPAllocator) : Network :=
  MkNetwork (n_ID n) (n_CIDR n) (n_MTU n) (n_sessions n) (n_router n) p.

(** The entry of the session goes even when the address is not allocated. *)
Definition ReleaseDevice (n : Network) (cidr : string) : option alloc_error * Network :=
  let n := set_sessions n (delete cidr (n_sessions n)) in
  match ReleaseIP (n_pool n) cidr with
  | Ret p => (None, set_pool n p)
  | Fail e => (Some e, n)
  | Panic => (None, n)
  end.

Definition RegisterSession (n : Network) (cidr : string) (s : nat) : Network :=
  set_sessions n (<[cidr := s]> (n_sessions n)).

(** ** The server *)

(** [sessions] maps addresses to sessions, [manager] network ids to networks. *)
Record Server := MkServer {
  sv_sess : gmap nat Session; sv_nets : gmap nat Network; sv_sessions : gmap string nat;
  sv_manager : gmap string nat; sv_peerMappingVersion : Z }.

Definition with_sess (sv : Server) (p : nat) (s : Session) : Server :=
  MkServer (<[p := s]> (sv_sess sv)) (sv_nets sv) (sv_sessions sv) (sv_manager sv) (sv_peerMappingVersion sv).
Definition with_net (sv : Server) (w : nat) (n : Network) : Server :=
  MkServer (sv_sess sv) (<[w := n]> (sv_nets sv)) (sv_sessions sv) (sv_manager sv) (sv_peerMappingVersion sv).
Definition with_sessions (sv : Server) (m : gmap string nat) : Server :=
  MkServer (sv_sess sv) (sv_nets sv) m (sv_manager sv) (sv_peerMappingVersion sv).

Definition RegisterNetwork (sv : Server) (w : nat) : Server :=
  match sv_nets sv !! w with
  | Some n =>
      if String.eqb (n_ID n) "" then sv
      else MkServer (sv_sess sv) (sv_nets sv) (sv_sessions sv) (<[n_ID n := w]> (sv_manager sv)) (sv_peerMappingVersion sv)
  | None => sv
  end.
Definition RemoveNetwork (sv : Server) (id : string) : Server :=
  MkServer (sv_sess sv) (sv_nets sv) (sv_sessions sv) (delete id (sv_manager sv)) (sv_peerMappingVersion sv).
Definition GetNetwork (sv : Server) (id : string) : option nat := sv_manager sv !! id.

(** [SessionById]: a session of the network with that id. *)
Definition SessionById (sv : Server) (n : Network) (id : string) : option nat :=
  head (filter (fun p => s_SessionId <$> sv_sess sv !! p = Some id) (map_to_list (n_sessions n)).*2).

(** [Network.Stop]: every session of the network is told to stop. *)
Definition Network_Stop (sv : Server) (n : Network) : Server :=
  MkServer (foldr (fun p m => alter Stop p m) (sv_sess sv) (map_to_list (n_sessions n)).*2)
    (sv_nets sv) (sv_sessions sv) (sv_manager sv) (sv_peerMappingVersion sv).

(** [Release]: the usage that was submitted. *)
Definition Release (sv : Server) (p : nat) : option (Z * Server) :=
  s ← sv_sess sv !! p;
  q ← s_quota s;
  w ← s_network s;
  n ← sv_nets sv !! w;
  let '(usage, q) := CommitUsage q in
  let '(_, n) := ReleaseDevice n (s_CIDR s) in
  r ← UnRegister (n_router n) (s_IP s +:+ "/32");
  Some (usage, with_net (with_sess sv p (close_conn (set_quota s q))) w (set_router n r)).

(** ** Logging in *)

(** What the manager knows of a sub device, and the quotas as looked up. *)
Record SubDevice := MkSub {
  sd_known : bool; sd_NetworkId : string; sd_FixedIP : Z; sd_device_ok : bool;
  sd_bandwidth : option Z; sd_traffic : option Z;
  sd_adaptor_ok : bool; sd_usage : option Z }.

Inductive serr := NoSubDevice | NoNetwork | NoDevice | NoAddress (e : alloc_error) | NoQuota | NoAdaptor | NoUsage.

Section Login.
Context (intn : Z -> Z -> Z) (unixMilli : nat -> Z) (now : Z).

(** Stopping and releasing the session a client had before. *)
Definition release_last (sv : Server) (w : nat) (lastSessionId : string) : option Server :=
  if String.eqb lastSessionId "" then Some sv
  else
    n ← sv_nets sv !! w;
    match SessionById sv n lastSessionId with
    | None => Some sv
    | Some p =>
        s ← sv_sess sv !! p;
        '(_, sv) ← Release (with_sess sv p (Stop s)) p;
        Some sv
    end.

(** [AcquireDevice]: the address assigned to the session [p]. *)
Definition AcquireDevice (sv : Server) (p : nat) (sub : SubDevice) (lastSessionId : string)
    : option ((serr + string) * Server) :=
  s ← sv_sess sv !! p;
  if negb (sd_known sub) then Some (inl NoSubDevice, sv)
  else
  match GetNetwork sv (sd_NetworkId sub) with
  | None => Some (inl NoNetwork, sv)
  | Some w =>
      sv ← release_last (with_sess sv p (SetNetwork s w)) w lastSessionId;
      if negb (sd_device_ok sub) then Some (inl NoDevice, sv)
      else
        n ← sv_nets sv !! w;
        match (if 0 <? sd_FixedIP sub then AssignByOffset (n_pool n) (u32 (sd_FixedIP sub))
               else AssignRandom intn unixMilli (n_pool n)) with
        | Panic => None
        | Fail e => Some (inl (NoAddress e), sv)
        | Ret (cidr, pool) =>
            let n := set_pool n pool in
            match sd_bandwidth sub, sd_traffic sub with
            | Some _, Some _ => Some (inr cidr, with_net sv w (RegisterSession n cidr p))
            | _, _ => Some (inl NoQuota, with_net sv w n)
            end
        end
  end.

(** The handler of the handshake: device and address of the session. *)
Definition handshake (sv : Server) (p : nat) (sub : SubDevice) (lastSessionId : string)
    : option (option serr * Server) :=
  '(res, sv) ← AcquireDevice sv p sub lastSessionId;
  match res with
  | inl e => Some (Some e, sv)
  | inr cidr =>
      s ← sv_sess sv !! p;
      let ip := match ParseCIDR cidr with Some (ip, _) => ip | None => [] end in
      Some (None, with_sess sv p (set_address s (ip_String ip) cidr))
  end.

(** Megabits per second as bytes per second. *)
Definition maxSpeed (value : Z) : Z := Z.quot (i64 (value * 1024 * 1024)) 8.

(** [handleSession] up to its loop: [None] as the error means that the session
    runs. An error after the registration leaves session, route and address in
    place. *)
Definition session_begin (sv : Server) (p : nat) (sub : SubDevice) (lastSessionId : string)
    : option (option serr * Server) :=
  '(err, sv) ← handshake sv p sub lastSessionId;
  match err with
  | Some e => s ← sv_sess sv !! p; Some (Some e, with_sess sv p (close_conn s))
  | None =>
      s ← sv_sess sv !! p;
      let sv := with_sessions sv (<[s_IP s := p]> (sv_sessions sv)) in
      w ← s_network s;
      n ← sv_nets sv !! w;
      r ← Register (n_router n) (s_IP s +:+ "/32") p;
      let sv := with_net sv w (set_router n r) in
      if negb (sd_adaptor_ok sub) then Some (Some NoAdaptor, sv)
      else
        maxLimit ← sd_traffic sub;
        match New maxLimit (sd_usage sub) with
        | None => Some (Some NoUsage, with_sess sv p (close_conn s))
        | Some q =>
            bandwidth ← sd_bandwidth sub;
            let limiter :=
              if 0 <? maxSpeed bandwidth then Some (NewSmoothLimiter now (maxSpeed bandwidth))
              else s_bandwidthLimiter s in
            Some (None, with_sess sv p (set_bandwidth (set_quota s q) bandwidth limiter))
        end
  end.
End Login.

(** The deferred part of [handleSession], when the loop has ended. *)
Definition session_end (sv : Server) (p : nat) : option Server :=
  '(_, sv) ← Release sv p;
  s ← sv_sess sv !! p;
  Some (MkServer (sv_sess sv) (sv_nets sv) (delete (s_IP s) (sv_sessions sv)) (sv_manager sv)
          (u64 (sv_peerMappingVersion sv + 1))).
