(* ===== verification/ServerProps.v ===== *)
(** * Addresses, routes and sessions of the server agree *)

From S2P Require Import Prelude GoNet Router RouterSpec RouterKeys RouterProps IPPool IPPoolProps HostRoutes.
From S2P Require Import QuotaCounter GoFloat SmoothLimiter Metrics Server.

(** ** Maps that follow the live sessions *)

(** [live] maps the running sessions to their addresses; [m] has exactly their
    entries, under the key [f] makes of an address. *)
Definition follows {K} `{Countable K} (f : Z -> K) (m : gmap K nat) (live : gmap nat Z) : Prop :=
  forall k q, m !! k = Some q <-> exists a, live !! q = Some a /\ k = f a.

Section Follows.
Context {K : Type} `{Countable K} (f : Z -> K).
Implicit Types (m : gmap K nat) (live : gmap nat Z).

Lemma follows_inj m live q q' a b :
  follows f m live -> live !! q = Some a -> live !! q' = Some b -> f a = f b -> q = q'.
Proof.
  intros Hf Hq Hq' Heq. assert (m !! f a = Some q) as H1 by (apply Hf; eauto).
  assert (m !! f a = Some q') as H2 by (apply Hf; eauto). congruence.
Qed.

Lemma follows_empty : follows f (∅ : gmap K nat) ∅.
Proof. intros k q. rewrite lookup_empty. split; [done|]. intros (a & Ha & _). by rewrite lookup_empty in Ha. Qed.

Lemma follows_insert m live p a :
  follows f m live -> live !! p = None -> (forall q b, live !! q = Some b -> f b <> f a) ->
  follows f (<[f a := p]> m) (<[p := a]> live).
Proof.
  intros Hf Hp Hne k q. destruct (decide (k = f a)) as [->|Hk].
  - rewrite lookup_insert_eq. split.
    + intros [= <-]. exists a. by rewrite lookup_insert_eq.
    + intros (b & Hb & Hab). apply lookup_insert_Some in Hb as [[<- _]|[_ Hb]]; [done|]. by apply Hne in Hb.
  - rewrite lookup_insert_ne by done. rewrite (Hf k q). split; intros (b & Hb & ->); exists b; (split; [|done]).
    + apply lookup_insert_Some. right. split; [congruence|done].
    + apply lookup_insert_Some in Hb as [[_ <-]|[_ Hb]]; [done|done].
Qed.

Lemma follows_delete m live p a :
  follows f m live -> live !! p = Some a -> follows f (delete (f a) m) (delete p live).
Proof.
  intros Hf Hp k q. rewrite lookup_delete_Some, (Hf k q). split.
  - intros (Hne & b & Hb & ->). exists b. split; [|done]. apply lookup_delete_Some. split; [|done]. congruence.
  - intros (b & (Hne & Hb)%lookup_delete_Some & ->). split; [|by exists b].
    intros Hab. apply Hne. by eapply follows_inj.
Qed.
End Follows.

(** ** The invariant *)

Section Service.
Context (intn : Z -> Z -> Z) (Hintn : intn_ok intn).
Context (w : nat) (nid net : string) (base ones : Z).

(** The network as its sessions make it: [held] maps the registered sessions to
    their addresses, [lost] are addresses that are taken without a session. *)
Definition net_ok (n : Network) (held : gmap nat Z) (lost : gset Z) : Prop :=
  tracks net base ones (n_pool n) (map_img held ∪ lost) /\ (map_img held : gset Z) ## lost /\
  follows (fun a => assigned_text a ones) (n_sessions n) held /\
  exists t, represents (n_router n) t /\ follows addr_bits (t_v4 t) held.

(** A registered session with the address [a]. *)
Definition sess_ok (s : Session) (a : Z) : Prop :=
  s_IP s = addr_text a /\ s_CIDR s = assigned_text a ones /\ s_network s = Some w.

(** [active] are the sessions that run. *)
Record served (sv : Server) (held : gmap nat Z) (lost : gset Z) (active : gset nat) : Prop := {
  sv_mgr : sv_manager sv = {[nid := w]};
  sv_net : exists n, sv_nets sv !! w = Some n /\ net_ok n held lost;
  sv_addr : follows addr_text (sv_sessions sv) held;
  sv_heap p a : held !! p = Some a -> exists s, sv_sess sv !! p = Some s /\ sess_ok s a;
  sv_runs p : p ∈ active -> is_Some (held !! p) /\ exists s, sv_sess sv !! p = Some s /\ is_Some (s_quota s) }.

Lemma map_img_insert_new (held : gmap nat Z) p a :
  held !! p = None -> (map_img (<[p:=a]> held) : gset Z) = {[a]} ∪ map_img held.
Proof.
  intros Hp. apply set_eq. intros x. rewrite elem_of_union, elem_of_singleton, !elem_of_map_img. split.
  - intros [q Hq]. apply lookup_insert_Some in Hq as [[_ <-]|[_ Hq]]; [by left|right; eauto].
  - intros [->|[q Hq]]; [exists p; by rewrite lookup_insert_eq|]. exists q. rewrite lookup_insert_ne by congruence. done.
Qed.

Lemma net_ok_range n held lost p a : net_ok n held lost -> held !! p = Some a -> 0 <= a < 2 ^ 32.
Proof. intros [Ht _] Hp. apply (tr_range _ _ _ _ _ Ht), elem_of_union. left. apply elem_of_map_img. eauto. Qed.

Lemma net_ok_ones n held lost : net_ok n held lost -> 0 <= ones <= 32.
Proof. intros [Ht _]. pose proof (tracks_bounds _ _ _ _ _ Ht). tauto. Qed.

(** A new session [p] with the free address [a]. *)
Lemma net_ok_add n held lost p a r :
  net_ok n held lost -> held !! p = None -> a ∉ (map_img held ∪ lost : gset Z) -> 0 <= a < 2 ^ 32 ->
  Register (n_router n) (addr_text a +:+ "/32") p = Some r ->
  net_ok (set_router (RegisterSession (set_pool n (mark (n_pool n) (addr_text a))) (assigned_text a ones) p) r)
    (<[p := a]> held) lost.
Proof.
  intros (Ht & Hdis & Hs & t & Hr & Hf) Hp Ha Hrng Hreg.
  assert (forall q b, held !! q = Some b -> 0 <= b < 2 ^ 32 /\ b <> a) as Hb.
  { intros q b Hq. assert (b ∈ (map_img held ∪ lost : gset Z)) as Hin by (apply elem_of_union; left; apply elem_of_map_img; eauto).
    split; [by apply (tr_range _ _ _ _ _ Ht)|]. by intros ->. }
  split_and!.
  - cbn [n_pool set_router RegisterSession set_sessions set_pool]. rewrite map_img_insert_new, <- (assoc_L _) by done. by apply tracks_mark.
  - rewrite map_img_insert_new by done. set_solver.
  - cbn [n_sessions set_router RegisterSession set_sessions]. apply (follows_insert (fun a => assigned_text a ones)); [done..|].
    intros q b Hq E. destruct (Hb q b Hq) as [Hr1 Hne]. apply Hne. by apply (assigned_inj ones).
  - cbn [n_router set_router]. destruct (host_key a) as [Hk Hm].
    destruct (run_op_spec (n_router n) t (OpRegister (addr_text a +:+ "/32") p) Hr Hm) as (r' & Hr' & Hrep).
    cbn [run_op] in Hr'. simplify_eq. eexists. split; [exact Hrep|]. cbn [spec_op]. unfold spec_register. rewrite Hk.
    cbn [t_v4]. apply follows_insert; [done..|]. intros q b Hq E. destruct (Hb q b Hq) as [Hr1 Hne].
    apply Hne. by apply addr_bits_inj.
Qed.

(** An address that is taken for nobody. *)
Lemma net_ok_lose n held lost a :
  net_ok n held lost -> a ∉ (map_img held ∪ lost : gset Z) -> 0 <= a < 2 ^ 32 ->
  net_ok (set_pool n (mark (n_pool n) (addr_text a))) held ({[a]} ∪ lost).
Proof.
  intros (Ht & Hdis & Hs & Hr) Ha Hrng. split_and!; [|set_solver|done|done]. cbn [n_pool set_pool].
  replace (map_img held ∪ ({[a]} ∪ lost) : gset Z) with ({[a]} ∪ (map_img held ∪ lost) : gset Z) by set_solver. by apply tracks_mark.
Qed.

(** A session [p] with the address [a] leaves. *)
Lemma net_ok_remove n held lost p a :
  net_ok n held lost -> held !! p = Some a ->
  let '(_, n1) := ReleaseDevice n (assigned_text a ones) in
  exists r, UnRegister (n_router n1) (addr_text a +:+ "/32") = Some r /\ net_ok (set_router n1 r) (delete p held) lost.
Proof.
  intros Hn Hp. pose proof (net_ok_range n held lost p a Hn Hp) as Hrng. destruct Hn as (Ht & Hdis & Hs & t & Hr & Hf).
  assert (a ∈ (map_img held : gset Z)) as Ha by (apply elem_of_map_img; eauto).
  assert ((map_img (delete p held) : gset Z) = map_img held ∖ {[a]}) as Himg.
  { apply set_eq. intros x. rewrite elem_of_difference, elem_of_singleton, !elem_of_map_img. split.
    - intros [q [Hne Hq]%lookup_delete_Some]. split; [eauto|]. intros ->. apply Hne. by eapply (follows_inj addr_bits).
    - intros [[q Hq] Hne]. exists q. apply lookup_delete_Some. split; [congruence|done]. }
  unfold ReleaseDevice. cbn [n_pool set_sessions].
  rewrite (ReleaseIP_spec _ _ _ _ _ Ht _ a Hrng (assigned_split a ones)), bool_decide_eq_true_2 by set_solver.
  cbn [n_router set_pool set_sessions]. destruct (host_key a) as [Hk Hm].
  destruct (run_op_spec (n_router n) t (OpUnRegister (addr_text a +:+ "/32")) Hr Hm) as (r & Hr' & Hrep).
  exists r. split; [exact Hr'|]. split_and!.
  - cbn [n_pool set_router set_pool set_sessions]. rewrite Himg.
    replace (map_img held ∖ {[a]} ∪ lost : gset Z) with ((map_img held ∪ lost) ∖ {[a]} : gset Z); [apply tracks_delete; [done|by apply elem_of_union; left]|].
    assert (a ∉ lost) by (intros Hl; exact (Hdis a Ha Hl)). generalize (map_img held : gset Z). set_solver.
  - rewrite Himg. set_solver.
  - cbn [n_sessions set_router set_pool set_sessions]. by apply (follows_delete (fun a => assigned_text a ones)).
  - cbn [n_router set_router]. eexists. split; [exact Hrep|]. cbn [spec_op]. unfold spec_unregister. rewrite Hk.
    cbn [t_v4]. by apply follows_delete.
Qed.

(** ** Logging in and out *)

(** The address the pool assigns. *)
Lemma assign_cases ms pool S fixedIP :
  tracks net base ones pool S ->
  match (if 0 <? fixedIP then AssignByOffset pool (u32 fixedIP) else AssignRandom intn ms pool) with
  | Ret (cidr, pool') => exists a, (a ∉ S) /\ 0 <= a < 2 ^ 32 /\ cidr = assigned_text a ones /\
      pool' = mark pool (addr_text a)
  | Fail _ => True
  | Panic => False
  end.
Proof using Hintn.
  intros Ht. destruct (0 <? fixedIP).
  - rewrite (AssignByOffset_spec _ _ _ _ _ Ht). destruct (_ <? _); [done|]. case_bool_decide as Hin; [done|].
    eexists. split_and!; [exact Hin| | |reflexivity|reflexivity]; apply (uwrap_range 32); lia.
  - pose proof (AssignRandom_spec intn Hintn ms _ _ _ _ _ Ht) as H.
    destruct (AssignRandom intn ms pool) as [[cidr pool']|e|]; [|done|done].
    destruct H as (j & _ & Hin & -> & -> & _). eexists. split_and!; [exact Hin| | |reflexivity|reflexivity];
      pose proof (draw_range intn Hintn ms _ _ _ _ _ Ht j); pose proof (tracks_bounds _ _ _ _ _ Ht); lia.
Qed.

Lemma served_sess sv held lost active p s : served sv held lost active -> held !! p = None -> served (with_sess sv p s) held lost active.
Proof.
  intros [H1 H2 H3 H4 H5] Hp. split; [done..| |].
  - intros q a Hq. cbn [sv_sess with_sess]. rewrite lookup_insert_ne by congruence. by apply H4.
  - intros q Hq. destruct (H5 q Hq) as [[a Ha] Hs]. split; [by eexists|]. cbn [sv_sess with_sess]. by rewrite lookup_insert_ne by congruence.
Qed.

(** The manager's lookups succeed, as far as they come after the assignment. *)
Definition lookups_ok (sub : SubDevice) : Prop :=
  is_Some (sd_bandwidth sub) /\ is_Some (sd_traffic sub) /\ sd_adaptor_ok sub = true /\ is_Some (sd_usage sub).

(** A session that was registered under the free address [a], with what later
    becomes of its object. *)
Lemma served_add sv held lost active p a n r s' (runs : bool) :
  served sv held lost active -> sv_nets sv !! w = Some n -> held !! p = None -> a ∉ (map_img held ∪ lost : gset Z) -> 0 <= a < 2 ^ 32 ->
  Register (n_router n) (addr_text a +:+ "/32") p = Some r -> sess_ok s' a -> (runs = true -> is_Some (s_quota s')) ->
  served (MkServer (<[p := s']> (sv_sess sv))
            (<[w := set_router (RegisterSession (set_pool n (mark (n_pool n) (addr_text a))) (assigned_text a ones) p) r]> (sv_nets sv))
            (<[addr_text a := p]> (sv_sessions sv)) (sv_manager sv) (sv_peerMappingVersion sv))
    (<[p := a]> held) lost (if runs then {[p]} ∪ active else active).
Proof.
  intros Hsv Hn Hp Ha Hr Hreg Hs' Hq. pose proof Hsv as [Hmgr (n0 & Hn0 & Hnet) Haddr Hheap Hruns]. simplify_eq. split; cbn [sv_manager sv_nets sv_sessions sv_sess].
  - done.
  - eexists. split; [apply lookup_insert_eq|]. by apply net_ok_add.
  - apply follows_insert; [done..|]. intros q b Hb E.
    assert (b = a) as ->; [|apply Ha, elem_of_union; left; apply elem_of_map_img; eauto].
    apply addr_text_inj; [exact (net_ok_range n held lost q b Hnet Hb)|done|done].
  - intros q b Hb. apply lookup_insert_Some in Hb as [[<- <-]|[Hne Hb]].
    + rewrite lookup_insert_eq. by eexists.
    + rewrite lookup_insert_ne by done. by apply Hheap.
  - intros q Hin. destruct (decide (q = p)) as [->|Hne].
    + rewrite !lookup_insert_eq. split; [by eexists|]. eexists. split; [done|]. destruct runs; [by apply Hq|]. destruct (Hruns p Hin) as [[b Hb] _]. congruence.
    + rewrite !lookup_insert_ne by done. apply Hruns. destruct runs; set_solver.
Qed.

(** An address that was assigned before a lookup failed. *)
Lemma served_lose sv held lost active p a n s' :
  served sv held lost active -> sv_nets sv !! w = Some n -> held !! p = None -> a ∉ (map_img held ∪ lost : gset Z) -> 0 <= a < 2 ^ 32 ->
  served (MkServer (<[p := s']> (sv_sess sv)) (<[w := set_pool n (mark (n_pool n) (addr_text a))]> (sv_nets sv))
            (sv_sessions sv) (sv_manager sv) (sv_peerMappingVersion sv)) held ({[a]} ∪ lost) active.
Proof.
  intros Hsv Hn Hp Ha Hr. pose proof (sv_net _ _ _ _ Hsv) as (n0 & Hn0 & Hnet). simplify_eq.
  destruct (served_sess sv held lost active p s' Hsv Hp) as [M1 _ M3 M4 M5]. split; [done| |done..].
  eexists. split; [apply lookup_insert_eq|by apply net_ok_lose].
Qed.

(** Updates of the server as one state. *)
Ltac flatten :=
  unfold with_sess, with_net, with_sessions; cbn [sv_sess sv_nets sv_sessions sv_manager sv_peerMappingVersion]; rewrite ?insert_insert_eq.

(** What a login leaves: a running session; nothing; an address without session;
    or a registered session that does not run. The last two only when a lookup
    of the manager fails. *)
Definition login_leaves (sub : SubDevice) (held : gmap nat Z) (lost : gset Z) (active : gset nat) (p : nat)
    (res : option (option serr * Server)) : Prop :=
  exists err sv' held' lost', res = Some (err, sv') /\
    served sv' held' lost' (match err with None => {[p]} ∪ active | Some _ => active end) /\
    (lookups_ok sub -> lost' = lost /\ dom held' = (match err with None => {[p]} ∪ dom held | Some _ => dom held end)).

Lemma session_begin_ok ms now sv held lost active p s sub :
  served sv held lost active -> held !! p = None -> sv_sess sv !! p = Some s ->
  login_leaves sub held lost active p (session_begin intn ms now sv p sub "").
Proof using Hintn.
  intros Hsv Hp Hs. pose proof Hsv as [Hmgr (n & Hn & Hnet) Haddr Hheap Hruns].
  assert (forall e s', login_leaves sub held lost active p (Some (Some e, with_sess sv p s'))) as Hnone.
  { intros e s'. eexists _, _, held, lost. split; [reflexivity|]. split; [by apply served_sess|done]. }
  unfold session_begin, handshake, AcquireDevice, GetNetwork. rewrite Hs, Hmgr. cbn [mbind option_bind].
  destruct (sd_known sub); cbn [negb]; [|cbn [mbind option_bind]; rewrite Hs; apply Hnone].
  destruct (decide (sd_NetworkId sub = nid)) as [Hid|Hid]; [|rewrite lookup_singleton_ne by done; cbn [mbind option_bind]; rewrite Hs; apply Hnone].
  rewrite Hid, lookup_singleton_eq. unfold release_last. cbn [mbind option_bind String.eqb].
  assert (forall s1 s2, with_sess (with_sess sv p s1) p s2 = with_sess sv p s2) as Htwice.
  { intros s1 s2. unfold with_sess. cbn. by rewrite insert_insert_eq. }
  assert (forall s1, sv_sess (with_sess sv p s1) !! p = Some s1) as Hget by (intros s1; cbn; by rewrite lookup_insert_eq).
  destruct (sd_device_ok sub); cbn [negb]; [|cbn [mbind option_bind]; rewrite Hget; cbn [mbind option_bind]; rewrite Htwice; apply Hnone].
  change (sv_nets (with_sess sv p (SetNetwork s w))) with (sv_nets sv). rewrite Hn. cbn [mbind option_bind].
  pose proof Hnet as [Ht _]. pose proof (assign_cases ms (n_pool n) _ (sd_FixedIP sub) Ht) as Hassign.
  destruct (if 0 <? sd_FixedIP sub then _ else _) as [[cidr pool']|e|]; [| |done].
  2:{ cbn [mbind option_bind]. rewrite Hget. cbn [mbind option_bind]. rewrite Htwice. apply Hnone. }
  destruct Hassign as (a & Ha & Hr & -> & ->).
  destruct (sd_bandwidth sub) as [bw|] eqn:Hbw, (sd_traffic sub) as [tr|] eqn:Htr.
  2-4: cbn [mbind option_bind sv_sess with_net]; rewrite Hget; cbn [mbind option_bind]; eexists _, _, held, ({[a]} ∪ lost); (split; [reflexivity|]);
    (split; [|intros (H1 & H2 & _); rewrite ?Hbw, ?Htr in *; by (destruct H1 || destruct H2)]).
  2-4: pose proof (served_lose sv held lost active p a n (close_conn (SetNetwork s w)) Hsv Hn Hp Ha Hr) as Hl;
    by flatten.
  cbn [mbind option_bind].
  cbn [sv_sess with_net with_sess]. rewrite lookup_insert_eq. cbn [mbind option_bind].
  rewrite (assigned_parse a ones (net_ok_ones n held lost Hnet)). cbn [sv_sess with_sess]. rewrite lookup_insert_eq.
  cbn [mbind option_bind s_network set_address SetNetwork sv_nets with_sessions with_sess with_net s_IP].
  rewrite lookup_insert_eq. cbn [mbind option_bind n_router RegisterSession set_sessions set_pool].
  destruct (host_key a) as [_ Hmap]. pose proof Hnet as (_ & _ & _ & t & Hrep & _).
  destruct (run_op_spec (n_router n) t (OpRegister (addr_text a +:+ "/32") p) Hrep Hmap) as (r & Hreg & _).
  cbn [run_op] in Hreg. rewrite Hreg. cbn [mbind option_bind].
  assert (forall s' (runs : bool), sess_ok s' a -> (runs = true -> is_Some (s_quota s')) -> _) as Hadd
    by exact (fun s' runs => served_add sv held lost active p a n r s' runs Hsv Hn Hp Ha Hr Hreg).
  destruct (sd_adaptor_ok sub) eqn:Had; cbn [negb].
  2:{ eexists _, _, (<[p := a]> held), lost. split; [reflexivity|]. split; [|intros (_ & _ & H3 & _); congruence].
      specialize (Hadd (set_address (SetNetwork s w) (addr_text a) (assigned_text a ones)) false). flatten. by apply Hadd. }
  destruct (sd_usage sub) as [us|] eqn:Hus; cbn [New mbind option_bind].
  2:{ eexists _, _, (<[p := a]> held), lost. split; [reflexivity|]. split; [|intros (_ & _ & _ & [? H4]); congruence].
      specialize (Hadd (close_conn (set_address (SetNetwork s w) (addr_text a) (assigned_text a ones))) false). flatten. by apply Hadd. }
  eexists _, _, (<[p := a]> held), lost. split; [reflexivity|]. split; [|intros _; by rewrite dom_insert_L].
  match goal with |- served ?x _ _ _ => match x with context [set_bandwidth ?y ?u ?v] => specialize (Hadd (set_bandwidth y u v) true) end end.
  flatten. apply Hadd; [done|]. by eexists.
Qed.

Lemma session_end_ok sv held lost active p a :
  served sv held lost active -> p ∈ active -> held !! p = Some a ->
  exists sv', session_end sv p = Some sv' /\ served sv' (delete p held) lost (active ∖ {[p]}).
Proof.
  intros [Hmgr (n & Hn & Hnet) Haddr Hheap Hruns] Hact Hp. destruct (Hheap p a Hp) as (s & Hs & HIP & HC & Hw).
  destruct (Hruns p Hact) as (_ & s' & Hs' & [q Hq]). simplify_eq.
  unfold session_end, Release. rewrite Hs. cbn [mbind option_bind]. rewrite Hq. cbn [mbind option_bind].
  rewrite Hw. cbn [mbind option_bind]. rewrite Hn. cbn [mbind option_bind].
  destruct (CommitUsage q) as [usage q']. rewrite HC, HIP. pose proof (net_ok_remove n held lost p a Hnet Hp) as Hrem.
  destruct (ReleaseDevice n (assigned_text a ones)) as [err n1]. destruct Hrem as (r & Hr & Hnet').
  rewrite Hr. cbn [mbind option_bind sv_sess with_net with_sess]. rewrite lookup_insert_eq. cbn [mbind option_bind].
  eexists. split; [reflexivity|]. split.
  - done.
  - eexists. split; [apply lookup_insert_eq|exact Hnet'].
  - cbn [sv_sessions with_net with_sess close_conn set_quota s_IP]. rewrite HIP. by apply follows_delete.
  - intros x b [Hne Hx]%lookup_delete_Some. cbn [sv_sess with_net with_sess]. rewrite lookup_insert_ne by done. by apply Hheap.
  - intros x [Hx Hne]%elem_of_difference. apply not_elem_of_singleton in Hne. cbn [sv_sess with_net with_sess].
    rewrite lookup_delete_ne, lookup_insert_ne by done. by apply Hruns.
Qed.

(** ** Histories *)

(** A client connects (a new session object), or the loop of a session ends. *)
Inductive event := Login (p : nat) (sub : SubDevice) (unixMilli : nat -> Z) (now : Z) | Logout (p : nat).

(** The running sessions are those whose login succeeded and that have not
    ended. A pointer is used for one session only. *)
Definition step (st : Server * gset nat) (e : event) : option (Server * gset nat) :=
  let '(sv, active) := st in
  match e with
  | Login p sub ms now =>
      match sv_sess sv !! p with
      | Some _ => Some st
      | None =>
          '(err, sv) ← session_begin intn ms now (with_sess sv p (newServerSession "")) p sub "";
          Some (sv, match err with None => {[p]} ∪ active | Some _ => active end)
      end
  | Logout p => if decide (p ∈ active) then sv ← session_end sv p; Some (sv, active ∖ {[p]}) else Some st
  end.

Fixpoint run (st : Server * gset nat) (events : list event) : option (Server * gset nat) :=
  match events with [] => Some st | e :: events' => st ← step st e; run st events' end.

Definition event_ok (e : event) : Prop := match e with Login _ sub _ _ => lookups_ok sub | Logout _ => True end.

(** The state after some events; without failing lookups nothing is lost and
    all registered sessions run. *)
Definition history_ok (res : option (Server * gset nat)) (exact : Prop) : Prop :=
  exists sv held lost active, res = Some (sv, active) /\ served sv held lost active /\ (exact -> lost = ∅ /\ dom held = active).

Lemma step_ok sv held lost active e :
  served sv held lost active ->
  history_ok (step (sv, active) e) (event_ok e /\ lost = ∅ /\ dom held = active).
Proof using Hintn.
  intros Hsv. destruct e as [p sub ms now|p]; cbn [step event_ok].
  - destruct (sv_sess sv !! p) as [s|] eqn:Hs; [exists sv, held, lost, active; tauto|].
    assert (held !! p = None) as Hp.
    { destruct (held !! p) as [a|] eqn:Hp; [|done]. destruct (sv_heap _ _ _ _ Hsv p a Hp) as (s & Hs' & _). congruence. }
    destruct (session_begin_ok ms now (with_sess sv p (newServerSession "")) held lost active p (newServerSession "") sub)
      as (err & sv' & held' & lost' & -> & Hsv' & Hex); [by apply served_sess|done|cbn; by rewrite lookup_insert_eq|].
    cbn [mbind option_bind]. eexists sv', held', lost', _. split; [reflexivity|]. split; [done|]. intros (Hl & -> & Hd).
    destruct (Hex Hl) as [-> ->]. by rewrite Hd.
  - destruct (decide (p ∈ active)) as [Hact|Hact]; [|exists sv, held, lost, active; tauto].
    destruct (sv_runs _ _ _ _ Hsv p Hact) as [[a Ha] _].
    destruct (session_end_ok sv held lost active p a Hsv Hact Ha) as (sv' & -> & Hsv'). cbn [mbind option_bind].
    eexists sv', _, _, _. split; [reflexivity|]. split; [exact Hsv'|]. intros (_ & -> & Hd). split; [done|]. by rewrite dom_delete_L, Hd.
Qed.

Lemma run_ok events sv held lost active :
  served sv held lost active ->
  history_ok (run (sv, active) events) (Forall event_ok events /\ lost = ∅ /\ dom held = active).
Proof using Hintn.
  revert sv held lost active. induction events as [|e events IH]; intros sv held lost active Hsv; [exists sv, held, lost, active; tauto|].
  destruct (step_ok sv held lost active e Hsv) as (sv1 & held1 & lost1 & active1 & E & Hsv1 & Hex1). cbn [run]. rewrite E. cbn [mbind option_bind].
  destruct (IH sv1 held1 lost1 active1 Hsv1) as (sv2 & held2 & lost2 & active2 & E2 & Hsv2 & Hex2). exists sv2, held2, lost2, active2.
  split; [done|]. split; [done|]. intros (Hev & Hl & Hd). apply Forall_cons_1 in Hev as [He Hev]. apply Hex2. split; [done|]. by apply Hex1.
Qed.
End Service.

(** A server with one network and no sessions. *)
Definition fresh_server (w : nat) (n : Network) : Server :=
  RegisterNetwork (MkServer ∅ {[w := n]} ∅ ∅ 0) w.

Lemma fresh_served w ID CIDR MTU base ones n :
  ID <> ""%string -> v4_block CIDR = Some (base, ones) -> NewNetwork ID CIDR MTU = Ret n -> served w ID CIDR base ones (fresh_server w n) ∅ ∅ ∅.
Proof.
  intros Hid Hblock Hnew. destruct (NewIPAllocator_tracks _ _ _ Hblock) as (pool & Hpool & Htr & _).
  unfold NewNetwork in Hnew. rewrite Hpool in Hnew. injection Hnew as <-.
  unfold fresh_server, RegisterNetwork. cbn [sv_nets]. rewrite lookup_singleton_eq. cbn [n_ID].
  rewrite (proj2 (String.eqb_neq ID "") Hid). split; cbn.
  - done.
  - eexists. rewrite lookup_singleton_eq. split; [reflexivity|]. split_and!; cbn.
    + by rewrite map_img_empty_L, union_empty_l_L.
    + set_solver.
    + apply follows_empty.
    + exists empty_tables. split; [apply represents_new|apply follows_empty].
  - apply follows_empty.
  - intros p a Hp. by rewrite lookup_empty in Hp.
  - set_solver.
Qed.

(** C2. Clients do not get in each other's way, on a server with one network
    whose clients log in without naming an earlier session (no reconnects). For
    every history of logins, whatever the lookups of the manager answer, and ends
    of sessions, nothing panics, and the sessions that are registered have
    different addresses: the address of a registered session is taken in the pool,
    its route and its entry in the table of sessions lead to this session; every
    other address leads nowhere and is free unless it was lost. All running
    sessions are registered; when the lookups of all logins succeed after the
    assignment of an address, no address is lost and the registered sessions are
    exactly those that run. *)
Theorem sessions_isolated intn w ID CIDR MTU base ones n events :
  intn_ok intn -> ID <> ""%string -> v4_block CIDR = Some (base, ones) -> NewNetwork ID CIDR MTU = Ret n ->
  exists sv active (held : gmap nat Z) (lost : gset Z) n', run intn (fresh_server w n, ∅) events = Some (sv, active) /\
    active ⊆ dom held /\ (Forall event_ok events -> lost = ∅ /\ dom held = active) /\ sv_nets sv !! w = Some n' /\
    (forall p a, held !! p = Some a -> exists s, sv_sess sv !! p = Some s /\ s_IP s = addr_text a) /\
    forall a, 0 <= a < 2 ^ 32 ->
      match RouteString (n_router n') (addr_text a) with
      | Some (Some p) => held !! p = Some a /\ (forall q, held !! q = Some a -> q = p) /\
          is_taken (n_pool n') (addr_text a) = true /\ sv_sessions sv !! addr_text a = Some p
      | Some None => (forall q, held !! q <> Some a) /\
          is_taken (n_pool n') (addr_text a) = bool_decide (a ∈ lost) /\ sv_sessions sv !! addr_text a = None
      | None => False
      end.
Proof.
  intros Hintn Hid Hblock Hnew. pose proof (fresh_served w ID CIDR MTU base ones n Hid Hblock Hnew) as Hsv.
  destruct (run_ok intn Hintn w ID CIDR base ones events _ ∅ ∅ ∅ Hsv) as (sv & held & lost & active & Hrun & [_ (n' & Hn & Hnet) Haddr Hheap Hruns] & Hex).
  exists sv, active, held, lost, n'. split_and!; [done| | |done| |].
  { intros p Hp. apply elem_of_dom. by apply Hruns. }
  { intros He. apply Hex. by rewrite dom_empty_L. }
  { intros p a Hp. destruct (Hheap p a Hp) as (s & Hs & HIP & _). eauto. }
  intros a Ha. destruct Hnet as (Ht & Hdis & _ & t & Hr & Hf). rewrite (host_lookup _ t a Hr)
    by (intros k q (b & _ & ->)%Hf; apply length_addr_bits).
  assert (forall q b, held !! q = Some b -> b ∈ (map_img held ∪ lost : gset Z)) as Hin.
  { intros q b Hq. apply elem_of_union. left. apply elem_of_map_img. eauto. }
  rewrite (tracks_taken _ _ _ _ _ Ht a Ha). destruct (t_v4 t !! addr_bits a) as [p|] eqn:E.
  - apply Hf in E as (b & Hp & Hb%addr_bits_inj); [subst b|done|by apply (tr_range _ _ _ _ _ Ht), (Hin p)].
    split_and!; [done| | |].
    + intros q Hq. by eapply (follows_inj addr_bits).
    + by eapply bool_decide_eq_true_2, Hin.
    + apply Haddr. eauto.
  - assert (forall q, held !! q <> Some a) as Hno.
    { intros q Hq. assert (t_v4 t !! addr_bits a = Some q) as H by (apply Hf; eauto). congruence. }
    split_and!; [done| |].
    + apply bool_decide_ext. rewrite elem_of_union, elem_of_map_img. naive_solver.
    + destruct (sv_sessions sv !! addr_text a) as [q|] eqn:E'; [|done].
      apply Haddr in E' as (b & Hq & Hb). assert (a = b) as ->; [|by apply Hno in Hq].
      apply addr_text_inj; [done| |done]. by apply (tr_range _ _ _ _ _ Ht), (Hin q).
Qed.

(** What the manager knows of the clients of the examples. *)
Definition sample_sub (FixedIP : Z) : SubDevice := MkSub true "home" FixedIP true (Some 8) (Some (-1)) true (Some 0).
Definition sample_net : Network :=
  match NewNetwork "home" "10.1.0.0/16" 1400 with
  | Ret n => n
  | _ => MkNetwork "" "" 0 ∅ NewRouter (MkIPAllocator "" [] [] ∅ "" 0 0)
  end.
Definition sample_events : list event :=
  [Login 1 (sample_sub 0) (fun _ => 7) 0; Login 2 (sample_sub 9) (fun _ => 7) 0; Login 3 (sample_sub 9) (fun _ => 7) 0;
   Logout 1; Login 4 (sample_sub 20) (fun _ => 7) 0; Login 5 (MkSub true "home" 30 true None (Some (-1)) true (Some 0)) (fun _ => 7) 0].
Definition sample_intn (seed n : Z) : Z := seed mod n.

(** Running sessions and the session an address leads to, after some events. *)
Definition observe (st : option (Server * gset nat)) (w : nat) (ip : string) : list nat * option (option nat) :=
  match st with
  | Some (sv, active) => (elements active, n ← sv_nets sv !! w; RouteString (n_router n) ip)
  | None => ([], None)
  end.

Lemma sessions_isolated_witness :
  observe (run sample_intn (fresh_server 0 sample_net, ∅) sample_events) 0 "10.1.0.10" = ([4; 2]%nat, Some (Some 2%nat)) /\
  exists held : gmap nat Z, held !! 2%nat = Some 167837706 /\ (forall q, held !! q = Some 167837706 -> q = 2%nat).
Proof.
  assert (observe (run sample_intn (fresh_server 0 sample_net, ∅) sample_events) 0 "10.1.0.10" =
          ([4; 2]%nat, Some (Some 2%nat))) as Hobs by (vm_compute; reflexivity). split; [exact Hobs|].
  destruct (sessions_isolated sample_intn 0 "home" "10.1.0.0/16" 1400 167837696 16 sample_net sample_events)
    as (sv & active & held & lost & n' & Hrun & _ & _ & Hn & _ & Hall).
  - intros seed n Hn. by apply Z.mod_pos_bound.
  - done.
  - vm_compute. reflexivity.
  - vm_compute. reflexivity.
  - exists held. specialize (Hall 167837706 ltac:(lia)). change (addr_text 167837706) with "10.1.0.10" in Hall.
    rewrite Hrun in Hobs. cbn [observe] in Hobs. rewrite Hn in Hobs. cbn [mbind option_bind] in Hobs.
    injection Hobs as _ Hroute. rewrite Hroute in Hall. destruct Hall as (H1 & H2 & _). by split.
Defined.

(** ** Reconnecting *)

(** What an observer sees of an address: the session its route leads to,
    whether the pool counts it as taken, its session in the table. *)
Definition look (sv : Server) (ip : string) : option (option nat * bool * option nat) :=
  n ← sv_nets sv !! 0%nat;
  route ← RouteString (n_router n) ip;
  Some (route, is_taken (n_pool n) ip, sv_sessions sv !! ip).

(** A client logs in with a session of its own. *)
Definition connect (sv : Server) (p : nat) (id lastSessionId : string) (FixedIP : Z) : option (option serr * Server) :=
  session_begin sample_intn (fun _ => 7) 0 (with_sess sv p (newServerSession id)) p (sample_sub FixedIP) lastSessionId.

(** A client with a fixed address reconnects, then the loop of its old session
    ends, then another client asks for the address. *)
Definition reconnect_history : option (list (option serr) * list (option (option nat * bool * option nat)) * Server) :=
  '(e1, sv1) ← connect (fresh_server 0 sample_net) 1 "tcp-1" "" 9;
  '(e2, sv2) ← connect sv1 2 "tcp-2" "tcp-1" 9;
  sv3 ← session_end sv2 1;
  '(e4, sv4) ← connect sv3 3 "tcp-3" "" 9;
  Some ([e1; e2; e4], [look sv1 "10.1.0.10"; look sv2 "10.1.0.10"; look sv3 "10.1.0.10"; look sv4 "10.1.0.10"], sv4).

(** Reconnecting breaks this: the old session is released twice. When a
    client with a fixed address reconnects, the address passes from its old
    session 1 to its new session 2; when then the loop of session 1 ends, its
    second release frees the address and removes the route of session 2, which
    still runs, and a third client is given the same address while session 2
    has it. *)
Theorem reconnect_double_release :
  exists sv s2 s3, reconnect_history =
      Some ([None; None; None],
            [Some (Some 1, true, Some 1); Some (Some 2, true, Some 2); Some (None, false, None);
             Some (Some 3, true, Some 3)]%nat, sv) /\
    sv_sess sv !! 2%nat = Some s2 /\ sv_sess sv !! 3%nat = Some s3 /\
    s_IP s2 = s_IP s3 /\ s_stopped s2 = false /\ s_closed s2 = false /\ s_stopped s3 = false /\ s_closed s3 = false.
Proof.
  destruct reconnect_history as [[[es ls] sv]|] eqn:E; [|vm_compute in E; discriminate].
  vm_compute in E. injection E as <- <- <-. eexists _, _, _.
  split; [reflexivity|]. split; [vm_compute; reflexivity|]. split; [vm_compute; reflexivity|]. by repeat split.
Qed.
