(* ===== verification/Manager.v ===== *)
(** * The management server's tables (manager/server/internal/logic: quota, device,
      network)

    A table is a map from primary keys to rows; queries see all rows, and calls
    of the database succeed. Generated ids, keys and times are arguments. The
    networks that run are those of the server's network manager. *)

From S2P Require Import Prelude GoNet GoText Router IPPool QuotaCounter GoFloat SmoothLimiter Metrics Server.

#[local] Open Scope string_scope.
#[local] Open Scope Z_scope.

Record quota_row := MkQuotaRow { qr_Name : string; qr_Type : string; qr_Unit : string; qr_Value : Z; qr_Period : string }.
Record flow_row := MkFlow {
  f_Quota : Z; f_Usage : Z; f_Target : string; f_TargetType : string; f_RecordStart : Z; f_RecordEnd : Z }.
Record network_row := MkNetworkRow { nr_Name : string; nr_Cidr : string; nr_Mtu : Z; nr_Description : string }.
Record device_row := MkDeviceRow {
  dr_Name : string; dr_Enabled : Z; dr_PublicKey : string; dr_PrivateKey : string; dr_CreatedAt : Z }.
Record sub_row := MkSubRow { sr_DeviceId : string; sr_NetworkId : string; sr_Quota : Z; sr_Bandwidth : Z; sr_Settings : string }.

Record Db := MkDb {
  db_quotas : gmap Z quota_row; db_flows : gmap Z flow_row; db_networks : gmap string network_row;
  db_devices : gmap string device_row;
  db_subs : gmap Z sub_row }.

Definition set_quotas (db : Db) m : Db := MkDb m (db_flows db) (db_networks db) (db_devices db) (db_subs db).
Definition set_flows (db : Db) m : Db := MkDb (db_quotas db) m (db_networks db) (db_devices db) (db_subs db).
Definition set_networks (db : Db) m : Db := MkDb (db_quotas db) (db_flows db) m (db_devices db) (db_subs db).
Definition set_devices (db : Db) m : Db := MkDb (db_quotas db) (db_flows db) (db_networks db) m (db_subs db).
Definition set_subs (db : Db) m : Db := MkDb (db_quotas db) (db_flows db) (db_networks db) (db_devices db) m.

Inductive db_error := NotFound | Conflict | AlreadyRunning | NotRunning | BadNetwork (e : alloc_error) | EmptyData.

(** ** Quotas *)

Definition IdNoLimit : Z := 0.

Record quota_info := MkQuotaInfo {
  qi_Id : Z; qi_Name : string; qi_Type : string; qi_Unit : string; qi_Value : Z; qi_Period : string }.

(** Values are kept in the unit of the type; [int] arithmetic wraps. *)
Definition bytes_value (ty : string) (value : Z) : Z :=
  if String.eqb ty "mb" then i64 (value * 1024 * 1024)
  else if String.eqb ty "gb" then i64 (value * 1024 * 1024 * 1024)
  else if String.eqb ty "tb" then i64 (value * 1024 * 1024 * 1024 * 1024)
  else value.

Definition GetById (db : Db) (id : Z) : db_error + quota_info :=
  if id =? IdNoLimit then inr (MkQuotaInfo 0 "unlimited" "" "" ValueNoLimit "")
  else match db_quotas db !! id with
       | None => inl NotFound
       | Some q => inr (MkQuotaInfo id (qr_Name q) (qr_Type q) (qr_Unit q) (bytes_value (qr_Type q) (qr_Value q)) (qr_Period q))
       end.

Definition Create (db : Db) (id : Z) (q : quota_row) : Db := set_quotas db (<[id := q]> (db_quotas db)).

(** Only the name and the value can change. *)
Definition Update (db : Db) (id : Z) (name : option string) (value : option Z) : Db :=
  set_quotas db (alter (fun q => MkQuotaRow (default (qr_Name q) name) (qr_Type q) (qr_Unit q) (default (qr_Value q) value)
    (qr_Period q)) id (db_quotas db)).

(** ** Usage *)

Definition same_flow (id : Z) (target targetType : string) (f : flow_row) : bool :=
  (f_Quota f =? id) && String.eqb (f_Target f) target && String.eqb (f_TargetType f) targetType.

(** The rows of a target. *)
Definition flows_of (db : Db) (id : Z) (target targetType : string) : list (Z * flow_row) :=
  filter (fun e => same_flow id target targetType e.2 = true) (map_to_list (db_flows db)).

(** A latest row ([OrderDesc(record_end).One()]); of several with the same time
    the database picks one. *)
Definition latest (l : list (Z * flow_row)) : option (Z * flow_row) :=
  foldr (fun e best => match best with
                       | Some b => if f_RecordEnd e.2 <=? f_RecordEnd b.2 then Some b else Some e
                       | None => Some e end) None l.

(** Absolute value of a duration in 64 bits. *)
Definition duration_Abs (d : Z) : Z := if 0 <=? d then d else if d =? - 2 ^ 63 then 2 ^ 63 - 1 else - d.

Definition Hour : Z := 3600000000000.

(** The second statement of [submitToDatabase]: [seen] is the row the first one
    has read. The update writes the usage that was read plus the new one. *)
Definition write_flow (db : Db) (seen : option (Z * flow_row)) (id : Z) (target targetType : string) (usage curr now next : Z) : Db :=
  let insert := set_flows db (<[next := MkFlow id usage target targetType curr now]> (db_flows db)) in
  match seen with
  | None => insert
  | Some (fid, flow) =>
      if (0 <? f_RecordEnd flow) && (duration_Abs (i64 (i64 (curr - f_RecordEnd flow) * 1000000000)) <? Hour)
      then set_flows db (alter (fun row => MkFlow (f_Quota row) (i64 (f_Usage flow + usage)) (f_Target row) (f_TargetType row)
                                             (f_RecordStart row) curr) fid (db_flows db))
      else insert
  end.

(** [submitToDatabase] with the start time [curr], at the time [now] (seconds),
    when nothing comes between its two statements; [next] is the id of a new row. *)
Definition submitToDatabase (db : Db) (id : Z) (target targetType : string) (usage curr now next : Z) : Db :=
  write_flow db (latest (flows_of db id target targetType)) id target targetType usage curr now next.

(** The start time of the adaptor is passed on; only a missing one is replaced. *)
Definition SubmitUsage (db : Db) (id : Z) (target targetType : string) (usage : Z) (startTime : option Z) (now next : Z) : Db :=
  submitToDatabase db id target targetType usage (default now startTime) now next.

(** [LoadUsage] for the period [from, to] of the quota. *)
Definition LoadUsage (db : Db) (id : Z) (target targetType : string) (from to : Z) : db_error + Z :=
  match GetById db id with
  | inl e => inl e
  | inr _ =>
      inr (foldr (fun e acc => i64 (f_Usage (e : Z * flow_row).2 + acc)) 0
             (filter (fun e => from <= f_RecordEnd e.2 <= to) (flows_of db id target targetType)))
  end.

(** [GetQuotaAdaptor]: the limit and the usage a counter starts with. *)
Definition GetQuotaAdaptor (db : Db) (id : Z) : db_error + Z :=
  match GetById db id with inl e => inl e | inr q => inr (qi_Value q) end.

(** ** Devices *)

Definition CreateSubDevice (db : Db) (id : Z) (deviceId networkId : string) (quota : Z) (settings : string)
    : option db_error * Db :=
  match db_networks db !! networkId, db_devices db !! deviceId with
  | Some _, Some _ =>
      if existsb (fun e : Z * sub_row => String.eqb (sr_NetworkId e.2) networkId && String.eqb (sr_DeviceId e.2) deviceId)
           (map_to_list (db_subs db))
      then (Some Conflict, db)
      else (None, set_subs db (<[id := MkSubRow deviceId networkId quota 0 settings]> (db_subs db)))
  | _, _ => (Some NotFound, db)
  end.

Definition SetSubDeviceQuota (db : Db) (id quota : Z) : option db_error * Db :=
  match db_subs db !! id with
  | None => (Some NotFound, db)
  | Some r =>
      (None, set_subs db (<[id := MkSubRow (sr_DeviceId r) (sr_NetworkId r) quota (sr_Bandwidth r) (sr_Settings r)]> (db_subs db)))
  end.

(** Names of members are compared without regard to case ([foldName]). *)
Definition lower (c : ascii) : ascii := if (65 <=? ord c) && (ord c <=? 90) then chr (ord c + 32) else c.
Fixpoint fold_name (s : string) : string := match s with EmptyString => "" | String c s' => String (lower c) (fold_name s') end.

(** [buildSubDeviceBrief]: the fixed address of the settings; of several members
    of the name the last one counts. Settings that do not parse are logged and
    count as empty; a member that is no number, or none of 64 bits, is an error
    too, but the other members are kept. *)
Definition fixed_ip (settings : string) : Z :=
  match Unmarshal settings with
  | Some (JObj l) =>
      foldl (fun ip m =>
        if String.eqb (fold_name (m : string * json).1) "fixed_ip"
        then match m.2 with JNum z => if (- 2 ^ 63 <=? z) && (z <? 2 ^ 63) then z else ip | _ => ip end
        else ip) 0 l
  | _ => 0
  end.

(** What a login finds in the tables for the sub device [id]: the argument of
    [AcquireDevice]. [from] and [to] are the current period. *)
Definition sub_device (db : Db) (id from to : Z) : SubDevice :=
  match db_subs db !! id with
  | None => MkSub false "" 0 false None None false None
  | Some r =>
      let value q := match GetById db q with inr i => Some (qi_Value i) | inl _ => None end in
      MkSub true (sr_NetworkId r) (fixed_ip (sr_Settings r)) (bool_decide (is_Some (db_devices db !! sr_DeviceId r)))
        (value (sr_Bandwidth r)) (value (sr_Quota r))
        (match GetQuotaAdaptor db (sr_Quota r) with inr _ => true | inl _ => false end)
        (match LoadUsage db (sr_Quota r) (sr_DeviceId r) "device_traffic" from to with inr u => Some u | inl _ => None end)
  end.

(** [buildEncryptKey]: a key of 16 bytes, padded with zeros or cut. *)
Definition buildEncryptKey (key : list Z) : list Z :=
  let res := if (length key <? 16)%nat then (key ++ replicate (16 - length key) 0)%list else key in take 16 res.

(** ** Networks *)

(** A new network object is put on the heap and registered. The outer [None] is
    a panic of the allocator. *)
Definition start (sv : Server) (w : nat) (id : string) (row : network_row) : option (option db_error * Server) :=
  match NewNetwork id (nr_Cidr row) (nr_Mtu row) with
  | Ret n => Some (None, RegisterNetwork (with_net sv w n) w)
  | Fail e => Some (Some (BadNetwork e), sv)
  | Panic => None
  end.

(** The row stays when the network cannot be created. *)
Definition CreateNetwork (db : Db) (sv : Server) (w : nat) (id : string) (row : network_row)
    : option (option db_error * Db * Server) :=
  let db := set_networks db (<[id := row]> (db_networks db)) in
  '(e, sv) ← start sv w id row; Some (e, db, sv).

Definition stop (sv : Server) (id : string) : Server :=
  match GetNetwork sv id with
  | None => sv
  | Some w => RemoveNetwork (match sv_nets sv !! w with Some n => Network_Stop sv n | None => sv end) id
  end.

Definition StopNetwork (sv : Server) (id : string) : option db_error * Server :=
  match GetNetwork sv id with None => (Some NotRunning, sv) | Some _ => (None, stop sv id) end.

Definition StartNetwork (db : Db) (sv : Server) (w : nat) (id : string) : option (option db_error * Server) :=
  match GetNetwork sv id with
  | Some _ => Some (Some AlreadyRunning, sv)
  | None => match db_networks db !! id with None => Some (Some NotFound, sv) | Some row => start sv w id row end
  end.

Definition DeleteNetwork (db : Db) (sv : Server) (id : string) : option db_error * Db * Server :=
  match db_networks db !! id with
  | None => (Some NotFound, db, sv)
  | Some _ => (None, set_networks db (delete id (db_networks db)), stop sv id)
  end.

(** The value of a field in an update: a text, or any other JSON value with what
    the database makes of it in a column of texts (a null reads as the empty
    text). *)
Inductive field_value := FString (s : string) | FOther (stored : string).
Definition stored_text (v : field_value) : string := match v with FString s | FOther s => s end.

(** [UpdateNetwork] stops the network; an empty text for the block or the name is
    skipped, a given description is taken as it is. The database refuses an
    update without any column, when the network has been stopped already. *)
Definition UpdateNetwork (db : Db) (sv : Server) (id : string) (cidr name desc : option field_value)
    : option db_error * Db * Server :=
  match db_networks db !! id with
  | None => (Some NotFound, db, sv)
  | Some row =>
      let sv := stop sv id in
      let given (o : option field_value) := match o with Some (FString v) => if String.eqb v "" then None else o | _ => o end in
      let set (o : option field_value) (old : string) := match o with Some v => stored_text v | None => old end in
      match given cidr, given name, desc with
      | None, None, None => (Some EmptyData, db, sv)
      | cidr', name', desc' =>
          let row := MkNetworkRow (set name' (nr_Name row)) (set cidr' (nr_Cidr row)) (nr_Mtu row) (set desc' (nr_Description row)) in
          (None, set_networks db (<[id := row]> (db_networks db)), sv)
      end
  end.
