(* ===== verification/ManagerProps.v ===== *)
(** * Usage is recorded, and running networks match their rows *)

From S2P Require Import Prelude GoNet GoText Router RouterSpec IPPool QuotaCounter GoFloat SmoothLimiter Metrics Server Manager.

(** ** Usage *)

Definition key := (Z * string * string)%type.
Definition flow_key (f : flow_row) : key := (f_Quota f, f_Target f, f_TargetType f).

(** Everything recorded for a quota and a target. *)
Definition amount (k : key) (e : Z * flow_row) : Z := if decide (flow_key e.2 = k) then f_Usage e.2 else 0.
Definition recorded (m : gmap Z flow_row) (k : key) : Z := sum (amount k <$> map_to_list m).

Lemma sum_perm l l' : l ≡ₚ l' -> sum l = sum l'.
Proof. unfold sum. induction 1; simpl; lia. Qed.

Lemma recorded_insert m i f k : m !! i = None -> recorded (<[i := f]> m) k = amount k (i, f) + recorded m k.
Proof. intros Hi. unfold recorded. rewrite (sum_perm _ _ (fmap_Permutation _ _ _ (map_to_list_insert m i f Hi))). done. Qed.

Lemma recorded_update m i f f' k : m !! i = Some f -> recorded (<[i := f']> m) k = recorded m k - amount k (i, f) + amount k (i, f').
Proof.
  intros Hi. rewrite <- insert_delete_eq, recorded_insert by apply lookup_delete_eq.
  rewrite <- (insert_delete_id m i f Hi) at 2. rewrite recorded_insert by apply lookup_delete_eq. lia.
Qed.

Lemma latest_elem l e : latest l = Some e -> e ∈ l.
Proof.
  revert e. induction l as [|x l IH]; intros e He; [done|]. unfold latest in *. cbn [foldr] in He.
  destruct (foldr _ None l) as [b|]; [|set_solver]. destruct (_ <=? _); [|set_solver]. injection He as <-.
  apply elem_of_cons. right. by apply IH.
Qed.

Lemma flows_of_elem db id target ty i f :
  (i, f) ∈ flows_of db id target ty -> db_flows db !! i = Some f /\ flow_key f = (id, target, ty).
Proof.
  unfold flows_of. rewrite list_elem_of_filter, elem_of_map_to_list. unfold same_flow. cbn [snd]. intros [H Hi].
  split; [done|]. apply andb_true_iff in H as [[H1 H2]%andb_true_iff H3]. unfold flow_key.
  apply Z.eqb_eq in H1. apply String.eqb_eq in H2, H3. congruence.
Qed.

(** A row that was read and has not changed since. *)
Definition row_current (db : Db) (k : key) (seen : option (Z * flow_row)) : Prop :=
  match seen with Some (fid, flow) => db_flows db !! fid = Some flow /\ flow_key flow = k | None => True end.

Lemma alter_insert_lookup (f : flow_row -> flow_row) (m : gmap Z flow_row) i x : m !! i = Some x -> alter f i m = <[i := f x]> m.
Proof. intros Hi. rewrite <- (insert_id m i x Hi) at 1. rewrite alter_insert_eq. done. Qed.

(** Writing adds the amount to its target, whichever row it goes to, if the row
    that was read is current. *)
Lemma write_recorded db seen id target ty usage curr now next k :
  row_current db (id, target, ty) seen -> db_flows db !! next = None ->
  i64 (recorded (db_flows (write_flow db seen id target ty usage curr now next)) k) =
  i64 (recorded (db_flows db) k + if decide (k = (id, target, ty)) then usage else 0).
Proof.
  intros Hseen Hn. unfold write_flow.
  assert (i64 (recorded (<[next := MkFlow id usage target ty curr now]> (db_flows db)) k) =
    i64 (recorded (db_flows db) k + if decide (k = (id, target, ty)) then usage else 0)) as Hins.
  { rewrite recorded_insert by done. unfold amount, flow_key. cbn [snd f_Quota f_Target f_TargetType f_Usage].
    f_equal. repeat case_decide; try congruence; lia. }
  destruct seen as [[fid flow]|]; [|done]. destruct (_ && _); [|done]. destruct Hseen as [Hf Hk].
  cbn [set_flows db_flows]. rewrite (alter_insert_lookup _ _ _ flow) by done. rewrite (recorded_update _ _ flow) by done.
  unfold amount. cbn [snd]. replace (flow_key (MkFlow (f_Quota flow) (i64 (f_Usage flow + usage)) (f_Target flow)
    (f_TargetType flow) (f_RecordStart flow) curr)) with (flow_key flow) by done. rewrite Hk. cbn [f_Usage].
  destruct (decide ((id, target, ty) = k)) as [<-|Hne].
  - rewrite !decide_True by done. destruct (i64_cong (f_Usage flow + usage)) as [j Hj]. apply (i64_eq _ _ j). lia.
  - rewrite !decide_False by congruence. f_equal. lia.
Qed.

(** Writing changes no row of another target. *)
Lemma write_other db seen id target ty usage curr now next k seen' :
  row_current db (id, target, ty) seen -> db_flows db !! next = None -> k <> (id, target, ty) ->
  row_current db k seen' -> row_current (write_flow db seen id target ty usage curr now next) k seen'.
Proof.
  intros Hseen Hn Hk. destruct seen' as [[fid' flow']|]; [|done]. intros [Hf' Hk']. unfold write_flow.
  assert (row_current (set_flows db (<[next := MkFlow id usage target ty curr now]> (db_flows db))) k (Some (fid', flow'))) as Hins.
  { split; [|done]. cbn [set_flows db_flows]. rewrite lookup_insert_ne; [done|]. congruence. }
  destruct seen as [[fid flow]|]; [|done]. destruct (_ && _); [|done]. destruct Hseen as [Hf Hkf]. split; [|done].
  cbn [set_flows db_flows]. rewrite lookup_alter_ne; [done|]. intros ->. congruence.
Qed.

Lemma latest_current db id target ty : row_current db (id, target, ty) (latest (flows_of db id target ty)).
Proof. destruct (latest _) as [[fid flow]|] eqn:Hl; [|done]. by apply latest_elem, flows_of_elem in Hl. Qed.

Lemma submit_recorded db id target ty usage curr now next k :
  db_flows db !! next = None ->
  i64 (recorded (db_flows (submitToDatabase db id target ty usage curr now next)) k) =
  i64 (recorded (db_flows db) k + if decide (k = (id, target, ty)) then usage else 0).
Proof. intros Hn. apply write_recorded; [apply latest_current|done]. Qed.

(** A submission with its times and the id of a new row. *)
Record submission := MkSubmission { su_key : key; su_usage : Z; su_start : option Z; su_now : Z; su_next : Z }.

Definition submit_one (db : Db) (s : submission) : Db :=
  SubmitUsage db (su_key s).1.1 (su_key s).1.2 (su_key s).2 (su_usage s) (su_start s) (su_now s) (su_next s).

(** The database hands out ids that are not in use. *)
Fixpoint fresh_ids (db : Db) (l : list submission) : Prop :=
  match l with [] => True | s :: l' => db_flows db !! su_next s = None /\ fresh_ids (submit_one db s) l' end.

Definition submitted_for (k : key) (l : list submission) : Z := sum ((fun s => if decide (k = su_key s) then su_usage s else 0) <$> l).

(** No usage is lost on the way to the database: after any submissions for
    any quotas and targets, what is recorded for each of them has grown by
    exactly what was submitted for it, in 64-bit arithmetic, whether rows were
    merged or added. *)
Theorem usage_recorded db l k :
  fresh_ids db l -> i64 (recorded (db_flows (foldl submit_one db l)) k) = i64 (recorded (db_flows db) k + submitted_for k l).
Proof.
  revert db. induction l as [|s l IH]; intros db Hf; [cbn; by rewrite Z.add_0_r|]. destruct Hf as [Hn Hf].
  cbn [foldl]. rewrite IH by done. unfold submitted_for. rewrite fmap_cons. unfold sum at 2. cbn [foldr]. fold sum.
  destruct s as [[[id target] ty] u st now next]. unfold submit_one, SubmitUsage in *. cbn [su_key su_usage su_start su_now su_next fst snd] in *.
  pose proof (submit_recorded db id target ty u (default now st) now next k Hn) as H.
  destruct (i64_cong (recorded (db_flows (submitToDatabase db id target ty u (default now st) now next)) k)) as [j1 Hj1].
  destruct (i64_cong (recorded (db_flows db) k + (if decide (k = (id, target, ty)) then u else 0))) as [j2 Hj2].
  rewrite H in Hj1. fold (submitted_for k l). unfold submitted_for. apply (i64_eq _ _ (j2 - j1)).
  destruct (decide (k = (id, target, ty))); unfold sum in *; lia.
Qed.

Definition sample_submissions : list submission :=
  [MkSubmission (1, "dev"%string, "device_traffic"%string) 500 (Some 1000) 1060 1;
   MkSubmission (1, "dev"%string, "device_traffic"%string) 700 (Some 1000) 1120 2;
   MkSubmission (1, "dev"%string, "device_traffic"%string) 900 (Some 9000) 9060 3].

Lemma usage_recorded_witness :
  i64 (recorded (db_flows (foldl submit_one (MkDb ∅ ∅ ∅ ∅ ∅) sample_submissions)) (1, "dev"%string, "device_traffic"%string)) = 2100 /\
  size (db_flows (foldl submit_one (MkDb ∅ ∅ ∅ ∅ ∅) sample_submissions)) = 2%nat.
Proof.
  split; [|vm_compute; reflexivity].
  rewrite (usage_recorded (MkDb ∅ ∅ ∅ ∅ ∅) sample_submissions (1, "dev"%string, "device_traffic"%string));
    [vm_compute; reflexivity|]. cbn [fresh_ids sample_submissions]. split; [vm_compute; reflexivity|].
  split; [vm_compute; reflexivity|]. split; [vm_compute; reflexivity|exact I].
Defined.

(** The end of a merged row is set to the start of the session: usage of today
    leaves today's period when the session started yesterday. A day is
    [86400, 172799]; the session started ten minutes before it. *)
Lemma merge_leaves_period :
  let db0 := MkDb {[1 := MkQuotaRow "q" "mb" "" 1 "day"]} ∅ ∅ ∅ ∅ in
  let db1 := SubmitUsage db0 1 "dev" "device_traffic" 500 (Some 85800) 86460 1 in
  let db2 := SubmitUsage db1 1 "dev" "device_traffic" 700 (Some 85800) 86520 2 in
  LoadUsage db1 1 "dev" "device_traffic" 86400 172799 = inr 500 /\ LoadUsage db2 1 "dev" "device_traffic" 86400 172799 = inr 0.
Proof. by split; vm_compute. Qed.

(** ** Networks *)

Lemma or_not_mask_total dst mask :
  (length dst <= length mask)%nat -> exists r, or_not_mask dst mask = Some r /\ length r = length dst.
Proof.
  revert mask. induction dst as [|x dst IH]; intros [|m mask] Hl; simpl in Hl; try lia; [by eexists..|].
  destruct (IH mask ltac:(lia)) as (r & Hr & Hlr). cbn [or_not_mask]. rewrite Hr. cbn [mbind option_bind].
  eexists. split; [done|]. simpl. lia.
Qed.

Lemma ipToUint32_total ip : length ip = 4%nat -> exists v, ipToUint32 ip = Some v.
Proof.
  intros Hl. unfold ipToUint32. rewrite To4_4 by done. destruct ip as [|a [|b [|c [|d [|]]]]]; try done. by eexists.
Qed.

Lemma mask_text_total mask : (4 <= length mask)%nat -> exists t, mask_text mask = Some t.
Proof. intros Hl. destruct mask as [|a [|b [|c [|d l]]]]; simpl in Hl; try lia. by eexists. Qed.

Lemma length_copy_new n l : length (copy_new n l) = n.
Proof. unfold copy_new. rewrite length_app, length_take, length_replicate. lia. Qed.

(** Whatever the text of a block, a new pool is made or refused. *)
Lemma NewIPAllocator_no_panic s : NewIPAllocator s <> Panic.
Proof.
  unfold NewIPAllocator. destruct (ParseCIDR s) as [[ip n]|] eqn:E; [|done].
  apply ParseCIDR_shape in E as (ones & bits & Hb & _ & Hm & _).
  assert (4 <= length (net_Mask n))%nat as Hl.
  { rewrite Hm. destruct Hb as [-> | ->]; [rewrite length_CIDRMask_32|rewrite length_CIDRMask_128]; lia. }
  destruct (mask_text_total _ Hl) as [t ->]. cbn [or_panic mbind outcome_mbind].
  destruct (To4 (net_IP n)) as [q|] eqn:Eq; [|done]. apply To4_length in Eq. rewrite Eq.
  destruct (or_not_mask_total (copy_new 4 (default [] (ip_Mask (net_IP n) (net_Mask n)))) (net_Mask n)) as (r & -> & Hr);
    [rewrite length_copy_new; lia|]. rewrite length_copy_new in Hr. cbn [or_panic mbind outcome_mbind].
  unfold calculateIPRangeSize.
  destruct (ipToUint32_total (<[3%nat:=1]> (copy_new 4 q))) as [v1 ->]; [by rewrite length_insert, length_copy_new|].
  destruct (ipToUint32_total (<[3%nat:=254]> r)) as [v2 ->]; [by rewrite length_insert|].
  done.
Qed.

#[export] Instance field_value_eq_dec : EqDecision field_value.
Proof. solve_decision. Defined.

(** The operations an administrator has on networks. *)
Inductive net_op :=
| OpCreate (id : string) (row : network_row)
| OpStop (id : string)
| OpStart (id : string)
| OpDelete (id : string)
| OpUpdate (id : string) (cidr name desc : option field_value).

(** A new network object gets a new place on the heap. *)
Definition exec (st : Db * Server) (o : net_op) : option (option db_error * (Db * Server)) :=
  let '(db, sv) := st in
  let w := fresh (dom (sv_nets sv)) in
  match o with
  | OpCreate id row => '(e, db, sv) ← CreateNetwork db sv w id row; Some (e, (db, sv))
  | OpStop id => let '(e, sv) := StopNetwork sv id in Some (e, (db, sv))
  | OpStart id => '(e, sv) ← StartNetwork db sv w id; Some (e, (db, sv))
  | OpDelete id => let '(e, db, sv) := DeleteNetwork db sv id in Some (e, (db, sv))
  | OpUpdate id cidr name desc => let '(e, db, sv) := UpdateNetwork db sv id cidr name desc in Some (e, (db, sv))
  end.

Fixpoint exec_all (st : Db * Server) (ops : list net_op) : option (list (option db_error) * (Db * Server)) :=
  match ops with
  | [] => Some ([], st)
  | o :: ops' => '(e, st) ← exec st o; '(es, st) ← exec_all st ops'; Some (e :: es, st)
  end.

(** The specification: the rows, and which of them run. *)
Record catalog := MkCatalog { c_rows : gmap string network_row; c_running : gset string }.

Definition block_error (cidr : string) : option db_error :=
  match NewIPAllocator cidr with Fail e => Some (BadNetwork e) | _ => None end.

Definition spec_start (c : catalog) (id : string) (row : network_row) : option db_error * catalog :=
  match block_error (nr_Cidr row) with
  | Some e => (Some e, c)
  | None => (None, MkCatalog (c_rows c) ({[id]} ∪ c_running c))
  end.

(** What an update changes, and the row after it. *)
Definition changes (cidr name desc : option field_value) : bool :=
  match desc with Some _ => true | None => existsb (fun o => bool_decide (o <> None /\ o <> Some (FString ""))) [cidr; name] end.

Definition edit (row : network_row) (cidr name desc : option field_value) : network_row :=
  let text (o : option field_value) (old : string) := default old (stored_text <$> o) in
  let unless_empty (o : option field_value) (old : string) := if decide (o = Some (FString "")) then old else text o old in
  MkNetworkRow (unless_empty name (nr_Name row)) (unless_empty cidr (nr_Cidr row)) (nr_Mtu row) (text desc (nr_Description row)).

Definition spec_op (c : catalog) (o : net_op) : option db_error * catalog :=
  match o with
  | OpCreate id row => spec_start (MkCatalog (<[id := row]> (c_rows c)) (c_running c)) id row
  | OpStop id => if decide (id ∈ c_running c) then (None, MkCatalog (c_rows c) (c_running c ∖ {[id]})) else (Some NotRunning, c)
  | OpStart id =>
      if decide (id ∈ c_running c) then (Some AlreadyRunning, c)
      else match c_rows c !! id with None => (Some NotFound, c) | Some row => spec_start c id row end
  | OpDelete id =>
      match c_rows c !! id with
      | None => (Some NotFound, c)
      | Some _ => (None, MkCatalog (delete id (c_rows c)) (c_running c ∖ {[id]}))
      end
  | OpUpdate id cidr name desc =>
      match c_rows c !! id with
      | None => (Some NotFound, c)
      | Some row =>
          if changes cidr name desc
          then (None, MkCatalog (<[id := edit row cidr name desc]> (c_rows c)) (c_running c ∖ {[id]}))
          else (Some EmptyData, MkCatalog (c_rows c) (c_running c ∖ {[id]}))
      end
  end.

Fixpoint spec_all (c : catalog) (ops : list net_op) : list (option db_error) * catalog :=
  match ops with
  | [] => ([], c)
  | o :: ops' => let '(e, c) := spec_op c o in let '(es, c) := spec_all c ops' in (e :: es, c)
  end.

(** New ids are not in use. *)
Fixpoint new_ids (c : catalog) (ops : list net_op) : Prop :=
  match ops with
  | [] => True
  | o :: ops' =>
      match o with OpCreate id _ => id <> ""%string /\ c_rows c !! id = None | _ => True end /\ new_ids (spec_op c o).2 ops'
  end.

(** The tables and the registry stand for a catalog: what runs has a row, and
    its object carries the block and MTU of the row. *)
Record represents (st : Db * Server) (c : catalog) : Prop := {
  rep_rows : db_networks st.1 = c_rows c;
  rep_running : dom (sv_manager st.2) = c_running c;
  rep_no_empty : c_rows c !! ""%string = None;
  rep_match : forall id w, sv_manager st.2 !! id = Some w -> exists n row,
    sv_nets st.2 !! w = Some n /\ c_rows c !! id = Some row /\
    n_ID n = id /\ n_CIDR n = nr_Cidr row /\ n_MTU n = nr_Mtu row }.

Definition running (sv : Server) (id : string) (w : nat) (n : Network) : Prop :=
  sv_manager sv !! id = Some w /\ sv_nets sv !! w = Some n.
Definition session_of (n : Network) (p : nat) : Prop := p ∈ (map_to_list (n_sessions n)).*2.
Definition told_to_stop (sv : Server) (p : nat) : Prop := forall s, sv_sess sv !! p = Some s -> s_stopped s = true.

(** What operations on networks do to the server: sessions of networks that
    leave the registry are told to stop, no other session changes, and network
    objects are added, never changed or registered again. *)
Record effect (sv sv' : Server) : Prop := {
  eff_stopped : forall id w n p, running sv id w n -> session_of n p -> sv_manager sv' !! id = Some w \/ told_to_stop sv' p;
  eff_others : forall p, sv_sess sv' !! p = sv_sess sv !! p \/
    exists id w n, running sv id w n /\ session_of n p /\ sv_manager sv' !! id <> Some w;
  eff_stay : forall p, told_to_stop sv p -> told_to_stop sv' p;
  eff_heap : sv_nets sv ⊆ sv_nets sv';
  eff_new : forall w n, sv_nets sv' !! w = Some n -> sv_nets sv !! w = Some n \/ (sv_nets sv !! w = None /\ n_sessions n = ∅);
  eff_registry : forall id w, sv_manager sv' !! id = Some w -> sv_manager sv !! id = Some w \/ sv_nets sv !! w = None }.

#[export] Instance effect_preorder : PreOrder effect.
Proof.
  split.
  - intros sv. split; unfold running; naive_solver.
  - intros a b c [S1 O1 T1 H1 N1 R1] [S2 O2 T2 H2 N2 R2]. split.
    + intros id w n p [Hm Hw] Hp. destruct (S1 id w n p) as [Hb|Hb]; [done..| |auto].
      apply (S2 id w n p); [split; [done|by eapply lookup_weaken]|done].
    + intros p. destruct (O2 p) as [E|(id & w & n & [Hm Hw] & Hp & Hno)].
      * destruct (O1 p) as [E'|(id & w & n & [Hm Hw] & Hp & Hno)]; [left; congruence|].
        right. exists id, w, n. split_and!; [done|done|]. intros Hc. destruct (R2 _ _ Hc) as [|Hn]; [done|].
        by rewrite (lookup_weaken _ _ _ _ Hw H1) in Hn.
      * right. destruct (N1 _ _ Hw) as [Hw'|[_ He]].
        -- destruct (R1 _ _ Hm) as [Hm'|Hn]; [|congruence]. by exists id, w, n.
        -- unfold session_of in Hp. rewrite He, map_to_list_empty in Hp. set_solver.
    + auto.
    + by etrans.
    + intros w n Hc. destruct (N2 _ _ Hc) as [Hb|[Hb He]]; [auto|]. right. split; [|done].
      destruct (sv_nets a !! w) eqn:E; [|done]. by rewrite (lookup_weaken _ _ _ _ E H1) in Hb.
    + intros id w Hc. destruct (R2 _ _ Hc) as [Hb|Hb]; [auto|]. right.
      destruct (sv_nets a !! w) eqn:E; [|done]. by rewrite (lookup_weaken _ _ _ _ E H1) in Hb.
Qed.

Lemma alter_Stop_lookup (l : list nat) (m : gmap nat Session) p :
  foldr (fun p m => alter Stop p m) m l !! p = if decide (p ∈ l) then Stop <$> m !! p else m !! p.
Proof.
  induction l as [|q l IH]; [done|]. cbn [foldr]. destruct (decide (q = p)) as [->|Hne].
  - rewrite lookup_alter_eq, IH. rewrite (decide_True (P := p ∈ p :: l)) by set_solver.
    case_decide; [|done]. by destruct (m !! p).
  - rewrite lookup_alter_ne, IH by done. destruct (decide (p ∈ l)); [rewrite decide_True by set_solver|rewrite decide_False by set_solver]; done.
Qed.

(** Stopping: the sessions of the object, and the entry of the registry. *)
Lemma stop_effect sv id : effect sv (stop sv id).
Proof.
  unfold stop, GetNetwork. destruct (sv_manager sv !! id) as [w|] eqn:Em; [|reflexivity].
  set (sv1 := match sv_nets sv !! w with Some n => Network_Stop sv n | None => sv end).
  assert (sv_nets sv1 = sv_nets sv /\ sv_manager sv1 = sv_manager sv) as [Hn Hm] by (unfold sv1; by destruct (sv_nets sv !! w)).
  assert (forall p, sv_sess sv1 !! p = Stop <$> sv_sess sv !! p /\ (exists n, sv_nets sv !! w = Some n /\ session_of n p) \/
                    sv_sess sv1 !! p = sv_sess sv !! p /\ (forall n, sv_nets sv !! w = Some n -> ~ session_of n p)) as Hs.
  { intros p. unfold sv1. destruct (sv_nets sv !! w) as [n|]; [|by right; naive_solver].
    unfold Network_Stop, session_of. cbn [sv_sess]. rewrite alter_Stop_lookup. case_decide; [left|right]; naive_solver. }
  clearbody sv1. split; unfold RemoveNetwork, told_to_stop, running; cbn [sv_sess sv_nets sv_manager]; rewrite ?Hm, ?Hn.
  - intros i w' n p [Hi Hw] Hp. destruct (decide (i = id)) as [->|Hne]; [right|left; by rewrite lookup_delete_ne].
    assert (w' = w) as -> by congruence. intros s. destruct (Hs p) as [[-> _]|[_ Hno]]; [|by destruct (Hno n)].
    rewrite fmap_Some. by intros (s0 & _ & ->).
  - intros p. destruct (Hs p) as [[_ (n & Hw & Hp)]|[-> _]]; [right|by left].
    exists id, w, n. split_and!; [done..|]. by rewrite lookup_delete_eq.
  - intros p H s. destruct (Hs p) as [[-> _]|[-> _]]; [|apply H]. rewrite fmap_Some. by intros (s0 & _ & ->).
  - done.
  - auto.
  - intros i w' [_ H]%lookup_delete_Some. auto.
Qed.

Lemma stop_manager sv id : sv_manager (stop sv id) = delete id (sv_manager sv).
Proof.
  unfold stop, GetNetwork. destruct (sv_manager sv !! id) as [w|] eqn:E; [by destruct (sv_nets sv !! w)|].
  by rewrite delete_id.
Qed.

(** A network that starts: an object at a new place, registered under its id. *)
Lemma start_spec sv id row c w :
  represents (MkDb ∅ ∅ (c_rows c) ∅ ∅, sv) c -> c_rows c !! id = Some row -> sv_manager sv !! id = None -> w ∉ dom (sv_nets sv) ->
  exists sv', start sv w id row = Some ((spec_start c id row).1, sv') /\ effect sv sv' /\
    represents (MkDb ∅ ∅ (c_rows c) ∅ ∅, sv') (spec_start c id row).2.
Proof.
  intros [_ Hd He Hr] Hrow Hid Hw%not_elem_of_dom. unfold start, NewNetwork, spec_start, block_error. cbn [snd] in *.
  pose proof (NewIPAllocator_no_panic (nr_Cidr row)) as Hnp. destruct (NewIPAllocator (nr_Cidr row)) as [pool|e|]; [|..|done];
    cbn [mbind outcome_mbind]; (eexists; split; [done|]); [|by split].
  assert (id <> ""%string) as Hne by congruence. unfold RegisterNetwork, with_net. cbn [sv_nets]. rewrite lookup_insert_eq.
  cbn [n_ID]. rewrite (proj2 (String.eqb_neq _ _) Hne). split.
  - split; unfold running, told_to_stop; cbn [sv_manager sv_nets sv_sess]; try (by auto).
    + intros i w' n p [Hi Hn] Hp. left. rewrite lookup_insert_ne; congruence.
    + by apply insert_subseteq.
    + intros w' n [[<- <-]|[Hne' H]]%lookup_insert_Some; auto.
    + intros i w' [[<- <-]|[Hne' H]]%lookup_insert_Some; auto.
  - split; cbn [fst snd db_networks c_rows c_running sv_manager sv_nets]; [done|set_solver|done|].
    intros i w' [[<- <-]|[Hne' H]]%lookup_insert_Some.
    + rewrite lookup_insert_eq. eexists _, row. by split_and!.
    + destruct (Hr _ _ H) as (n & r & Hn & Hrest). exists n, r. split; [|done]. rewrite lookup_insert_ne; congruence.
Qed.

(** A network that stops leaves the registry; other rows may not change. *)
Lemma stop_spec db sv c id rows :
  represents (db, sv) c -> (forall i, i <> id -> rows !! i = c_rows c !! i) -> rows !! ""%string = None ->
  represents (set_networks db rows, stop sv id) (MkCatalog rows (c_running c ∖ {[id]})).
Proof.
  intros [_ Hd _ Hr] Hrows He. split; cbn [fst snd db_networks set_networks c_rows c_running] in *; rewrite ?stop_manager;
    [done|set_solver|done|].
  intros i w [Hne H]%lookup_delete_Some. destruct (Hr _ _ H) as (n & row & Hn & Hrest).
  exists n, row. split; [by eapply lookup_weaken, eff_heap, stop_effect|]. by rewrite Hrows.
Qed.

Lemma not_running st c id : represents st c -> id ∉ c_running c -> sv_manager st.2 !! id = None.
Proof. intros H. rewrite <- (rep_running _ _ H). apply not_elem_of_dom. Qed.

Lemma represents_rows db sv c db' : represents (db, sv) c -> db_networks db' = c_rows c -> represents (db', sv) c.
Proof. intros [H1 H2 H3 H4] H. by split. Qed.

Lemma update_row db sv id cidr name desc row :
  db_networks db !! id = Some row ->
  UpdateNetwork db sv id cidr name desc =
    if changes cidr name desc then (None, set_networks db (<[id := edit row cidr name desc]> (db_networks db)), stop sv id)
    else (Some EmptyData, db, stop sv id).
Proof.
  intros Hrow. unfold UpdateNetwork, changes, edit. rewrite Hrow. destruct cidr as [[[|c1 s1]|]|], name as [[[|c2 s2]|]|], desc as [[]|]; reflexivity.
Qed.

(** Every operation does what the specification says, and has its effect. *)
Lemma exec_spec st c o :
  represents st c -> match o with OpCreate id _ => id <> ""%string /\ c_rows c !! id = None | _ => True end ->
  exists st', exec st o = Some ((spec_op c o).1, st') /\ represents st' (spec_op c o).2 /\ effect st.2 st'.2.
Proof.
  destruct st as [db sv]. intros Hrep Hnew. pose proof (rep_rows _ _ Hrep) as Hrows. pose proof (rep_running _ _ Hrep) as Hrun.
  pose proof (is_fresh (dom (sv_nets sv))) as Hw. cbn [fst snd] in *.
  assert (forall id row, c_rows c !! id = Some row -> ""%string <> id) as Hne.
  { intros i row Hi <-. pose proof (rep_no_empty _ _ Hrep). congruence. }
  destruct o as [id row|id|id|id|id cidr name desc]; cbn [exec spec_op].
  - destruct Hnew as [Hid Hno]. assert (sv_manager sv !! id = None) as Hm.
    { destruct (sv_manager sv !! id) as [w|] eqn:E; [|done]. destruct (rep_match _ _ Hrep _ _ E) as (? & ? & ? & ? & _). congruence. }
    set (c1 := MkCatalog (<[id:=row]> (c_rows c)) (c_running c)).
    destruct (start_spec sv id row c1 (fresh (dom (sv_nets sv)))) as (sv' & Hs & He & Hr); [|by unfold c1; simpl; rewrite lookup_insert_eq|done..|].
    { split; [done|done| |].
      - unfold c1. cbn [c_rows]. rewrite lookup_insert_ne by done. apply (rep_no_empty _ _ Hrep).
      - intros i w Hi. destruct (rep_match _ _ Hrep i w Hi) as (n & r & Hn & Hr & Hrest). exists n, r. split_and!; try tauto.
        unfold c1. cbn [c_rows]. rewrite lookup_insert_ne; [done|]. intros ->. cbn [snd] in Hi. congruence. }
    unfold CreateNetwork. rewrite Hs. cbn [mbind option_bind]. eexists. split_and!; [done| |done].
    eapply represents_rows; [exact Hr|]. cbn [db_networks set_networks]. rewrite Hrows. unfold spec_start, c1. by destruct (block_error _).
  - unfold StopNetwork, GetNetwork. destruct (sv_manager sv !! id) as [w|] eqn:E.
    + rewrite decide_True by (rewrite <- Hrun; by apply elem_of_dom_2 in E). eexists. split_and!; [done| |apply stop_effect].
      eapply represents_rows; [apply (stop_spec db sv c id (c_rows c)); [done..|apply (rep_no_empty _ _ Hrep)]|done].
    + rewrite decide_False by (rewrite <- Hrun; by apply not_elem_of_dom). by eexists.
  - unfold StartNetwork, GetNetwork. case_decide as Hin.
    + rewrite <- Hrun in Hin. apply elem_of_dom in Hin as [w ->]. by eexists.
    + pose proof (not_running _ _ _ Hrep Hin) as Hm. cbn [snd] in Hm. rewrite Hm, Hrows.
      destruct (c_rows c !! id) as [row|] eqn:Er; [|by eexists].
      destruct (start_spec sv id row c _ (represents_rows _ _ _ (MkDb ∅ ∅ (c_rows c) ∅ ∅) Hrep eq_refl) Er Hm Hw) as (sv' & -> & He & Hr).
      cbn [mbind option_bind]. eexists. split_and!; [done| |done]. eapply represents_rows; [exact Hr|].
      rewrite Hrows. unfold spec_start. by destruct (block_error _).
  - unfold DeleteNetwork. rewrite Hrows. destruct (c_rows c !! id) as [row|] eqn:Er; [|by eexists].
    eexists. split_and!; [done| |apply stop_effect]. apply stop_spec; [done| |].
    + intros i Hi. by rewrite lookup_delete_ne.
    + rewrite lookup_delete_ne by (by eapply not_eq_sym, Hne). apply (rep_no_empty _ _ Hrep).
  - destruct (c_rows c !! id) as [row|] eqn:Er; [|unfold UpdateNetwork; rewrite Hrows, Er; by eexists].
    rewrite (update_row db sv id cidr name desc row) by (by rewrite Hrows). destruct (changes cidr name desc).
    + eexists. split_and!; [done| |apply stop_effect]. cbn [fst snd]. rewrite Hrows. apply stop_spec; [done| |].
      * intros i Hi. by rewrite lookup_insert_ne.
      * rewrite lookup_insert_ne by (by eapply not_eq_sym, Hne). apply (rep_no_empty _ _ Hrep).
    + eexists. split_and!; [done| |apply stop_effect].
      eapply represents_rows; [apply (stop_spec db sv c id (c_rows c)); [done..|apply (rep_no_empty _ _ Hrep)]|done].
Qed.

(** C8. Running networks match their rows. From any state in which they do,
    every list of operations on networks (creating under ids that are not in
    use, stopping, starting, deleting, updating) completes; results and tables
    are those of the catalog, in which an update that names nothing to change
    stops the network and is refused, and every network that runs has a row and the
    row's block and MTU. A session of a network that has left the registry was
    told to stop, and no other session has changed. *)
Theorem networks_match db sv c ops :
  represents (db, sv) c -> new_ids c ops ->
  exists db' sv', exec_all (db, sv) ops = Some ((spec_all c ops).1, (db', sv')) /\
    represents (db', sv') (spec_all c ops).2 /\
    (forall id w n p, running sv id w n -> session_of n p -> sv_manager sv' !! id = Some w \/ told_to_stop sv' p) /\
    (forall p, sv_sess sv' !! p = sv_sess sv !! p \/
       exists id w n, running sv id w n /\ session_of n p /\ sv_manager sv' !! id <> Some w).
Proof.
  intros Hrep Hnew. enough (exists st', exec_all (db, sv) ops = Some ((spec_all c ops).1, st') /\
    represents st' (spec_all c ops).2 /\ effect sv st'.2) as ([db' sv'] & Hx & Hr & He).
  { exists db', sv'. split_and!; [done..|apply (eff_stopped _ _ He)|apply (eff_others _ _ He)]. }
  change sv with (db, sv).2 at 2. revert Hrep Hnew. generalize (db, sv) as st. clear db sv. revert c.
  induction ops as [|o ops IH]; intros c st Hrep Hnew; [by exists st|]. cbn [new_ids] in Hnew. destruct Hnew as [Ho Hnew].
  destruct (exec_spec st c o Hrep Ho) as (st1 & Hx & Hr & He). cbn [exec_all spec_all]. rewrite Hx. cbn [mbind option_bind].
  destruct (spec_op c o) as [e c1]. cbn [fst snd] in *. destruct (IH _ _ Hr Hnew) as (st2 & -> & Hr2 & He2).
  cbn [mbind option_bind]. destruct (spec_all c1 ops) as [es c2]. exists st2. split_and!; [done..|by etrans].
Qed.

Definition sample_row (cidr : string) : network_row := MkNetworkRow "office" cidr 1420 "".
Definition sample_ops : list net_op :=
  [OpCreate "a" (sample_row "10.1.0.0/16"); OpCreate "b" (sample_row "10.2.0.0"); OpStart "a";
   OpUpdate "b" (Some (FString "10.2.0.0/16")) None None; OpStart "b"; OpStop "a"; OpDelete "a"; OpStart "a"].

Lemma networks_match_witness :
  exists db' sv', exec_all (MkDb ∅ ∅ ∅ ∅ ∅, MkServer ∅ ∅ ∅ ∅ 0) sample_ops =
    Some ([None; Some (BadNetwork InvalidCIDR); Some AlreadyRunning; None; None; None; None; Some NotFound], (db', sv')) /\
    dom (sv_manager sv') = {["b"%string]} /\ nr_Cidr <$> db_networks db' !! "b"%string = Some "10.2.0.0/16"%string.
Proof.
  destruct (networks_match (MkDb ∅ ∅ ∅ ∅ ∅) (MkServer ∅ ∅ ∅ ∅ 0) (MkCatalog ∅ ∅) sample_ops) as (db' & sv' & Hx & Hr & _).
  - split; [done| |done|]; cbn [snd sv_manager c_running]; [by rewrite dom_empty_L|]. intros id w H. by rewrite lookup_empty in H.
  - repeat split; try discriminate; vm_compute; reflexivity.
  - exists db', sv'. split; [rewrite Hx; vm_compute; reflexivity|]. destruct Hr as [Hrows Hrun _ _]. cbn [fst snd] in *.
    rewrite Hrows, Hrun. split; vm_compute; reflexivity.
Defined.
