(* ===== verification/Functions.v ===== *)
(** * Calls from clients and the server's periodic work (vnet/server: manager.go,
      manager_functions.go, loop.go, checkStatusLoop of server.go)

    Calls are JSON messages. The hash function and the addresses of the
    signalling host (libp2p) are arguments. The outer [None] is a panic. *)

From stdpp Require Import sorting.
From S2P Require Import Prelude GoNet GoText Router QuotaCounter GoFloat SmoothLimiter Metrics Server.

#[local] Open Scope string_scope.
#[local] Open Scope Z_scope.

(** ** Messages *)

Definition MessageTypeFuncCall : Z := 1.
Definition MessageTypeServerEvent : Z := 2.

Record FuncCallRequest := MkRequest { rq_RequestId : string; rq_FuncName : string; rq_Args : option (list (string * json)) }.
Record FuncCallResponse := MkResponse {
  rs_RequestId : string; rs_Code : Z; rs_Data : json; rs_Message : string; rs_Cost : Z }.

Definition request_json (r : FuncCallRequest) : json :=
  JObj [("request_id", JStr (rq_RequestId r)); ("func_name", JStr (rq_FuncName r));
        ("args", match rq_Args r with Some l => JObj l | None => JNull end)].
Definition response_json (r : FuncCallResponse) : json :=
  JObj [("request_id", JStr (rs_RequestId r)); ("code", JNum (rs_Code r)); ("data", rs_Data r);
        ("message", JStr (rs_Message r)); ("cost", JNum (rs_Cost r))].

(** Fields are matched without regard to case; a later member overwrites. *)
Definition lower (c : ascii) : ascii := if (65 <=? ord c) && (ord c <=? 90) then chr (ord c + 32) else c.
Fixpoint lower_all (s : string) : string :=
  match s with EmptyString => "" | String c s' => String (lower c) (lower_all s') end.

Definition as_string (old : string) (v : json) : option string :=
  match v with JStr s => Some s | JNull => Some old | _ => None end.
Definition as_int (old : Z) (v : json) : option Z :=
  match v with JNum z => Some z | JNull => Some old | _ => None end.

Definition set_request (r : option FuncCallRequest) (m : string * json) : option FuncCallRequest :=
  r ← r;
  let k := lower_all m.1 in
  if String.eqb k "request_id" then s ← as_string (rq_RequestId r) m.2; Some (MkRequest s (rq_FuncName r) (rq_Args r))
  else if String.eqb k "func_name" then s ← as_string (rq_FuncName r) m.2; Some (MkRequest (rq_RequestId r) s (rq_Args r))
  else if String.eqb k "args" then
    match m.2 with
    | JObj l => Some (MkRequest (rq_RequestId r) (rq_FuncName r) (Some (default [] (rq_Args r) ++ l)%list))
    | JNull => Some (MkRequest (rq_RequestId r) (rq_FuncName r) None)
    | _ => None
    end
  else Some r.

Definition set_response (r : option FuncCallResponse) (m : string * json) : option FuncCallResponse :=
  r ← r;
  let k := lower_all m.1 in
  let '(MkResponse id code data msg cost) := r in
  if String.eqb k "request_id" then s ← as_string id m.2; Some (MkResponse s code data msg cost)
  else if String.eqb k "code" then z ← as_int code m.2; Some (MkResponse id z data msg cost)
  else if String.eqb k "data" then Some (MkResponse id code m.2 msg cost)
  else if String.eqb k "message" then s ← as_string msg m.2; Some (MkResponse id code data s cost)
  else if String.eqb k "cost" then z ← as_int cost m.2; Some (MkResponse id code data msg z)
  else Some r.

Definition decode_request (text : string) : option FuncCallRequest :=
  v ← Unmarshal text;
  match v with JObj l => foldl set_request (Some (MkRequest "" "" None)) l | JNull => Some (MkRequest "" "" None) | _ => None end.
Definition decode_response (text : string) : option FuncCallResponse :=
  v ← Unmarshal text;
  match v with JObj l => foldl set_response (Some (MkResponse "" 0 JNull "" 0)) l | _ => None end.

(** The argument of a call; the last member of that name counts. *)
Definition arg (args : option (list (string * json))) (k : string) : option json :=
  snd <$> last (filter (fun m => m.1 = k) (default [] args)).

(** ** Handlers *)

Definition FuncNamePing : string := "ping".
Definition FuncNameGetRouterData : string := "get_router_data".
Definition FuncNameRegisterP2PPeer : string := "register_p2p_peer".
Definition FuncNameGetP2PPeerInfo : string := "get_p2p_peer_info".
Definition FuncNameGetP2PPeerMapping : string := "get_p2p_relay_mapping".

Inductive FuncCallHandler := funcPing | funcGetRouteData | funcGetP2PRelayInfo | funcGetP2PRelayMapping | funcRegisterP2PPeer.

(** [RegisterHandler] of each, as [NewServer] does. *)
Definition RegisterHandler (functions : gmap string FuncCallHandler) (info : list (string * FuncCallHandler))
    : gmap string FuncCallHandler := foldl (fun m i => <[i.1 := i.2]> m) functions info.
Definition server_functions : gmap string FuncCallHandler :=
  RegisterHandler ∅
    [(FuncNamePing, funcPing); (FuncNameGetRouterData, funcGetRouteData); (FuncNameGetP2PPeerInfo, funcGetP2PRelayInfo);
     (FuncNameGetP2PPeerMapping, funcGetP2PRelayMapping); (FuncNameRegisterP2PPeer, funcRegisterP2PPeer)].

Definition base64_json (v : json) : json := JStr (b64_encode true (string_bytes (Marshal v))).

(** The hosts of the sessions that have registered one, by address. *)
Definition peer_hosts (sv : Server) : gmap string string :=
  foldl (fun res e =>
    match sv_sess sv !! (e : string * nat).2 with
    | Some s =>
        match s_storage s !! sessionStorageKeyP2PPeer with
        | Some (StoredPeer hostId) => if String.eqb hostId "" then res else <[s_IP s := hostId]> res
        | _ => res
        end
    | None => res
    end) ∅ (map_to_list (sv_sessions sv)).

(** A map is marshalled in the order of its keys. *)
Definition key_le (a b : string * string) : Prop := String.leb a.1 b.1 = true.
#[global] Instance key_le_dec a b : Decision (key_le a b) := decide (String.leb a.1 b.1 = true).
Definition map_json (m : gmap string string) : json :=
  JObj ((fun e => (e.1, JStr e.2)) <$> merge_sort key_le (map_to_list m)).

Section Calls.
Context (md5_hex : string -> string) (relayInfo : json).

Definition ok_response (data : json) : FuncCallResponse := MkResponse "" 0 data "" 0.

Definition call_handler (h : FuncCallHandler) (now : Z) (sv : Server) (p : nat) (req : FuncCallRequest)
    : option (FuncCallResponse * Server) :=
  s ← sv_sess sv !! p;
  match h with
  | funcPing =>
      let sv := with_sess sv p (set_storage s (<[sessionStorageKeyLastPing := StoredTime now]> (s_storage s))) in
      w ← s_network s;
      n ← sv_nets sv !! w;
      Some (ok_response (JStr (MD5 md5_hex (n_router n) +:+ "," +:+ dec (sv_peerMappingVersion sv))), sv)
  | funcGetRouteData =>
      w ← s_network s;
      n ← sv_nets sv !! w;
      let data := Keys (n_router n) in
      Some (ok_response (base64_json (if bool_decide (data = []) then JNull else JArr (JStr <$> data))), sv)
  | funcGetP2PRelayInfo => Some (ok_response (base64_json relayInfo), sv)
  | funcGetP2PRelayMapping => Some (ok_response (base64_json (map_json (peer_hosts sv))), sv)
  | funcRegisterP2PPeer =>
      match arg (rq_Args req) "peer" with
      | None => Some (ok_response JNull, sv)
      | Some (JStr peer) =>
          if String.eqb peer "" then Some (ok_response JNull, sv)
          else
            match s_storage s !! sessionStorageKeyP2PPeer with
            | Some _ => Some (ok_response JNull, sv)
            | None =>
                let sv := with_sess sv p (set_storage s (<[sessionStorageKeyP2PPeer := StoredPeer peer]> (s_storage s))) in
                Some (ok_response JNull,
                      MkServer (sv_sess sv) (sv_nets sv) (sv_sessions sv) (sv_manager sv) (u64 (sv_peerMappingVersion sv + 1)))
            end
      | Some _ => None
      end
  end.

Definition handleFuncCall (functions : gmap string FuncCallHandler) (now : Z) (sv : Server) (p : nat) (req : FuncCallRequest)
    : option (FuncCallResponse * Server) :=
  match functions !! rq_FuncName req with
  | Some f =>
      '(resp, sv) ← call_handler f now sv p req;
      Some (MkResponse (rq_RequestId req) (rs_Code resp) (rs_Data resp) (rs_Message resp) (rs_Cost resp), sv)
  | None => Some (MkResponse (rq_RequestId req) (-1) JNull "unknown func name" 0, sv)
  end.

(** The message that is sent back; [None] inside: the data was no request. *)
Definition HandleFuncCallEvent (functions : gmap string FuncCallHandler) (now : Z) (sv : Server) (p : nat) (data : string)
    : option (option (list Z) * Server) :=
  match decode_request data with
  | None => Some (None, sv)
  | Some req =>
      '(resp, sv) ← handleFuncCall functions now sv p req;
      Some (Some (MessageTypeFuncCall :: string_bytes (Marshal (response_json resp))), sv)
  end.
End Calls.

(** ** Periodic work *)

(** [checkStatusLoop] on one entry of the table of sessions. A value of another
    type under the key of the ping panics. *)
Definition status_one (now : Z) (sv : Server) (e : string * nat) : option Server :=
  let '(ip, p) := e in
  s ← sv_sess sv !! p;
  match s_storage s !! sessionStorageKeyLastPing with
  | None => Some (with_sess sv p (set_storage s (<[ip := StoredTime now]> (s_storage s))))
  | Some (StoredTime t) =>
      if 10000000000 <? now - t then Some (with_sessions (with_sess sv p (Stop s)) (delete ip (sv_sessions sv)))
      else Some sv
  | Some _ => None
  end.

(** One round of [checkStatusLoop] over the entries it finds. *)
Definition checkStatus (now : Z) (sv : Server) : option Server :=
  foldl (fun sv e => sv ← sv; status_one now sv e) (Some sv) (map_to_list (sv_sessions sv)).

(** [updateUsage]: what the session submits. *)
Definition updateUsage (sv : Server) (p : nat) : option (Z * Server) :=
  s ← sv_sess sv !! p;
  match s_quota s with
  | None => Some (0, sv)
  | Some q => let '(usage, q) := CommitUsage q in Some (usage, with_sess sv p (set_quota s q))
  end.
