(* ===== verification/FunctionsProps.v ===== *)
(** * Calls are understood, and silent sessions are stopped *)

From stdpp Require Import sorting.
From S2P Require Import Prelude GoNet GoText Router QuotaCounter GoFloat SmoothLimiter Metrics Server Functions.

(** ** Messages *)

Definition args_ok (args : option (list (string * json))) : Prop := match args with Some l => nums_ok (JObj l) | None => True end.

Lemma decode_request_json r : args_ok (rq_Args r) -> decode_request (Marshal (request_json r)) = Some r.
Proof.
  destruct r as [id name args]. intros Ha. unfold decode_request. rewrite Unmarshal_Marshal.
  - by destruct args.
  - destruct args; cbn in *; tauto.
Qed.

Lemma decode_response_json r :
  nums_ok (rs_Data r) -> - 10 ^ 20 < rs_Code r < 10 ^ 20 -> - 10 ^ 20 < rs_Cost r < 10 ^ 20 ->
  decode_response (Marshal (response_json r)) = Some r.
Proof.
  destruct r as [id code data msg cost]. intros Hd Hc Hk. unfold decode_response. rewrite Unmarshal_Marshal; [done|].
  cbn [response_json nums_ok foldr fst snd rs_RequestId rs_Code rs_Data rs_Message rs_Cost] in *. tauto.
Qed.

(** ** Silent sessions *)

Definition stopped (sv : Server) (p : nat) : bool := default false (s_stopped <$> sv_sess sv !! p).
Definition last_ping (sv : Server) (p : nat) : option stored :=
  sv_sess sv !! p ≫= fun s => s_storage s !! sessionStorageKeyLastPing.

Definition expired (now : Z) (ping : option stored) : bool :=
  match ping with Some (StoredTime t) => 10000000000 <? now - t | _ => false end.

(** An entry of the table that the status check can look at. *)
Definition entry_ok (sv : Server) (e : string * nat) : Prop :=
  e.1 <> sessionStorageKeyLastPing /\ is_Some (sv_sess sv !! e.2) /\
  match last_ping sv e.2 with None | Some (StoredTime _) => True | _ => False end.

(** Everything but the stop signal, the table and bookkeeping stays. *)
Record kept (sv sv' : Server) : Prop := {
  k_ping p : last_ping sv' p = last_ping sv p;
  k_heap p : is_Some (sv_sess sv !! p) -> is_Some (sv_sess sv' !! p);
  k_network p : s_network <$> sv_sess sv' !! p = s_network <$> sv_sess sv !! p;
  k_nets : sv_nets sv' = sv_nets sv }.

Lemma kept_refl sv : kept sv sv.
Proof. by split. Qed.

Lemma kept_trans sv1 sv2 sv3 : kept sv1 sv2 -> kept sv2 sv3 -> kept sv1 sv3.
Proof. intros [A1 A2 A3 A4] [B1 B2 B3 B4]. split; [intros p; by rewrite B1|auto|intros p; by rewrite B3|by rewrite B4]. Qed.

Lemma kept_with_sess sv p s s' :
  sv_sess sv !! p = Some s -> s_network s' = s_network s ->
  s_storage s' !! sessionStorageKeyLastPing = s_storage s !! sessionStorageKeyLastPing -> kept sv (with_sess sv p s').
Proof.
  intros Hs Hn Hp. split; unfold last_ping; cbn [sv_sess sv_nets with_sess]; [..|done].
  all: intros q; destruct (decide (p = q)) as [->|Hne]; rewrite ?lookup_insert_eq, ?lookup_insert_ne by done.
  all: rewrite ?Hs; cbn; rewrite ?Hp, ?Hn; done.
Qed.

Lemma kept_entry sv sv' e : kept sv sv' -> entry_ok sv e -> entry_ok sv' e.
Proof. intros [Hp Hh _ _] (H1 & H2 & H3). split; [done|]. split; [auto|]. by rewrite Hp. Qed.

Lemma stopped_with_sess sv p s' q : stopped (with_sess sv p s') q = if decide (p = q) then s_stopped s' else stopped sv q.
Proof. unfold stopped. cbn [sv_sess with_sess]. case_decide; subst; by rewrite ?lookup_insert_eq, ?lookup_insert_ne. Qed.

Lemma status_one_ok now sv e :
  entry_ok sv e ->
  exists sv', status_one now sv e = Some sv' /\ kept sv sv' /\
    (forall q, stopped sv' q = stopped sv q || (bool_decide (e.2 = q) && expired now (last_ping sv q))) /\
    sv_sessions sv' = if expired now (last_ping sv e.2) then delete e.1 (sv_sessions sv) else sv_sessions sv.
Proof.
  destruct e as [ip p]. intros (Hip & [s Hs] & Hping). cbn [fst snd] in *. unfold status_one. rewrite Hs. cbn [mbind option_bind].
  unfold last_ping in *. rewrite Hs in *. cbn [mbind option_bind] in *.
  assert (stopped sv p = s_stopped s) as Hst by (unfold stopped; by rewrite Hs).
  destruct (s_storage s !! sessionStorageKeyLastPing) as [[t| |]|] eqn:Hp; [|done|done|].
  - cbn [expired]. destruct (10000000000 <? now - t) eqn:Hexp; (eexists; split; [reflexivity|]).
    + split; [|split; [|done]].
      * apply (kept_trans _ (with_sess sv p (Stop s))); [by apply (kept_with_sess sv p s)|by split].
      * intros q. change (stopped (with_sessions ?a ?b) q) with (stopped a q). rewrite stopped_with_sess.
        case_decide as Hq; [subst q|by rewrite bool_decide_eq_false_2, orb_false_r].
        rewrite bool_decide_eq_true_2, Hs by done. cbn. rewrite Hp. cbn. by rewrite Hexp, orb_true_r.
    + split; [apply kept_refl|]. split; [|done]. intros q. case_bool_decide as Hq; [subst q|by rewrite orb_false_r].
      rewrite Hs. cbn. rewrite Hp. cbn. by rewrite Hexp, orb_false_r.
  - eexists. split; [reflexivity|]. split; [|split; [|done]].
    + apply (kept_with_sess sv p s); [done..|]. cbn. by rewrite lookup_insert_ne.
    + intros q. rewrite stopped_with_sess. case_decide as Hq; [subst q|by rewrite bool_decide_eq_false_2, orb_false_r].
      rewrite Hst, Hs. cbn. rewrite Hp. by rewrite andb_false_r, orb_false_r.
Qed.

Definition expires (now : Z) (sv : Server) (ip : string) (e : string * nat) : bool :=
  String.eqb e.1 ip && expired now (last_ping sv e.2).

Lemma existsb_ext {A} (f g : A -> bool) l : (forall x, f x = g x) -> existsb f l = existsb g l.
Proof. intros H. induction l as [|x l IH]; [done|]. cbn. by rewrite H, IH. Qed.

Lemma status_fold_ok now l : forall sv, NoDup l.*1 -> Forall (entry_ok sv) l ->
  exists sv', foldl (fun sv e => sv ← sv; status_one now sv e) (Some sv) l = Some sv' /\ kept sv sv' /\
    (forall q, stopped sv' q = stopped sv q || (bool_decide (q ∈ l.*2) && expired now (last_ping sv q))) /\
    (forall ip, sv_sessions sv' !! ip = if existsb (expires now sv ip) l then None else sv_sessions sv !! ip).
Proof.
  induction l as [|e l IH]; intros sv Hnd Hok.
  { exists sv. split; [done|]. split; [apply kept_refl|]. split.
    - intros q. by rewrite bool_decide_eq_false_2, orb_false_r by apply not_elem_of_nil.
    - done. }
  apply Forall_cons in Hok as [He Hok]. rewrite fmap_cons in Hnd. apply NoDup_cons in Hnd as [Hnin Hnd].
  destruct (status_one_ok now sv e He) as (sv1 & Heq & Hkept & Hst & Htab). cbn [foldl mbind option_bind]. rewrite Heq.
  destruct (IH sv1 Hnd) as (sv2 & Hfold & Hkept2 & Hst2 & Htab2).
  { eapply Forall_impl; [exact Hok|]. intros x. by apply kept_entry. }
  exists sv2. split; [done|]. split; [by eapply kept_trans|]. pose proof (k_ping _ _ Hkept) as Hp. split.
  - intros q. rewrite Hst2, Hst, Hp, <- orb_assoc. f_equal. rewrite <- andb_orb_distrib_l. f_equal.
    rewrite fmap_cons. repeat case_bool_decide; try done; set_solver.
  - intros ip. rewrite Htab2, Htab. cbn [existsb].
    rewrite (existsb_ext (expires now sv1 ip) (expires now sv ip)) by (intros x; unfold expires; by rewrite Hp).
    destruct (existsb (expires now sv ip) l); [by rewrite orb_true_r|]. rewrite orb_false_r. unfold expires.
    destruct e as [ip' p]. cbn [fst snd]. destruct (expired now (last_ping sv p)); [|by rewrite andb_false_r].
    rewrite andb_true_r. destruct (String.eqb_spec ip' ip) as [->|Hne]; [apply lookup_delete_eq|by apply lookup_delete_ne].
Qed.

(** The whole table. *)
Definition table_ok (sv : Server) : Prop := forall ip p, sv_sessions sv !! ip = Some p -> entry_ok sv (ip, p).

Lemma checkStatus_ok now sv :
  table_ok sv ->
  exists sv', checkStatus now sv = Some sv' /\ kept sv sv' /\
    (forall ip, sv_sessions sv' !! ip = (q ← sv_sessions sv !! ip; if expired now (last_ping sv q) then None else Some q)) /\
    (forall p, stopped sv p = true -> stopped sv' p = true) /\
    (forall ip p, sv_sessions sv !! ip = Some p -> stopped sv' p = stopped sv p || expired now (last_ping sv p)).
Proof.
  intros Hok. destruct (status_fold_ok now (map_to_list (sv_sessions sv)) sv) as (sv' & Heq & Hkept & Hst & Htab).
  - apply NoDup_fst_map_to_list.
  - apply Forall_forall. intros [ip p] H%elem_of_map_to_list. by apply Hok.
  - exists sv'. split; [done|]. split; [done|]. split_and!.
    + intros ip. rewrite Htab. destruct (sv_sessions sv !! ip) as [p|] eqn:Hip; cbn [mbind option_bind].
      * assert (existsb (expires now sv ip) (map_to_list (sv_sessions sv)) = expired now (last_ping sv p)) as ->; [|done].
        apply eq_true_iff_eq. rewrite existsb_exists. unfold expires. split.
        -- intros ([ip' q] & Hin & [H Hx]%andb_true_iff). cbn [fst snd] in *. apply String.eqb_eq in H. subst ip'.
           apply list_elem_of_In, elem_of_map_to_list in Hin. congruence.
        -- intros Hx. exists (ip, p). cbn [fst snd]. rewrite String.eqb_refl, Hx. split; [|done].
           by apply list_elem_of_In, elem_of_map_to_list.
      * by destruct (existsb _ _).
    + intros p Hp. by rewrite Hst, Hp.
    + intros ip p Hip. rewrite Hst, bool_decide_eq_true_2; [done|]. apply list_elem_of_fmap. exists (ip, p).
      split; [done|]. by apply elem_of_map_to_list.
Qed.

(** Pings of clients and rounds of the status check, with their times. *)
Inductive tick := PingAt (p : nat) (t : Z) | RoundAt (t : Z).

Section Ticks.
Context (md5_hex : string -> string) (relayInfo : json).

Definition run_tick (sv : Server) (k : tick) : option Server :=
  match k with
  | PingAt p t => snd <$> call_handler md5_hex relayInfo funcPing t sv p (MkRequest "" FuncNamePing None)
  | RoundAt t => checkStatus t sv
  end.

Fixpoint run_ticks (sv : Server) (ticks : list tick) : option Server :=
  match ticks with [] => Some sv | k :: ticks' => sv ← run_tick sv k; run_ticks sv ticks' end.

(** The session can answer a ping. *)
Definition can_ping (sv : Server) (p : nat) : Prop :=
  exists s w n, sv_sess sv !! p = Some s /\ s_network s = Some w /\ sv_nets sv !! w = Some n.

(** Whether a session is due in one of the rounds, its last ping being [ping]. *)
Fixpoint due (p : nat) (ping : option stored) (ticks : list tick) : bool :=
  match ticks with
  | [] => false
  | PingAt q t :: ticks' => due p (if decide (q = p) then Some (StoredTime t) else ping) ticks'
  | RoundAt t :: ticks' => expired t ping || due p ping ticks'
  end.

Lemma ping_ok sv p t :
  can_ping sv p ->
  exists sv', run_tick sv (PingAt p t) = Some sv' /\ sv_sessions sv' = sv_sessions sv /\ sv_nets sv' = sv_nets sv /\
    (forall q, last_ping sv' q = if decide (p = q) then Some (StoredTime t) else last_ping sv q) /\
    (forall q, stopped sv' q = stopped sv q) /\
    (forall q, s_network <$> sv_sess sv' !! q = s_network <$> sv_sess sv !! q).
Proof.
  intros (s & w & n & Hs & Hw & Hn). unfold run_tick, call_handler. rewrite Hs. cbn [mbind option_bind].
  rewrite Hw. cbn [mbind option_bind sv_nets with_sess]. rewrite Hn. cbn [mbind option_bind fmap option_fmap option_map snd].
  eexists. split; [reflexivity|]. split; [done|]. split; [done|]. split_and!; intros q.
  - unfold last_ping. cbn [sv_sess with_sess]. case_decide as Hq; [subst q|by rewrite lookup_insert_ne].
    rewrite lookup_insert_eq. cbn. by rewrite lookup_insert_eq.
  - rewrite stopped_with_sess. case_decide as Hq; [subst q|done]. cbn. unfold stopped. by rewrite Hs.
  - cbn [sv_sess with_sess]. destruct (decide (p = q)) as [->|Hne]; [by rewrite lookup_insert_eq, Hs|by rewrite lookup_insert_ne].
Qed.

Lemma can_ping_kept sv sv' p :
  (forall q, s_network <$> sv_sess sv' !! q = s_network <$> sv_sess sv !! q) -> sv_nets sv' = sv_nets sv ->
  can_ping sv p -> can_ping sv' p.
Proof.
  intros Hn Hnets (s & w & n & Hs & Hw & Hx). specialize (Hn p). rewrite Hs in Hn. cbn in Hn.
  destruct (sv_sess sv' !! p) as [s'|] eqn:Hs'; [|done]. injection Hn as Hn. exists s', w, n.
  by rewrite Hn, Hnets.
Qed.

Lemma table_ok_ping sv sv' p t :
  sv_sessions sv' = sv_sessions sv -> (forall q, s_network <$> sv_sess sv' !! q = s_network <$> sv_sess sv !! q) ->
  (forall q, last_ping sv' q = if decide (p = q) then Some (StoredTime t) else last_ping sv q) ->
  table_ok sv -> table_ok sv'.
Proof.
  intros Htab Hheap Hping Hok ip q Hq. rewrite Htab in Hq. destruct (Hok ip q Hq) as (H1 & [s Hs] & H3).
  split; [done|]. cbn [fst snd] in *. split.
  - specialize (Hheap q). rewrite Hs in Hheap. destruct (sv_sess sv' !! q); [by eexists|done].
  - rewrite Hping. by case_decide.
Qed.

(** A session that was taken out of the table stays stopped. *)
Lemma run_ticks_ok ticks : forall sv ip p,
  table_ok sv -> (forall q t, PingAt q t ∈ ticks -> can_ping sv q) ->
  exists sv', run_ticks sv ticks = Some sv' /\
    (stopped sv p = true -> stopped sv' p = true) /\ (sv_sessions sv !! ip = None -> sv_sessions sv' !! ip = None) /\
    (sv_sessions sv !! ip = Some p ->
     (due p (last_ping sv p) ticks = true -> stopped sv' p = true /\ sv_sessions sv' !! ip = None) /\
     (due p (last_ping sv p) ticks = false -> stopped sv' p = stopped sv p /\ sv_sessions sv' !! ip = Some p)).
Proof.
  induction ticks as [|[q t|t] ticks IH]; intros sv ip p Hok Hping.
  - by exists sv.
  - destruct (ping_ok sv q t) as (sv1 & Heq & Htab & Hnets & Hp & Hst & Hnet); [apply (Hping q t); set_solver|].
    cbn [run_ticks]. rewrite Heq. cbn [mbind option_bind].
    destruct (IH sv1 ip p) as (sv2 & Hrun & Hs & Hn & Hd).
    { by eapply (table_ok_ping sv). }
    { intros q' t' Hin. eapply can_ping_kept; [done..|]. apply (Hping q' t'). set_solver. }
    exists sv2. split; [done|]. rewrite Hst in Hs. rewrite Htab in Hn, Hd. split_and!; [done..|].
    intros Hip. cbn [due]. specialize (Hd Hip). by rewrite Hp, Hst in Hd.
  - destruct (checkStatus_ok t sv Hok) as (sv1 & Heq & Hk & Htab & Hmono & Hst). cbn [run_ticks run_tick]. rewrite Heq.
    cbn [mbind option_bind]. destruct (IH sv1 ip p) as (sv2 & Hrun & Hs & Hn & Hd).
    { intros ip' q Hq. rewrite Htab in Hq. apply bind_Some in Hq as (q' & Hq' & Hx).
      destruct (expired t (last_ping sv q')); [done|]. injection Hx as ->. eapply kept_entry; [done|]. by apply Hok. }
    { intros q' t' Hin. eapply can_ping_kept; [apply Hk|apply Hk|]. apply (Hping q' t'). set_solver. }
    exists sv2. split; [done|]. specialize (Htab ip). split_and!.
    + intros H. by apply Hs, Hmono.
    + intros H. apply Hn. by rewrite Htab, H.
    + intros Hip. cbn [due]. rewrite Htab, Hip in Hn, Hd. cbn [mbind option_bind] in Hn, Hd. rewrite (Hst ip p Hip) in Hs, Hd.
      rewrite (k_ping _ _ Hk) in Hd. destruct (expired t (last_ping sv p)); [|rewrite orb_false_l; rewrite orb_false_r in Hd; by apply Hd].
      cbn [orb]. split; [|done]. intros _. split; [apply Hs; by rewrite orb_true_r|by apply Hn].
Qed.
End Ticks.

Lemma due_silent p t0 t ticks :
  (forall t', PingAt p t' ∉ ticks) -> RoundAt t ∈ ticks -> 10000000000 < t - t0 ->
  due p (Some (StoredTime t0)) ticks = true.
Proof.
  intros Hno Hin Ht. induction ticks as [|k ticks IH]; [by apply not_elem_of_nil in Hin|].
  assert (forall t', PingAt p t' ∉ ticks) as Hno' by (intros t' H; apply (Hno t'); set_solver).
  apply elem_of_cons in Hin as [<-|Hin].
  - cbn [due expired]. by rewrite (proj2 (Z.ltb_lt _ _) Ht).
  - destruct k as [q t'|t']; cbn [due].
    + rewrite decide_False by (intros ->; apply (Hno t'); set_solver). by apply IH.
    + rewrite IH by done. apply orb_true_r.
Qed.

Lemma due_never p ticks : (forall t', PingAt p t' ∉ ticks) -> due p None ticks = false.
Proof.
  induction ticks as [|[q t|t] ticks IH]; intros Hno; cbn [due]; [done| |].
  - rewrite decide_False by (intros ->; apply (Hno t); set_solver). apply IH. intros t' H. apply (Hno t'). set_solver.
  - apply IH. intros t' H. apply (Hno t'). set_solver.
Qed.

(** C21. Sessions that fall silent are found: a running session that has sent a
    ping is told to stop and leaves the table of sessions exactly when, in some
    round of the status check, its last ping is more than ten seconds old,
    whatever pings and rounds happen and whatever the other sessions do; so it is
    stopped by any round more than ten seconds after its last ping. *)
Theorem silent_sessions_stopped md5_hex relayInfo sv ip p t0 ticks :
  table_ok sv -> (forall q t, PingAt q t ∈ ticks -> can_ping sv q) ->
  sv_sessions sv !! ip = Some p -> stopped sv p = false -> last_ping sv p = Some (StoredTime t0) ->
  exists sv', run_ticks md5_hex relayInfo sv ticks = Some sv' /\
    (if due p (Some (StoredTime t0)) ticks then stopped sv' p = true /\ sv_sessions sv' !! ip = None
     else stopped sv' p = false /\ sv_sessions sv' !! ip = Some p) /\
    (forall t, (forall t', PingAt p t' ∉ ticks) -> RoundAt t ∈ ticks -> 10000000000 < t - t0 ->
       stopped sv' p = true /\ sv_sessions sv' !! ip = None).
Proof.
  intros Hok Hping Hip Hst Hp. destruct (run_ticks_ok md5_hex relayInfo ticks sv ip p Hok Hping) as (sv' & Hrun & _ & _ & Hd).
  destruct (Hd Hip) as [Hdue Hnot]. rewrite Hst in Hnot. rewrite Hp in Hdue, Hnot. exists sv'. split_and!; [done| |].
  - destruct (due p (Some (StoredTime t0)) ticks); [by apply Hdue|by apply Hnot].
  - intros t Hno Hin Ht. apply Hdue. by eapply due_silent.
Qed.

(** A session that has not sent any ping is never stopped, however many rounds
    there are: the check stores the time under the session's address instead of
    under the key it reads. *)
Lemma never_pinged_kept md5_hex relayInfo sv ip p ticks :
  table_ok sv -> (forall q t, PingAt q t ∈ ticks -> can_ping sv q) ->
  sv_sessions sv !! ip = Some p -> stopped sv p = false ->
  last_ping sv p = None -> (forall t', PingAt p t' ∉ ticks) ->
  exists sv', run_ticks md5_hex relayInfo sv ticks = Some sv' /\ stopped sv' p = false /\ sv_sessions sv' !! ip = Some p.
Proof.
  intros Hok Hping Hip Hst Hp Hno. destruct (run_ticks_ok md5_hex relayInfo ticks sv ip p Hok Hping) as (sv' & Hrun & _ & _ & Hd).
  destruct (Hd Hip) as [_ Hnot]. rewrite Hst, Hp in Hnot. exists sv'. split; [done|]. by apply Hnot, due_never.
Qed.

(** Session 1 has pinged at time 0, session 2 never. *)
Definition sample_sessions : Server :=
  let s := SetNetwork (newServerSession "tcp-1") 0 in
  MkServer {[1%nat := set_storage s {[sessionStorageKeyLastPing := StoredTime 0]}; 2%nat := s]}
    {[0%nat := MkNetwork "home" "10.1.0.0/16" 1400 ∅ NewRouter (IPPool.MkIPAllocator "" [] [] ∅ "" 0 0)]}
    {["10.1.0.1"%string := 1%nat; "10.1.0.2"%string := 2%nat]} ∅ 0.

Lemma silent_sessions_stopped_witness :
  exists sv', run_ticks (fun s => s) JNull sample_sessions [RoundAt 5000000000; RoundAt 15000000000] = Some sv' /\
    stopped sv' 1 = true /\ stopped sv' 2 = false.
Proof.
  set (s := SetNetwork (newServerSession "tcp-1") 0). assert (table_ok sample_sessions) as Hok.
  { intros ip p Hp. unfold sample_sessions in Hp. cbn [sv_sessions] in Hp.
    apply lookup_insert_Some in Hp as [[<- <-]|[_ Hp]].
    - refine (conj _ (conj _ _)); [discriminate|by exists (set_storage s {[sessionStorageKeyLastPing := StoredTime 0]})|].
      by replace (last_ping sample_sessions 1) with (Some (StoredTime 0)) by reflexivity.
    - apply lookup_singleton_Some in Hp as [<- <-]. refine (conj _ (conj _ _)); [discriminate|by exists s|].
      by replace (last_ping sample_sessions 2) with (@None stored) by reflexivity. }
  set (ticks := [RoundAt 5000000000; RoundAt 15000000000]).
  assert (forall q t, PingAt q t ∉ ticks) as Hno by (intros q t; set_solver).
  assert (forall q t, PingAt q t ∈ ticks -> can_ping sample_sessions q) as Hping by (intros q t Hin; destruct (Hno q t Hin)).
  destruct (silent_sessions_stopped (fun s => s) JNull sample_sessions "10.1.0.1" 1 0 ticks Hok Hping
    eq_refl eq_refl eq_refl) as (sv1 & Hrun1 & _ & H1).
  destruct (never_pinged_kept (fun s => s) JNull sample_sessions "10.1.0.2" 2 ticks Hok Hping
    eq_refl eq_refl eq_refl (Hno 2%nat)) as (sv2 & Hrun2 & H2 & _).
  rewrite Hrun1 in Hrun2. injection Hrun2 as <-. exists sv1. split; [exact Hrun1|]. split; [|exact H2].
  refine (proj1 (H1 15000000000 (Hno 1%nat) _ _)); [right; left|lia].
Defined.
