(* ===== verification/Request.v ===== *)
(** * Requests of the handshake (common/session/request.go)

    A message is a header in JSON and base64, the payload encrypted with AES
    and a checksum; the key of the payload is in the header, encrypted with
    RSA. The ciphers and the hash function are parameters; times and random
    strings are arguments. [Panic] is a run-time panic. *)

From S2P Require Import Prelude GoNet GoText Functions.

#[local] Open Scope string_scope.
#[local] Open Scope Z_scope.

Record Header := MkHeader { h_Timestamp : Z; h_Nonce : string; h_SubDeviceId : Z; h_Key : string; h_Secret : string }.

Inductive req_error :=
| EncryptError | DecryptError | InvalidFormat | ChecksumError | HeaderError | PayloadError | RemoteError (text : string).

Definition NewHeader (now : Z) (nonce : string) (subDeviceId : Z) (key : string) : Header :=
  MkHeader now nonce subDeviceId key "".

Definition header_json (h : Header) : json :=
  JObj [("timestamp", JNum (h_Timestamp h)); ("nonce", JStr (h_Nonce h)); ("sub_device_id", JNum (h_SubDeviceId h));
        ("key", JStr (h_Key h)); ("secret", JStr (h_Secret h))].

Definition as_range (lo hi old : Z) (v : json) : option Z :=
  z ← as_int old v; if (lo <=? z) && (z <? hi) then Some z else None.

Definition set_header (h : option Header) (m : string * json) : option Header :=
  h ← h;
  let k := lower_all m.1 in
  let '(MkHeader ts nonce sub key secret) := h in
  if String.eqb k "timestamp" then z ← as_range (- 2 ^ 63) (2 ^ 63) ts m.2; Some (MkHeader z nonce sub key secret)
  else if String.eqb k "nonce" then s ← as_string nonce m.2; Some (MkHeader ts s sub key secret)
  else if String.eqb k "sub_device_id" then z ← as_range 0 (2 ^ 64) sub m.2; Some (MkHeader ts nonce z key secret)
  else if String.eqb k "key" then s ← as_string key m.2; Some (MkHeader ts nonce sub s secret)
  else if String.eqb k "secret" then s ← as_string secret m.2; Some (MkHeader ts nonce sub key s)
  else Some h.

Definition decode_header (text : string) : option Header :=
  v ← Unmarshal text;
  match v with
  | JObj l => foldl set_header (Some (MkHeader 0 "" 0 "" "")) l
  | JNull => Some (MkHeader 0 "" 0 "" "")
  | _ => None
  end.

(** The payload: its member [request], which is an object or null. *)
Definition payload_json (req : list (string * json)) : json := JObj [("request", JObj req)].

Definition set_payload (p : option (list (string * json))) (m : string * json) : option (list (string * json)) :=
  p ← p;
  if String.eqb (lower_all m.1) "request" then
    match m.2 with JObj l => Some (p ++ l)%list | JNull => Some [] | _ => None end
  else Some p.
Definition decode_payload (text : string) : option (list (string * json)) :=
  v ← Unmarshal text;
  match v with JObj l => foldl set_payload (Some []) l | JNull => Some [] | _ => None end.

Definition toBase64 (v : json) : string := b64_encode false (string_bytes (Marshal v)).

Section Requests.
Context {PublicKey PrivateKey : Type}.
(** crypto/rsa with its random source, GoFrame's AES in CBC mode and MD5. *)
Context (EncryptOAEP : PublicKey -> list Z -> list Z -> option (list Z)) (DecryptOAEP : PrivateKey -> list Z -> option (list Z)).
Context (EncryptCBC DecryptCBC : list Z -> list Z -> list Z -> option (list Z)) (md5_hex : string -> string).

Definition buildMessage (h : Header) (secret : list Z) (data : json) : req_error + string :=
  match EncryptCBC (string_bytes (Marshal data)) secret (string_bytes (h_Nonce h)) with
  | None => inl EncryptError
  | Some encrypted =>
      let text := toBase64 (header_json h) +:+ "." +:+ b64_encode true encrypted in
      inr (text +:+ "." +:+ md5_hex text)
  end.

(** [buildRequest]: the secret goes into the header. *)
Definition buildRequest (pub : PublicKey) (rnd : list Z) (req : list (string * json)) (h : Header) (secret : string)
    : req_error + string :=
  match EncryptOAEP pub rnd (string_bytes secret) with
  | None => inl EncryptError
  | Some e =>
      buildMessage (MkHeader (h_Timestamp h) (h_Nonce h) (h_SubDeviceId h) (h_Key h) (b64_encode true e))
        (string_bytes secret) (payload_json req)
  end.

(** The three parts of a message with a matching checksum. *)
Definition parts_of (receive : string) : req_error + string * string :=
  match split_all "." receive with
  | [a; b; c] => if String.eqb (md5_hex (a +:+ "." +:+ b)) c then inr (a, b) else inl ChecksumError
  | _ => inl InvalidFormat
  end.

Definition ParseRequest (receive : string) : req_error + Header * string :=
  match parts_of receive with
  | inl e => inl e
  | inr (a, b) =>
      match bs ← b64_decode false a; decode_header (bytes_string bs) with
      | None => inl HeaderError
      | Some h => inr (h, b)
      end
  end.

(** [HandleRequest]: the handler's answer and error. Base64 that does not
    decode panics ([gbase64.MustDecodeString]); an error of [buildMessage] is
    dropped. *)
Definition HandleRequest {E} (now : Z) (h : Header) (pri : PrivateKey) (encryptedPayload : string)
    (handler : list (string * json) -> json * option E) : outcome req_error (string * option E) :=
  match b64_decode true (h_Secret h) with
  | None => Panic
  | Some sec =>
      match DecryptOAEP pri sec with
      | None => Fail DecryptError
      | Some secret =>
          match b64_decode true encryptedPayload with
          | None => Panic
          | Some enc =>
              match DecryptCBC enc secret (string_bytes (h_Nonce h)) with
              | None => Fail DecryptError
              | Some pl =>
                  match decode_payload (bytes_string pl) with
                  | None => Fail PayloadError
                  | Some request =>
                      let '(resp, err) := handler request in
                      let h := MkHeader now (h_Nonce h) (h_SubDeviceId h) (h_Key h) (h_Secret h) in
                      Ret (match buildMessage h secret resp with inr data => data | inl _ => "" end, err)
                  end
              end
          end
      end
  end.

(** [decode] of the client: the answer as a JSON value; a message that has not
    three parts is an error text. *)
Definition decode (receive secret nonce : string) : outcome req_error json :=
  match split_all "." receive with
  | [a; b; c] =>
      if String.eqb (md5_hex (a +:+ "." +:+ b)) c then
        match b64_decode true b with
        | None => Panic
        | Some enc =>
            match DecryptCBC enc (string_bytes secret) (string_bytes nonce) with
            | None => Fail DecryptError
            | Some raw => match Unmarshal (bytes_string raw) with Some v => Ret v | None => Fail PayloadError end
            end
        end
      else Fail ChecksumError
  | _ => Fail (RemoteError receive)
  end.
End Requests.
