(* ===== verification/RequestProps.v ===== *)
(** * A request and its answer arrive as they were sent *)

From S2P Require Import Prelude GoNet GoText Functions Request.

#[local] Open Scope string_scope.
#[local] Open Scope Z_scope.

(** ** Splitting at dots *)

Definition no_dot (s : string) : bool := string_all (fun c => negb (Ascii.eqb c "."%char)) s.

Lemma split_all_app sep a b :
  string_all (fun c => negb (Ascii.eqb c sep)) a = true -> split_all sep (a +:+ String sep b) = a :: split_all sep b.
Proof.
  induction a as [|c a IH]; intros H.
  - change ("" +:+ String sep b) with (String sep b). cbn [split_all]. by rewrite Ascii.eqb_refl.
  - change (String c a +:+ String sep b) with (String c (a +:+ String sep b)). cbn [split_all string_all] in *.
    apply andb_true_iff in H as [Hc Ha]. rewrite IH by done. by destruct (Ascii.eqb c sep).
Qed.

Lemma split_all_none sep a : string_all (fun c => negb (Ascii.eqb c sep)) a = true -> split_all sep a = [a].
Proof.
  induction a as [|c a IH]; intros H; [done|]. cbn [split_all string_all] in *. apply andb_true_iff in H as [Hc Ha].
  rewrite IH by done. by destruct (Ascii.eqb c sep).
Qed.

Lemma three_parts a b c :
  no_dot a = true -> no_dot b = true -> no_dot c = true -> split_all "." ((a +:+ "." +:+ b) +:+ "." +:+ c) = [a; b; c].
Proof.
  intros Ha Hb Hc. rewrite !string_app_assoc. change ("." +:+ b +:+ "." +:+ c) with (String "."%char (b +:+ String "."%char c)).
  rewrite split_all_app, split_all_app, split_all_none by done. done.
Qed.

Lemma b64_char_no_dot v s : 0 <= v < 64 -> no_dot (String (b64_char v) s) = no_dot s.
Proof.
  intros Hv. cbn [no_dot string_all]. unfold no_dot. cbn [string_all].
  assert (Ascii.eqb (b64_char v) "."%char = false) as ->; [|done].
  apply (below_cases (fun v => Ascii.eqb (b64_char v) "."%char = false) 64); [lia|]. by repeat constructor.
Qed.

Lemma b64_no_dot pad l : bytes_ok l -> no_dot (b64_encode pad l) = true.
Proof.
  induction l as [|a|a b|a b c l IH] using list_ind3; intros Hl; [done|..].
  - inversion_clear Hl as [|? ? Ha _]. cbn [b64_encode]. rewrite !b64_char_no_dot by sextets. by destruct pad.
  - inversion_clear Hl as [|? ? Ha Hl']. inversion_clear Hl' as [|? ? Hb _]. cbn [b64_encode].
    rewrite !b64_char_no_dot by sextets. by destruct pad.
  - inversion_clear Hl as [|? ? Ha Hl']. inversion_clear Hl' as [|? ? Hb Hl]. inversion_clear Hl as [|? ? Hc Hl'].
    cbn [b64_encode]. rewrite !b64_char_no_dot by sextets. by apply IH.
Qed.

(** ** Headers and payloads *)

Definition header_ok (h : Header) : Prop := - 2 ^ 63 <= h_Timestamp h < 2 ^ 63 /\ 0 <= h_SubDeviceId h < 2 ^ 64.

Lemma as_range_ok lo hi old z : lo <= z < hi -> as_range lo hi old (JNum z) = Some z.
Proof. intros H. unfold as_range. cbn [as_int mbind option_bind]. by rewrite (proj2 (Z.leb_le _ _)), (proj2 (Z.ltb_lt _ _)) by lia. Qed.

Lemma decode_header_json h : header_ok h -> decode_header (Marshal (header_json h)) = Some h.
Proof.
  destruct h as [ts nonce sub key secret]. intros [Ht Hs]. cbn [h_Timestamp h_SubDeviceId] in *.
  unfold decode_header. rewrite Unmarshal_Marshal by (cbn; lia).
  cbn [mbind option_bind header_json foldl h_Timestamp h_Nonce h_SubDeviceId h_Key h_Secret].
  assert (set_header (Some (MkHeader 0 "" 0 "" "")) ("timestamp", JNum ts) = Some (MkHeader ts "" 0 "" "")) as ->.
  { transitivity (z ← as_range (- 2 ^ 63) (2 ^ 63) 0 (JNum ts); Some (MkHeader z "" 0 "" "")); [reflexivity|].
    by rewrite as_range_ok. }
  assert (set_header (Some (MkHeader ts nonce 0 "" "")) ("sub_device_id", JNum sub) = Some (MkHeader ts nonce sub "" "")) as Hsub.
  { transitivity (z ← as_range 0 (2 ^ 64) 0 (JNum sub); Some (MkHeader ts nonce z "" "")); [reflexivity|].
    by rewrite as_range_ok. }
  change (set_header (Some (MkHeader ts "" 0 "" "")) ("nonce", JStr nonce)) with (Some (MkHeader ts nonce 0 "" "")).
  rewrite Hsub. reflexivity.
Qed.

Lemma decode_payload_json req : nums_ok (JObj req) -> decode_payload (Marshal (payload_json req)) = Some req.
Proof. intros H. unfold decode_payload. rewrite Unmarshal_Marshal; [done|]. cbn [payload_json nums_ok foldr snd]. by split. Qed.

(** ** The exchange *)

Section Exchange.
Context {PublicKey PrivateKey : Type} (EncryptOAEP : PublicKey -> list Z -> list Z -> option (list Z)).
Context (DecryptOAEP : PrivateKey -> list Z -> option (list Z)) (EncryptCBC DecryptCBC : list Z -> list Z -> list Z -> option (list Z)).
Context (md5_hex : string -> string).

(** Ciphers undo each other, whether a text can be encrypted depends on the key
    only, and the hash is written in hexadecimal. *)
Definition rsa_pair (pub : PublicKey) (pri : PrivateKey) : Prop :=
  forall rnd m e, EncryptOAEP pub rnd m = Some e -> bytes_ok e /\ DecryptOAEP pri e = Some m.
Definition aes_ok : Prop := forall d k iv e, EncryptCBC d k iv = Some e -> bytes_ok e /\ DecryptCBC e k iv = Some d.
Definition aes_uniform : Prop := forall d d' k iv, bytes_ok d' -> is_Some (EncryptCBC d k iv) -> is_Some (EncryptCBC d' k iv).
Definition md5_ok : Prop := forall s, no_dot (md5_hex s) = true.

Lemma message_parts h secret data msg :
  aes_ok -> md5_ok -> buildMessage EncryptCBC md5_hex h secret data = inr msg ->
  exists e, EncryptCBC (string_bytes (Marshal data)) secret (string_bytes (h_Nonce h)) = Some e /\ bytes_ok e /\
    split_all "." msg = [toBase64 (header_json h); b64_encode true e;
      md5_hex (toBase64 (header_json h) +:+ "." +:+ b64_encode true e)].
Proof.
  intros Haes Hmd5. unfold buildMessage. destruct (EncryptCBC _ _ _) as [e|] eqn:E; [|done].
  assert (no_dot (toBase64 (header_json h)) = true) as Hh by (apply b64_no_dot, string_bytes_ok).
  generalize dependent (toBase64 (header_json h)). intros t Ht [= <-]. destruct (Haes _ _ _ _ E) as [He _].
  exists e. split; [done|]. split; [done|]. apply three_parts; [done|by apply b64_no_dot|apply Hmd5].
Qed.

Lemma ParseRequest_message h secret data msg :
  aes_ok -> md5_ok -> header_ok h -> buildMessage EncryptCBC md5_hex h secret data = inr msg ->
  exists e, EncryptCBC (string_bytes (Marshal data)) secret (string_bytes (h_Nonce h)) = Some e /\ bytes_ok e /\
    ParseRequest md5_hex msg = inr (h, b64_encode true e).
Proof.
  intros Haes Hmd5 Hh Hb. destruct (message_parts h secret data msg Haes Hmd5 Hb) as (e & He & Hok & Hsplit).
  exists e. split; [done|]. split; [done|]. unfold ParseRequest, parts_of. rewrite Hsplit, String.eqb_refl.
  unfold toBase64. rewrite b64_roundtrip by apply string_bytes_ok. cbn [mbind option_bind].
  by rewrite bytes_string_bytes, decode_header_json.
Qed.

Lemma decode_message h secret data msg :
  aes_ok -> md5_ok -> nums_ok data -> buildMessage EncryptCBC md5_hex h (string_bytes secret) data = inr msg ->
  decode DecryptCBC md5_hex msg secret (h_Nonce h) = Ret data.
Proof.
  intros Haes Hmd5 Hnum Hb. destruct (message_parts h _ data msg Haes Hmd5 Hb) as (e & He & Hok & Hsplit).
  unfold decode. rewrite Hsplit, String.eqb_refl, b64_roundtrip by done. destruct (Haes _ _ _ _ He) as [_ ->].
  by rewrite bytes_string_bytes, Unmarshal_Marshal.
Qed.
End Exchange.

(** The whole exchange, with any handler. *)
Lemma exchange_faithful {PublicKey PrivateKey E : Type} EncryptOAEP DecryptOAEP EncryptCBC DecryptCBC md5_hex
    (pub : PublicKey) (pri : PrivateKey) rnd req h secret now (handler : list (string * json) -> json * option E) msg :
  rsa_pair EncryptOAEP DecryptOAEP pub pri -> aes_ok EncryptCBC DecryptCBC -> aes_uniform EncryptCBC -> md5_ok md5_hex ->
  header_ok h -> nums_ok (JObj req) -> nums_ok (handler req).1 ->
  buildRequest EncryptOAEP EncryptCBC md5_hex pub rnd req h secret = inr msg ->
  exists h' payload data, ParseRequest md5_hex msg = inr (h', payload) /\
    h_SubDeviceId h' = h_SubDeviceId h /\ h_Key h' = h_Key h /\ h_Nonce h' = h_Nonce h /\
    HandleRequest DecryptOAEP EncryptCBC DecryptCBC md5_hex now h' pri payload handler = Ret (data, (handler req).2) /\
    decode DecryptCBC md5_hex data secret (h_Nonce h) = Ret (handler req).1.
Proof.
  intros Hrsa Haes Huni Hmd5 Hh Hreq Hresp. unfold buildRequest.
  destruct (EncryptOAEP pub rnd (string_bytes secret)) as [es|] eqn:Es; [|done]. intros Hb.
  destruct (Hrsa _ _ _ Es) as [Hes Hdec].
  set (h' := MkHeader (h_Timestamp h) (h_Nonce h) (h_SubDeviceId h) (h_Key h) (b64_encode true es)) in *.
  destruct (ParseRequest_message EncryptCBC DecryptCBC md5_hex h' _ _ msg Haes Hmd5 Hh Hb) as (e & He & Hok & Hparse).
  destruct (Haes _ _ _ _ He) as [_ Hplain].
  destruct (Huni _ (string_bytes (Marshal (handler req).1)) _ _ (string_bytes_ok _) (ex_intro _ e He)) as [er Her].
  set (h2 := MkHeader now (h_Nonce h) (h_SubDeviceId h) (h_Key h) (b64_encode true es)).
  destruct (buildMessage EncryptCBC md5_hex h2 (string_bytes secret) (handler req).1) as [|data] eqn:Hdata.
  { unfold buildMessage in Hdata. change (h_Nonce h2) with (h_Nonce h') in Hdata. by rewrite Her in Hdata. }
  exists h', (b64_encode true e), data. split; [done|]. split; [done|]. split; [done|]. split; [done|]. split.
  - unfold HandleRequest. change (h_Secret h') with (b64_encode true es). rewrite b64_roundtrip by done.
    rewrite Hdec, b64_roundtrip by done. rewrite Hplain, bytes_string_bytes, decode_payload_json by done.
    destruct (handler req) as [resp err]. cbn [fst snd] in *.
    change (MkHeader now (h_Nonce h') (h_SubDeviceId h') (h_Key h') (b64_encode true es)) with h2. by rewrite Hdata.
  - by apply (decode_message EncryptCBC DecryptCBC md5_hex h2).
Qed.

(** C20. The handshake's exchange is faithful: what a client builds for a
    device's public key parses on the server to the header it was given, with
    device, key and nonce, the handler is called with exactly the client's
    request, its error is returned, and its answer decrypts on the client to
    exactly the answer. *)
Theorem request_roundtrip {PublicKey PrivateKey E : Type} EncryptOAEP DecryptOAEP EncryptCBC DecryptCBC md5_hex
    (pub : PublicKey) (pri : PrivateKey) rnd req h secret now (handler : list (string * json) -> json * option E) msg :
  rsa_pair EncryptOAEP DecryptOAEP pub pri -> aes_ok EncryptCBC DecryptCBC -> aes_uniform EncryptCBC -> md5_ok md5_hex ->
  header_ok h -> nums_ok (JObj req) -> nums_ok (handler req).1 ->
  buildRequest EncryptOAEP EncryptCBC md5_hex pub rnd req h secret = inr msg ->
  exists h' payload data, ParseRequest md5_hex msg = inr (h', payload) /\
    h_SubDeviceId h' = h_SubDeviceId h /\ h_Key h' = h_Key h /\ h_Nonce h' = h_Nonce h /\
    HandleRequest DecryptOAEP EncryptCBC DecryptCBC md5_hex now h' pri payload handler = Ret (data, (handler req).2) /\
    decode DecryptCBC md5_hex data secret (h_Nonce h) = Ret (handler req).1.
Proof. intros. by eapply exchange_faithful. Qed.

(** Ciphers that leave bytes as they are, and a constant hash. *)
Definition plain (m : list Z) : option (list Z) := if forallb (fun b => (0 <=? b) && (b <? 256)) m then Some m else None.

Lemma plain_bytes m : bytes_ok m <-> forallb (fun b => (0 <=? b) && (b <? 256)) m = true.
Proof. unfold bytes_ok, byte_ok. induction m as [|b m IH]; cbn; [done|]. rewrite Forall_cons, IH, !andb_true_iff, Z.leb_le, Z.ltb_lt. tauto. Qed.

Lemma plain_Some m e : plain m = Some e -> bytes_ok e /\ Some e = Some m.
Proof. unfold plain. destruct (forallb _ m) eqn:H; [|done]. intros [= <-]. by rewrite plain_bytes. Qed.

Definition sample_message : string :=
  "eyJ0aW1lc3RhbXAiOjEsIm5vbmNlIjoibiIsInN1Yl9kZXZpY2VfaWQiOjcsImtleSI6ImsiLCJzZWNyZXQiOiJjdz09In0.eyJyZXF1ZXN0Ijp7Imhvc3RuYW1lIjoicGMifX0=.00".

Lemma request_roundtrip_witness :
  exists h' payload data, ParseRequest (fun _ => "00") sample_message = inr (h', payload) /\ h_SubDeviceId h' = 7 /\
    decode (fun d _ _ => Some d) (fun _ => "00") data "s" "n" = Ret (JObj [("error", JStr "no")]).
Proof.
  destruct (request_roundtrip (E := unit) (fun (_ : unit) _ m => plain m) (fun (_ : unit) m => Some m)
    (fun d _ _ => plain d) (fun d _ _ => Some d) (fun _ => "00") tt tt [] [("hostname", JStr "pc")] (NewHeader 1 "n" 7 "k") "s" 2
    (fun _ => (JObj [("error", JStr "no")], Some tt)) sample_message) as (h' & payload & data & H1 & H2 & _ & _ & _ & H3).
  - intros rnd m e. apply plain_Some.
  - intros d k iv e. apply plain_Some.
  - intros d d' k iv Hd' _. unfold plain. apply plain_bytes in Hd'. rewrite Hd'. by eexists.
  - intros x. reflexivity.
  - split; cbn; lia.
  - cbn. tauto.
  - cbn. tauto.
  - vm_compute. reflexivity.
  - exists h', payload, data. split; [exact H1|]. split; [exact H2|exact H3].
Defined.

(** The checksum has no key: anybody can send a header whose secret is not
    base64, which parses and then makes the server panic. *)
Lemma malformed_secret_panics {PrivateKey E} DecryptOAEP EncryptCBC DecryptCBC md5_hex now h (pri : PrivateKey) payload
    (handler : list (string * json) -> json * option E) :
  md5_ok md5_hex -> header_ok h -> no_dot payload = true -> b64_decode true (h_Secret h) = None ->
  exists msg, ParseRequest md5_hex msg = inr (h, payload) /\
    HandleRequest DecryptOAEP EncryptCBC DecryptCBC md5_hex now h pri payload handler = Panic.
Proof.
  intros Hmd5 Hh Hp H. set (text := toBase64 (header_json h) +:+ "." +:+ payload).
  exists (text +:+ "." +:+ md5_hex text). split; [|unfold HandleRequest; by rewrite H].
  unfold ParseRequest, parts_of, text. rewrite three_parts; [|apply b64_no_dot, string_bytes_ok|done|apply Hmd5].
  rewrite String.eqb_refl. unfold toBase64. rewrite b64_roundtrip by apply string_bytes_ok. cbn [mbind option_bind].
  by rewrite bytes_string_bytes, decode_header_json.
Qed.
