(* ===== verification/Login.v ===== *)
(** * The login from end to end (vnet/client/client.go handshake, vnet/server/server.go
      handshake)

    The client builds the request for its link, the server handles it on its
    sessions and networks, the client reads the session from the answer. The
    tables of the manager and the keys are arguments. *)

From S2P Require Import Session.
From S2P Require Import Prelude GoNet GoText Router IPPool QuotaCounter GoFloat SmoothLimiter Metrics Server Functions Request.

#[local] Open Scope string_scope.
#[local] Open Scope Z_scope.

(** ** The session as JSON *)

(** [session.Session] without its context; [Meta] is not set by the program. *)
Record LoginSession := MkLogin {
  ls_IP : string; ls_Type : string; ls_SessionId : string; ls_NetworkId : string; ls_NetworkInfo : json; ls_Device : Session.Device;
  ls_Meta : json }.

Definition quota_json (q : option Session.Quota) : json :=
  match q with
  | None => JNull
  | Some q => JObj [("id", JNum (Session.q_Id q)); ("unit", JStr (Session.q_Unit q)); ("value", JNum (Session.q_Value q));
                    ("period", JStr (Session.q_Period q))]
  end.

(** An empty key is left out. *)
Definition device_json (d : Session.Device) : json :=
  JObj ([("id", JStr (Session.d_Id d)); ("name", JStr (Session.d_Name d)); ("cidr", JStr (Session.d_CIDR d)); ("mtu", JNum (Session.d_MTU d))]
        ++ (if String.eqb (Session.d_Key d) "" then [] else [("key", JStr (Session.d_Key d))])
        ++ [("data_traffic_quota", quota_json (Session.d_DataTrafficQuota d));
            ("bandwidth_quota", quota_json (Session.d_BandwidthQuota d))])%list.

Definition session_json (s : LoginSession) : json :=
  JObj [("ip", JStr (ls_IP s)); ("type", JStr (ls_Type s)); ("session_id", JStr (ls_SessionId s)); ("network_id", JStr (ls_NetworkId s));
        ("network_info", ls_NetworkInfo s); ("dispatched_device", device_json (ls_Device s)); ("meta", ls_Meta s)].

(** [json.Unmarshal] into a struct: members in order, names in any case. *)
Definition into {A} (set : A -> string -> json -> option A) (zero : A) (v : json) : option A :=
  match v with
  | JObj l => foldl (fun a m => a ← a; set a (lower_all (m : string * json).1) m.2) (Some zero) l
  | JNull => Some zero
  | _ => None
  end.

Definition as_i64 (old : Z) (v : json) : option Z := as_range (- 2 ^ 63) (2 ^ 63) old v.

Definition set_quota_field (q : Session.Quota) (k : string) (v : json) : option Session.Quota :=
  let '(Session.MkQuota i u x p) := q in
  if String.eqb k "id" then z ← as_i64 i v; Some (Session.MkQuota z u x p)
  else if String.eqb k "unit" then s ← as_string u v; Some (Session.MkQuota i s x p)
  else if String.eqb k "value" then z ← as_i64 x v; Some (Session.MkQuota i u z p)
  else if String.eqb k "period" then s ← as_string p v; Some (Session.MkQuota i u x s)
  else Some q.

(** A pointer: null is nil, an object goes to what is there. *)
Definition quota_into (old : option Session.Quota) (v : json) : option (option Session.Quota) :=
  match v with JNull => Some None | _ => Some <$> into set_quota_field (default (Session.MkQuota 0 "" 0 "") old) v end.

Definition set_device_field (d : Session.Device) (k : string) (v : json) : option Session.Device :=
  let '(Session.MkDevice i n c m key dt bw) := d in
  if String.eqb k "id" then s ← as_string i v; Some (Session.MkDevice s n c m key dt bw)
  else if String.eqb k "name" then s ← as_string n v; Some (Session.MkDevice i s c m key dt bw)
  else if String.eqb k "cidr" then s ← as_string c v; Some (Session.MkDevice i n s m key dt bw)
  else if String.eqb k "mtu" then z ← as_i64 m v; Some (Session.MkDevice i n c z key dt bw)
  else if String.eqb k "key" then s ← as_string key v; Some (Session.MkDevice i n c m s dt bw)
  else if String.eqb k "data_traffic_quota" then q ← quota_into dt v; Some (Session.MkDevice i n c m key q bw)
  else if String.eqb k "bandwidth_quota" then q ← quota_into bw v; Some (Session.MkDevice i n c m key dt q)
  else Some d.

Definition no_device : Session.Device := Session.MkDevice "" "" "" 0 "" None None.

(** A member that is a map takes objects and null. *)
Definition as_map (v : json) : option json := match v with JObj _ | JNull => Some v | _ => None end.

Definition set_session_field (s : LoginSession) (k : string) (v : json) : option LoginSession :=
  let '(MkLogin ip ty id net info dev meta) := s in
  if String.eqb k "ip" then x ← as_string ip v; Some (MkLogin x ty id net info dev meta)
  else if String.eqb k "type" then x ← as_string ty v; Some (MkLogin ip x id net info dev meta)
  else if String.eqb k "session_id" then x ← as_string id v; Some (MkLogin ip ty x net info dev meta)
  else if String.eqb k "network_id" then x ← as_string net v; Some (MkLogin ip ty id x info dev meta)
  else if String.eqb k "network_info" then x ← as_map v; Some (MkLogin ip ty id net x dev meta)
  else if String.eqb k "dispatched_device" then x ← into set_device_field dev v; Some (MkLogin ip ty id net info x meta)
  else if String.eqb k "meta" then x ← as_map v; Some (MkLogin ip ty id net info dev x)
  else Some s.

(** [handshakeResponse] *)
Definition set_response_field (r : option LoginSession * string) (k : string) (v : json) : option (option LoginSession * string) :=
  let '(s, e) := r in
  if String.eqb k "session" then
    match v with
    | JNull => Some (None, e)
    | _ => x ← into set_session_field (default (MkLogin "" "" "" "" JNull no_device JNull) s) v; Some (Some x, e)
    end
  else if String.eqb k "error" then x ← as_string e v; Some (s, x)
  else Some r.

(** ** The client *)

Inductive login_error := BadLink | RequestFailed (e : req_error) | Refused (text : string) | NoPrivateKey.

(** The link of the configuration: sub device and key. *)
Definition set_link (l : Z * string) (k : string) (v : json) : option (Z * string) :=
  if String.eqb k "sub_device_id" then z ← as_range 0 (2 ^ 64) l.1 v; Some (z, l.2)
  else if String.eqb k "key" then s ← as_string l.2 v; Some (l.1, s)
  else Some l.
Definition decode_link (link : string) : option (Z * string) :=
  bs ← b64_decode true link;
  v ← Unmarshal (bytes_string bs);
  into set_link (0, "") v.

(** A map is marshalled in the order of its keys. *)
Definition login_payload (hostname : string) (encrypt compress : bool) (id : string) : list (string * json) :=
  [("compress", JBool compress); ("encrypt", JBool encrypt); ("hostname", JStr hostname); ("session", JStr id)].

(** What the client makes of the answer. No session and no error is a nil
    pointer. *)
Definition read_answer (v : json) : outcome login_error LoginSession :=
  match into set_response_field (None, "") v with
  | None => Fail (RequestFailed PayloadError)
  | Some (s, e) =>
      if negb (String.eqb e "") then Fail (Refused e)
      else match s with Some s => Ret s | None => Panic end
  end.

Section Exchange.
Context {PublicKey PrivateKey : Type}.
Context (EncryptOAEP : PublicKey -> list Z -> list Z -> option (list Z)) (DecryptOAEP : PrivateKey -> list Z -> option (list Z)).
Context (EncryptCBC DecryptCBC : list Z -> list Z -> list Z -> option (list Z)) (md5_hex : string -> string).
Context (intn : Z -> Z -> Z) (unixMilli : nat -> Z).

(** The message the client sends: random values and the clock are arguments. *)
Definition client_request (pub : PublicKey) (link hostname : string) (encrypt compress : bool) (id : string)
    (now : Z) (nonce secret : string) (rnd : list Z) : login_error + string :=
  match decode_link link with
  | None => inl BadLink
  | Some (sub, key) =>
      match buildRequest EncryptOAEP EncryptCBC md5_hex pub rnd (login_payload hostname encrypt compress id) (NewHeader now nonce sub key) secret with
      | inl e => inl (RequestFailed e)
      | inr msg => inr msg
      end
  end.

Definition client_answer (receive secret nonce : string) : outcome login_error LoginSession :=
  match decode DecryptCBC md5_hex receive secret nonce with
  | Panic => Panic
  | Fail e => Fail (RequestFailed e)
  | Ret v => read_answer v
  end.

(** ** The server *)

(** [gconv.String] *)
Definition to_text (v : option json) : string :=
  match v with
  | None | Some JNull => ""
  | Some (JStr s) => s
  | Some v => Marshal v
  end.

(** [ErrResourceError.WithCause]; [reason] is the text of the manager's error. *)
Definition refusal (reason : serr -> string) (e : serr) : string :=
  Session.Error (Session.WithCause (Session.NewError "resource error" 406) (Session.EText ("acquire device error: " +:+ reason e))).

(** What the answer tells of the session [p]. *)
Definition login_session (sv : Server) (p : nat) (typ : string) (dev : Session.Device) (netkey : string) : option LoginSession :=
  s ← sv_sess sv !! p;
  w ← s_network s;
  n ← sv_nets sv !! w;
  Some (MkLogin (s_IP s) typ (s_SessionId s) (n_ID n)
          (JObj [("cidr", JStr (n_CIDR n)); ("id", JStr (n_ID n)); ("mtu", JNum (n_MTU n))])
          (Session.MkDevice (Session.d_Id dev) (Session.d_Name dev) (s_CIDR s) (n_MTU n) netkey
             (Session.d_DataTrafficQuota dev) (Session.d_BandwidthQuota dev)) JNull).

(** The handler of the request; the second component carries the error and the
    state, [None] being a panic. [dev] is what the tables hold of the device. *)
Definition login_handler (reason : serr -> string) (sv : Server) (p : nat) (typ : string) (sub : SubDevice) (dev : Session.Device)
    (netkey : string) (req : list (string * json)) : json * option (option serr * Server) :=
  match handshake intn unixMilli sv p sub (to_text (arg (Some req) "session")) with
  | None => (JNull, None)
  | Some (Some e, sv) => (JObj [("error", JStr (refusal reason e))], Some (Some e, sv))
  | Some (None, sv) =>
      match login_session sv p typ dev netkey with
      | None => (JNull, None)
      | Some s => (JObj [("session", session_json s)], Some (None, sv))
      end
  end.

Definition server_handshake (reason : serr -> string) (tables : Z -> SubDevice * Session.Device) (privateKey : Z -> string -> option PrivateKey)
    (netkey : string) (sv : Server) (p : nat) (typ : string) (now : Z) (datagram : string)
    : outcome login_error (string * option serr * Server) :=
  match ParseRequest md5_hex datagram with
  | inl e => Fail (RequestFailed e)
  | inr (h, payload) =>
      match privateKey (h_SubDeviceId h) (h_Key h) with
      | None => Fail NoPrivateKey
      | Some pri =>
          let '(sub, dev) := tables (h_SubDeviceId h) in
          match HandleRequest DecryptOAEP EncryptCBC DecryptCBC md5_hex now h pri payload (login_handler reason sv p typ sub dev netkey) with
          | Panic => Panic
          | Fail e => Fail (RequestFailed e)
          | Ret (data, Some (err, sv)) => Ret (data, err, sv)
          | Ret (_, None) => Panic
          end
      end
  end.
End Exchange.
