(* ===== verification/LoginProps.v ===== *)
(** * A login works end to end *)

From S2P Require Import Session.
From S2P Require Import Prelude GoNet GoText Router RouterProps IPPool IPPoolProps QuotaCounter GoFloat SmoothLimiter Metrics Server Functions.
From S2P Require Import FunctionsProps Request RequestProps Login.

#[local] Open Scope string_scope.
#[local] Open Scope Z_scope.

(** ** Sessions survive the way through JSON *)

Definition i64_ok (z : Z) : Prop := - 2 ^ 63 <= z < 2 ^ 63.
Definition quota_ok (q : option Session.Quota) : Prop :=
  match q with Some q => i64_ok (Session.q_Id q) /\ i64_ok (Session.q_Value q) | None => True end.
Definition device_ok (d : Session.Device) : Prop :=
  i64_ok (Session.d_MTU d) /\ quota_ok (Session.d_DataTrafficQuota d) /\ quota_ok (Session.d_BandwidthQuota d).

Lemma as_i64_ok old z : i64_ok z -> as_i64 old (JNum z) = Some z.
Proof. apply as_range_ok. Qed.

(** Members of a struct one after the other: [set] is known for each name. *)
Lemma into_cons {A} (set : A -> string -> json -> option A) a k v l a' :
  set a (lower_all k) v = Some a' -> into set a (JObj ((k, v) :: l)) = into set a' (JObj l).
Proof. intros H. cbn [into foldl fst snd mbind option_bind]. by rewrite H. Qed.

(** Evaluates [set] at a closed name, up to the conversion of the value. *)
Ltac next_field :=
  match goal with
  | |- into ?set ?a (JObj ((?k, ?v) :: ?l)) = _ =>
      let r := eval vm_compute in (lower_all k) in
      erewrite (into_cons set a k v l); [|change (lower_all k) with r; cbn -[into]; try reflexivity]
  end.

#[local] Opaque as_i64.

Lemma quota_into_json q : quota_ok q -> quota_into None (quota_json q) = Some q.
Proof.
  destruct q as [[i u v p]|]; [|done]. intros [Hi Hv]. cbn [Session.q_Id Session.q_Value] in *.
  unfold quota_into, quota_json. cbn [default from_option id Session.q_Id Session.q_Unit Session.q_Value Session.q_Period].
  enough (forall l, into set_quota_field (Session.MkQuota 0 "" 0 "") (JObj l) = Some (Session.MkQuota i u v p) ->
    Some <$> into set_quota_field (Session.MkQuota 0 "" 0 "") (JObj l) = Some (Some (Session.MkQuota i u v p))) as H; [apply H|by intros l ->].
  next_field; [|by rewrite as_i64_ok]. next_field. next_field; [|by rewrite as_i64_ok]. next_field. reflexivity.
Qed.

Lemma device_into_json d : device_ok d -> into set_device_field no_device (device_json d) = Some d.
Proof.
  destruct d as [i n c m key dt bw]. intros (Hm & Hd & Hb). cbn [Session.d_MTU Session.d_DataTrafficQuota Session.d_BandwidthQuota] in *.
  pose proof (quota_into_json dt Hd) as Ed. pose proof (quota_into_json bw Hb) as Eb. unfold device_json, no_device.
  cbn [Session.d_Id Session.d_Name Session.d_CIDR Session.d_MTU Session.d_Key Session.d_DataTrafficQuota Session.d_BandwidthQuota].
  generalize dependent (quota_json dt). generalize dependent (quota_json bw). intros jb Eb jd Ed.
  destruct (String.eqb_spec key "") as [->|Hk]; cbn [app].
  - next_field. next_field. next_field. next_field; [|by rewrite as_i64_ok]. next_field; [|by rewrite Ed]. next_field; [|by rewrite Eb]. reflexivity.
  - next_field. next_field. next_field. next_field; [|by rewrite as_i64_ok]. next_field. next_field; [|by rewrite Ed].
    next_field; [|by rewrite Eb]. reflexivity.
Qed.

Lemma session_into_json s zero :
  device_ok (ls_Device s) -> (exists l, ls_NetworkInfo s = JObj l) -> ls_Meta s = JNull ->
  ls_Device zero = no_device -> into set_session_field zero (session_json s) = Some s.
Proof.
  destruct s as [ip ty sid net info dev meta], zero as [ip0 ty0 sid0 net0 info0 dev0 meta0]. cbn [ls_Device ls_NetworkInfo ls_Meta].
  intros Hd [l ->] -> ->. pose proof (device_into_json dev Hd) as Ed. unfold session_json.
  cbn [ls_IP ls_Type ls_SessionId ls_NetworkId ls_NetworkInfo ls_Device ls_Meta].
  generalize dependent (device_json dev). intros jd Ed.
  next_field. next_field. next_field. next_field. next_field. next_field; [|by rewrite Ed]. next_field. reflexivity.
Qed.

(** ** What the client reads *)

Definition login_ok (s : LoginSession) : Prop :=
  device_ok (ls_Device s) /\ (exists l, ls_NetworkInfo s = JObj l) /\ ls_Meta s = JNull.

Lemma read_session s : login_ok s -> read_answer (JObj [("session", session_json s)]) = Ret s.
Proof.
  intros (Hd & Hi & Hm). unfold read_answer. pose proof (session_into_json s (MkLogin "" "" "" "" JNull no_device JNull) Hd Hi Hm eq_refl) as Es.
  assert (into set_response_field (None, "") (JObj [("session", session_json s)]) = Some (Some s, "")) as ->; [|done].
  assert (exists l, session_json s = JObj l) as [l Hl] by (by eexists). rewrite Hl in *. clear Hl.
  next_field; [|by rewrite Es]. reflexivity.
Qed.

Lemma read_refusal text : text <> "" -> read_answer (JObj [("error", JStr text)]) = Fail (Refused text).
Proof.
  intros Ht. unfold read_answer. assert (into set_response_field (None, "") (JObj [("error", JStr text)]) = Some (None, text)) as ->.
  { next_field. reflexivity. }
  by rewrite (proj2 (String.eqb_neq _ _) Ht).
Qed.

Lemma refusal_text reason e : refusal reason e <> "".
Proof. done. Qed.

(** The answers can be marshalled. *)
Lemma quota_nums q : quota_ok q -> nums_ok (quota_json q).
Proof. destruct q as [[i u v p]|]; [|done]. unfold quota_ok, i64_ok. cbn. lia. Qed.

Lemma session_nums s l : device_ok (ls_Device s) -> ls_NetworkInfo s = JObj l -> nums_ok (JObj l) -> ls_Meta s = JNull -> nums_ok (session_json s).
Proof.
  destruct s as [ip ty sid net info [i n c m key dt bw] meta]. cbn [ls_Device ls_NetworkInfo ls_Meta]. intros (Hm & Hd & Hb) -> Hl ->.
  cbn [Session.d_MTU Session.d_DataTrafficQuota Session.d_BandwidthQuota] in *. unfold i64_ok in Hm.
  pose proof (quota_nums dt Hd) as Hnd. pose proof (quota_nums bw Hb) as Hnb. unfold session_json, device_json.
  cbn [ls_IP ls_Type ls_SessionId ls_NetworkId ls_NetworkInfo ls_Device ls_Meta Session.d_Id Session.d_Name Session.d_CIDR Session.d_MTU
       Session.d_Key Session.d_DataTrafficQuota Session.d_BandwidthQuota].
  generalize dependent (quota_json dt). generalize dependent (quota_json bw). intros jb Hnb jd Hnd.
  destruct (String.eqb key ""); cbn [nums_ok foldr fst snd app] in *; split_and!; try done; lia.
Qed.

(** ** What the server does *)

(** Sessions stay where they are and keep their network; networks stay. *)
Definition keeps (sv sv' : Server) : Prop :=
  (forall p s, sv_sess sv !! p = Some s -> exists s', sv_sess sv' !! p = Some s' /\ s_network s' = s_network s) /\
  (forall w, is_Some (sv_nets sv !! w) -> is_Some (sv_nets sv' !! w)).

#[local] Instance keeps_preorder : PreOrder keeps.
Proof.
  split; [split; naive_solver|]. intros a b c [H1 H2] [H3 H4]. split; [|auto]. intros p s Hs.
  destruct (H1 p s Hs) as (s' & Hs' & E). destruct (H3 p s' Hs') as (s'' & Hs'' & E'). exists s''. split; [done|congruence].
Qed.

Lemma with_sess_keeps sv p s s' : sv_sess sv !! p = Some s -> s_network s' = s_network s -> keeps sv (with_sess sv p s').
Proof.
  intros Hs Hn. split; [|done]. intros q x Hx. cbn [with_sess sv_sess]. destruct (decide (q = p)) as [->|Hne].
  - rewrite lookup_insert_eq. exists s'. split; [done|congruence].
  - rewrite lookup_insert_ne by done. by exists x.
Qed.

Lemma with_net_keeps sv w n : keeps sv (with_net sv w n).
Proof.
  split; [naive_solver|]. intros w' Hw. cbn [with_net sv_nets]. destruct (decide (w' = w)) as [->|Hne]; [rewrite lookup_insert_eq; by eexists|].
  by rewrite lookup_insert_ne.
Qed.

Lemma Release_keeps sv p u sv' : Release sv p = Some (u, sv') -> keeps sv sv'.
Proof.
  unfold Release. destruct (sv_sess sv !! p) as [s|] eqn:Hs; [|done]. cbn [mbind option_bind]. destruct (s_quota s) as [q|]; [|done].
  cbn [mbind option_bind]. destruct (s_network s) as [w|] eqn:Hw; [|done]. cbn [mbind option_bind]. destruct (sv_nets sv !! w) as [n|]; [|done].
  cbn [mbind option_bind]. destruct (CommitUsage q) as [u' q']. destruct (ReleaseDevice n (s_CIDR s)) as [e n'].
  destruct (UnRegister _ _) as [r|]; [|done]. cbn [mbind option_bind]. intros [= _ <-].
  etrans; [|apply with_net_keeps]. by apply (with_sess_keeps _ _ s).
Qed.

Section Server.
Context (intn : Z -> Z -> Z) (unixMilli : nat -> Z).

Lemma release_last_keeps sv w last sv' : release_last sv w last = Some sv' -> keeps sv sv'.
Proof.
  unfold release_last. destruct (String.eqb last ""); [intros [= <-]; reflexivity|].
  destruct (sv_nets sv !! w) as [n|]; [|done]. cbn [mbind option_bind]. destruct (SessionById sv n last) as [q|]; [|intros [= <-]; reflexivity].
  destruct (sv_sess sv !! q) as [s|] eqn:Hs; [|done]. cbn [mbind option_bind].
  destruct (Release (with_sess sv q (Stop s)) q) as [[u sv1]|] eqn:Hr; [|done]. cbn [mbind option_bind]. intros [= <-].
  etrans; [|by eapply Release_keeps]. by apply (with_sess_keeps _ _ s).
Qed.

(** After a login the session knows its network. *)
Lemma handshake_network sv p sub last sv' :
  handshake intn unixMilli sv p sub last = Some (None, sv') ->
  exists s w n, sv_sess sv' !! p = Some s /\ s_network s = Some w /\ sv_nets sv' !! w = Some n.
Proof.
  unfold handshake, AcquireDevice. destruct (sv_sess sv !! p) as [s|] eqn:Hs; [|done]. cbn [mbind option_bind].
  destruct (sd_known sub); [|done]. cbn [negb]. destruct (GetNetwork sv (sd_NetworkId sub)) as [w|]; [|done].
  destruct (release_last (with_sess sv p (SetNetwork s w)) w last) as [sv1|] eqn:Hl; [|done]. cbn [mbind option_bind].
  apply release_last_keeps in Hl as [Hk _]. destruct (Hk p (SetNetwork s w)) as (s1 & Hs1 & Hn1); [cbn; by rewrite lookup_insert_eq|]. cbn in Hn1.
  destruct (sd_device_ok sub); [|done]. cbn [negb]. destruct (sv_nets sv1 !! w) as [n|] eqn:Hn; [|done]. cbn [mbind option_bind].
  destruct (if 0 <? sd_FixedIP sub then _ else _) as [[cidr pool]|e|]; [|done..].
  destruct (sd_bandwidth sub) as [bw|], (sd_traffic sub) as [tr|]; try done. cbn [mbind option_bind].
  cbn [with_net sv_sess]. rewrite Hs1. cbn [mbind option_bind]. intros [= <-].
  eexists _, w, _. cbn [with_sess with_net sv_sess sv_nets]. rewrite !lookup_insert_eq. split_and!; done.
Qed.
End Server.

Lemma decode_link_range link sub key : decode_link link = Some (sub, key) -> 0 <= sub < 2 ^ 64.
Proof.
  unfold decode_link. destruct (b64_decode true link) as [bs|]; [|done]. cbn [mbind option_bind].
  destruct (Unmarshal (bytes_string bs)) as [v|]; [|done]. cbn [mbind option_bind]. unfold into.
  destruct v as [| | | | |l]; try done; [intros [= <- _]; lia|].
  assert (forall l (a : option (Z * string)), (forall x, a = Some x -> 0 <= x.1 < 2 ^ 64) ->
    forall x, foldl (fun a m => a ← a; set_link a (lower_all (m : string * json).1) m.2) a l = Some x -> 0 <= x.1 < 2 ^ 64) as H.
  { clear. induction l as [|[k v] l IH]; intros a Ha x; cbn [foldl]; [apply Ha|]. apply IH. clear x. intros x.
    destruct a as [a|]; [|done]. cbn [mbind option_bind fst snd]. unfold set_link. destruct (String.eqb _ _).
    - unfold as_range. destruct (as_int _ v) as [z|]; [|done]. cbn [mbind option_bind].
      destruct ((0 <=? z) && (z <? 2 ^ 64)) eqn:E; [|done]. cbn [mbind option_bind]. intros [= <-].
      apply andb_true_iff in E as [E1%Z.leb_le E2%Z.ltb_lt]. done.
    - destruct (String.eqb _ _); [|intros [= <-]; by apply Ha]. destruct (as_string _ v); [|done]. intros [= <-]. by apply (Ha a). }
  intros Hf. apply (H l (Some (0, ""))) in Hf; [done|]. intros x [= <-]. cbn. lia.
Qed.

(** What the handler answers. *)
Lemma login_handler_run intn unixMilli reason sv p typ sub dev netkey req err sv' :
  handshake intn unixMilli sv p sub (to_text (arg (Some req) "session")) = Some (err, sv') ->
  device_ok dev -> (forall w n, sv_nets sv' !! w = Some n -> i64_ok (n_MTU n)) ->
  exists answer, login_handler intn unixMilli reason sv p typ sub dev netkey req = (answer, Some (err, sv')) /\ nums_ok answer /\
    match err with
    | None => exists s, login_session sv' p typ dev netkey = Some s /\ read_answer answer = Ret s
    | Some e => read_answer answer = Fail (Refused (refusal reason e))
    end.
Proof.
  intros Hh (Hm & Hd & Hb) Hmtu. unfold login_handler. rewrite Hh. destruct err as [e|].
  - eexists. split; [done|]. split; [done|]. apply read_refusal, refusal_text.
  - destruct (handshake_network _ _ _ _ _ _ _ Hh) as (s & w & n & Hs & Hw & Hn). unfold login_session. rewrite Hs. cbn [mbind option_bind].
    rewrite Hw. cbn [mbind option_bind]. rewrite Hn. cbn [mbind option_bind]. pose proof (Hmtu _ _ Hn) as Hmn.
    set (ls := MkLogin _ _ _ _ _ _ _). assert (device_ok (ls_Device ls)) as Hdev by (split_and!; done).
    eexists. split; [done|]. split.
    + cbn [nums_ok foldr snd]. split; [|done]. eapply session_nums; [done|reflexivity| |done]. unfold i64_ok in Hmn. cbn. lia.
    + exists ls. split; [done|]. apply read_session. split_and!; [done| |done]. by eexists.
Qed.

(** A login, from the client's message to what the client reads. *)
Lemma login_faithful {PublicKey PrivateKey : Type} EncryptOAEP DecryptOAEP EncryptCBC DecryptCBC md5_hex intn unixMilli
    reason tables privateKey netkey (pub : PublicKey) (pri : PrivateKey) link subid key sub dev hostname encrypt compress last
    now nonce secret rnd sv p typ now' msg err sv' :
  rsa_pair EncryptOAEP DecryptOAEP pub pri -> aes_ok EncryptCBC DecryptCBC -> aes_uniform EncryptCBC -> md5_ok md5_hex ->
  decode_link link = Some (subid, key) -> privateKey subid key = Some pri -> tables subid = (sub, dev) ->
  i64_ok now -> device_ok dev ->
  client_request EncryptOAEP EncryptCBC md5_hex pub link hostname encrypt compress last now nonce secret rnd = inr msg ->
  handshake intn unixMilli sv p sub last = Some (err, sv') -> (forall w n, sv_nets sv' !! w = Some n -> i64_ok (n_MTU n)) ->
  exists data,
    server_handshake DecryptOAEP EncryptCBC DecryptCBC md5_hex intn unixMilli reason tables privateKey netkey sv p typ now' msg =
      Ret (data, err, sv') /\
    match err with
    | None => exists s, login_session sv' p typ dev netkey = Some s /\ client_answer DecryptCBC md5_hex data secret nonce = Ret s
    | Some e => client_answer DecryptCBC md5_hex data secret nonce = Fail (Refused (refusal reason e))
    end.
Proof.
  intros Hrsa Haes Huni Hmd5 Hlink Hkey Htab Hnow Hdev. unfold client_request. rewrite Hlink.
  destruct (buildRequest _ _ _ _ _ _ _ _) as [e|m] eqn:Hb; [done|]. intros [= <-] Hh Hmtu.
  set (req := login_payload hostname encrypt compress last) in *.
  assert (to_text (arg (Some req) "session") = last) as Hlast by done. rewrite <- Hlast in Hh.
  destruct (login_handler_run _ _ reason sv p typ sub dev netkey req err sv' Hh Hdev Hmtu) as (answer & Hrun & Hnum & Hread).
  destruct (exchange_faithful EncryptOAEP DecryptOAEP EncryptCBC DecryptCBC md5_hex pub pri rnd req (NewHeader now nonce subid key) secret now'
    (login_handler intn unixMilli reason sv p typ sub dev netkey) m Hrsa Haes Huni Hmd5) as (h' & payload & data & Hparse & Hsub & Hk & Hnonce & Hhandle & Hdec).
  - split; [exact Hnow|]. by eapply decode_link_range.
  - cbn. tauto.
  - by rewrite Hrun.
  - exact Hb.
  - cbn [NewHeader h_SubDeviceId h_Key h_Nonce] in *. exists data. split.
    + unfold server_handshake. rewrite Hparse, Hsub, Hk, Hkey, Htab, Hhandle, Hrun. done.
    + unfold client_answer. rewrite Hdec, Hrun. done.
Qed.

(** C3. A login works end to end. When the client's link names a sub device
    whose private key the server finds for it, the client's message is handled
    on the tables of that sub device with the client's last session id: the
    server ends in the state of the login, with its error. If there is none the
    client reads exactly the session the server keeps, with its address, id,
    network and device; otherwise it reads the server's refusal. *)
Theorem login_end_to_end {PublicKey PrivateKey : Type} EncryptOAEP DecryptOAEP EncryptCBC DecryptCBC md5_hex intn unixMilli
    reason tables privateKey netkey (pub : PublicKey) (pri : PrivateKey) link subid key sub dev hostname encrypt compress last
    now nonce secret rnd sv p typ now' msg err sv' :
  rsa_pair EncryptOAEP DecryptOAEP pub pri -> aes_ok EncryptCBC DecryptCBC -> aes_uniform EncryptCBC -> md5_ok md5_hex ->
  decode_link link = Some (subid, key) -> privateKey subid key = Some pri -> tables subid = (sub, dev) ->
  i64_ok now -> device_ok dev ->
  client_request EncryptOAEP EncryptCBC md5_hex pub link hostname encrypt compress last now nonce secret rnd = inr msg ->
  handshake intn unixMilli sv p sub last = Some (err, sv') -> (forall w n, sv_nets sv' !! w = Some n -> i64_ok (n_MTU n)) ->
  exists data,
    server_handshake DecryptOAEP EncryptCBC DecryptCBC md5_hex intn unixMilli reason tables privateKey netkey sv p typ now' msg =
      Ret (data, err, sv') /\
    match err with
    | None => exists s, login_session sv' p typ dev netkey = Some s /\ client_answer DecryptCBC md5_hex data secret nonce = Ret s
    | Some e => client_answer DecryptCBC md5_hex data secret nonce = Fail (Refused (refusal reason e))
    end.
Proof. apply login_faithful. Qed.

(** A network, a session that has just been accepted, a sub device with a fixed
    address, and its link. *)
Definition sample_login_server : Server :=
  match NewNetwork "home" "10.1.0.0/16" 1400 with
  | Ret n => MkServer {[1%nat := newServerSession "tcp-1"]} {[0%nat := n]} ∅ {["home" := 0%nat]} 0
  | _ => MkServer ∅ ∅ ∅ ∅ 0
  end.
Definition sample_sub : SubDevice := MkSub true "home" 5 true (Some 10) (Some (-1)) true (Some 0).
Definition sample_dev : Session.Device :=
  Session.MkDevice "d-1" "laptop" "" 0 "" (Some (Session.MkQuota 0 "" (-1) "")) (Some (Session.MkQuota 2 "mbps" 10 "")).
Definition sample_link : string := b64_encode true (string_bytes (Marshal (JObj [("sub_device_id", JNum 7); ("key", JStr "k")]))).
Definition sample_login_after : Server :=
  match handshake (fun _ _ => 0) (fun _ => 0) sample_login_server 1 sample_sub "" with Some (_, sv) => sv | None => sample_login_server end.
Definition sample_login_message : string :=
  match client_request (fun (_ : unit) _ m => plain m) (fun d _ _ => plain d) (fun _ => "00") tt sample_link "pc" true false "" 1 "n" "s" [] with
  | inr m => m | inl _ => "" end.

Lemma login_end_to_end_witness :
  exists data s, server_handshake (fun (_ : unit) m => Some m) (fun d _ _ => plain d) (fun d _ _ => Some d) (fun _ => "00")
      (fun _ _ => 0) (fun _ => 0) (fun _ => "") (fun _ => (sample_sub, sample_dev)) (fun _ _ => Some tt) "secret" sample_login_server 1 "tcp" 2
      sample_login_message = Ret (data, None, sample_login_after) /\
    client_answer (fun d _ _ => Some d) (fun _ => "00") data "s" "n" = Ret s /\
    ls_IP s = "10.1.0.6" /\ ls_SessionId s = "tcp-1" /\ Session.d_MTU (ls_Device s) = 1400.
Proof.
  destruct (login_end_to_end (fun (_ : unit) _ m => plain m) (fun (_ : unit) m => Some m) (fun d _ _ => plain d) (fun d _ _ => Some d)
    (fun _ => "00") (fun _ _ => 0) (fun _ => 0) (fun _ => "") (fun _ => (sample_sub, sample_dev)) (fun _ _ => Some tt) "secret" tt tt
    sample_link 7 "k" sample_sub sample_dev "pc" true false "" 1 "n" "s" [] sample_login_server 1 "tcp" 2 sample_login_message None sample_login_after)
    as (data & H1 & s & H2 & H3).
  - intros rnd m e. apply plain_Some.
  - intros d k iv e. apply plain_Some.
  - intros d d' k iv Hd' _. unfold plain. apply plain_bytes in Hd'. rewrite Hd'. by eexists.
  - intros x. reflexivity.
  - vm_compute. reflexivity.
  - reflexivity.
  - reflexivity.
  - unfold i64_ok. lia.
  - unfold device_ok, quota_ok, i64_ok. cbn. lia.
  - vm_compute. reflexivity.
  - vm_compute. reflexivity.
  - intros w n Hn. assert (n_MTU n = 1400) as ->; [|unfold i64_ok; lia].
    assert (forall v, sv_nets sample_login_after !! w = Some v -> w = 0%nat) as Hw.
    { intros v Hv. assert (dom (sv_nets sample_login_after) = {[0%nat]}) as Hd by (vm_compute; reflexivity).
      apply elem_of_dom_2 in Hv. rewrite Hd in Hv. by apply elem_of_singleton in Hv. }
    rewrite (Hw _ Hn) in Hn. assert (n_MTU <$> sv_nets sample_login_after !! 0%nat = Some 1400) as Hm by (vm_compute; reflexivity).
    rewrite Hn in Hm. injection Hm as Hm. exact Hm.
  - exists data, s. split; [exact H1|]. split; [exact H3|].
    assert ((fun s => (ls_IP s, ls_SessionId s, Session.d_MTU (ls_Device s))) <$> login_session sample_login_after 1 "tcp" sample_dev "secret" =
      Some ("10.1.0.6", "tcp-1", 1400)) as Hs by (vm_compute; reflexivity).
    rewrite H2 in Hs. cbn [fmap option_fmap option_map] in Hs. injection Hs as -> -> ->. split; [reflexivity|]. split; reflexivity.
Defined.
