(* ===== verification/Calls.v ===== *)
(** * Calls of a client (vnet/client/manager.go)

    [CallFunc] runs under its mutex, so one call is under way at a time; the
    receiving loop runs beside it. An event is the next atomic action of one of
    them, or of the surroundings: a message arrives, the time of a call is up.
    [Fail tt]: the event is not possible in the state (the goroutine would
    wait). Channels of answers hold one message. *)

From S2P Require Import Prelude GoText Functions.

#[local] Open Scope string_scope.
#[local] Open Scope Z_scope.

Record ServersideEvent := MkEvent { ev_EventId : string; ev_Event : string; ev_Data : json }.

Definition set_event (e : option ServersideEvent) (m : string * json) : option ServersideEvent :=
  e ← e;
  let k := lower_all m.1 in
  if String.eqb k "event_id" then s ← as_string (ev_EventId e) m.2; Some (MkEvent s (ev_Event e) (ev_Data e))
  else if String.eqb k "event" then s ← as_string (ev_Event e) m.2; Some (MkEvent (ev_EventId e) s (ev_Data e))
  else if String.eqb k "data" then Some (MkEvent (ev_EventId e) (ev_Event e) m.2)
  else Some e.

Inductive call_error := SendError | DeadlineExceeded.

(** Where the call that holds the mutex stands. *)
Inductive caller := Free | Sent (id : string) | Waiting (id : string).
(** The receiving loop: about to look at the signal, waiting for a message, or
    ([Handing]) waiting for room in a channel. *)
Inductive receiver := Checking | Receiving | Handing (id : string) (resp : FuncCallResponse) | Ended.

(** [chans] are the channels that were made, [table] the entries of
    [funcCallRespChan]; [handler]: an event handler is set, [events] what it got. *)
Record CallManager := MkCallManager {
  chans : gmap string (option FuncCallResponse); table : gset string;
  calling : caller; loop : receiver; closed : bool; handler : bool; events : list (option ServersideEvent);
  inbox : list (list Z); requests : list string;
  results : list (string * (call_error + FuncCallResponse)) }.

(** [NewManager] starts the loop. *)
Definition NewManager : CallManager := MkCallManager ∅ ∅ Free Checking false false [] [] [] [].

Definition set_chans (m : CallManager) x : CallManager :=
  MkCallManager x (table m) (calling m) (loop m) (closed m) (handler m) (events m) (inbox m) (requests m) (results m).
Definition set_loop (m : CallManager) x : CallManager :=
  MkCallManager (chans m) (table m) (calling m) x (closed m) (handler m) (events m) (inbox m) (requests m) (results m).
Definition set_inbox (m : CallManager) x : CallManager :=
  MkCallManager (chans m) (table m) (calling m) (loop m) (closed m) (handler m) (events m) x (requests m) (results m).
Definition add_event (m : CallManager) x : CallManager :=
  MkCallManager (chans m) (table m) (calling m) (loop m) (closed m) (handler m) (events m ++ [x])%list (inbox m) (requests m)
    (results m).
Definition SetEventHandler (m : CallManager) : CallManager :=
  MkCallManager (chans m) (table m) (calling m) (loop m) (closed m) true (events m) (inbox m) (requests m) (results m).

(** Closing twice panics. *)
Definition Close (m : CallManager) : outcome unit CallManager :=
  if closed m then Panic
  else Ret (MkCallManager (chans m) (table m) (calling m) (loop m) true (handler m) (events m) (inbox m) (requests m) (results m)).

(** ** The call *)

(** Marshal and send. The call ends when sending fails. *)
Definition call_send (m : CallManager) (req : FuncCallRequest) (ok : bool) : outcome unit CallManager :=
  match calling m with
  | Free =>
      let id := rq_RequestId req in
      if ok then Ret (MkCallManager (chans m) (table m) (Sent id) (loop m) (closed m) (handler m) (events m) (inbox m)
                        (requests m ++ [Marshal (request_json req)])%list (results m))
      else Ret (MkCallManager (chans m) (table m) Free (loop m) (closed m) (handler m) (events m) (inbox m)
                  (requests m) (results m ++ [(id, inl SendError)])%list)
  | _ => Fail tt
  end.

(** The channel is made and stored after sending. *)
Definition call_store (m : CallManager) : outcome unit CallManager :=
  match calling m with
  | Sent id =>
      Ret (MkCallManager (<[id := None]> (chans m)) ({[id]} ∪ table m) (Waiting id) (loop m) (closed m) (handler m) (events m)
             (inbox m) (requests m) (results m))
  | _ => Fail tt
  end.

(** Returning deletes the entry and releases the mutex. *)
Definition call_return (m : CallManager) (id : string) (res : call_error + FuncCallResponse) : CallManager :=
  MkCallManager (chans m) (table m ∖ {[id]}) Free (loop m) (closed m) (handler m) (events m) (inbox m) (requests m)
    (results m ++ [(id, res)])%list.

Definition call_take (m : CallManager) (cost : Z) : outcome unit CallManager :=
  match calling m with
  | Waiting id =>
      match chans m !! id with
      | Some (Some resp) =>
          Ret (call_return (set_chans m (<[id := None]> (chans m))) id
                 (inr (MkResponse (rs_RequestId resp) (rs_Code resp) (rs_Data resp) (rs_Message resp) cost)))
      | _ => Fail tt
      end
  | _ => Fail tt
  end.

Definition call_timeout (m : CallManager) : outcome unit CallManager :=
  match calling m with Waiting id => Ret (call_return m id (inl DeadlineExceeded)) | _ => Fail tt end.

(** ** The receiving loop *)

Definition deliver (m : CallManager) (resp : FuncCallResponse) : CallManager :=
  let id := rs_RequestId resp in
  if decide (id ∈ table m) then
    match chans m !! id with
    | Some (Some _) => set_loop m (Handing id resp)
    | _ => set_chans m (<[id := Some resp]> (chans m))
    end
  else m.

(** An empty message panics, and so does [null] in place of an answer: the
    pointer is nil. An event [null] is passed to a handler as nil; without a
    handler it panics. *)
Definition receive (m : CallManager) (msg : list Z) : outcome unit CallManager :=
  match msg with
  | [] => Panic
  | typ :: rest =>
      let text := bytes_string rest in
      if typ =? MessageTypeFuncCall then
        match Unmarshal text with
        | None => Ret m
        | Some JNull => Panic
        | Some _ => match decode_response text with Some resp => Ret (deliver m resp) | None => Ret m end
        end
      else if typ =? MessageTypeServerEvent then
        match Unmarshal text with
        | None => Ret m
        | Some JNull => if handler m then Ret (add_event m None) else Panic
        | Some (JObj l) =>
            match foldl set_event (Some (MkEvent "" "" JNull)) l with
            | Some e => Ret (if handler m then add_event m (Some e) else m)
            | None => Ret m
            end
        | Some _ => Ret m
        end
      else Ret m
  end.

(** One turn of the loop in two steps: the signal, then the next message. *)
Definition receiveLoop (m : CallManager) : outcome unit CallManager :=
  match loop m with
  | Checking => Ret (set_loop m (if closed m then Ended else Receiving))
  | Receiving => match inbox m with [] => Fail tt | msg :: rest => receive (set_loop (set_inbox m rest) Checking) msg end
  | _ => Fail tt
  end.

(** An error of [Receive] ends the loop. *)
Definition receive_error (m : CallManager) : outcome unit CallManager :=
  match loop m with Receiving => Ret (set_loop m Ended) | _ => Fail tt end.

(** The channel has room again. *)
Definition hand_over (m : CallManager) : outcome unit CallManager :=
  match loop m with
  | Handing id resp =>
      match chans m !! id with
      | Some (Some _) => Fail tt
      | _ => Ret (set_loop (set_chans m (<[id := Some resp]> (chans m))) Checking)
      end
  | _ => Fail tt
  end.

Inductive call_event :=
| ECall (req : FuncCallRequest) (ok : bool) | EStore | ETake (cost : Z) | ETimeout
| EArrive (msg : list Z) | EReceive | EReceiveError | EHand | EHandler | EClose.

Definition call_step (m : CallManager) (e : call_event) : outcome unit CallManager :=
  match e with
  | ECall req ok => call_send m req ok
  | EStore => call_store m
  | ETake cost => call_take m cost
  | ETimeout => call_timeout m
  | EArrive msg => Ret (set_inbox m (inbox m ++ [msg])%list)
  | EReceive => receiveLoop m
  | EReceiveError => receive_error m
  | EHand => hand_over m
  | EHandler => Ret (SetEventHandler m)
  | EClose => Close m
  end.

Fixpoint call_run (m : CallManager) (es : list call_event) : outcome unit CallManager :=
  match es with [] => Ret m | e :: es' => m ← call_step m e; call_run m es' end.

(** [CallFunc] as a client meets it when the loop waits for a message: the
    answer arrives while the call waits. *)
Definition CallFunc (m : CallManager) (req : FuncCallRequest) (answer : list Z) (cost : Z) : outcome unit CallManager :=
  call_run m [ECall req true; EStore; EArrive answer; EReceive; ETake cost; EReceive].
