(* ===== verification/CallsProps.v ===== *)
(** * Calls get their own answers *)

From S2P Require Import Prelude GoText Router QuotaCounter GoFloat SmoothLimiter Metrics Server Functions FunctionsProps Calls.

(** ** Histories *)

Definition called (es : list call_event) : list string :=
  es ≫= fun e => match e with ECall req _ => [rq_RequestId req] | _ => [] end.
Definition arrived (es : list call_event) : list (list Z) :=
  es ≫= fun e => match e with EArrive msg => [msg] | _ => [] end.
Definition current (c : caller) : list string := match c with Free => [] | Sent id | Waiting id => [id] end.

(** An answer that was in one of the messages. *)
Definition answered (msgs : list (list Z)) (resp : FuncCallResponse) : Prop :=
  exists text, MessageTypeFuncCall :: text ∈ msgs /\ decode_response (bytes_string text) = Some resp.
Definition with_cost (resp : FuncCallResponse) (cost : Z) : FuncCallResponse :=
  MkResponse (rs_RequestId resp) (rs_Code resp) (rs_Data resp) (rs_Message resp) cost.

Lemma answered_mono l l' resp : l ⊆ l' -> answered l resp -> answered l' resp.
Proof. intros Hl (text & Hin & Hd). exists text. split; [by apply Hl|done]. Qed.

(** The state after the calls [ids] with the messages [msgs]. *)
Record call_inv (ids : list string) (msgs : list (list Z)) (m : CallManager) : Prop := {
  ci_order : (results m).*1 ++ current (calling m) = ids;
  ci_table : table m = match calling m with Waiting id => {[id]} | _ => ∅ end;
  ci_inbox : inbox m ⊆ msgs;
  ci_chans : forall id resp, chans m !! id = Some (Some resp) -> rs_RequestId resp = id /\ answered msgs resp;
  ci_loop : forall id resp, loop m = Handing id resp -> rs_RequestId resp = id /\ answered msgs resp;
  ci_results : forall id resp, (id, inr resp) ∈ results m ->
    rs_RequestId resp = id /\ exists r cost, resp = with_cost r cost /\ answered msgs r }.

(** ** Steps *)

(** Filling a channel with an answer for it. *)
Lemma fill_inv ids msgs m resp l :
  call_inv ids msgs m -> answered msgs resp -> l = Checking \/ l = Handing (rs_RequestId resp) resp ->
  call_inv ids msgs (set_loop (set_chans m (<[rs_RequestId resp := Some resp]> (chans m))) l).
Proof.
  intros [H1 H2 H3 H4 H5 H6] Ha Hl. split; cbn [results calling table inbox chans loop set_loop set_chans]; try done.
  - intros id r [[<- [= <-]]|[_ H]]%lookup_insert_Some; [done|by apply H4].
  - intros id r ->. destruct Hl as [|[= -> ->]]; done.
Qed.

Lemma set_loop_inv ids msgs m l :
  call_inv ids msgs m -> (forall id resp, l = Handing id resp -> rs_RequestId resp = id /\ answered msgs resp) ->
  call_inv ids msgs (set_loop m l).
Proof. intros [H1 H2 H3 H4 H5 H6] Hl. by split. Qed.

Lemma deliver_inv ids msgs m resp : call_inv ids msgs m -> loop m = Checking -> answered msgs resp -> call_inv ids msgs (deliver m resp).
Proof.
  intros H Hl Ha. unfold deliver. case_decide; [|done].
  assert (call_inv ids msgs (set_chans m (<[rs_RequestId resp := Some resp]> (chans m)))) as Hf.
  { pose proof (fill_inv _ _ _ _ Checking H Ha ltac:(auto)) as Hf. destruct m. cbn in *. by rewrite Hl. }
  destruct (chans m !! rs_RequestId resp) as [[r|]|]; [|done..].
  apply set_loop_inv; [done|]. by intros id r' [= <- <-].
Qed.

Lemma add_event_inv ids msgs m e : call_inv ids msgs m -> call_inv ids msgs (add_event m e).
Proof. intros [H1 H2 H3 H4 H5 H6]. by split. Qed.

Lemma receive_inv ids msgs m msg m' :
  call_inv ids msgs m -> loop m = Checking -> msg ∈ msgs -> receive m msg = Ret m' -> call_inv ids msgs m'.
Proof.
  intros H Hl Hin. unfold receive. destruct msg as [|typ rest]; [done|]. destruct (typ =? MessageTypeFuncCall) eqn:Et.
  - apply Z.eqb_eq in Et as ->. destruct (Unmarshal (bytes_string rest)) as [[]|]; try done;
      (destruct (decode_response (bytes_string rest)) as [resp|] eqn:Ed); intros [= <-]; try done;
      (apply deliver_inv; [done|done|by exists rest]).
  - destruct (typ =? MessageTypeServerEvent); [|by intros [= <-]].
    destruct (Unmarshal (bytes_string rest)) as [[| | | | |l]|]; try (by intros [= <-]);
      [|destruct (foldl set_event _ l); [|by intros [= <-]]]; destruct (handler m); try done; intros [= <-]; try done;
      by apply add_event_inv.
Qed.

Lemma call_return_inv ids msgs m id res :
  call_inv ids msgs m -> calling m = Waiting id ->
  (forall resp, res = inr resp -> rs_RequestId resp = id /\ exists r cost, resp = with_cost r cost /\ answered msgs r) ->
  call_inv ids msgs (call_return m id res).
Proof.
  intros [H1 H2 H3 H4 H5 H6] Hc Hres. split; cbn [results calling table inbox chans loop call_return]; try done.
  - rewrite <- H1, Hc, fmap_app. cbn. by rewrite app_nil_r.
  - rewrite H2, Hc. set_solver.
  - intros i resp [Hin|Hin]%elem_of_app; [by apply H6|]. apply list_elem_of_singleton in Hin as [= -> <-]. by apply Hres.
Qed.

Lemma call_step_inv ids msgs m e m' :
  call_inv ids msgs m -> call_step m e = Ret m' -> call_inv (ids ++ called [e]) (msgs ++ arrived [e]) m'.
Proof.
  intros H. pose proof H as [H1 H2 H3 H4 H5 H6].
  destruct e as [req ok| |cost| |msg| | | | |]; cbn [called arrived mbind list_bind app]; rewrite ?app_nil_r; cbn [call_step].
  - unfold call_send. destruct (calling m) eqn:Hc; [|done..]. rewrite app_nil_r in H1.
    destruct ok; intros [= <-]; split; cbn [results calling table inbox chans loop current]; try done;
      rewrite ?fmap_app, ?app_nil_r, ?H1; try done.
    intros i resp [Hin|Hin]%elem_of_app; [by apply H6|]. by apply list_elem_of_singleton in Hin as [=].
  - unfold call_store. destruct (calling m) eqn:Hc; [done| |done]. intros [= <-].
    split; cbn [results calling table inbox chans loop current]; try done; [rewrite H2; set_solver|].
    intros i resp [[_ [=]]|[_ Hi]]%lookup_insert_Some. by apply H4.
  - unfold call_take. destruct (calling m) as [|i|i] eqn:Hc; [done..|]. destruct (chans m !! i) as [[resp|]|] eqn:Hr; [|done..].
    intros [= <-]. destruct (H4 _ _ Hr) as [Hid Ha]. apply call_return_inv; [|done|].
    + split; cbn [results calling table inbox chans loop set_chans]; rewrite ?Hc; try done. intros j r [[_ [=]]|[_ Hj]]%lookup_insert_Some. by apply H4.
    + intros r [= <-]. split; [done|]. by exists resp, cost.
  - unfold call_timeout. destruct (calling m) eqn:Hc; [done..|]. intros [= <-]. by apply call_return_inv.
  - intros [= <-]. split; cbn [results calling table inbox chans loop current set_inbox]; try done; [set_solver| | |].
    + intros i r Hr. destruct (H4 _ _ Hr). split; [done|]. eapply answered_mono; [|done]. set_solver.
    + intros i r Hr. destruct (H5 _ _ Hr). split; [done|]. eapply answered_mono; [|done]. set_solver.
    + intros i r Hr. destruct (H6 _ _ Hr) as (Hid & r0 & c & Hr0 & Ha). split; [done|]. exists r0, c. split; [done|].
      eapply answered_mono; [|done]. set_solver.
  - unfold receiveLoop. destruct (loop m) eqn:Hl; [| |done..].
    + intros [= <-]. apply set_loop_inv; [done|]. intros i r. by destruct (closed m).
    + destruct (inbox m) as [|msg rest] eqn:Hi; [done|]. apply receive_inv; [|done|set_solver].
      split; cbn [results calling table inbox chans loop set_loop set_inbox]; try done. set_solver.
  - unfold receive_error. destruct (loop m); [done| |done..]. intros [= <-]. by apply set_loop_inv.
  - unfold hand_over. destruct (loop m) as [| |i resp|] eqn:Hl; [done..| |done]. destruct (H5 _ _ eq_refl) as [<- Ha].
    destruct (chans m !! rs_RequestId resp) as [[r|]|]; [done|..]; intros [= <-]; (apply fill_inv; [done|done|by left]).
  - intros [= <-]. by split.
  - unfold Close. destruct (closed m); [done|]. intros [= <-]. by split.
Qed.

Lemma call_run_inv es ids msgs m m' :
  call_inv ids msgs m -> call_run m es = Ret m' -> call_inv (ids ++ called es) (msgs ++ arrived es) m'.
Proof.
  revert ids msgs m. induction es as [|e es IH]; intros ids msgs m H; cbn [call_run].
  - intros [= <-]. by rewrite !app_nil_r.
  - destruct (call_step m e) as [m1| |] eqn:Es; [|done..]. cbn [mbind outcome_mbind]. intros Hr.
    pose proof (IH _ _ _ (call_step_inv _ _ _ _ _ H Es) Hr) as Hi. rewrite <- !app_assoc in Hi.
    change (e :: es) with ([e] ++ es). unfold called, arrived in *. by rewrite !bind_app.
Qed.

(** C28. However calls, the receiving loop, arriving messages, timeouts and
    closing interleave: calls end in the order in which they were made, each
    with one result; a call that returns an answer returns one with its own
    request id, which was in a message of the server; the table of waiting
    calls holds at most the call under way, so nothing piles up in it. *)
Theorem calls_matched es m :
  call_run NewManager es = Ret m ->
  (results m).*1 ++ current (calling m) = called es /\
  (forall id resp, (id, inr resp) ∈ results m ->
     rs_RequestId resp = id /\ exists r cost, resp = with_cost r cost /\ answered (arrived es) r) /\
  table m ⊆ list_to_set (current (calling m)).
Proof.
  intros Hr. apply (call_run_inv es [] []) in Hr as [H1 H2 _ _ _ H6].
  - split_and!; [done..|]. rewrite H2. destruct (calling m); set_solver.
  - split; cbn; try done. intros id resp H. by apply elem_of_nil in H.
Qed.

Definition sample_answer (id : string) : list Z :=
  MessageTypeFuncCall :: string_bytes (Marshal (response_json (MkResponse id 0 (JStr "pong") "" 0))).
Definition sample_calls : list call_event :=
  [EReceive; ECall (MkRequest "a" "ping" None) true; EStore; ETimeout; ECall (MkRequest "b" "ping" None) true; EStore;
   EArrive (sample_answer "a"); EArrive (sample_answer "b"); EReceive; EReceive; EReceive; ETake 7].

Lemma calls_matched_witness :
  exists m, call_run NewManager sample_calls = Ret m /\ table m ⊆ list_to_set (current (calling m)) /\
    results m = [("a"%string, inl DeadlineExceeded); ("b"%string, inr (MkResponse "b" 0 (JStr "pong") "" 7))].
Proof.
  destruct (call_run NewManager sample_calls) as [m| |] eqn:E; [|vm_compute in E; discriminate E..].
  exists m. split; [reflexivity|]. destruct (calls_matched sample_calls m E) as (_ & _ & Ht).
  split; [exact Ht|]. vm_compute in E. injection E as <-. reflexivity.
Defined.

(** ** A call to the server *)

Section Server.
Context (md5_hex : string -> string) (relayInfo : json).

(** What the handlers answer can be marshalled. *)
Lemma call_handler_shape h now sv p req resp sv' :
  call_handler md5_hex relayInfo h now sv p req = Some (resp, sv') ->
  rs_Code resp = 0 /\ rs_Cost resp = 0 /\ nums_ok (rs_Data resp).
Proof.
  unfold call_handler. destruct (sv_sess sv !! p) as [s|]; [|done]. cbn [mbind option_bind].
  destruct h; [destruct (s_network s) as [w|]; [|done]; cbn [mbind option_bind]..| | |].
  - destruct (sv_nets _ !! w); [|done]. by intros [= <- _].
  - destruct (sv_nets sv !! w); [|done]. by intros [= <- _].
  - by intros [= <- _].
  - by intros [= <- _].
  - destruct (arg _ _) as [[]|]; try done; try (by intros [= <- _]).
    destruct (String.eqb s0 ""); [by intros [= <- _]|]. destruct (s_storage s !! _); by intros [= <- _].
Qed.

Lemma handleFuncCall_shape functions now sv p req resp sv' :
  handleFuncCall md5_hex relayInfo functions now sv p req = Some (resp, sv') ->
  rs_RequestId resp = rq_RequestId req /\ -1 <= rs_Code resp <= 0 /\ rs_Cost resp = 0 /\ nums_ok (rs_Data resp).
Proof.
  unfold handleFuncCall. destruct (functions !! rq_FuncName req) as [h|]; [|by intros [= <- _]].
  destruct (call_handler _ _ h now sv p req) as [[r sv1]|] eqn:E; [|done]. cbn [mbind option_bind]. intros [= <- _].
  apply call_handler_shape in E as (Hc & Hk & Hd). cbn [rs_RequestId rs_Code rs_Cost rs_Data]. rewrite Hc. split_and!; [done|lia|lia|done|done].
Qed.

Lemma receive_answer m text resp :
  decode_response text = Some resp -> receive m (MessageTypeFuncCall :: string_bytes text) = Ret (deliver m resp).
Proof.
  intros Hd. unfold receive. rewrite bytes_string_bytes. change (MessageTypeFuncCall =? MessageTypeFuncCall) with true. cbv iota.
  rewrite Hd. unfold decode_response in Hd. destruct (Unmarshal text) as [[]|]; done.
Qed.

(** Evaluation of steps from a known state. *)
Ltac run_calls :=
  cbn [call_run call_step mbind outcome_mbind call_send call_store call_take call_return receiveLoop set_inbox set_loop set_chans app
       calling loop inbox table closed results chans].

(** The answer comes while the call waits. *)
Lemma answer_in_time m req answer resp cost :
  calling m = Free -> loop m = Receiving -> inbox m = [] -> table m = ∅ -> closed m = false ->
  (forall m, receive m answer = Ret (deliver m resp)) -> rs_RequestId resp = rq_RequestId req ->
  exists m', CallFunc m req answer cost = Ret m' /\ calling m' = Free /\ loop m' = Receiving /\ inbox m' = [] /\ table m' = ∅ /\
    results m' = results m ++ [(rq_RequestId req, inr (with_cost resp cost))].
Proof.
  intros Hc Hl Hi Ht Hcl Hrec Hid. destruct m as [ch tb ca lo cl ha ev ib rq rs].
  cbn [calling loop inbox table closed results] in *. subst. unfold CallFunc.
  eexists. run_calls. rewrite Hrec. unfold deliver. run_calls. rewrite Hid, decide_True by set_solver.
  rewrite lookup_insert_eq. run_calls. rewrite lookup_insert_eq. run_calls. split; [reflexivity|]. cbn [calling loop inbox table results].
  split_and!; [reflexivity..|set_solver|]. unfold with_cost. by rewrite Hid.
Qed.

(** The answer comes before the channel is stored. *)
Lemma answer_too_early m req answer resp :
  calling m = Free -> loop m = Receiving -> inbox m = [] -> table m = ∅ ->
  (forall m, receive m answer = Ret (deliver m resp)) ->
  exists m', call_run m [ECall req true; EArrive answer; EReceive; EStore] = Ret m' /\
    calling m' = Waiting (rq_RequestId req) /\ inbox m' = [] /\ forall c, call_step m' (ETake c) = Fail tt.
Proof.
  intros Hc Hl Hi Ht Hrec. destruct m as [ch tb ca lo cl ha ev ib rq rs].
  cbn [calling loop inbox table closed results] in *. subst.
  eexists. run_calls. rewrite Hrec. unfold deliver. run_calls. rewrite decide_False by set_solver. run_calls.
  split; [reflexivity|]. cbn [calling loop inbox table results]. split_and!; [reflexivity..|].
  intros c. run_calls. by rewrite lookup_insert_eq.
Qed.

(** A call is answered by the server's handler: when the request that
    [CallFunc] sends reaches the server and the answer comes back while the
    call waits, the call returns the handler's response and the client is ready
    for the next call. But the channel is made after sending: an answer that is
    received before that is dropped, and the call can only time out. *)
Theorem calls_answered functions now sv p req resp sv' m cost :
  args_ok (rq_Args req) -> calling m = Free -> loop m = Receiving -> inbox m = [] -> table m = ∅ -> closed m = false ->
  handleFuncCall md5_hex relayInfo functions now sv p req = Some (resp, sv') ->
  exists answer, HandleFuncCallEvent md5_hex relayInfo functions now sv p (Marshal (request_json req)) = Some (Some answer, sv') /\
    (exists m', CallFunc m req answer cost = Ret m' /\ calling m' = Free /\ loop m' = Receiving /\ inbox m' = [] /\ table m' = ∅ /\
       results m' = results m ++ [(rq_RequestId req, inr (with_cost resp cost))]) /\
    exists m', call_run m [ECall req true; EArrive answer; EReceive; EStore] = Ret m' /\
      calling m' = Waiting (rq_RequestId req) /\ inbox m' = [] /\ forall c, call_step m' (ETake c) = Fail tt.
Proof.
  intros Ha Hc Hl Hi Ht Hcl Hh. pose proof (handleFuncCall_shape _ _ _ _ _ _ _ Hh) as (Hid & Hcode & Hcost & Hd).
  pose proof (decode_response_json resp Hd ltac:(lia) ltac:(lia)) as Hdec.
  pose proof (fun m => receive_answer m _ resp Hdec) as Hrec.
  exists (MessageTypeFuncCall :: string_bytes (Marshal (response_json resp))). split_and!.
  - unfold HandleFuncCallEvent. rewrite decode_request_json by done. by rewrite Hh.
  - by apply answer_in_time.
  - by apply (answer_too_early m req _ resp).
Qed.
End Server.

Definition sample_call_server : Server :=
  MkServer {[1%nat := SetNetwork (newServerSession "tcp-1") 0]}
    {[0%nat := MkNetwork "home" "10.1.0.0/16" 1400 ∅ NewRouter (IPPool.MkIPAllocator "" [] [] ∅ "" 0 0)]} ∅ ∅ 3.
Definition sample_manager : CallManager := MkCallManager ∅ ∅ Free Receiving false false [] [] [] [].

Lemma calls_answered_witness :
  exists answer m', CallFunc sample_manager (MkRequest "7" FuncNamePing None) answer 2 = Ret m' /\
    results m' = [("7"%string, inr (MkResponse "7" 0 (JStr ",3") "" 2))].
Proof.
  destruct (handleFuncCall (fun s => s) JNull server_functions 0 sample_call_server 1 (MkRequest "7" FuncNamePing None)) as [[resp sv']|] eqn:E;
    [|vm_compute in E; discriminate E].
  destruct (calls_answered (fun s => s) JNull server_functions 0 sample_call_server 1 (MkRequest "7" FuncNamePing None) resp sv' sample_manager 2)
    as (answer & _ & (m' & Hm & _ & _ & _ & _ & Hr) & _); [exact I|reflexivity..|exact E|].
  exists answer, m'. split; [exact Hm|]. rewrite Hr. vm_compute in E. injection E as <- _. vm_compute. reflexivity.
Defined.
