(* ===== verification/SyncRouter.v ===== *)
(** * Keeping a client's routes in step with the server (vnet/client/sync_router.go)

    Answers of the server are arguments ([None]: the call failed). Go iterates
    over maps in any order: [order] is the order of an iteration. Destinations
    and p2p connections are numbers; peer information is parsed by libp2p
    ([parse_peer], the id of the peer). The outer [None] is a panic. *)

From S2P Require Import Prelude GoNet GoText Router Hub.

#[local] Open Scope string_scope.
#[local] Open Scope Z_scope.

(** What a key of [connections] is: entries are stored under the destination
    and looked up under its address. *)
Inductive conn_key := KeyDestination (d : Z) | KeyAddress (ip : string).
#[global] Instance conn_key_eq_dec : EqDecision conn_key.
Proof. solve_decision. Defined.
#[global] Instance conn_key_countable : Countable conn_key.
Proof.
  apply (inj_countable' (fun k => match k with KeyDestination d => inl d | KeyAddress ip => inr ip end)
    (fun x => match x with inl d => KeyDestination d | inr ip => KeyAddress ip end)). by intros [].
Defined.

(** A destination of the hub: its address, and whether it was closed. *)
Record dest := MkDest { d_ip : string; d_closed : bool }.

Record Client := MkClient {
  c_router : Router (option Z); c_dests : gmap Z dest; c_next : Z; c_IP : string;
  c_closeDst : list string; (* addresses handed to the internal client's [CloseDst] *)
  c_P2P : bool; c_host : option string;
  c_peerMapping : gmap string string; c_peerMappingVersion : Z;
  c_connections : gmap conn_key nat; c_cancelled : list nat }.

Definition set_router (c : Client) (r : Router (option Z)) : Client :=
  MkClient r (c_dests c) (c_next c) (c_IP c) (c_closeDst c) (c_P2P c) (c_host c) (c_peerMapping c)
    (c_peerMappingVersion c) (c_connections c) (c_cancelled c).
Definition set_dests (c : Client) (m : gmap Z dest) (next : Z) : Client :=
  MkClient (c_router c) m next (c_IP c) (c_closeDst c) (c_P2P c) (c_host c) (c_peerMapping c)
    (c_peerMappingVersion c) (c_connections c) (c_cancelled c).
Definition add_closeDst (c : Client) (ip : string) : Client :=
  MkClient (c_router c) (c_dests c) (c_next c) (c_IP c) (c_closeDst c ++ [ip])%list (c_P2P c) (c_host c) (c_peerMapping c)
    (c_peerMappingVersion c) (c_connections c) (c_cancelled c).
Definition set_peers (c : Client) (m : gmap string string) (cancelled : list nat) : Client :=
  MkClient (c_router c) (c_dests c) (c_next c) (c_IP c) (c_closeDst c) (c_P2P c) (c_host c) m
    (c_peerMappingVersion c) (c_connections c) cancelled.
Definition set_version (c : Client) (v : Z) : Client :=
  MkClient (c_router c) (c_dests c) (c_next c) (c_IP c) (c_closeDst c) (c_P2P c) (c_host c) (c_peerMapping c)
    v (c_connections c) (c_cancelled c).

(** [Close] of a destination: closing it twice panics. *)
Definition close_dest (c : Client) (d : Z) : option Client :=
  x ← c_dests c !! d;
  if d_closed x then None else Some (set_dests c (<[d := MkDest (d_ip x) true]> (c_dests c)) (c_next c)).

Inductive sync_error := CallError | Base64Error | JsonError.

(** [json.Unmarshal] into a slice of strings. *)
Fixpoint json_strings (l : list json) : option (list string) :=
  match l with
  | [] => Some []
  | JStr s :: l' => r ← json_strings l'; Some (s :: r)
  | JNull :: l' => r ← json_strings l'; Some ("" :: r)
  | _ => None
  end.
Definition decode_strings (text : string) : option (list string) :=
  v ← Unmarshal text;
  match v with JArr l => json_strings l | JNull => Some [] | _ => None end.

(** [json.Unmarshal] into a map of strings; a later member overwrites. *)
Definition decode_map (text : string) : option (gmap string string) :=
  v ← Unmarshal text;
  match v with
  | JObj l => foldl (fun m e => m ← m; match (e : string * json).2 with
                     | JStr s => Some (<[e.1 := s]> m) | JNull => Some (<[e.1 := ""]> m) | _ => None end) (Some ∅) l
  | JNull => Some ∅
  | _ => None
  end.

Section Sync.
Context (order : list string -> list string).

(** ** Routes *)

(** A route of the client that the server does not have. *)
Definition remove_route (c : Client) (cidr : string) : option Client :=
  let ip := split_head "/" cidr in
  v ← RouteString (c_router c) ip;
  c ← (match v with Some _ => r ← UnRegister (c_router c) cidr; Some (set_router c r) | None => Some c end);
  c ← (match v with Some (Some d) => close_dest c d | _ => Some c end);
  Some (add_closeDst c ip).

(** A route of the server that the client does not have. *)
Definition add_route (c : Client) (ip : string) : option Client :=
  if has_prefix ip (c_IP c) then r ← Register (c_router c) ip None; Some (set_router c r)
  else
    let d := c_next c in
    r ← Register (c_router c) ip (Some d);
    Some (set_dests (set_router c r) (<[d := MkDest (split_head "/" ip) false]> (c_dests c)) (d + 1)).

Definition for_each (f : Client -> string -> option Client) (c : Client) (l : list string) : option Client :=
  foldl (fun c x => c ← c; f c x) (Some c) l.

Definition updateRouter (data : option json) (c : Client) : option (option sync_error * Client) :=
  match data with
  | None => Some (Some CallError, c)
  | Some (JStr d) =>
      if String.eqb d "" then Some (None, c)
      else
        match b64_decode true d with
        | None => Some (Some Base64Error, c)
        | Some bs =>
            match decode_strings (bytes_string bs) with
            | None => Some (Some JsonError, c)
            | Some ips =>
                let mip : gset string := list_to_set ips in
                let cip : gset string := list_to_set (Keys (c_router c)) in
                c ← for_each remove_route c (order (elements (cip ∖ mip)));
                c ← for_each add_route c (order (elements (mip ∖ cip)));
                Some (None, c)
            end
        end
  | Some _ => Some (None, c)
  end.

(** ** Peers *)

Context (parse_peer : string -> option string).

(** One entry of the server's mapping. The host is asked for its id only when
    the address is known already. *)
Definition upsert_peer (mapping : gmap string string) (c : Client) (k : string) : option Client :=
  if String.eqb k (c_IP c) then Some c
  else
    v ← mapping !! k;
    match parse_peer v with
    | None => Some c
    | Some pi =>
        match c_peerMapping c !! k with
        | Some curr =>
            host ← c_host c;
            if String.eqb curr host || String.eqb curr pi then Some c
            else Some (set_peers c (<[k := pi]> (c_peerMapping c)) (c_cancelled c))
        | None => Some (set_peers c (<[k := pi]> (c_peerMapping c)) (c_cancelled c))
        end
    end.

Definition drop_peer (mapping : gmap string string) (c : Client) (k : string) : option Client :=
  match mapping !! k with
  | Some _ => Some c
  | None =>
      Some (set_peers c (delete k (c_peerMapping c))
              (c_cancelled c ++ option_list (c_connections c !! KeyAddress k))%list)
  end.

(** The error returned is that of the last entry that was parsed. *)
Definition syncP2PPeerMapping (data : option json) (c : Client) : option (option sync_error * Client) :=
  match data with
  | None => Some (Some CallError, c)
  | Some (JStr d) =>
      if String.eqb d "" then Some (None, c)
      else
        match b64_decode true d with
        | None => Some (Some Base64Error, c)
        | Some bs =>
            match decode_map (bytes_string bs) with
            | None => Some (Some JsonError, c)
            | Some mapping =>
                let keys := order (elements (dom mapping)) in
                let err :=
                  k ← last (filter (fun k => String.eqb k (c_IP c) = false) keys);
                  match v ← mapping !! k; parse_peer v with Some _ => None | None => Some JsonError end in
                c ← for_each (upsert_peer mapping) c keys;
                c ← for_each (drop_peer mapping) c (order (elements (dom (c_peerMapping c))));
                Some (err, c)
            end
        end
  | Some _ => Some (None, c)
  end.

(** ** One synchronisation *)

(** [strconv.Atoi] with its error ignored: 0 for a syntax error, the nearest
    integer when it is out of range. *)
Definition Atoi (s : string) : Z :=
  let '(neg, t) :=
    match s with
    | String c s' => if Ascii.eqb c "-"%char then (true, s') else if Ascii.eqb c "+"%char then (false, s') else (false, s)
    | EmptyString => (false, s)
    end in
  if string_all is_digit t && negb (String.eqb t "") then
    let n := fst (read_digits t 0) in
    if (neg : bool) then Z.max (- n) (- 2 ^ 63) else Z.min n (2 ^ 63 - 1)
  else 0.

(** The answers to the ping, to the request of the routes and to that of the
    peers; a failed update is logged only. *)
Definition syncRouter (md5_hex : string -> string) (ping routes peers : option json) (c : Client)
    : option (option sync_error * Client) :=
  match ping with
  | None => Some (Some CallError, c)
  | Some (JStr answer) =>
      let data := split_all "," answer in
      remote ← data !! 0%nat;
      version ← data !! 1%nat;
      let latestVer := u64 (Atoi version) in
      '(_, c) ← (if String.eqb remote (MD5 md5_hex (c_router c)) then Some (None, c) else updateRouter routes c);
      let currentVer := c_peerMappingVersion c in
      if negb (currentVer =? latestVer) && c_P2P c then
        '(_, c) ← syncP2PPeerMapping peers c;
        Some (None, set_version c latestVer)
      else Some (None, c)
  | Some _ => None
  end.
End Sync.

(** ** The loop and reconnecting *)

Definition MaxErrorToReconnect : Z := 3.
Definition MaxReconnectInterval : Z := 30.

(** The ticks of [syncRouterLoop]: whether each synchronisation fails. The
    result is the number of ticks after which the client reconnects. *)
Fixpoint syncRouterLoop (errCount : Z) (failures : list bool) : option nat :=
  match failures with
  | [] => None
  | true :: l => if MaxErrorToReconnect <=? errCount + 1 then Some 1%nat else S <$> syncRouterLoop (errCount + 1) l
  | false :: l => S <$> syncRouterLoop 0 l
  end.

(** [fib] of [reconnectLoop], with integers of 64 bits. *)
Fixpoint fib_loop (k : nat) (a b : Z) : Z :=
  match k with O => b | S k' => fib_loop k' b (i64 (a + b)) end.
Definition fib (n : Z) : Z := if n <=? 0 then 1 else fib_loop (Z.to_nat (n - 1)) 1 1.

(** Seconds before attempt number [tries + 1]. *)
Definition reconnect_interval (tries : nat) : Z :=
  match tries with
  | O => 1
  | S _ => let interval := fib (Z.of_nat tries + 1) in
           if MaxReconnectInterval <? interval then MaxReconnectInterval else interval
  end.
