(* ===== verification/SyncProps.v ===== *)
(** * The client ends up with the server's routes *)

From stdpp Require Import sorting.
From S2P Require Import Prelude GoNet GoText Router RouterSpec RouterKeys RouterProps IPPool IPPoolProps HostRoutes.
From S2P Require Import QuotaCounter GoFloat SmoothLimiter Metrics Server Functions FunctionsProps Hub SyncRouter.

(** ** The client's routes as a map of addresses *)

(** [T] maps the addresses that are routed to their values; a destination that
    is in use is open and has the address. *)
Record client_rep (c : Client) (T : gmap Z (option Z)) : Prop := {
  cr_range a : is_Some (T !! a) -> 0 <= a < 2 ^ 32;
  cr_table : exists t, represents (c_router c) t /\ t_v6 t = ∅ /\
    forall k v, t_v4 t !! k = Some v <-> exists a, T !! a = Some v /\ k = addr_bits a;
  cr_dest a d : T !! a = Some (Some d) -> c_dests c !! d = Some (MkDest (addr_text a) false);
  cr_next d : is_Some (c_dests c !! d) -> d < c_next c }.

Lemma rep_hosts (t : Tables (option Z)) (T : gmap Z (option Z)) :
  (forall a, is_Some (T !! a) -> 0 <= a < 2 ^ 32) -> t_v6 t = ∅ ->
  (forall k v, t_v4 t !! k = Some v <-> exists a, T !! a = Some v /\ k = addr_bits a) -> hosts_only t.
Proof.
  intros Hr Hv6 Ht. split; [done|]. intros k [v Hk]. apply Ht in Hk as (a & Ha & ->). exists a. split; [|done].
  apply Hr. by eexists.
Qed.

Lemma rep_entry (T : gmap Z (option Z)) (m : gmap (list bool) (option Z)) a :
  (forall a, is_Some (T !! a) -> 0 <= a < 2 ^ 32) -> 0 <= a < 2 ^ 32 ->
  (forall k v, m !! k = Some v <-> exists a, T !! a = Some v /\ k = addr_bits a) -> m !! addr_bits a = T !! a.
Proof.
  intros Hr Ha Hm. destruct (T !! a) as [v|] eqn:Hv; [apply Hm; eauto|].
  destruct (m !! addr_bits a) as [v|] eqn:Hk; [|done]. apply Hm in Hk as (b & Hb & Heq).
  assert (0 <= b < 2 ^ 32) by (apply Hr; by eexists). apply addr_bits_inj in Heq; [congruence|done..].
Qed.

Lemma rep_lookup c T a : client_rep c T -> 0 <= a < 2 ^ 32 -> RouteString (c_router c) (addr_text a) = Some (T !! a).
Proof.
  intros [Hr (t & Hrep & Hv6 & Ht) _ _] Ha. rewrite (host_lookup _ t a Hrep).
  - by rewrite (rep_entry T).
  - intros k v (b & _ & ->)%Ht. apply length_addr_bits.
Qed.

Lemma rep_keys c T s : client_rep c T -> s ∈ Keys (c_router c) <-> exists a, is_Some (T !! a) /\ s = host_text a.
Proof.
  intros [Hr (t & Hrep & Hv6 & Ht) _ _]. rewrite (Keys_hosts _ t); [|done|by eapply rep_hosts]. split.
  - intros (a & Ha & Hk & ->). exists a. split; [|done]. by rewrite <- (rep_entry T (t_v4 t)).
  - intros (a & Ha & ->). exists a. split; [by apply Hr|]. split; [|done]. rewrite (rep_entry T); auto.
Qed.

(** ** Single routes *)

Lemma table_delete (T : gmap Z (option Z)) (m : gmap (list bool) (option Z)) a :
  (forall a, is_Some (T !! a) -> 0 <= a < 2 ^ 32) -> 0 <= a < 2 ^ 32 ->
  (forall k v, m !! k = Some v <-> exists a, T !! a = Some v /\ k = addr_bits a) ->
  forall k v, delete (addr_bits a) m !! k = Some v <-> exists b, delete a T !! b = Some v /\ k = addr_bits b.
Proof.
  intros Hr Ha Hm k v. rewrite lookup_delete_Some, Hm. split.
  - intros (Hne & b & Hb & ->). exists b. split; [|done]. apply lookup_delete_Some. split; [congruence|done].
  - intros (b & (Hne & Hb)%lookup_delete_Some & ->). split; [|eauto]. intros E. apply addr_bits_inj in E; [done..|].
    apply Hr. by eexists.
Qed.

Lemma table_insert (T : gmap Z (option Z)) (m : gmap (list bool) (option Z)) a x :
  (forall a, is_Some (T !! a) -> 0 <= a < 2 ^ 32) -> 0 <= a < 2 ^ 32 ->
  (forall k v, m !! k = Some v <-> exists a, T !! a = Some v /\ k = addr_bits a) ->
  forall k v, <[addr_bits a := x]> m !! k = Some v <-> exists b, <[a := x]> T !! b = Some v /\ k = addr_bits b.
Proof.
  intros Hr Ha Hm k v. destruct (decide (k = addr_bits a)) as [->|Hne].
  - rewrite lookup_insert_eq. split; [intros [= ->]; exists a; by rewrite lookup_insert_eq|].
    intros (b & Hb & E). destruct (decide (a = b)) as [->|Hab]; [by rewrite lookup_insert_eq in Hb|].
    rewrite lookup_insert_ne in Hb by done. apply addr_bits_inj in E; [done..|]. apply Hr. by eexists.
  - rewrite lookup_insert_ne by done. rewrite Hm. split; intros (b & Hb & ->); exists b; (split; [|done]).
    + rewrite lookup_insert_ne; [done|congruence].
    + by rewrite lookup_insert_ne in Hb by congruence.
Qed.

(** The destination of a route that goes away is closed. *)
Definition closing (v : option Z) (a : Z) (m : gmap Z dest) : gmap Z dest :=
  match v with Some d => <[d := MkDest (addr_text a) true]> m | None => m end.

Lemma remove_route_ok c T a v :
  client_rep c T -> T !! a = Some v ->
  exists c', remove_route c (host_text a) = Some c' /\ client_rep c' (delete a T) /\
    c_dests c' = closing v a (c_dests c) /\ c_next c' = c_next c /\ c_IP c' = c_IP c.
Proof.
  intros Hc Hv. pose proof Hc as [Hr (t & Hrep & Hv6 & Ht) Hd Hn]. assert (0 <= a < 2 ^ 32) as Ha by (apply Hr; by eexists).
  unfold remove_route. rewrite host_text_split, (rep_lookup c T) by done. cbn [mbind option_bind]. rewrite Hv.
  destruct (host_key a) as [Hk Hm].
  destruct (run_op_spec (c_router c) t (OpUnRegister (host_text a)) Hrep Hm) as (r & Hun & Hrep'). cbn [run_op] in Hun.
  rewrite Hun. cbn [mbind option_bind spec_op] in *. unfold spec_unregister in Hrep'. fold (host_text a) in Hk. rewrite Hk in Hrep'.
  assert (forall m, (forall b d, delete a T !! b = Some (Some d) -> m !! d = Some (MkDest (addr_text b) false)) ->
    (forall d, is_Some (m !! d) -> d < c_next c) ->
    client_rep (add_closeDst (set_dests (set_router c r) m (c_next c)) (addr_text a)) (delete a T)) as Hrest.
  { intros m H1 H2. split; [|eexists; split; [exact Hrep'|]; split; [done|]; by apply table_delete|done|done].
    intros b [x (_ & Hb)%lookup_delete_Some]. apply Hr. by eexists. }
  destruct v as [d|]; cbn [mbind option_bind].
  - unfold close_dest. cbn [c_dests set_router]. rewrite (Hd a d Hv). cbn [mbind option_bind d_closed d_ip].
    eexists. split; [reflexivity|]. split; [|done]. apply Hrest.
    + intros b d' (Hne & Hb)%lookup_delete_Some. apply Hd in Hb as Hb'. rewrite lookup_insert_ne; [done|].
      intros <-. rewrite (Hd a d Hv) in Hb'. injection Hb' as E. apply Hne. apply addr_text_inj; [done|apply Hr; by eexists|done].
    + intros d' Hd'. destruct (decide (d' = d)) as [->|]; [apply Hn; rewrite (Hd a d Hv); by eexists|].
      rewrite lookup_insert_ne in Hd' by done. by apply Hn.
  - eexists. split; [reflexivity|]. split; [|done]. apply (Hrest (c_dests c)); [|done].
    intros b d (_ & Hb)%lookup_delete_Some. by apply Hd.
Qed.

(** What a new route of the client leads to: nothing for an address that
    begins like its own, otherwise a new destination. *)
Definition new_value (c : Client) (a : Z) : option Z := if has_prefix (host_text a) (c_IP c) then None else Some (c_next c).

Lemma add_route_ok c T a :
  client_rep c T -> T !! a = None -> 0 <= a < 2 ^ 32 ->
  exists c', add_route c (host_text a) = Some c' /\ client_rep c' (<[a := new_value c a]> T) /\ c_IP c' = c_IP c /\
    c_next c <= c_next c' /\ forall d x, c_dests c !! d = Some x -> c_dests c' !! d = Some x.
Proof.
  intros Hc Hv Ha. pose proof Hc as [Hr (t & Hrep & Hv6 & Ht) Hd Hn]. unfold add_route, new_value.
  destruct (host_key a) as [Hk Hm]. fold (host_text a) in Hk.
  assert (forall b, is_Some (<[a := new_value c a]> T !! b) -> 0 <= b < 2 ^ 32) as Hrange.
  { intros b. destruct (decide (a = b)) as [->|]; [done|]. rewrite lookup_insert_ne by done. apply Hr. }
  assert (forall v, exists r, Register (c_router c) (host_text a) v = Some r /\
    represents r (MkTables (<[addr_bits a := v]> (t_v4 t)) (t_v6 t))) as Hreg.
  { intros v. destruct (run_op_spec (c_router c) t (OpRegister (host_text a) v) Hrep Hm) as (r & Hreg & Hrep').
    exists r. split; [done|]. cbn [spec_op] in Hrep'. unfold spec_register in Hrep'. by rewrite Hk in Hrep'. }
  destruct (has_prefix (host_text a) (c_IP c)) eqn:Hown.
  - destruct (Hreg None) as (r & -> & Hrep'). cbn [mbind option_bind]. eexists. split; [reflexivity|]. split; [|done].
    split; [|eexists; split; [exact Hrep'|]; split; [done|]; by apply table_insert| |done].
    + intros b Hb. apply Hrange. unfold new_value. by rewrite Hown.
    + intros b d Hb. destruct (decide (a = b)) as [->|]; [by rewrite lookup_insert_eq in Hb|].
      rewrite lookup_insert_ne in Hb by done. by apply Hd.
  - destruct (Hreg (Some (c_next c))) as (r & -> & Hrep'). cbn [mbind option_bind]. rewrite host_text_split.
    assert (forall d x, c_dests c !! d = Some x -> d <> c_next c) as Hfresh.
    { intros d x Hx ->. assert (c_next c < c_next c) by (apply Hn; by eexists). lia. }
    eexists. split; [reflexivity|]. split; [|split; [done|]; split; [cbn; lia|]; cbn].
    + split; [|eexists; split; [exact Hrep'|]; split; [done|]; by apply table_insert| |].
      * intros b Hb. apply Hrange. unfold new_value. by rewrite Hown.
      * intros b d Hb. cbn. destruct (decide (a = b)) as [->|].
        -- rewrite lookup_insert_eq in Hb. injection Hb as <-. by rewrite lookup_insert_eq.
        -- rewrite lookup_insert_ne in Hb by done. apply Hd in Hb as Hb'.
           rewrite lookup_insert_ne; [done|]. intros E. by apply (Hfresh d _ Hb').
      * intros d. cbn. destruct (decide (d = c_next c)) as [->|]; [lia|]. rewrite lookup_insert_ne by done.
        intros Hx%Hn. lia.
    + intros d x Hx. rewrite lookup_insert_ne; [done|]. intros E. by apply (Hfresh d x Hx).
Qed.

(** ** All of them *)

Lemma host_texts (P : Z -> Prop) l :
  NoDup l -> (forall s, s ∈ l -> exists a, P a /\ s = host_text a) ->
  exists al, l = host_text <$> al /\ NoDup al /\ Forall P al.
Proof.
  induction 1 as [|s l Hs Hnd IH]; intros H; [exists []; split; [done|]; split; constructor|].
  destruct IH as (al & -> & Hnd' & Hal); [intros x Hx; apply H; set_solver|].
  destruct (H s) as (a & Ha & ->); [set_solver|]. exists (a :: al). split; [done|]. split; [|by constructor].
  constructor; [|done]. intros Hin. apply Hs. by apply list_elem_of_fmap_2.
Qed.

Lemma remove_all_ok al : forall c T,
  client_rep c T -> NoDup al -> Forall (fun a => is_Some (T !! a)) al ->
  exists c' T', for_each remove_route c (host_text <$> al) = Some c' /\ client_rep c' T' /\ c_IP c' = c_IP c /\
    (forall a, T' !! a = if bool_decide (a ∈ al) then None else T !! a) /\
    (forall a d, a ∈ al -> T !! a = Some (Some d) -> c_dests c' !! d = Some (MkDest (addr_text a) true)) /\
    (forall d x, c_dests c !! d = Some x -> d_closed x = true -> c_dests c' !! d = Some x).
Proof.
  induction al as [|a al IH]; intros c T Hc Hnd Hall.
  { exists c, T. split_and!; try done; intros; set_solver. }
  apply NoDup_cons in Hnd as [Hnin Hnd]. apply Forall_cons in Hall as [[v Hv] Hall].
  destruct (remove_route_ok c T a v Hc Hv) as (c1 & Heq & Hc1 & Hd1 & Hn1 & HIP1).
  destruct (IH c1 (delete a T) Hc1 Hnd) as (c2 & T2 & Hrun & Hc2 & HIP2 & HT2 & Hcl2 & Hk2).
  { rewrite Forall_forall in *. intros b Hb. rewrite lookup_delete_ne by (intros ->; done). by apply Hall. }
  assert (forall d x, c_dests c !! d = Some x -> d_closed x = true -> c_dests c1 !! d = Some x) as Hk1.
  { intros d x Hx Hcl. rewrite Hd1. destruct v as [dv|]; [|done]. cbn [closing]. rewrite lookup_insert_ne; [done|].
    intros ->. rewrite (cr_dest _ _ Hc a d Hv) in Hx. by injection Hx as <-. }
  exists c2, T2. unfold for_each. cbn [fmap list_fmap foldl mbind option_bind]. rewrite Heq. split; [done|].
  split; [done|]. split; [congruence|]. split; [|split].
  - intros b. rewrite HT2. destruct (decide (a = b)) as [->|Hne].
    + rewrite lookup_delete_eq. rewrite (bool_decide_eq_true_2 (b ∈ b :: al)) by set_solver. by case_bool_decide.
    + rewrite lookup_delete_ne by done. repeat case_bool_decide; try done; set_solver.
  - intros b d [->|Hb]%elem_of_cons Hbd.
    + apply Hk2; [|done]. rewrite Hd1. assert (v = Some d) as -> by congruence. cbn. by rewrite lookup_insert_eq.
    + apply Hcl2; [done|]. rewrite lookup_delete_ne; [done|]. by intros ->.
  - intros d x Hx Hcl. apply Hk2; auto.
Qed.

Lemma add_all_ok al : forall c T,
  client_rep c T -> NoDup al -> Forall (fun a => 0 <= a < 2 ^ 32 /\ T !! a = None) al ->
  exists c' T', for_each add_route c (host_text <$> al) = Some c' /\ client_rep c' T' /\ c_IP c' = c_IP c /\
    (forall a, a ∉ al -> T' !! a = T !! a) /\
    (forall a, a ∈ al -> exists v, T' !! a = Some v /\ (v = None <-> has_prefix (host_text a) (c_IP c) = true)) /\
    (forall d x, c_dests c !! d = Some x -> c_dests c' !! d = Some x).
Proof.
  induction al as [|a al IH]; intros c T Hc Hnd Hall.
  { exists c, T. split_and!; try done; intros; set_solver. }
  apply NoDup_cons in Hnd as [Hnin Hnd]. apply Forall_cons in Hall as [[Ha Hv] Hall].
  destruct (add_route_ok c T a Hc Hv Ha) as (c1 & Heq & Hc1 & HIP1 & _ & Hd1).
  destruct (IH c1 (<[a := new_value c a]> T) Hc1 Hnd) as (c2 & T2 & Hrun & Hc2 & HIP2 & HT2 & Hnew2 & Hd2).
  { rewrite Forall_forall in *. intros b Hb. rewrite lookup_insert_ne by (intros ->; done). by apply Hall. }
  exists c2, T2. unfold for_each. cbn [fmap list_fmap foldl mbind option_bind]. rewrite Heq. split; [done|].
  split; [done|]. split; [congruence|]. split; [|split; [|auto]].
  - intros b Hb. rewrite HT2 by set_solver. rewrite lookup_insert_ne; [done|set_solver].
  - intros b [->|Hb]%elem_of_cons; [|rewrite <- HIP1; by apply Hnew2].
    exists (new_value c a). rewrite HT2, lookup_insert_eq by done. split; [done|]. unfold new_value. by case_match.
Qed.

(** ** The answer of the server *)

Lemma json_strings_all l : json_strings (JStr <$> l) = Some l.
Proof. induction l as [|s l IH]; [done|]. rewrite fmap_cons. cbn [json_strings]. by rewrite IH. Qed.

Lemma nums_strings l : nums_ok (JArr (JStr <$> l)).
Proof. by induction l. Qed.

Definition routes_json (ips : list string) : json := if bool_decide (ips = []) then JNull else JArr (JStr <$> ips).

Lemma base64_json_decode v :
  exists d, base64_json v = JStr d /\ b64_decode true d = Some (string_bytes (Marshal v)).
Proof. eexists. split; [reflexivity|]. apply b64_roundtrip, string_bytes_ok. Qed.

Lemma routes_text ips :
  exists d, base64_json (routes_json ips) = JStr d /\ String.eqb d "" = false /\
    b64_decode true d = Some (string_bytes (Marshal (routes_json ips))) /\
    decode_strings (bytes_string (string_bytes (Marshal (routes_json ips)))) = Some ips.
Proof.
  assert (nums_ok (routes_json ips)) as Hnum by (unfold routes_json; case_bool_decide; [done|apply nums_strings]).
  destruct (base64_json_decode (routes_json ips)) as (d & Hd & Hdec). exists d. split; [done|]. split_and!; [|done|].
  - apply String.eqb_neq. intros ->. cbn in Hdec. injection Hdec as Hdec.
    destruct (Marshal_head _ Hnum) as (c & t & Heq & _). by rewrite Heq in Hdec.
  - rewrite bytes_string_bytes. unfold decode_strings. rewrite Unmarshal_Marshal by done. cbn [mbind option_bind].
    unfold routes_json. case_bool_decide; [by subst|]. apply json_strings_all.
Qed.

(** The addresses that [updateRouter] removes and adds, in the order of its
    iterations. *)
Section Update.
Context (order : list string -> list string) (Horder : forall l, order l ≡ₚ l).
Context (c : Client) (T : gmap Z (option Z)) (Hc : client_rep c T).
Context (ips : list string) (B : Z -> Prop) (HB : forall a, B a -> 0 <= a < 2 ^ 32).
Context (Hips : forall s, s ∈ ips <-> exists a, B a /\ s = host_text a).

Let cip : gset string := list_to_set (Keys (c_router c)).
Let mip : gset string := list_to_set ips.

Lemma cip_elem a : 0 <= a < 2 ^ 32 -> host_text a ∈ cip <-> is_Some (T !! a).
Proof using Hc.
  intros Ha. unfold cip. rewrite elem_of_list_to_set, (rep_keys c T) by done. split; [|eauto].
  intros (b & Hb & E). apply host_text_inj in E; [by subst|done|by apply (cr_range _ _ Hc)].
Qed.

Lemma mip_elem a : 0 <= a < 2 ^ 32 -> host_text a ∈ mip <-> B a.
Proof using HB Hips.
  intros Ha. unfold mip. rewrite elem_of_list_to_set, Hips. split; [|eauto].
  intros (b & Hb & E). apply host_text_inj in E; [by subst|done|by apply HB].
Qed.

Lemma B_dec a : 0 <= a < 2 ^ 32 -> B a \/ ~ B a.
Proof using HB Hips. intros Ha. rewrite <- mip_elem by done. destruct (decide (host_text a ∈ mip)); tauto. Qed.

Lemma removed_list : exists rl, order (elements (cip ∖ mip)) = host_text <$> rl /\ NoDup rl /\
  forall a, a ∈ rl <-> is_Some (T !! a) /\ ~ B a.
Proof using Horder Hc HB Hips.
  destruct (host_texts (fun a => is_Some (T !! a) /\ ~ B a) (order (elements (cip ∖ mip)))) as (rl & Hrl & Hnd & Hall).
  - rewrite Horder. apply NoDup_elements.
  - intros s. rewrite Horder, elem_of_elements, elem_of_difference. intros [Hs Hn]. unfold cip in Hs.
    rewrite elem_of_list_to_set, (rep_keys c T) in Hs by done. destruct Hs as (a & Ha & ->). exists a. split; [|done].
    split; [done|]. by rewrite <- mip_elem by (by apply (cr_range _ _ Hc)).
  - exists rl. split; [done|]. split; [done|]. rewrite Forall_forall in Hall. intros a. split; [apply Hall|].
    intros [Ha Hb]. pose proof (cr_range _ _ Hc a Ha) as Hr. assert (host_text a ∈ host_text <$> rl) as H.
    { rewrite <- Hrl, Horder, elem_of_elements, elem_of_difference, cip_elem, mip_elem by done. done. }
    apply list_elem_of_fmap in H as (b & E & Hin). apply host_text_inj in E; [by subst|done|].
    apply (cr_range _ _ Hc). by apply Hall.
Qed.

Lemma added_list : exists al, order (elements (mip ∖ cip)) = host_text <$> al /\ NoDup al /\
  forall a, a ∈ al <-> T !! a = None /\ B a.
Proof using Horder Hc HB Hips.
  destruct (host_texts (fun a => T !! a = None /\ B a) (order (elements (mip ∖ cip)))) as (al & Hal & Hnd & Hall).
  - rewrite Horder. apply NoDup_elements.
  - intros s. rewrite Horder, elem_of_elements, elem_of_difference. intros [Hs Hn]. unfold mip in Hs.
    rewrite elem_of_list_to_set, Hips in Hs. destruct Hs as (a & Ha & ->). exists a. split; [|done]. split; [|done].
    apply eq_None_not_Some. by rewrite <- cip_elem by (by apply HB).
  - exists al. split; [done|]. split; [done|]. rewrite Forall_forall in Hall. intros a. split; [apply Hall|].
    intros [Ha Hb]. pose proof (HB a Hb) as Hr. assert (host_text a ∈ host_text <$> al) as H.
    { rewrite <- Hal, Horder, elem_of_elements, elem_of_difference, cip_elem, mip_elem by done.
      split; [done|]. rewrite Ha. by intros [? ?]. }
    apply list_elem_of_fmap in H as (b & E & Hin). apply host_text_inj in E; [by subst|done|]. apply HB. by apply Hall.
Qed.

Lemma updateRouter_ok d bs :
  String.eqb d "" = false -> b64_decode true d = Some bs -> decode_strings (bytes_string bs) = Some ips ->
  exists c' T', updateRouter order (Some (JStr d)) c = Some (None, c') /\ client_rep c' T' /\
    (forall a, is_Some (T' !! a) <-> B a) /\ (forall a v, T !! a = Some v -> B a -> T' !! a = Some v) /\
    (forall a v, T !! a = None -> T' !! a = Some v -> v = None <-> has_prefix (host_text a) (c_IP c) = true) /\
    (forall a d, T !! a = Some (Some d) -> ~ B a -> c_dests c' !! d = Some (MkDest (addr_text a) true)).
Proof using Horder Hc HB Hips.
  intros Hd Hbs Hdec. unfold updateRouter. rewrite Hd, Hbs, Hdec. fold cip mip.
  destruct removed_list as (rl & -> & Hrnd & Hrl). destruct added_list as (al & -> & Hand & Hal).
  destruct (remove_all_ok rl c T Hc Hrnd) as (c1 & T1 & -> & Hc1 & HIP1 & HT1 & Hcl1 & _).
  { apply Forall_forall. by intros a [Ha _]%Hrl. }
  destruct (add_all_ok al c1 T1 Hc1 Hand) as (c2 & T2 & Hrun2 & Hc2 & HIP2 & HT2 & Hnew2 & Hd2).
  { apply Forall_forall. intros a [Ha Hb]%Hal. split; [by apply HB|]. rewrite HT1, Ha. by case_bool_decide. }
  cbn [mbind option_bind]. rewrite Hrun2. cbn [mbind option_bind]. exists c2, T2. split; [done|]. split; [done|].
  assert (forall a v, T !! a = Some v -> B a -> T2 !! a = Some v) as Hkeep.
  { intros a v Ha Hb. rewrite HT2, HT1, bool_decide_eq_false_2; [done| |]; [by intros [_ ?]%Hrl|intros [? _]%Hal; congruence]. }
  assert (forall a v, T2 !! a = Some v -> a ∉ al -> T !! a = Some v /\ a ∉ rl) as Hold.
  { intros a v Hv Hn. rewrite HT2, HT1 in Hv by done. by case_bool_decide. }
  split_and!; [|done| |].
  - intros a. split.
    + intros [v Hv]. destruct (decide (a ∈ al)) as [[_ H]%Hal|H]; [done|]. destruct (Hold a v Hv H) as [Ha Hr].
      destruct (B_dec a) as [|Hb]; [apply (cr_range _ _ Hc); by eexists|done|].
      destruct Hr. apply Hrl. split; [by eexists|done].
    + intros Hb. destruct (T !! a) as [v|] eqn:Hv; [rewrite (Hkeep a v Hv Hb); by eexists|].
      destruct (Hnew2 a) as (v & Hv' & _); [by apply Hal|by exists v].
  - intros a v Ha Hv. destruct (decide (a ∈ al)) as [H|H].
    + destruct (Hnew2 a H) as (v' & Hv' & Hown). rewrite Hv in Hv'. injection Hv' as <-. by rewrite <- HIP1.
    + destruct (Hold a v Hv H) as [Ha' _]. congruence.
  - intros a x Ha Hb. apply Hd2, (Hcl1 a x); [|done]. apply Hrl. split; [by eexists|done].
Qed.
End Update.

(** C7. A client's routes follow the server's: when a client with host routes
    asks a session of the server for the routes of its network, the message it
    gets back decodes to the answer to its call, and whatever order Go iterates
    over the maps in, [updateRouter] does not panic and leaves exactly the
    server's addresses routed. Routes the client had keep their destination,
    new ones lead to a new destination or, when they begin like the client's
    own address, nowhere, and the destinations of routes that are gone are
    closed. *)
Theorem router_sync md5_hex relayInfo order now sv p s w n ts req c T :
  (forall l, order l ≡ₚ l) -> sv_sess sv !! p = Some s -> s_network s = Some w -> sv_nets sv !! w = Some n ->
  represents (n_router n) ts -> hosts_only ts -> client_rep c T ->
  rq_FuncName req = FuncNameGetRouterData -> args_ok (rq_Args req) ->
  exists msg resp c' T',
    HandleFuncCallEvent md5_hex relayInfo server_functions now sv p (Marshal (request_json req)) = Some (Some msg, sv) /\
    head msg = Some MessageTypeFuncCall /\ decode_response (bytes_string (tail msg)) = Some resp /\
    rs_RequestId resp = rq_RequestId req /\
    updateRouter order (Some (rs_Data resp)) c = Some (None, c') /\ client_rep c' T' /\
    (forall a, 0 <= a < 2 ^ 32 -> RouteString (c_router c') (addr_text a) = Some (T' !! a)) /\
    (forall a, is_Some (T' !! a) <-> 0 <= a < 2 ^ 32 /\ is_Some (t_v4 ts !! addr_bits a)) /\
    (forall a v, T !! a = Some v -> is_Some (T' !! a) -> T' !! a = Some v) /\
    (forall a v, T !! a = None -> T' !! a = Some v -> v = None <-> has_prefix (host_text a) (c_IP c) = true) /\
    (forall a d, T !! a = Some (Some d) -> T' !! a = None -> c_dests c' !! d = Some (MkDest (addr_text a) true)).
Proof.
  intros Horder Hs Hw Hn Hrep Hhosts Hc Hname Hargs.
  destruct (routes_text (Keys (n_router n))) as (d & Hjson & Hd & Hbs & Hdec).
  destruct (updateRouter_ok order Horder c T Hc (Keys (n_router n)) (fun a => 0 <= a < 2 ^ 32 /\ is_Some (t_v4 ts !! addr_bits a)))
    with (d := d) (bs := string_bytes (Marshal (routes_json (Keys (n_router n)))))
    as (c' & T' & Hup & Hc' & Hdom & Hkeep & Hnew & Hgone); [tauto| |done..|].
  { intros x. rewrite (Keys_hosts _ ts) by done. split; intros (a & H); exists a; tauto. }
  exists (MessageTypeFuncCall :: string_bytes (Marshal (response_json (MkResponse (rq_RequestId req) 0 (JStr d) "" 0)))),
    (MkResponse (rq_RequestId req) 0 (JStr d) "" 0), c', T'. split_and!; try done.
  - unfold HandleFuncCallEvent. rewrite decode_request_json by done. unfold handleFuncCall. rewrite Hname.
    change (server_functions !! FuncNameGetRouterData) with (Some funcGetRouteData). unfold call_handler.
    rewrite Hs. cbn [mbind option_bind]. rewrite Hw. cbn [mbind option_bind]. rewrite Hn. cbn [mbind option_bind].
    change (if bool_decide (Keys (n_router n) = []) then JNull else JArr (JStr <$> Keys (n_router n))) with (routes_json (Keys (n_router n))).
    by rewrite Hjson.
  - cbn [tail]. rewrite bytes_string_bytes. apply decode_response_json; [done|cbn; lia..].
  - intros a Ha. by apply rep_lookup.
  - intros a v Ha Hx. apply Hkeep; [done|]. by apply Hdom.
  - intros a x Ha Hx. apply (Hgone a x); [done|]. rewrite <- Hdom, Hx. by intros [? ?].
Qed.

Lemma rep_new IP : client_rep (MkClient NewRouter ∅ 0 IP [] false None ∅ 0 ∅ []) ∅.
Proof.
  split; cbn.
  - intros a [v Hv]. by rewrite lookup_empty in Hv.
  - exists empty_tables. split; [apply represents_new|]. split; [done|]. intros k v. cbn. rewrite lookup_empty.
    split; [done|]. intros (a & Ha & _). by rewrite lookup_empty in Ha.
  - intros a d Hd. by rewrite lookup_empty in Hd.
  - intros d [x Hx]. by rewrite lookup_empty in Hx.
Qed.

(** A server with the routes of two sessions. *)
Definition sample_router : Router nat :=
  default NewRouter (r ← Register NewRouter (host_text 167837697) 1%nat; Register r (host_text 167837706) 2%nat).
Definition sample_routes_server : Server :=
  MkServer {[1%nat := SetNetwork (newServerSession "tcp-1") 0]}
    {[0%nat := MkNetwork "home" "10.1.0.0/16" 1400 ∅ sample_router (MkIPAllocator "" [] [] ∅ "" 0 0)]} ∅ ∅ 0.

Lemma sample_router_rep : exists ts, represents sample_router ts /\ hosts_only ts /\
  t_v4 ts = <[addr_bits 167837706 := 2%nat]> {[addr_bits 167837697 := 1%nat]}.
Proof.
  destruct (host_key 167837697) as [Hk1 Hm1], (host_key 167837706) as [Hk2 Hm2].
  destruct (run_op_spec (@NewRouter nat) empty_tables (OpRegister (host_text 167837697) 1%nat) represents_new Hm1) as (r1 & H1 & Hr1).
  destruct (run_op_spec r1 _ (OpRegister (host_text 167837706) 2%nat) Hr1 Hm2) as (r2 & H2 & Hr2).
  cbn [run_op spec_op] in *. unfold spec_register in Hr2. fold (host_text 167837697) in Hk1. fold (host_text 167837706) in Hk2.
  rewrite Hk1, Hk2 in Hr2. exists (MkTables (<[addr_bits 167837706 := 2%nat]> {[addr_bits 167837697 := 1%nat]}) ∅).
  split; [|split; [|done]].
  - unfold sample_router. rewrite H1. cbn [mbind option_bind]. rewrite H2. exact Hr2.
  - split; [done|]. cbn. intros k [v [[<- _]|[_ [<- _]%lookup_singleton_Some]]%lookup_insert_Some]; eexists; (split; [|reflexivity]); lia.
Qed.

Lemma router_sync_witness :
  exists c' T', client_rep c' T' /\ RouteString (c_router c') "10.1.0.10" = Some (T' !! 167837706) /\ is_Some (T' !! 167837706).
Proof.
  destruct sample_router_rep as (ts & Hrep & Hhosts & Hts).
  destruct (router_sync (fun s => s) JNull (fun l => l) 0 sample_routes_server 1 (SetNetwork (newServerSession "tcp-1") 0) 0
    (MkNetwork "home" "10.1.0.0/16" 1400 ∅ sample_router (MkIPAllocator "" [] [] ∅ "" 0 0)) ts
    (MkRequest "7" FuncNameGetRouterData None) (MkClient NewRouter ∅ 0 "10.1.0.1" [] false None ∅ 0 ∅ []) ∅)
    as (msg & resp & c' & T' & _ & _ & _ & _ & _ & Hc' & Hroute & Hdom & _);
    [done|reflexivity|reflexivity|reflexivity|exact Hrep|exact Hhosts|apply rep_new|reflexivity|exact I|].
  exists c', T'. split; [exact Hc'|]. split; [exact (Hroute 167837706 ltac:(lia))|].
  apply Hdom. split; [lia|]. rewrite Hts, lookup_insert_eq. by eexists.
Defined.

(** ** Reconnecting *)

(** The waiting time between reconnects is one to thirty seconds for the
    first ninety-one attempts; for the next one the sequence has overflowed
    and the time is negative, so the client retries without waiting. *)
Theorem reconnect_intervals :
  Forall (fun tries => 1 <= reconnect_interval tries <= 30) (seq 0 91) /\ reconnect_interval 91 < 0.
Proof. split; [|by vm_compute]. repeat constructor; by vm_compute. Qed.

(** Without a host (no signalling server is configured) the first mapping is
    stored, and the second synchronisation of the same peer panics. *)
Lemma second_sync_panics :
  let c := MkClient NewRouter ∅ 0 "10.1.0.1" [] true None ∅ 0 ∅ [] in
  let data := JStr (b64_encode true (string_bytes (Marshal (JObj [("10.1.0.2"%string, JStr "peer")])))) in
  let sync := syncP2PPeerMapping (fun l => l) (fun s => Some s) (Some data) in
  match sync c with
  | Some (None, c1) => c_peerMapping c1 !! "10.1.0.2"%string = Some "peer"%string /\ sync c1 = None
  | _ => False
  end.
Proof. by vm_compute. Qed.
