(* ===== verification/P2P.v ===== *)
(** * Direct connections between clients (vnet/client/client_p2p.go)

    A stream to a peer is a number; what reading and writing on it give is an
    argument, and so are the results of libp2p. The outer [None] is a panic. *)

From S2P Require Import Prelude GoNet Router IPPool Protocol Pool Hub SyncRouter.

#[local] Open Scope string_scope.
#[local] Open Scope Z_scope.

Definition acceptableLatency : Z := 1000.
Definition evaluateFail : Z := 1.
Definition evaluatePass : Z := 2.
Definition TransportTypeP2P : string := "p2p".

(** What a destination needs to know of a transport. *)
Record link := MkLink { l_Type : string; l_conn : nat }.

(** [rx]: streams the hub reads from; [cancelled]: streams whose [cancelAll] was
    called; [shut]: streams that were closed. *)
Record Peers := MkPeers {
  p_router : Router (option Z); p_dests : gmap Z (string * Destination (RW := link));
  p_mapping : gmap string string; p_connections : gmap conn_key nat;
  p_rx : list nat; p_cancelled : list nat; p_shut : list nat }.

Inductive p2p_error := WriteErr | ReadErr | TooSlow (cost : Z) | ClosedByPeer | InvalidAck | UnknownPeer | DialErr.

Definition set_dest (c : Peers) (d : Z) (x : string * Destination) : Peers :=
  MkPeers (p_router c) (<[d := x]> (p_dests c)) (p_mapping c) (p_connections c) (p_rx c) (p_cancelled c) (p_shut c).
Definition set_connections (c : Peers) (m : gmap conn_key nat) : Peers :=
  MkPeers (p_router c) (p_dests c) (p_mapping c) m (p_rx c) (p_cancelled c) (p_shut c).
Definition HandleRx (c : Peers) (stream : nat) : Peers :=
  MkPeers (p_router c) (p_dests c) (p_mapping c) (p_connections c) (p_rx c ++ [stream])%list (p_cancelled c) (p_shut c).
Definition cancelAll (c : Peers) (stream : nat) : Peers :=
  MkPeers (p_router c) (p_dests c) (p_mapping c) (p_connections c) (p_rx c) (p_cancelled c ++ [stream])%list (p_shut c).
Definition shut (c : Peers) (stream : nat) : Peers :=
  MkPeers (p_router c) (p_dests c) (p_mapping c) (p_connections c) (p_rx c) (p_cancelled c) (p_shut c ++ [stream])%list.

(** [Type] of a destination. *)
Definition dst_Type (x : Destination (RW := link)) : string := match tx x with Some l => l_Type l | None => "" end.

(** The function passed to [ReplaceTx]: a direct connection is not replaced. *)
Definition replace_fn (t : link) (old : option link) : option link * bool :=
  match old with
  | Some o => if String.eqb (l_Type o) TransportTypeP2P then (None, false) else (Some t, true)
  | None => (Some t, true)
  end.

(** The connection is stored under the destination, not under its address. *)
Definition replaceP2P (c : Peers) (stream : nat) (d : Z) : option Peers :=
  '(ip, x) ← p_dests c !! d;
  let c := HandleRx c stream in
  let '(replaced, x) := ReplaceTx (replace_fn (MkLink TransportTypeP2P stream)) x in
  if (replaced : bool)
  then Some (set_connections (set_dest c d (ip, x)) (<[KeyDestination d := stream]> (p_connections c)))
  else Some (cancelAll c stream).

(** Reads and writes fail two seconds after the evaluation began. *)
Definition deadline : Z := 2000.

(** The side that dials: own address, answer, verdict. [answer] is the number of
    milliseconds after which the peer's answer arrives, if it ever does. The
    results are what was written, the error and the state. *)
Definition evaluateAndReplaceP2PTx (own : string) (c : Peers) (d : Z) (stream : nat) (write_ok : bool) (answer : option Z)
    : option (option p2p_error * list (list Z) * Peers) :=
  ip ← ParseIP own;
  b0 ← index ip 12; b1 ← index ip 13; b2 ← index ip 14; b3 ← index ip 15;
  let pkg := [b0; b1; b2; b3] in
  if negb write_ok then Some (Some WriteErr, [], c)
  else match answer with
       | None => Some (Some ReadErr, [pkg], c)
       | Some cost =>
           if deadline <=? cost then Some (Some ReadErr, [pkg], c)
           else if cost <? acceptableLatency then
             c ← replaceP2P c stream d;
             Some (None, [pkg; [evaluatePass]], c)
           else Some (Some (TooSlow cost), [pkg; [evaluateFail]], shut c stream)
       end.

(** The side that accepts; a read that takes too long fails. A short first read
    leaves zeros in the buffer. *)
Definition evaluateAndReplaceP2PRx (c : Peers) (stream : nat) (first : option (list Z)) (write_ok : bool) (verdict : option Z)
    : option (option p2p_error * list (list Z) * Peers) :=
  match first with
  | None => Some (Some ReadErr, [], c)
  | Some bs =>
      let dst := ip_String (v4InV6Prefix ++ copy_new 4 bs) in
      if negb write_ok then Some (Some WriteErr, [], c)
      else
        match verdict with
        | None => Some (Some ReadErr, [[0]], c)
        | Some v =>
            if v =? evaluateFail then Some (Some ClosedByPeer, [[0]], shut c stream)
            else if negb (v =? evaluatePass) then Some (Some InvalidAck, [[0]], c)
            else
              r ← RouteString (p_router c) dst;
              match r with
              | Some (Some d) => c ← replaceP2P c stream d; Some (None, [[0]], c)
              | _ => Some (None, [[0]], c)
              end
        end
  end.

(** Streams of peers that are not in the mapping are closed. *)
Definition handleP2PStreamRx (c : Peers) (remote : string) (stream : nat) (first : option (list Z)) (write_ok : bool) (verdict : option Z)
    : option (option p2p_error * list (list Z) * Peers) :=
  if existsb (fun e : string * string => String.eqb e.2 remote) (map_to_list (p_mapping c))
  then evaluateAndReplaceP2PRx c stream first write_ok verdict
  else Some (Some UnknownPeer, [], shut c stream).

(** [tryP2P]: [dialed] is the stream that [dialDstRelay] returns. *)
Definition tryP2P (enabled : bool) (own : string) (c : Peers) (d : Z) (dialed : option nat) (write_ok : bool) (answer : option Z)
    : option (option p2p_error * list (list Z) * Peers) :=
  if negb enabled then Some (None, [], c)
  else
    '(ip, x) ← p_dests c !! d;
    if String.eqb (dst_Type x) TransportTypeP2P then Some (None, [], c)
    else
      match p_mapping c !! ip with
      | None => Some (None, [], c)
      | Some _ =>
          match dialed with
          | None => Some (Some DialErr, [], c)
          | Some stream => evaluateAndReplaceP2PTx own c d stream write_ok answer
          end
      end.

(** One turn of [backgroundTryDialP2P] over the destinations it finds, each with
    what its attempt meets. *)
Definition backgroundTryDialP2P (enabled : bool) (own : string) (c : Peers) (tries : list (Z * option nat * bool * option Z)) : option Peers :=
  foldl (fun c '(d, dialed, w, answer) => c ← c; '(_, _, c) ← tryP2P enabled own c d dialed w answer; Some c) (Some c) tries.

(** The hook of a destination that fell back from [rw]: the connection is looked
    up by the address. *)
Definition OnFallback (c : Peers) (d : Z) (rw : link) : option Peers :=
  '(ip, _) ← p_dests c !! d;
  if String.eqb (l_Type rw) TransportTypeP2P then
    match p_connections c !! KeyAddress ip with
    | Some stream => Some (cancelAll (set_connections c (delete (KeyAddress ip) (p_connections c))) stream)
    | None => Some c
    end
  else Some c.

(** An error of writing: the destination falls back, and its hook is called
    with the transport that failed. *)
Definition tx_failed (c : Peers) (d : Z) : option (bool * Peers) :=
  '(ip, x) ← p_dests c !! d;
  rw ← tx x;
  let '(report, x') := fallbackOrReportError x in
  let c := set_dest c d (ip, x') in
  if (report : bool) then Some (true, c) else c ← OnFallback c d rw; Some (false, c).
