(* ===== verification/P2PProps.v ===== *)
(** * Clients agree on direct connections *)

From S2P Require Import Prelude GoNet Router RouterSpec IPPool IPPoolProps Protocol Pool Hub SyncRouter P2P.

(** ** One side *)

(** A destination on which a direct connection can be set up. *)
Definition replaceable (x : Destination (RW := link)) : Prop := fallback x = None /\ dst_Type x <> TransportTypeP2P.

(** After that the old transport is the fallback. *)
Definition direct (x : Destination (RW := link)) (stream : nat) : Destination :=
  MkDst (Some (MkLink TransportTypeP2P stream)) (tx x) (closed x).

Lemma ReplaceTx_direct x stream :
  replaceable x -> ReplaceTx (replace_fn (MkLink TransportTypeP2P stream)) x = (true, direct x stream).
Proof.
  intros [Hf Ht]. unfold ReplaceTx. rewrite Hf. unfold dst_Type in Ht. unfold replace_fn, direct.
  destruct (tx x) as [l|]; [|done]. by rewrite (proj2 (String.eqb_neq _ _) Ht).
Qed.

Lemma replaceP2P_direct c stream d ip x :
  p_dests c !! d = Some (ip, x) -> replaceable x ->
  replaceP2P c stream d =
    Some (set_connections (set_dest (HandleRx c stream) d (ip, direct x stream)) (<[KeyDestination d := stream]> (p_connections c))).
Proof. intros Hd Hx. unfold replaceP2P. rewrite Hd. cbn [mbind option_bind]. by rewrite ReplaceTx_direct. Qed.

(** Otherwise the new stream is given up. *)
Lemma replaceP2P_refused c stream d ip x :
  p_dests c !! d = Some (ip, x) -> ~ replaceable x -> replaceP2P c stream d = Some (cancelAll (HandleRx c stream) stream).
Proof.
  intros Hd Hx. unfold replaceP2P. rewrite Hd. cbn [mbind option_bind]. unfold ReplaceTx. destruct (fallback x) eqn:Hf; [done|].
  unfold replaceable, dst_Type in Hx. unfold replace_fn. destruct (tx x) as [l|].
  - destruct (String.eqb (l_Type l) TransportTypeP2P) eqn:E; [done|]. apply String.eqb_neq in E. tauto.
  - exfalso. apply Hx. by split.
Qed.

(** The four bytes that the dialling side sends. *)
Lemma own_bytes a : exists ip, ParseIP (addr_text a) = Some ip /\ exists b0 b1 b2 b3, be_put 4 a = [b0; b1; b2; b3] /\
  index ip 12 = Some b0 /\ index ip 13 = Some b1 /\ index ip 14 = Some b2 /\ index ip 15 = Some b3.
Proof.
  exists (v4InV6Prefix ++ be_put 4 a). split; [apply ParseIP_addr_text|]. pose proof (length_be_put 4 a) as Hl.
  destruct (be_put 4 a) as [|b0 [|b1 [|b2 [|b3 [|? ?]]]]]; try done. by exists b0, b1, b2, b3.
Qed.

(** The outcome for the dialling side: a verdict, or none in time. *)
Definition verdict (answer : option Z) : option Z :=
  cost ← answer; if deadline <=? cost then None else Some (if cost <? acceptableLatency then evaluatePass else evaluateFail).

Lemma tx_side a c d stream answer :
  evaluateAndReplaceP2PTx (addr_text a) c d stream true answer =
    match verdict answer with
    | None => Some (Some ReadErr, [be_put 4 a], c)
    | Some v =>
        if v =? evaluatePass then c ← replaceP2P c stream d; Some (None, [be_put 4 a; [v]], c)
        else Some (Some (TooSlow (default 0 answer)), [be_put 4 a; [v]], shut c stream)
    end.
Proof.
  unfold evaluateAndReplaceP2PTx. destruct (own_bytes a) as (ip & -> & b0 & b1 & b2 & b3 & -> & E0 & E1 & E2 & E3).
  cbn [mbind option_bind]. rewrite E0. cbn [mbind option_bind]. rewrite E1. cbn [mbind option_bind].
  rewrite E2. cbn [mbind option_bind]. rewrite E3. cbn [mbind option_bind negb]. destruct answer as [cost|]; [|done].
  unfold verdict. cbn [mbind option_bind default]. destruct (deadline <=? cost); [done|]. by destruct (cost <? acceptableLatency).
Qed.

Lemma rx_side a c stream v :
  evaluateAndReplaceP2PRx c stream (Some (be_put 4 a)) true (Some v) =
    (if v =? evaluateFail then Some (Some ClosedByPeer, [[0]], shut c stream)
     else if negb (v =? evaluatePass) then Some (Some InvalidAck, [[0]], c)
     else r ← RouteString (p_router c) (addr_text a);
          match r with Some (Some d) => c ← replaceP2P c stream d; Some (None, [[0]], c) | _ => Some (None, [[0]], c) end).
Proof.
  unfold evaluateAndReplaceP2PRx. replace (ip_String _) with (addr_text a); [done|]. rewrite addr_text_be. unfold ip_String, copy_new.
  rewrite take_ge, length_be_put by (rewrite length_be_put; lia). cbn [Nat.sub replicate]. rewrite app_nil_r.
  by rewrite To4_mapped by apply length_be_put.
Qed.

(** What the accepting side reads as a verdict of what the other has written. *)
Definition received (written : list (list Z)) : option Z := match written with [_; [v]] => Some v | _ => None end.

(** C33. Two clients agree on a direct connection. The client with the address
    [a] tries to reach the client with the address [b] directly over a stream
    that delivers what is written, in time except possibly the answer of [b].
    Both have a destination for the other on which no direct connection is in
    use and no fall-back took place, [a] knows [b] as a peer, [b] knows the peer
    that calls and has a route to [a]. When the answer comes within a second
    both use the stream from then on and keep their old transports to fall back
    to, and a further attempt does nothing. In every other case both report an
    error and keep what they had; when the answer takes one to two seconds both
    close the stream. *)
Theorem p2p_agree A B a b d e x y peer remote s t answer :
  p_dests A !! d = Some (addr_text b, x) -> replaceable x -> p_mapping A !! addr_text b = Some peer ->
  RouteString (p_router B) (addr_text a) = Some (Some (Some e)) -> p_dests B !! e = Some (addr_text a, y) -> replaceable y ->
  (exists k, p_mapping B !! k = Some remote) ->
  exists err written A' err' B',
    tryP2P true (addr_text a) A d (Some s) true answer = Some (err, written, A') /\
    handleP2PStreamRx B remote t (head written) true (received written) = Some (err', [[0]], B') /\
    match answer with
    | Some cost =>
        if cost <? acceptableLatency
        then err = None /\ err' = None /\
          p_dests A' = <[d := (addr_text b, direct x s)]> (p_dests A) /\ p_dests B' = <[e := (addr_text a, direct y t)]> (p_dests B) /\
          forall dialed w answer', tryP2P true (addr_text a) A' d dialed w answer' = Some (None, [], A')
        else err <> None /\ err' <> None /\ p_dests A' = p_dests A /\ p_dests B' = p_dests B /\
          (cost < deadline -> s ∈ p_shut A' /\ t ∈ p_shut B')
    | None => err <> None /\ err' <> None /\ p_dests A' = p_dests A /\ p_dests B' = p_dests B
    end.
Proof.
  intros Hd Hx Hm Hr He Hy [k Hk]. unfold tryP2P, handleP2PStreamRx. cbn [negb]. rewrite Hd. cbn [mbind option_bind].
  rewrite (proj2 (String.eqb_neq _ _) (proj2 Hx)), Hm, tx_side.
  assert (existsb (fun e0 : string * string => String.eqb e0.2 remote) (map_to_list (p_mapping B)) = true) as ->.
  { apply existsb_exists. exists (k, remote). split; [|apply String.eqb_refl]. by apply list_elem_of_In, elem_of_map_to_list. }
  assert (evaluateAndReplaceP2PRx B t (Some (be_put 4 a)) true None = Some (Some ReadErr, [[0]], B)) as Hnone by done.
  destruct answer as [cost|]; cbn [verdict mbind option_bind]; [|by eexists _, _, _, _, _].
  destruct (Z.leb_spec deadline cost) as [Hl|Hl].
  { replace (cost <? acceptableLatency) with false by (symmetry; apply Z.ltb_ge; unfold deadline, acceptableLatency in *; lia).
    eexists _, _, _, _, _. split; [done|]. split; [done|]. split_and!; [done..|lia]. }
  destruct (cost <? acceptableLatency).
  - cbn [evaluatePass Z.eqb Pos.eqb]. rewrite (replaceP2P_direct _ _ _ _ _ Hd Hx). cbn [mbind option_bind].
    eexists _, _, _, _, _. split; [done|]. cbn [head received]. rewrite rx_side. cbn [evaluatePass evaluateFail Z.eqb Pos.eqb negb].
    rewrite Hr. cbn [mbind option_bind]. rewrite (replaceP2P_direct _ _ _ _ _ He Hy). cbn [mbind option_bind].
    split; [done|]. split_and!; try done.
    intros dialed w answer'. cbn [set_connections set_dest HandleRx p_dests]. rewrite lookup_insert_eq. done.
  - cbn [evaluatePass evaluateFail Z.eqb Pos.eqb]. eexists _, _, _, _, _. split; [done|]. cbn [head received]. rewrite rx_side.
    cbn [evaluatePass evaluateFail Z.eqb Pos.eqb]. split; [done|]. split_and!; try done. intros _. cbn [shut p_shut]. set_solver.
Qed.

(** A table with one route to a destination. *)
Definition route_to (cidr : string) (d : Z) : Router (option Z) := default NewRouter (Register NewRouter cidr (Some d)).
Definition sample_dst (stream : nat) : Destination (RW := link) := MkDst (Some (MkLink "tcp" stream)) None false.
Definition sample_peers (ip : string) (d : Z) (peer : string) : Peers :=
  MkPeers (route_to (ip +:+ "/32") d) {[d := (ip, sample_dst 1)]} {[ip := peer]} ∅ [] [] [].

Lemma p2p_agree_witness :
  exists A' B',
    tryP2P true "10.1.0.1" (sample_peers "10.1.0.2" 5 "B") 5 (Some 7%nat) true (Some 40) = Some (None, [[10; 1; 0; 1]; [2]], A') /\
    handleP2PStreamRx (sample_peers "10.1.0.1" 6 "A") "A" 8 (Some [10; 1; 0; 1]) true (Some 2) = Some (None, [[0]], B') /\
    p_dests A' !! 5 = Some ("10.1.0.2"%string, direct (sample_dst 1) 7) /\ p_dests B' !! 6 = Some ("10.1.0.1"%string, direct (sample_dst 1) 8).
Proof.
  destruct (p2p_agree (sample_peers "10.1.0.2" 5 "B") (sample_peers "10.1.0.1" 6 "A") 167837697 167837698 5 6 (sample_dst 1) (sample_dst 1)
    "B" "A" 7 8 (Some 40)) as (err & written & A' & err' & B' & H1 & H2 & H3);
    [vm_compute; reflexivity|split; [reflexivity|discriminate]|vm_compute; reflexivity|vm_compute; reflexivity|vm_compute; reflexivity|
     split; [reflexivity|discriminate]|exists "10.1.0.1"%string; vm_compute; reflexivity|].
  destruct H3 as (-> & -> & HA & HB & _). exists A', B'. assert (written = [[10; 1; 0; 1]; [2]]) as -> by (vm_compute in H1; congruence).
  split; [exact H1|]. split; [exact H2|]. rewrite HA, HB. split; vm_compute; reflexivity.
Defined.

(** An answer that comes too late ends the evaluation with the stream open on
    both sides. *)
Lemma late_answer_open A a d s cost :
  deadline <= cost -> evaluateAndReplaceP2PTx (addr_text a) A d s true (Some cost) = Some (Some ReadErr, [be_put 4 a], A).
Proof. intros H. rewrite tx_side. unfold verdict. cbn [mbind option_bind]. by rewrite (proj2 (Z.leb_le _ _) H). Qed.

(** The verdict is sent before the destination is asked: after a fall-back the
    peer is told to use a stream that is given up here. *)
Lemma passed_then_refused A a d ip x s cost :
  p_dests A !! d = Some (ip, x) -> fallback x <> None -> cost < acceptableLatency ->
  evaluateAndReplaceP2PTx (addr_text a) A d s true (Some cost) =
    Some (None, [be_put 4 a; [evaluatePass]], cancelAll (HandleRx A s) s).
Proof.
  intros Hd Hf Hc. rewrite tx_side. unfold verdict. cbn [mbind option_bind].
  rewrite (proj2 (Z.leb_gt _ _)), (proj2 (Z.ltb_lt _ _) Hc) by (unfold deadline, acceptableLatency in *; lia).
  cbn [evaluatePass Z.eqb Pos.eqb]. rewrite (replaceP2P_refused A s d ip x); [done|done|]. intros [Hf' _]. done.
Qed.

(** Falling back. The connection was stored under the destination and is looked
    up under its address, so it is not found: the stream is neither cancelled
    nor forgotten. The fallback stays set: no direct connection is accepted for
    this destination any more, and later errors are not reported. *)
Lemma fallback_is_final c d ip x s l :
  p_dests c !! d = Some (ip, direct x s) -> tx x = Some l -> p_connections c !! KeyAddress ip = None ->
  exists c', tx_failed c d = Some (false, c') /\ p_dests c' !! d = Some (ip, MkDst (Some l) (Some l) (closed x)) /\
    p_cancelled c' = p_cancelled c /\ p_connections c' = p_connections c /\
    (forall stream, replaceP2P c' stream d = Some (cancelAll (HandleRx c' stream) stream)) /\
    exists c'', tx_failed c' d = Some (false, c'').
Proof.
  intros Hd Hl Hc. set (c' := set_dest c d (ip, MkDst (Some l) (Some l) (closed x))).
  assert (p_dests c' !! d = Some (ip, MkDst (Some l) (Some l) (closed x))) as Hd' by (unfold c'; cbn; by rewrite lookup_insert_eq).
  assert (forall rw, OnFallback c' d rw = Some c') as Hon.
  { intros rw. unfold OnFallback. rewrite Hd'. cbn [mbind option_bind]. destruct (String.eqb _ _); [|done]. unfold c'. cbn. by rewrite Hc. }
  exists c'. split_and!; try done.
  - unfold tx_failed. rewrite Hd. unfold direct, fallbackOrReportError. cbn [mbind option_bind tx fallback closed]. rewrite Hl. fold c'. by rewrite Hon.
  - intros stream. apply (replaceP2P_refused _ _ _ _ _ Hd'). by intros [[=] _].
  - unfold tx_failed. rewrite Hd'. unfold fallbackOrReportError. cbn [mbind option_bind tx fallback closed].
    set (c2 := set_dest c' d (ip, MkDst (Some l) (Some l) (closed x))).
    assert (OnFallback c2 d l = Some c2) as ->; [|by eexists]. unfold OnFallback, c2. cbn. rewrite lookup_insert_eq. cbn.
    destruct (String.eqb _ _); [|done]. by rewrite Hc.
Qed.
