(* ===== verification/Life.v ===== *)
(** * A client's life (vnet/client/client.go)

    What a run of the client opens: the internal client, the device, the control
    manager, the hub and the host for direct connections; and what it opens in
    use: the connections of the internal client by destination, and direct
    streams. A resource is a number, [open] holds those that are not closed. What
    the system and the server answer is an argument of each attempt. The outer
    [None] is a panic. *)

From S2P Require Import Prelude Protocol Pool Hub.

#[local] Open Scope Z_scope.

Definition StateRunning : Z := 1.
Definition StateReconnecting : Z := 2.

Record Life := MkLife {
  internal : option nat; dev : option nat; manager : option nat; hub : option nat; host : option nat;
  conns : gmap string nat; (* connections kept by the internal client *)
  dsts : gmap string (Destination (RW := nat)); (* destinations in the routes of the hub *)
  streams : list nat; (* [p2p.connections] *)
  session : option string; id : string; ctx : bool; state : Z;
  encryptors : nat; (* entries [WithEncryptor] of the transport options *)
  peerMappingVersion : Z; hostId : string;
  background : nat; (* goroutines of [backgroundTryDialP2P] *)
  open : gset nat; next : nat }.

(** [NewClient] *)
Definition NewClient : Life := MkLife None None None None None ∅ ∅ [] None "" true 0 0 0 "" 0 ∅ 0.

(** What [connectP2PSignalingServer] meets: no answer or no address of the
    signalling server; an error of creating the host; a host that cannot connect
    (without an id) or register; success. *)
Inductive p2p_setup := NoSignalling | HostError | HostAlone (hostId : string) | Connected (hostId : string).

(** What one run meets. [shake]: the server's error, or the id of the session
    and the length of the network's key. *)
Record attempt := MkAttempt { setup_ok : bool; shake : unit + string * nat; device_ok : bool; p2p : p2p_setup }.

Inductive run_error := UnsupportedType | SetupError | HandshakeError | DeviceError.

Definition set_ctx (c : Life) (b : bool) : Life :=
  MkLife (internal c) (dev c) (manager c) (hub c) (host c) (conns c) (dsts c) (streams c) (session c) (id c) b (state c) (encryptors c) (peerMappingVersion c)
    (hostId c) (background c) (open c) (next c).
(** [newTcpClient] or [newQuicClient] *)
Definition new_internal (c : Life) : Life :=
  MkLife (Some (next c)) (dev c) (manager c) (hub c) (host c) (conns c) (dsts c) (streams c) (session c) (id c) (ctx c) (state c) (encryptors c) (peerMappingVersion c)
    (hostId c) (background c) ({[next c]} ∪ open c) (S (next c)).
Definition set_session (c : Life) (s : string) : Life :=
  MkLife (internal c) (dev c) (manager c) (hub c) (host c) (conns c) (dsts c) (streams c) (Some s) s (ctx c) (state c) (encryptors c) (peerMappingVersion c)
    (hostId c) (background c) (open c) (next c).
Definition new_dev (c : Life) : Life :=
  MkLife (internal c) (Some (next c)) (manager c) (hub c) (host c) (conns c) (dsts c) (streams c) (session c) (id c) (ctx c) (state c) (encryptors c) (peerMappingVersion c)
    (hostId c) (background c) ({[next c]} ∪ open c) (S (next c)).
(** The encryptor, the manager and the hub. *)
Definition new_hub (c : Life) : Life :=
  MkLife (internal c) (dev c) (Some (next c)) (Some (S (next c))) (host c) (conns c) (dsts c) (streams c) (session c) (id c) (ctx c) (state c) (S (encryptors c))
    (peerMappingVersion c) (hostId c) (background c) ({[next c; S (next c)]} ∪ open c) (S (S (next c))).
Definition new_host (c : Life) (hid : string) (bg : nat) : Life :=
  MkLife (internal c) (dev c) (manager c) (hub c) (Some (next c)) (conns c) (dsts c) (streams c) (session c) (id c) (ctx c) (state c) (encryptors c)
    (peerMappingVersion c) hid (background c + bg) ({[next c]} ∪ open c) (S (next c)).

(** A host that was created is kept when connecting fails. *)
Definition connectP2PSignalingServer (activeDial : bool) (p : p2p_setup) (c : Life) : Life :=
  match p with
  | NoSignalling | HostError => c
  | HostAlone hid => new_host c hid 0
  | Connected hid => new_host c hid (if activeDial then 1 else 0)
  end.

(** [typ_ok]: the type of the configuration is one of the two. A key of fewer
    than 32 bytes panics. *)
Definition run (typ_ok p2pEnabled activeDial : bool) (a : attempt) (c : Life) : option (option run_error * Life) :=
  let c := set_ctx c true in
  if negb typ_ok then Some (Some UnsupportedType, c)
  else
    let c := new_internal c in
    if negb (setup_ok a) then Some (Some SetupError, c)
    else
      match shake a with
      | inl _ => Some (Some HandshakeError, c)
      | inr (sid, keylen) =>
          let c := set_session c sid in
          if negb (device_ok a) then Some (Some DeviceError, c)
          else
            let c := new_dev c in
            if (keylen <? 32)%nat then None
            else
              let c := new_hub c in
              Some (None, if p2pEnabled then connectP2PSignalingServer activeDial (p2p a) c else c)
      end.

(** ** What happens while the client runs *)

Definition with_links (c : Life) (k : gmap string nat) (d : gmap string (Destination (RW := nat))) (l : list nat) (o : gset nat) (n : nat) : Life :=
  MkLife (internal c) (dev c) (manager c) (hub c) (host c) k d l (session c) (id c) (ctx c) (state c) (encryptors c) (peerMappingVersion c)
    (hostId c) (background c) o n.

(** Connections and streams may be closed again. *)
Definition closing (l : list nat) (o : gset nat) : gset nat := o ∖ list_to_set l.

(** [CloseDst] of the internal client. *)
Definition CloseDst (c : Life) (ip : string) : Life :=
  with_links c (delete ip (conns c)) (dsts c) (streams c) (closing (option_list (conns c !! ip)) (open c)) (next c).

(** A destination is added by the synchronisation; it negotiates, over the
    connection that is kept for its address or over a new one, and is accepted or
    reports an error; a direct stream is set up for it, or given up; a write of it
    fails; it is removed. *)
Inductive use := Routed (ip : string) | Dialled (ip : string) (accepted : bool) | WentDirect (ip : string) | WriteFailed (ip : string) | Unrouted (ip : string).

Definition use_dst (c : Life) (ip : string) (x : Destination (RW := nat)) (u : use) : option Life :=
  match u with
  | Routed _ => Some c
  | Dialled _ accepted =>
      match tx x with
      | Some _ => Some c
      | None =>
          let '(conn, c) := match conns c !! ip with
                            | Some k => (k, c)
                            | None => (next c, with_links c (<[ip := next c]> (conns c)) (dsts c) (streams c) ({[next c]} ∪ open c) (S (next c)))
                            end in
          if accepted then Some (with_links c (conns c) (<[ip := MkDst (Some conn) (fallback x) (closed x)]> (dsts c)) (streams c) (open c) (next c))
          else Some (CloseDst c ip)
      end
  | WentDirect _ =>
      match host c with
      | None => Some c
      | Some _ =>
          let stream := next c in
          let '(replaced, x') := ReplaceTx (fun old => match old with
                                                       | Some o => if bool_decide (o ∈ streams c) then (None, false) else (Some stream, true)
                                                       | None => (Some stream, true) end) x in
          if (replaced : bool)
          then Some (with_links c (conns c) (<[ip := x']> (dsts c)) (stream :: streams c) ({[stream]} ∪ open c) (S stream))
          else Some (with_links c (conns c) (dsts c) (streams c) (open c) (S stream))
      end
  | WriteFailed _ =>
      let '(reported, x') := fallbackOrReportError x in
      let c := with_links c (conns c) (<[ip := x']> (dsts c)) (streams c) (open c) (next c) in
      Some (if (reported : bool) then CloseDst c ip else c)
  | Unrouted _ =>
      '(l, _) ← Destination_Close x;
      Some (CloseDst (with_links c (conns c) (delete ip (dsts c)) (streams c) (closing l (open c)) (next c)) ip)
  end.

Definition use_ip (u : use) : string :=
  match u with Routed ip | Dialled ip _ | WentDirect ip | WriteFailed ip | Unrouted ip => ip end.

Definition use_step (c : Life) (u : use) : option Life :=
  match hub c, dsts c !! use_ip u with
  | None, _ => Some c
  | Some _, Some x => use_dst c (use_ip u) x u
  | Some _, None =>
      match u with
      | Routed ip => Some (with_links c (conns c) (<[ip := MkDst None None false]> (dsts c)) (streams c) (open c) (next c))
      | _ => Some c
      end
  end.

Fixpoint use_all (c : Life) (us : list use) : option Life := match us with [] => Some c | u :: us' => c ← use_step c u; use_all c us' end.

(** ** Release *)

(** Closing a resource of a run; [None] when it is not open. *)
Definition close (r : option nat) (o : gset nat) : option (gset nat) :=
  match r with
  | None => Some o
  | Some x => if decide (x ∈ o) then Some (o ∖ {[x]}) else None
  end.

(** Every destination in the routes is closed with its transports; closing one
    twice panics. *)
Fixpoint close_dsts (l : list (Destination (RW := nat))) (o : gset nat) : option (gset nat) :=
  match l with [] => Some o | x :: l' => '(ts, _) ← Destination_Close x; close_dsts l' (closing ts o) end.

Definition ReleaseAll (c : Life) : option Life :=
  o ← close (hub c) (open c);
  o ← (match hub c with Some _ => close_dsts (map_to_list (dsts c)).*2 o | None => Some o end);
  o ← close (internal c) o;
  let o := match internal c with Some _ => closing (map_to_list (conns c)).*2 o | None => o end in
  o ← close (dev c) o;
  let o := closing (streams c) o in
  o ← close (host c) o;
  o ← close (manager c) o;
  Some (MkLife None None None None None ∅ ∅ [] None (id c) false (state c) (encryptors c) 0 "" (background c) o (next c)).

Definition Reconnect (typ_ok p2pEnabled activeDial : bool) (a : attempt) (c : Life) : option (option run_error * Life) :=
  c ← ReleaseAll c; run typ_ok p2pEnabled activeDial a c.

Definition set_state (c : Life) (s : Z) : Life :=
  MkLife (internal c) (dev c) (manager c) (hub c) (host c) (conns c) (dsts c) (streams c) (session c) (id c) (ctx c) s (encryptors c) (peerMappingVersion c)
    (hostId c) (background c) (open c) (next c).

(** The loop of [reconnectLoop]: attempts until one succeeds, with their number.
    The attempts that are to come are the argument; [inl]: none succeeded. *)
Fixpoint reconnect_loop (typ_ok p2pEnabled activeDial : bool) (tries : list attempt) (n : nat) (c : Life) : option (Life + nat * Life) :=
  match tries with
  | [] => Some (inl c)
  | a :: rest =>
      '(e, c) ← Reconnect typ_ok p2pEnabled activeDial a c;
      match e with
      | None => Some (inr (S n, c))
      | Some _ => reconnect_loop typ_ok p2pEnabled activeDial rest (S n) c
      end
  end.

(** The synchronisation that follows a run sets the state back. *)
Definition reconnectLoop (typ_ok p2pEnabled activeDial : bool) (tries : list attempt) (c : Life) : option (Life + nat * Life) :=
  reconnect_loop typ_ok p2pEnabled activeDial tries 0 (set_state c StateReconnecting).

(** A goroutine of [backgroundTryDialP2P] looks at the context and ranges over
    the routes of the hub: without them it panics. *)
Definition background_turn (c : Life) : option Life :=
  if (background c =? 0)%nat then Some c
  else if negb (ctx c) then None
  else match hub c with None => None | Some _ => Some c end.
