(* ===== verification/LifeProps.v ===== *)
(** * Reconnecting does not leak *)

From S2P Require Import Prelude Protocol Pool Hub Life.

(** What a run of the client holds by itself. *)
Definition five (c : Life) : list nat :=
  option_list (hub c) ++ option_list (internal c) ++ option_list (dev c) ++ option_list (host c) ++ option_list (manager c).

(** A resource that was opened in use. *)
Definition in_use (c : Life) (n r : nat) : Prop := (r ∉ five c) /\ (r < n)%nat.

(** The resources of the run are open, each is a resource of its own, and
    whatever else is open is a kept connection or a stream in the table of direct
    connections. No destination in the routes has been closed. *)
Record sound (c : Life) : Prop := {
  so_five : forall r, r ∈ five c -> r ∈ open c /\ (r < next c)%nat;
  so_once : NoDup (five c);
  so_owned : forall r, r ∈ open c -> r ∈ five c \/ (exists ip, conns c !! ip = Some r) \/ r ∈ streams c;
  so_conns : forall ip r, conns c !! ip = Some r -> in_use c (next c) r;
  so_streams : forall r, r ∈ streams c -> in_use c (next c) r;
  so_dsts : forall ip x, dsts c !! ip = Some x -> closed x = false /\ forall r, tx x = Some r \/ fallback x = Some r -> in_use c (next c) r;
  so_hub : hub c = None -> dsts c = ∅;
  so_internal : internal c = None -> conns c = ∅ /\ hub c = None }.

Definition released (c : Life) : Prop := five c = [] /\ open c = ∅ /\ conns c = ∅ /\ dsts c = ∅ /\ streams c = [].


(** ** Use *)














(** ** Release *)

Lemma closing_app l l' o : closing l' (closing l o) = closing (l ++ l') o.
Proof. unfold closing. rewrite list_to_set_app_L. set_solver. Qed.

(** A resource that is open and was not closed before. *)
Lemma close_fresh (r : option nat) l o :
  (forall x, x ∈ option_list r -> x ∈ o /\ x ∉ l) -> close r (closing l o) = Some (closing (l ++ option_list r) o).
Proof.
  intros H. rewrite <- closing_app. destruct r as [x|]; cbn [close option_list]; [|f_equal; unfold closing; set_solver].
  destruct (H x) as [H1 H2]; [apply list_elem_of_here|]. rewrite decide_True; [f_equal; unfold closing; set_solver|].
  unfold closing. apply elem_of_difference. by rewrite elem_of_list_to_set.
Qed.

Definition refs (x : Destination (RW := nat)) : list nat := option_list (fallback x) ++ option_list (tx x).

Lemma close_dsts_spec l o : Forall (fun x => closed x = false) l -> close_dsts l o = Some (closing (concat (refs <$> l)) o).
Proof.
  revert o. induction l as [|x l IH]; intros o Hl; [cbn; f_equal; unfold closing; set_solver|]. apply Forall_cons_1 in Hl as [Hx Hl].
  cbn [close_dsts]. unfold Destination_Close. rewrite Hx. cbn [mbind option_bind]. rewrite IH by done. by rewrite closing_app.
Qed.

Lemma elem_of_refs r x : r ∈ refs x <-> tx x = Some r \/ fallback x = Some r.
Proof.
  unfold refs. rewrite elem_of_app. destruct (tx x), (fallback x); cbn; rewrite ?list_elem_of_singleton, ?elem_of_nil; naive_solver.
Qed.

(** What destinations, kept connections and streams refer to is not one of the
    resources of the run. *)
Lemma in_use_lists c :
  sound c ->
  (forall r, r ∈ concat (refs <$> (map_to_list (dsts c)).*2) -> r ∉ five c) /\
  (forall r, r ∈ (map_to_list (conns c)).*2 <-> exists ip, conns c !! ip = Some r) /\
  (forall r, r ∈ (map_to_list (conns c)).*2 -> r ∉ five c) /\ (forall r, r ∈ streams c -> r ∉ five c).
Proof.
  intros Hc. assert (forall r, r ∈ (map_to_list (conns c)).*2 <-> exists ip, conns c !! ip = Some r) as Hk.
  { intros r. rewrite list_elem_of_fmap. split; [intros ([ip y] & -> & Hp%elem_of_map_to_list); by exists ip|].
    intros [ip E]. exists (ip, r). split; [done|]. by apply elem_of_map_to_list. }
  split_and!; [|done| |].
  - intros r (l & Hr%list_elem_of_In & Hl%list_elem_of_In)%list_elem_of_In%in_concat. apply list_elem_of_fmap in Hr as (x & -> & Hx).
    apply list_elem_of_fmap in Hx as ([ip y] & -> & Hp%elem_of_map_to_list). apply elem_of_refs in Hl. by apply (so_dsts c Hc ip y Hp).
  - intros r [ip E]%Hk. by apply (so_conns c Hc ip).
  - intros r Hr. by apply (so_streams c Hc).
Qed.

(** Everything that is open is closed, the resources of the run once. *)
Lemma ReleaseAll_released c :
  sound c -> exists c', ReleaseAll c = Some c' /\ released c' /\ id c' = id c /\ ctx c' = false /\ background c' = background c /\
    next c' = next c.
Proof.
  intros Hc. destruct (in_use_lists c Hc) as (HD & HK & HK5 & HS). set (D := concat (refs <$> (map_to_list (dsts c)).*2)) in *.
  set (K := (map_to_list (conns c)).*2) in *. pose proof (so_once c Hc) as Hnd. unfold five in Hnd.
  rewrite !NoDup_app in Hnd. destruct Hnd as (_ & N1 & _ & N2 & _ & N3 & _ & N4 & _).
  assert (forall r, r ∈ five c -> r ∈ open c) as Hf by (intros r Hr; by apply (so_five c Hc)). unfold five in Hf, HD, HK5, HS.
  assert (forall o, (match hub c with Some _ => close_dsts (map_to_list (dsts c)).*2 o | None => Some o end) = Some (closing D o)) as Ed.
  { intros o. rewrite close_dsts_spec; [|apply Forall_forall; intros x ([ip y] & -> & Hp%elem_of_map_to_list)%list_elem_of_fmap; by apply (so_dsts c Hc ip)].
    unfold D. pose proof (so_hub c Hc) as Hz. destruct (hub c); [done|]. rewrite Hz, map_to_list_empty by done. f_equal. unfold closing. set_solver. }
  assert (forall o, (match internal c with Some _ => closing K o | None => o end) = closing K o) as Ek.
  { intros o. unfold K. pose proof (so_internal c Hc) as Hz. destruct (internal c); [done|]. destruct Hz as [-> _]; [done|].
    rewrite map_to_list_empty. unfold closing. set_solver. }
  unfold ReleaseAll. cbv zeta. fold K.
  assert (close (hub c) (open c) = close (hub c) (closing [] (open c))) as -> by (f_equal; unfold closing; set_solver).
  rewrite close_fresh by (intros x Hx; split; [apply Hf; set_solver|set_solver]). cbn [mbind option_bind app]. rewrite Ed. cbn [mbind option_bind]. rewrite closing_app.
  rewrite close_fresh by (intros x Hx; split; [apply Hf; set_solver|set_solver]). cbn [mbind option_bind]. rewrite Ek, closing_app.
  rewrite close_fresh by (intros x Hx; split; [apply Hf; set_solver|set_solver]). cbn [mbind option_bind]. rewrite closing_app.
  rewrite close_fresh by (intros x Hx; split; [apply Hf; set_solver|set_solver]). cbn [mbind option_bind].
  rewrite close_fresh by (intros x Hx; split; [apply Hf; set_solver|set_solver]). cbn [mbind option_bind].
  eexists. split; [reflexivity|]. split; [|done]. unfold released. cbn [five hub internal dev host manager conns dsts streams open].
  split; [done|]. split; [|done]. unfold closing. apply set_eq. intros r. split; [|set_solver].
  rewrite elem_of_difference, elem_of_list_to_set. intros [Ho Hn]. destruct Hn.
  rewrite !elem_of_app. destruct (so_owned c Hc r Ho) as [H5|[H5|H5]]; [|apply HK in H5; tauto|tauto]. unfold five in H5. rewrite !elem_of_app in H5. tauto.
Qed.

(** A run that starts with nothing holds what it opens, whatever it meets. *)
Lemma run_sound t p act a c r :
  released c -> run t p act a c = Some r -> sound r.2.
Proof.
  assert (forall c', conns c' = ∅ -> dsts c' = ∅ -> streams c' = [] -> open c' = list_to_set (five c') -> NoDup (five c') ->
    Forall (fun r => (r < next c')%nat) (five c') -> (internal c' = None -> hub c' = None) -> sound c') as Hnew.
  { intros c' H1 H2 H3 Ho Hn Hlt Hi. split; rewrite ?H1, ?H2, ?H3; try done.
    - intros x Hx. rewrite Ho. split; [by apply elem_of_list_to_set|]. by eapply Forall_forall in Hlt.
    - intros x Hx. left. rewrite Ho in Hx. by apply elem_of_list_to_set in Hx.
    - set_solver.
    - intros Hnone. split; [done|by apply Hi]. }
  destruct c as [ci cd cm chb cho ck cds cst0 cs cid cx cst ce cv chid cbg co cn]. intros (Hh & Ho & Hk & Hd & Hs). cbn in Hh, Ho, Hk, Hd, Hs. subst.
  destruct chb, ci, cd, cho, cm; try done. clear Hh. unfold run. destruct t; [|intros [= <-]; by apply Hnew; try constructor].
  cbn [negb]. destruct (setup_ok a); [|intros [= <-]; apply Hnew; cbn; first [done|apply NoDup_singleton|by repeat constructor; lia|set_solver]].
  cbn [negb]. destruct (shake a) as [|[sid keylen]]; [intros [= <-]; apply Hnew; cbn; first [done|apply NoDup_singleton|by repeat constructor; lia|set_solver]|].
  destruct (device_ok a); cbn [negb]; [|intros [= <-]; apply Hnew; cbn; first [done|apply NoDup_singleton|by repeat constructor; lia|set_solver]].
  destruct (keylen <? 32)%nat; [done|]. intros [= <-].
  destruct p; [destruct (p2p a) as [| |hid|hid]|]; apply Hnew; cbn;
    first [done|by repeat constructor; rewrite ?elem_of_cons, ?elem_of_nil; lia|set_solver].
Qed.



Lemma Reconnect_sound t p act a c r : sound c -> Reconnect t p act a c = Some r -> sound r.2.
Proof.
  intros Hc. unfold Reconnect. destruct (ReleaseAll_released c Hc) as (c' & -> & Hr & _). cbn [mbind option_bind]. by apply run_sound.
Qed.













(** While the server cannot be reached the client has no hub: a goroutine that
    tries direct connections in the background crashes it. *)
Lemma background_crashes p act a c :
  sound c -> (0 < background c)%nat -> setup_ok a = false ->
  exists e c', Reconnect true p act a c = Some (Some e, c') /\ background_turn c' = None.
Proof.
  intros Hc Hb Ha. destruct (ReleaseAll_released c Hc) as (c1 & Hrel & [Hh _] & _ & _ & Hbg & _).
  unfold Reconnect. rewrite Hrel. cbn [mbind option_bind]. unfold run. cbn [negb]. rewrite Ha. cbn [negb].
  eexists _, _. split; [done|]. unfold background_turn. cbn. rewrite Hbg.
  destruct (background c); [lia|]. cbn. unfold five in Hh. by destruct (hub c1).
Qed.
