(* ===== verification/Proxy.v ===== *)
(** * Relaying between two sessions (vnet/server/server.go: negotiation, proxy)

    One goroutine relays one direction. What it meets in each turn of its loop
    (a signal, or the results of the read and of the write and the readings of
    the clock around the limiter) is an argument; the two sessions are in the
    heap of the server, and may be the same one. *)

From S2P Require Import Prelude GoNet Router Protocol QuotaCounter GoFloat SmoothLimiter Metrics Server.

Inductive io_error := EOF | IOError.

(** The contents of the two arms of the [select], or a read of [data] with the
    error [er] and a write that took [nw] bytes with the error [ew]. *)
Inductive turn :=
| CtxDone
| SigClosed
| Relay (data : list Z) (er : option io_error) (nw : Z) (ew : option io_error) (now wake : Z).

Inductive perror := CtxError | ErrQuotaExceeded | WriteError (e : io_error) | ReadError (e : io_error).

(** How the relay stands. [stream] is what the destination has taken. *)
Record relay := MkRelay { p_sv : Server; p_written : Z; p_stream : list Z; p_closed_dst : bool; p_closed_src : bool }.

Definition NegotiateResponseSuccess : Z := 1.
Definition NegotiateResponseQuotaExceeded : Z := 2.

Inductive transport_error := FirstTimeout | RouteNotFound (dst : string) | NoWriter (dst : nat).

(** [negotiation] with the first message ([None]: none came in time): the
    acknowledgement that is sent and the session of the destination. An exceeded
    quota is reported, not refused. *)
Definition negotiation (sv : Server) (p : nat) (first : option string) : option (transport_error + Z * nat) :=
  match first with
  | None => Some (inl FirstTimeout)
  | Some dst =>
      sess ← sv_sess sv !! p;
      w ← s_network sess;
      n ← sv_nets sv !! w;
      v ← RouteString (n_router n) dst;
      match v with
      | None => Some (inl (RouteNotFound dst))
      | Some dstSession =>
          q ← s_quota sess;
          Some (inr (if IsExceeded q then NegotiateResponseQuotaExceeded else NegotiateResponseSuccess, dstSession))
      end
  end.

(** The session whose limiter paces the relay. *)
Definition pick_limiter (dst src : nat) (dstSess srcSess : Session) : option nat :=
  let chosen :=
    if (0 <? s_bandwidth dstSess) && (0 <? s_bandwidth srcSess) then
      if s_bandwidth srcSess <? s_bandwidth dstSess then Some (dst, dstSess) else Some (src, srcSess)
    else if 0 <? s_bandwidth dstSess then Some (dst, dstSess)
    else if 0 <? s_bandwidth srcSess then Some (src, srcSess)
    else None in
  '(p, s) ← chosen; _ ← s_bandwidthLimiter s; Some p.

Section Relaying.
Context (other : float64 -> Z).

Definition pace (sv : Server) (limiter : option nat) (nw now wake : Z) : option Server :=
  match limiter with
  | None => Some sv
  | Some p =>
      if 0 <? nw then
        s ← sv_sess sv !! p;
        l ← s_bandwidthLimiter s;
        Some (with_sess sv p (set_bandwidth s (s_bandwidth s) (Some (WaitN other l nw now wake).2)))
      else Some sv
  end.

Definition count_sent (sv : Server) (p : nat) (nr : Z) : option Server :=
  s ← sv_sess sv !! p; Some (with_sess sv p (set_metrics s (count_tx (s_Metrics s) nr))).
Definition count_received (sv : Server) (p : nat) (nw : Z) : option Server :=
  s ← sv_sess sv !! p; Some (with_sess sv p (set_metrics s (count_rx (s_Metrics s) nw))).

(** [AddUsage] on the quota of a session; [true] is [ErrQuotaExceeded]. *)
Definition charge (sv : Server) (p : nat) (n : Z) : option (bool * Server) :=
  s ← sv_sess sv !! p;
  q ← s_quota s;
  let '(exceeded, q) := AddUsage q n in
  Some (exceeded, with_sess sv p (set_quota s q)).

(** The part of a turn for [nr > 0]; the error that ends the relay, if any. *)
Definition forward (dst src : nat) (limiter : option nat) (r : relay) (data : list Z) (nw : Z) (ew : option io_error)
    (now wake : Z) : option (option perror * relay) :=
  let nr := Z.of_nat (length data) in
  let stream := p_stream r ++ take (Z.to_nat nw) data in
  let stop sv e := Some (Some e, MkRelay sv (p_written r) stream (p_closed_dst r) (p_closed_src r)) in
  sv ← pace (p_sv r) limiter nw now wake;
  sv ← count_sent sv src nr;
  '(exceeded, sv) ← charge sv src nr;
  if exceeded : bool then stop sv ErrQuotaExceeded
  else
    '(exceeded, sv) ← charge sv dst nw;
    if exceeded : bool then stop sv ErrQuotaExceeded
    else
      sv ← count_received sv dst nw;
      match ew with
      | Some e => Some (Some (WriteError e), MkRelay sv (p_written r) stream true (p_closed_src r))
      | None =>
          let written := if 0 <? nw then i64 (p_written r + nw) else p_written r in
          Some (None, MkRelay sv written stream (p_closed_dst r) (p_closed_src r))
      end.

(** One turn; [Some e] ends the relay with the error [e] ([None]: no error). *)
Definition proxy_turn (dst src : nat) (limiter : option nat) (r : relay) (t : turn)
    : option (option (option perror) * relay) :=
  match t with
  | CtxDone => Some (Some (Some CtxError), r)
  | SigClosed => Some (Some None, r)
  | Relay data er nw ew now wake =>
      '(e, r) ← (if 0 <? Z.of_nat (length data) then forward dst src limiter r data nw ew now wake else Some (None, r));
      match e with
      | Some e => Some (Some (Some e), r)
      | None =>
          match er with
          | None => Some (None, r)
          | Some EOF => Some (Some None, r)
          | Some IOError =>
              Some (Some (Some (ReadError IOError)),
                    MkRelay (p_sv r) (p_written r) (p_stream r) (p_closed_dst r) true)
          end
      end
  end.

(** The loop over what it meets: the turns that were used, and how it ended
    ([None]: it is still relaying). *)
Fixpoint proxy_loop (dst src : nat) (limiter : option nat) (r : relay) (turns : list turn)
    : option (list turn * option (option perror) * relay) :=
  match turns with
  | [] => Some ([], None, r)
  | t :: turns' =>
      '(e, r) ← proxy_turn dst src limiter r t;
      match e with
      | Some e => Some ([t], Some e, r)
      | None =>
          '(used, e, r) ← proxy_loop dst src limiter r turns';
          Some (t :: used, e, r)
      end
  end.

Definition proxy (sv : Server) (dst src : nat) (turns : list turn)
    : option (list turn * option (option perror) * relay) :=
  dstSess ← sv_sess sv !! dst;
  srcSess ← sv_sess sv !! src;
  proxy_loop dst src (pick_limiter dst src dstSess srcSess) (MkRelay sv 0 [] false false) turns.
End Relaying.
