(* ===== verification/ProxyProps.v ===== *)
(** * What a relay forwards and what it counts *)

From S2P Require Import Prelude GoNet Router Protocol QuotaCounter GoFloat SmoothLimiter Metrics Server Proxy.

(** ** The books of a session *)

(** Bytes and packets counted, usage held or submitted. *)
Record ledger := MkLedger { l_tx : Z; l_txp : Z; l_rx : Z; l_rxp : Z; l_usage : Z }.

(** Usage that a counter has accepted, in 64 bits. *)
Definition accounted (q : Quota) : Z := i64 (sum (submitted q) + usage q).

Definition ledger_of (s : Session) : option ledger :=
  q ← s_quota s;
  let m := s_Metrics s in
  Some (MkLedger (Total (TxBytes m)) (Total (TxPackets m)) (Total (RxBytes m)) (Total (RxPackets m)) (accounted q)).

Definition books (sv : Server) (p : nat) : option ledger := sv_sess sv !! p ≫= ledger_of.

Definition sent (l : ledger) (n : Z) : ledger :=
  MkLedger (u64 (l_tx l + n)) (u64 (l_txp l + 1)) (l_rx l) (l_rxp l) (l_usage l).
Definition received (l : ledger) (n : Z) : ledger :=
  MkLedger (l_tx l) (l_txp l) (u64 (l_rx l + n)) (u64 (l_rxp l + 1)) (l_usage l).
Definition charged (l : ledger) (n : Z) : ledger :=
  MkLedger (l_tx l) (l_txp l) (l_rx l) (l_rxp l) (i64 (l_usage l + n)).

Lemma i64_add_l x y : i64 (i64 x + y) = i64 (x + y).
Proof. destruct (i64_cong x) as [k Hk]. apply (i64_eq _ _ k). lia. Qed.

Lemma i64_idem x : i64 (i64 x) = i64 x.
Proof. transitivity (i64 (i64 x + 0)); [by rewrite Z.add_0_r|]. by rewrite i64_add_l, Z.add_0_r. Qed.

Lemma u64_idem x : u64 (u64 x) = u64 x.
Proof. transitivity (u64 (u64 x + 0)); [by rewrite Z.add_0_r|]. by rewrite u64_add_l, Z.add_0_r. Qed.

Lemma AddUsage_accounted q n :
  accounted (AddUsage q n).2 = if (AddUsage q n).1 then accounted q else i64 (accounted q + n).
Proof.
  unfold AddUsage, accounted. rewrite i64_add_l. destruct (n =? 0) eqn:Hn; cbn [fst snd].
  - f_equal. lia.
  - destruct (isExceeded q); cbn [fst snd].
    + unfold CommitUsage. destruct (usage q =? 0); [done|]. cbn [snd submit set_usage submitted usage]. f_equal.
      rewrite sum_app. simpl. lia.
    + cbn [set_usage submitted usage]. destruct (i64_cong (usage q + n)) as [k Hk]. apply (i64_eq _ _ k). lia.
Qed.

Section Books.
Context (other : float64 -> Z).
Implicit Types (sv : Server).

Lemma books_session sv p l : books sv p = Some l -> exists s, sv_sess sv !! p = Some s /\ ledger_of s = Some l.
Proof. unfold books. intros H. apply bind_Some in H as (s & Hs & Hl). eauto. Qed.

Lemma books_insert sv p s q : books (with_sess sv p s) q = if decide (p = q) then ledger_of s else books sv q.
Proof.
  unfold books. cbn [sv_sess with_sess]. case_decide as H.
  - subst. by rewrite lookup_insert_eq.
  - by rewrite lookup_insert_ne.
Qed.

(** The session that is asked to pace the relay has a limiter. *)
Definition limiter_ok sv (limiter : option nat) : Prop :=
  match limiter with
  | None => True
  | Some p => exists s, sv_sess sv !! p = Some s /\ is_Some (s_bandwidthLimiter s)
  end.

Lemma limiter_ok_insert sv limiter p s s' :
  limiter_ok sv limiter -> sv_sess sv !! p = Some s ->
  (is_Some (s_bandwidthLimiter s) -> is_Some (s_bandwidthLimiter s')) -> limiter_ok (with_sess sv p s') limiter.
Proof.
  destruct limiter as [m|]; [|done]. intros (x & Hx & Hl) Hs Himp. unfold limiter_ok. cbn [sv_sess with_sess].
  destruct (decide (p = m)) as [->|Hne].
  - exists s'. rewrite lookup_insert_eq. split; [done|]. apply Himp. congruence.
  - exists x. by rewrite lookup_insert_ne.
Qed.

Lemma pace_books sv limiter nw now wake :
  limiter_ok sv limiter ->
  exists sv', pace other sv limiter nw now wake = Some sv' /\ limiter_ok sv' limiter /\ forall q, books sv' q = books sv q.
Proof.
  intros Hl. destruct limiter as [p|]; cbn [pace]; [|by eauto]. destruct (0 <? nw); [|by eauto].
  pose proof Hl as (s & Hs & [l Hsl]). rewrite Hs. cbn [mbind option_bind]. rewrite Hsl. cbn [mbind option_bind].
  eexists. split; [reflexivity|]. split.
  - by eapply (limiter_ok_insert sv (Some p)).
  - intros q. rewrite books_insert. case_decide as H; [subst q|done]. unfold books. by rewrite Hs.
Qed.

(** An operation that changes the books of one session by [f]. *)
Definition entry (limiter : option nat) (p : nat) (f : ledger -> ledger) sv sv' : Prop :=
  limiter_ok sv' limiter /\ books sv' p = f <$> books sv p /\ forall q, q <> p -> books sv' q = books sv q.

Lemma entry_insert limiter p f sv s s' l :
  limiter_ok sv limiter -> sv_sess sv !! p = Some s -> ledger_of s = Some l -> ledger_of s' = Some (f l) ->
  s_bandwidthLimiter s' = s_bandwidthLimiter s -> entry limiter p f sv (with_sess sv p s').
Proof.
  intros Hl Hs Hled Hled' Hlim. split; [|split].
  - apply (limiter_ok_insert sv limiter p s); [done..|]. by rewrite Hlim.
  - rewrite books_insert, decide_True by done. unfold books. rewrite Hs. cbn [mbind option_bind]. by rewrite Hled.
  - intros q Hq. by rewrite books_insert, decide_False.
Qed.

Lemma count_sent_books sv limiter p l n :
  limiter_ok sv limiter -> books sv p = Some l ->
  exists sv', count_sent sv p n = Some sv' /\ entry limiter p (fun l => sent l n) sv sv'.
Proof.
  intros Hl (s & Hs & Hled)%books_session. unfold count_sent. rewrite Hs. eexists. split; [reflexivity|].
  eapply entry_insert; [done..| |done]. unfold ledger_of in *. cbn [set_metrics s_quota s_Metrics].
  destruct (s_quota s); [|done]. by injection Hled as <-.
Qed.

Lemma count_received_books sv limiter p l n :
  limiter_ok sv limiter -> books sv p = Some l ->
  exists sv', count_received sv p n = Some sv' /\ entry limiter p (fun l => received l n) sv sv'.
Proof.
  intros Hl (s & Hs & Hled)%books_session. unfold count_received. rewrite Hs. eexists. split; [reflexivity|].
  eapply entry_insert; [done..| |done]. unfold ledger_of in *. cbn [set_metrics s_quota s_Metrics].
  destruct (s_quota s); [|done]. by injection Hled as <-.
Qed.

Lemma charge_books sv limiter p l n :
  limiter_ok sv limiter -> books sv p = Some l ->
  exists e sv', charge sv p n = Some (e, sv') /\
    entry limiter p (fun l => if e : bool then l else charged l n) sv sv'.
Proof.
  intros Hl (s & Hs & Hled)%books_session. unfold charge. rewrite Hs. cbn [mbind option_bind].
  pose proof Hled as Hled'. unfold ledger_of in Hled'. destruct (s_quota s) as [q|] eqn:Hq; [|done].
  cbn [mbind option_bind] in *. pose proof (AddUsage_accounted q n) as Hacc. destruct (AddUsage q n) as [e q'].
  cbn [fst snd] in Hacc. eexists _, _. split; [reflexivity|]. eapply entry_insert; [done..| |done].
  unfold ledger_of. cbn [set_quota s_quota s_Metrics mbind option_bind]. rewrite Hacc. injection Hled' as <-. by destruct e.
Qed.
End Books.

(** ** Turns *)

Definition data_of (t : turn) : list Z := match t with Relay data _ _ _ _ _ => data | _ => [] end.
Definition bytes_of (turns : list turn) : list Z := concat (data_of <$> turns).
Definition size_of (turns : list turn) : Z := Z.of_nat (length (bytes_of turns)).
(** Reads that returned data. *)
Definition packets_of (turns : list turn) : Z := Z.of_nat (length (filter (fun t => data_of t <> []) turns)).

(** What [io.Writer] promises: a write that takes fewer bytes has an error. *)
Definition turn_ok (t : turn) : Prop :=
  match t with
  | Relay data _ nw ew _ _ => 0 <= nw <= Z.of_nat (length data) /\ (ew = None -> nw = Z.of_nat (length data))
  | _ => True
  end.

(** The books [l'] are [l] with these amounts added. *)
Record adds (l l' : ledger) (tx txp rx rxp us : Z) : Prop := {
  a_tx : u64 (l_tx l') = u64 (l_tx l + tx);
  a_txp : u64 (l_txp l') = u64 (l_txp l + txp);
  a_rx : u64 (l_rx l') = u64 (l_rx l + rx);
  a_rxp : u64 (l_rxp l') = u64 (l_rxp l + rxp);
  a_us : i64 (l_usage l') = i64 (l_usage l + us) }.

Lemma size_of_cons t turns : size_of (t :: turns) = Z.of_nat (length (data_of t)) + size_of turns.
Proof. unfold size_of, bytes_of. rewrite fmap_cons. cbn [concat]. rewrite length_app. lia. Qed.

Lemma packets_of_cons t turns :
  packets_of (t :: turns) = (if bool_decide (data_of t = []) then 0 else 1) + packets_of turns.
Proof. unfold packets_of. rewrite filter_cons. case_bool_decide; case_decide; try done; cbn [length]; lia. Qed.

(** Ends that leave no turn unfinished. *)
Definition clean (fin : option (option perror)) : bool :=
  match fin with Some (Some ErrQuotaExceeded) | Some (Some (WriteError _)) => false | _ => true end.

Section Relays.
Context (other : float64 -> Z) (dst src : nat) (limiter : option nat) (Hne : dst <> src).

Lemma forward_ok r data nw ew now wake s d :
  limiter_ok (p_sv r) limiter -> books (p_sv r) src = Some s -> books (p_sv r) dst = Some d ->
  turn_ok (Relay data None nw ew now wake) ->
  let nr := Z.of_nat (length data) in
  exists e r', forward other dst src limiter r data nw ew now wake = Some (e, r') /\
    limiter_ok (p_sv r') limiter /\ p_stream r' = p_stream r ++ take (Z.to_nat nw) data /\
    exists s' d', books (p_sv r') src = Some s' /\ books (p_sv r') dst = Some d' /\
      match e with
      | None => nw = nr /\ p_written r' = (if 0 <? nw then i64 (p_written r + nw) else p_written r) /\
          s' = charged (sent s nr) nr /\ d' = received (charged d nw) nw
      | Some e => p_written r' = p_written r /\ l_tx s' = u64 (l_tx s + nr) /\ clean (Some (Some e)) = false
      end.
Proof using Hne.
  intros Hl Hs Hd [_ Hw]. unfold forward. cbv zeta. set (nr := Z.of_nat (length data)) in *.
  destruct (pace_books other _ _ nw now wake Hl) as (sv1 & -> & Hl1 & Hb1). cbn [mbind option_bind].
  assert (books sv1 src = Some s) as Hs1 by (by rewrite Hb1). assert (books sv1 dst = Some d) as Hd1 by (by rewrite Hb1).
  destruct (count_sent_books sv1 limiter src s nr Hl1 Hs1) as (sv2 & -> & Hl2 & Hs2 & Ho2). cbn [mbind option_bind].
  rewrite Hs1 in Hs2. cbn in Hs2. specialize (Ho2 dst Hne). rewrite Hd1 in Ho2.
  destruct (charge_books sv2 limiter src _ nr Hl2 Hs2) as (e3 & sv3 & -> & Hl3 & Hs3 & Ho3). cbn [mbind option_bind].
  rewrite Hs2 in Hs3. cbn in Hs3. specialize (Ho3 dst Hne). rewrite Ho2 in Ho3. destruct e3.
  { eexists _, _. split; [reflexivity|]. split; [done|]. split; [done|]. eexists _, _. done. }
  destruct (charge_books sv3 limiter dst _ nw Hl3 Ho3) as (e4 & sv4 & -> & Hl4 & Hd4 & Ho4). cbn [mbind option_bind].
  rewrite Ho3 in Hd4. cbn in Hd4. specialize (Ho4 src ltac:(congruence)). rewrite Hs3 in Ho4. destruct e4.
  { eexists _, _. split; [reflexivity|]. split; [done|]. split; [done|]. eexists _, _. done. }
  destruct (count_received_books sv4 limiter dst _ nw Hl4 Hd4) as (sv5 & -> & Hl5 & Hd5 & Ho5). cbn [mbind option_bind].
  rewrite Hd4 in Hd5. cbn in Hd5. specialize (Ho5 src ltac:(congruence)). rewrite Ho4 in Ho5.
  destruct ew as [e|]; (eexists _, _; split; [reflexivity|]; split; [done|]; split; [done|]; eexists _, _); [done|].
  split_and!; [done..| | | |]; auto.
Qed.

(** [written] in 64 bits, after turns that were finished. *)
Lemma written_add written w0 n m :
  i64 written = i64 (w0 + n) -> 0 <= m -> i64 (if 0 <? m then i64 (written + m) else written) = i64 (w0 + (n + m)).
Proof.
  intros H Hm. destruct (0 <? m) eqn:E; [|rewrite H; f_equal; lia].
  destruct (i64_cong (written + m)) as [k Hk]. destruct (i64_cong written) as [k1 Hk1].
  destruct (i64_cong (w0 + n)) as [k2 Hk2]. apply (i64_eq _ _ (k - k1 + k2)). lia.
Qed.

Definition finished (r r' : relay) (s s' d d' : ledger) (turns : list turn) : Prop :=
  p_stream r' = p_stream r ++ bytes_of turns /\ i64 (p_written r') = i64 (p_written r + size_of turns) /\
  adds s s' (size_of turns) (packets_of turns) 0 0 (size_of turns) /\
  adds d d' 0 0 (size_of turns) (packets_of turns) (size_of turns).

Lemma finished_nil r s d : finished r r s s d d [].
Proof. unfold finished. cbn. rewrite app_nil_r, Z.add_0_r. repeat split; by rewrite ?Z.add_0_r. Qed.

Lemma adds_trans l0 l1 l2 a1 b1 c1 d1 e1 a2 b2 c2 d2 e2 :
  adds l0 l1 a1 b1 c1 d1 e1 -> adds l1 l2 a2 b2 c2 d2 e2 ->
  adds l0 l2 (a1 + a2) (b1 + b2) (c1 + c2) (d1 + d2) (e1 + e2).
Proof.
  intros [A1 A2 A3 A4 A5] [B1 B2 B3 B4 B5]. split; rewrite ?B1, ?B2, ?B3, ?B4, ?B5.
  1-4: rewrite <- u64_add_l, ?A1, ?A2, ?A3, ?A4, u64_add_l; f_equal; lia.
  rewrite <- i64_add_l, A5, i64_add_l. f_equal. lia.
Qed.

Lemma finished_trans r0 r1 r2 s0 s1 s2 d0 d1 d2 l1 l2 :
  finished r0 r1 s0 s1 d0 d1 l1 -> finished r1 r2 s1 s2 d1 d2 l2 -> finished r0 r2 s0 s2 d0 d2 (l1 ++ l2).
Proof.
  assert (size_of (l1 ++ l2) = size_of l1 + size_of l2) as Hsize.
  { unfold size_of, bytes_of. rewrite fmap_app, concat_app, length_app. lia. }
  assert (packets_of (l1 ++ l2) = packets_of l1 + packets_of l2) as Hpackets.
  { unfold packets_of. rewrite filter_app, length_app. lia. }
  intros (S1 & W1 & A1 & B1) (S2 & W2 & A2 & B2). unfold finished. rewrite Hsize, Hpackets. split_and!.
  - rewrite S2, S1. unfold bytes_of. by rewrite fmap_app, concat_app, <- (assoc_L (++)).
  - rewrite W2, <- i64_add_l, W1, i64_add_l. f_equal. lia.
  - exact (adds_trans _ _ _ _ _ _ _ _ _ _ _ _ _ A1 A2).
  - exact (adds_trans _ _ _ _ _ _ _ _ _ _ _ _ _ B1 B2).
Qed.

(** The turn that ends a relay because of a quota or of a failed write: part
    of its data may have been written, and [written] does not count it. *)
Definition broken (r r' : relay) (s s' : ledger) (t : turn) : Prop :=
  (exists k, p_stream r' = p_stream r ++ take k (data_of t)) /\ p_written r' = p_written r /\
  u64 (l_tx s') = u64 (l_tx s + Z.of_nat (length (data_of t))).

Definition good (r : relay) (s d : ledger) : Prop :=
  limiter_ok (p_sv r) limiter /\ books (p_sv r) src = Some s /\ books (p_sv r) dst = Some d.

Lemma turn_finished r r' s d t nw :
  nw = Z.of_nat (length (data_of t)) -> data_of t <> [] -> p_stream r' = p_stream r ++ take (Z.to_nat nw) (data_of t) ->
  p_written r' = (if 0 <? nw then i64 (p_written r + nw) else p_written r) ->
  finished r r' s (charged (sent s nw) nw) d (received (charged d nw) nw) [t].
Proof.
  intros -> Hdata Hstream Hwritten. unfold finished. rewrite size_of_cons, packets_of_cons, bool_decide_eq_false_2 by done.
  change (size_of []) with 0. change (packets_of []) with 0. unfold bytes_of. rewrite list_fmap_singleton. cbn [concat].
  rewrite app_nil_r, !Z.add_0_r. split_and!.
  - rewrite Hstream. f_equal. apply take_ge. lia.
  - rewrite Hwritten. rewrite (written_add (p_written r) (p_written r) 0); [f_equal; lia|f_equal; lia|lia].
  - split; cbn; by rewrite ?u64_idem, ?i64_idem, ?Z.add_0_r.
  - split; cbn; by rewrite ?u64_idem, ?i64_idem, ?Z.add_0_r.
Qed.

Lemma turn_empty r r' s d t :
  data_of t = [] -> p_stream r' = p_stream r -> p_written r' = p_written r -> finished r r' s s d d [t].
Proof.
  intros Hdata Hstream Hwritten. unfold finished. rewrite Hstream, Hwritten, size_of_cons, packets_of_cons, bool_decide_eq_true_2, Hdata by done.
  unfold bytes_of. rewrite list_fmap_singleton, Hdata. cbn. rewrite app_nil_r, Z.add_0_r.
  repeat split; by rewrite ?Z.add_0_r.
Qed.

Lemma proxy_turn_ok r t s d :
  good r s d -> turn_ok t ->
  exists e r' s' d', proxy_turn other dst src limiter r t = Some (e, r') /\ good r' s' d' /\
    if clean e then finished r r' s s' d d' [t] else broken r r' s s' t.
Proof using Hne.
  intros (Hl & Hs & Hd) Ht. destruct t as [| |data er nw ew now wake]; cbn [proxy_turn].
  1,2: eexists _, _, s, d; split; [reflexivity|]; split; [done|]; by apply turn_empty.
  destruct (0 <? Z.of_nat (length data)) eqn:Hlen.
  - destruct (forward_ok r data nw ew now wake s d Hl Hs Hd Ht) as (e & r' & -> & Hl' & Hstream & s' & d' & Hs' & Hd' & He).
    cbn [mbind option_bind]. destruct e as [e|].
    + destruct He as (Hw & Htx & Hc). eexists _, _, s', d'. split; [reflexivity|]. split; [done|]. rewrite Hc.
      split; [by eexists|]. split; [done|]. cbn [data_of]. by rewrite Htx, u64_idem.
    + destruct He as (Hnw & Hw & -> & ->). assert (data <> []) as Hnil by (by intros ->). rewrite <- Hnw in *.
      assert (finished r r' s (charged (sent s nw) nw) d (received (charged d nw) nw) [Relay data er nw ew now wake]) as Hfin.
      { by apply turn_finished. }
      destruct er as [[]|]; (eexists _, _, _, _; split; [reflexivity|]); done.
  - assert (data = []) as -> by (destruct data; [done|rewrite Z.ltb_ge in Hlen; cbn [length] in Hlen; lia]). cbn [mbind option_bind].
    destruct er as [[]|]; (eexists _, _, s, d; split; [reflexivity|]; split; [done|]; by apply turn_empty).
Qed.

Lemma proxy_loop_ok turns : forall r s d,
  good r s d -> Forall turn_ok turns ->
  exists used fin r' s' d', proxy_loop other dst src limiter r turns = Some (used, fin, r') /\ good r' s' d' /\
    used `prefix_of` turns /\ (fin = None -> used = turns) /\
    if clean fin then finished r r' s s' d d' used
    else exists before t r1 s1 d1, used = before ++ [t] /\ finished r r1 s s1 d d1 before /\ broken r1 r' s1 s' t.
Proof using Hne.
  induction turns as [|t turns IH]; intros r s d Hg Hok.
  { exists [], None, r, s, d. split; [done|]. split; [done|]. split; [done|]. split; [done|]. apply finished_nil. }
  apply Forall_cons in Hok as [Ht Hok]. destruct (proxy_turn_ok r t s d Hg Ht) as (e & r1 & s1 & d1 & Heq & Hg1 & Hcase).
  cbn [proxy_loop]. rewrite Heq. cbn [mbind option_bind]. destruct e as [e|].
  - exists [t], (Some e), r1, s1, d1. split; [done|]. split; [done|]. split; [by exists turns|]. split; [done|].
    destruct (clean (Some e)); [done|]. exists [], t, r, s, d. split; [done|]. split; [apply finished_nil|done].
  - cbn [clean] in Hcase. destruct (IH r1 s1 d1 Hg1 Hok) as (used & fin & r2 & s2 & d2 & Hloop & Hg2 & Hpre & Hall & Hfin).
    rewrite Hloop. cbn [mbind option_bind]. exists (t :: used), fin, r2, s2, d2. split; [done|]. split; [done|].
    split; [by apply prefix_cons|]. split; [intros ->; by rewrite Hall|]. destruct (clean fin).
    + exact (finished_trans _ _ _ _ _ _ _ _ _ [t] used Hcase Hfin).
    + destruct Hfin as (before & t' & r3 & s3 & d3 & -> & Hb & Hbr). exists (t :: before), t', r3, s3, d3.
      split; [done|]. split; [exact (finished_trans _ _ _ _ _ _ _ _ _ [t] before Hcase Hb)|done].
Qed.
End Relays.

Lemma pick_limiter_ok sv dst src dstSess srcSess :
  sv_sess sv !! dst = Some dstSess -> sv_sess sv !! src = Some srcSess ->
  limiter_ok sv (pick_limiter dst src dstSess srcSess).
Proof.
  intros Hd Hs. unfold pick_limiter.
  repeat match goal with |- context [if ?b then _ else _] => destruct b end; cbn [mbind option_bind limiter_ok]; [..|done].
  all: match goal with |- context [s_bandwidthLimiter ?x] => destruct (s_bandwidthLimiter x) eqn:E end; [|done].
  all: cbn [mbind option_bind limiter_ok]; eexists; split; [done|]; by rewrite E.
Qed.

(** C19. A relay between two sessions forwards what it reads: it never panics,
    and whatever it meets, the destination receives the bytes read from the
    source, in order and without gaps. When neither a quota nor a failed write
    has ended it, all of them are delivered, [written] is their number, the
    source's sent bytes and packets and its usage, and the destination's
    received bytes and packets and its usage, have grown by exactly the bytes
    and reads relayed. Otherwise only the last read is affected: everything
    before it was delivered and is what [written] counts, of the last one a
    first part may have been delivered, and the source's sent bytes have all
    of it. *)
Theorem proxy_forwards other sv dst src s d turns :
  dst <> src -> books sv src = Some s -> books sv dst = Some d -> Forall turn_ok turns ->
  exists used fin r s' d', proxy other sv dst src turns = Some (used, fin, r) /\
    used `prefix_of` turns /\ (fin = None -> used = turns) /\
    books (p_sv r) src = Some s' /\ books (p_sv r) dst = Some d' /\
    if clean fin then
      p_stream r = bytes_of used /\ i64 (p_written r) = i64 (size_of used) /\
      adds s s' (size_of used) (packets_of used) 0 0 (size_of used) /\
      adds d d' 0 0 (size_of used) (packets_of used) (size_of used)
    else exists before t k, used = before ++ [t] /\ p_stream r = bytes_of before ++ take k (data_of t) /\
      i64 (p_written r) = i64 (size_of before) /\ u64 (l_tx s') = u64 (l_tx s + size_of used).
Proof.
  intros Hne Hs Hd Hok. destruct (books_session sv src s Hs) as (x & Hx & _), (books_session sv dst d Hd) as (y & Hy & _).
  unfold proxy. rewrite Hy, Hx. cbn [mbind option_bind].
  destruct (proxy_loop_ok other dst src _ Hne turns (MkRelay sv 0 [] false false) s d
              (conj (pick_limiter_ok sv dst src y x Hy Hx) (conj Hs Hd)) Hok)
    as (used & fin & r & s' & d' & -> & (_ & Hs' & Hd') & Hpre & Hall & Hfin).
  exists used, fin, r, s', d'. split_and!; [done..|]. destruct (clean fin); [exact Hfin|].
  destruct Hfin as (before & t & r1 & s1 & d1 & -> & (S1 & W1 & [A1 _ _ _ _] & _) & (k & Hk) & W2 & T2).
  exists before, t, k. split_and!; [done| | |].
  - by rewrite Hk, S1.
  - by rewrite W2, W1.
  - rewrite T2, <- u64_add_l, A1, u64_add_l. f_equal. unfold size_of, bytes_of. rewrite fmap_app, concat_app, length_app.
    cbn [concat fmap list_fmap]. rewrite app_nil_r. lia.
Qed.

(** Two sessions, the source with a quota of two bytes. *)
Definition sample_session (limit : Z) : Session :=
  set_bandwidth (set_quota (newServerSession "tcp-1") (MkQuota 0 limit 0 [])) 8 (Some (NewSmoothLimiter 0 1048576)).
Definition sample_server : Server :=
  MkServer {[1%nat := sample_session 2; 2%nat := sample_session ValueNoLimit]} ∅ ∅ ∅ 0.
Definition sample_turns : list turn :=
  [Relay [1; 2; 3] None 3 None 0 10; Relay [] None 0 None 10 10; Relay [4; 5] None 2 None 20 30;
   Relay [6] (Some EOF) 1 None 30 40].

Lemma proxy_forwards_witness :
  exists used fin r, proxy (fun _ => 0) sample_server 2 1 sample_turns = Some (used, fin, r) /\
    used = take 3 sample_turns /\ fin = Some (Some ErrQuotaExceeded) /\ p_written r = 3 /\
    exists before t k, used = before ++ [t] /\ p_stream r = bytes_of before ++ take k (data_of t).
Proof.
  destruct (proxy_forwards (fun _ => 0) sample_server 2 1 (MkLedger 0 0 0 0 0) (MkLedger 0 0 0 0 0) sample_turns)
    as (used & fin & r & s' & d' & Hrun & _ & _ & _ & _ & Hfin);
    [done|vm_compute; reflexivity..| |].
  { unfold sample_turns. repeat constructor; cbn; try done; lia. }
  pose proof Hrun as Hrun'. vm_compute in Hrun'. injection Hrun' as <- <- <-.
  eexists _, _, _. split; [exact Hrun|]. split; [done|]. split; [done|]. split; [done|].
  destruct Hfin as (before & t & k & H1 & H2 & _). by exists before, t, k.
Defined.
