(* ===== verification/TcpLink.v ===== *)
(** * Connections over TCP (vnet/client/client_tcp.go, vnet/server/server_tcp.go)

    Connections are numbers. What dialling, writing and reading give is an
    argument; the first packet of a connection is what one [Read] of the server
    returns. The outer [None] is a panic. *)

From S2P Require Import Prelude GoNet Router Hub QuotaCounter GoFloat SmoothLimiter Metrics Server Proxy.

#[local] Open Scope string_scope.
#[local] Open Scope Z_scope.

Definition dispatchTypeControl : Z := 1.
Definition dispatchTypeIPv4 : Z := 4.
Definition dispatchTypeIPv6 : Z := 6.

Inductive tcp_error := InvalidType (typ : Z) | WriteFailed | AckFailed | InvalidAck (ack : Z) | DialFailed.

(** [net.ParseIP(s).To4()[:4]]: slicing the nil result of a failure panics. *)
Definition ip4_of (s : string) : option (list Z) := ip ← ParseIP s; To4 ip.
Definition ip16_of (s : string) : option (list Z) := ip ← ParseIP s; To16 ip.

(** The packet a client sends first; the whole buffer of 33 bytes is written
    whatever the type. *)
Definition dispatch_packet (typ : Z) (from to : string) : option (tcp_error + list Z) :=
  let buf := typ :: replicate 32 0 in
  if typ =? dispatchTypeControl then Some (inr buf)
  else if typ =? dispatchTypeIPv4 then
    f ← ip4_of from; t ← ip4_of to; Some (inr (blit (blit buf 1 f) 5 t))
  else if typ =? dispatchTypeIPv6 then
    f ← ip16_of from; t ← ip16_of to; Some (inr (blit (blit buf 1 f) 17 t))
  else Some (inl (InvalidType typ)).

(** [dispatch] of the client: what it writes, and its error when the write
    succeeds or not and the answer is [ack]. *)
Definition client_dispatch (typ : Z) (from to : string) (write_ok : bool) (ack : option Z)
    : option (option tcp_error * list Z) :=
  res ← dispatch_packet typ from to;
  match res with
  | inl e => Some (Some e, [])
  | inr buf =>
      if negb write_ok then Some (Some WriteFailed, buf)
      else match ack with
           | None => Some (Some AckFailed, buf)
           | Some a => Some ((if a =? 1 then None else Some (InvalidAck a)), buf)
           end
  end.

(** ** The client's connections *)

Record tcpClient := MkTcpClient {
  tc_IP : string; tc_control : option nat; tc_rx : option nat; tc_conn : gmap string nat; tc_closed : list nat }.

(** [Setup]: after a failed dispatch the connection is closed but still
    returned, with the error. *)
Definition Setup (c : tcpClient) (dialed : option nat) (write_ok : bool) (ack : option Z)
    : option (option tcp_error * option nat * tcpClient) :=
  match dialed with
  | None => Some (Some DialFailed, None, c)
  | Some conn =>
      '(e, _) ← client_dispatch dispatchTypeControl "" "" write_ok ack;
      Some (e, Some conn,
            MkTcpClient (tc_IP c) (Some conn) (tc_rx c) (tc_conn c)
              (match e with Some _ => tc_closed c ++ [conn] | None => tc_closed c end)%list)
  end.

(** [Dial]: the connection for a destination; dialling the own address sets up
    the receiving connection and returns none. *)
Definition Dial (c : tcpClient) (dst : string) (dialed : option nat) (write_ok : bool) (ack : option Z)
    : option (option tcp_error * option nat * tcpClient) :=
  match tc_conn c !! dst with
  | Some rw => Some (None, Some rw, c)
  | None =>
      match dialed with
      | None => Some (Some DialFailed, None, c)
      | Some conn =>
          '(e, _) ← client_dispatch dispatchTypeIPv4 (tc_IP c) dst write_ok ack;
          match e with
          | Some e => Some (Some e, None, MkTcpClient (tc_IP c) (tc_control c) (tc_rx c) (tc_conn c) (tc_closed c ++ [conn])%list)
          | None =>
              if String.eqb dst (tc_IP c)
              then Some (None, None, MkTcpClient (tc_IP c) (tc_control c) (Some conn) (tc_conn c) (tc_closed c))
              else Some (None, Some conn, MkTcpClient (tc_IP c) (tc_control c) (tc_rx c) (<[dst := conn]> (tc_conn c)) (tc_closed c))
          end
      end
  end.

Definition dialRx (c : tcpClient) (dialed : option nat) (write_ok : bool) (ack : option Z) : option tcpClient :=
  '(_, _, c) ← Dial c (tc_IP c) dialed write_ok ack; Some c.

Definition CloseDst (c : tcpClient) (dst : string) : tcpClient :=
  match tc_conn c !! dst with
  | Some rw => MkTcpClient (tc_IP c) (tc_control c) (tc_rx c) (delete dst (tc_conn c)) (tc_closed c ++ [rw])%list
  | None => c
  end.

(** [Close]: the signal channel is never closed, so everything is closed on
    every call. *)
Definition tcpClient_Close (c : tcpClient) : tcpClient :=
  MkTcpClient (tc_IP c) None None ∅
    (tc_closed c ++ option_list (tc_control c) ++ option_list (tc_rx c) ++ (map_to_list (tc_conn c)).*2)%list.

(** ** The server's side *)

(** Connections that wait: new sessions, and transports by the address of the
    client that opened them. *)
Record tcpServer := MkTcpServer {
  ts_acceptCh : list nat; ts_txChs : gmap string (list nat); ts_transportConn : gmap string nat; ts_closed : list nat }.

Inductive dispatch_error := DispatchTimeout | SessionNotFound (dst : string) | UnsupportedType (typ : Z).

Definition IPv4_text (l : list Z) (i : Z) : option string :=
  a ← index l i; b ← index l (i + 1); c ← index l (i + 2); d ← index l (i + 3);
  Some (ip_String (v4InV6Prefix ++ [a; b; c; d])%list).

(** [dispatch]: the error, and whether the acknowledgement is written. *)
Definition dispatch (ts : tcpServer) (sv : Server) (conn : nat) (first : option (list Z))
    : option (option dispatch_error * tcpServer * Server) :=
  match first with
  | None => Some (Some DispatchTimeout, ts, sv)
  | Some first =>
      let fail e := Some (Some e, MkTcpServer (ts_acceptCh ts) (ts_txChs ts) (ts_transportConn ts) (ts_closed ts ++ [conn])%list, sv) in
      typ ← index first 0;
      if typ =? 1 then
        Some (None, MkTcpServer (ts_acceptCh ts ++ [conn])%list (ts_txChs ts) (ts_transportConn ts) (ts_closed ts), sv)
      else if typ =? 4 then
        src ← IPv4_text first 1;
        dst ← IPv4_text first 5;
        match sv_sessions sv !! dst with
        | None => fail (SessionNotFound dst)
        | Some p =>
            let ts := MkTcpServer (ts_acceptCh ts) (ts_txChs ts) (<[dst := conn]> (ts_transportConn ts)) (ts_closed ts) in
            if String.eqb src dst then
              sess ← sv_sess sv !! p;
              Some (None, ts, with_sess sv p (set_storage sess (<["rx" := StoredConn conn]> (s_storage sess))))
            else
              let ch := default [] (ts_txChs ts !! src) in
              Some (None, MkTcpServer (ts_acceptCh ts) (<[src := (ch ++ [conn])%list]> (ts_txChs ts)) (ts_transportConn ts) (ts_closed ts), sv)
        end
      else fail (UnsupportedType typ)
  end.

(** What a waiting [select] receives: the end of the server, the error of a
    dispatched connection (one channel for the whole transport server), the end
    of the session, or a connection. *)
Inductive select_case := CaseSig | CaseErr (e : dispatch_error) | CaseSession | CaseConn.
Inductive accept_error := ServerClosed | SessionClosed | CtxDone | Dispatching (e : dispatch_error).

(** A connection for a new session. [None]: the case cannot happen yet. *)
Definition Accept (ts : tcpServer) (c : select_case) : option ((accept_error + nat) * tcpServer) :=
  match c with
  | CaseSig => Some (inl ServerClosed, ts)
  | CaseErr e => Some (inl (Dispatching e), ts)
  | CaseSession => None
  | CaseConn =>
      match ts_acceptCh ts with
      | conn :: rest => Some (inr conn, MkTcpServer rest (ts_txChs ts) (ts_transportConn ts) (ts_closed ts))
      | [] => None
      end
  end.

(** The next transport of the session with the address [ip]. *)
Definition AcceptTransport (ts : tcpServer) (ip : string) (c : select_case) : option ((accept_error + nat) * tcpServer) :=
  let ch := default [] (ts_txChs ts !! ip) in
  let with_ch ch := MkTcpServer (ts_acceptCh ts) (<[ip := ch]> (ts_txChs ts)) (ts_transportConn ts) (ts_closed ts) in
  match c with
  | CaseSig => Some (inl ServerClosed, with_ch ch)
  | CaseErr e => Some (inl (Dispatching e), with_ch ch)
  | CaseSession => Some (inl SessionClosed, with_ch ch)
  | CaseConn => match ch with conn :: rest => Some (inr conn, with_ch rest) | [] => None end
  end.

(** The loop of [handleSession]: the transports it starts, and why it ended. *)
Inductive loop_event := LoopSig | LoopSession | LoopCtx | LoopAccept (c : select_case).

Fixpoint session_loop (ts : tcpServer) (ip : string) (events : list loop_event)
    : option (list nat * option accept_error * tcpServer) :=
  match events with
  | [] => Some ([], None, ts)
  | LoopSig :: _ => Some ([], Some ServerClosed, ts)
  | LoopSession :: _ => Some ([], Some SessionClosed, ts)
  | LoopCtx :: _ => Some ([], Some CtxDone, ts)
  | LoopAccept c :: events' =>
      '(res, ts) ← AcceptTransport ts ip c;
      match res with
      | inl e => Some ([], Some e, ts)
      | inr conn => '(conns, e, ts) ← session_loop ts ip events'; Some (conn :: conns, e, ts)
      end
  end.

Definition GetDstTransportWriter (dst : Session) : option nat :=
  match s_storage dst !! "rx" with Some (StoredConn conn) => Some conn | _ => None end.

(** [handleTransport] up to the relay: the acknowledgement, the session of the
    destination and the connection that leads to it. *)
Definition handleTransport (sv : Server) (p : nat) (first : option string) : option (transport_error + Z * nat * nat) :=
  res ← negotiation sv p first;
  match res with
  | inl e => Some (inl e)
  | inr (ack, d) =>
      dstSession ← sv_sess sv !! d;
      Some (match GetDstTransportWriter dstSession with Some rwc => inr (ack, d, rwc) | None => inl (NoWriter d) end)
  end.
