(* ===== verification/TcpProps.v ===== *)
(** * Clients meet over TCP *)

From S2P Require Import Prelude GoNet Router RouterSpec RouterProps IPPool IPPoolProps HostRoutes.
From S2P Require Import QuotaCounter GoFloat SmoothLimiter Metrics Server Proxy TcpLink.

(** ** The first packet *)

Definition link_packet (a b : Z) : list Z := 4 :: (be_put 4 a ++ be_put 4 b ++ replicate 24 0).

Lemma ip4_of_text a : ip4_of (addr_text a) = Some (be_put 4 a).
Proof. unfold ip4_of. rewrite ParseIP_addr_text. cbn [mbind option_bind]. apply To4_mapped, length_be_put. Qed.

Lemma be_put_4 a : exists x y z w, be_put 4 a = [x; y; z; w].
Proof.
  pose proof (length_be_put 4 a) as H. destruct (be_put 4 a) as [|x [|y [|z [|w [|? ?]]]]]; try done. by eexists _, _, _, _.
Qed.

Lemma dispatch_packet_ip4 a b : dispatch_packet dispatchTypeIPv4 (addr_text a) (addr_text b) = Some (inr (link_packet a b)).
Proof.
  unfold dispatch_packet. change (dispatchTypeIPv4 =? dispatchTypeControl) with false.
  change (dispatchTypeIPv4 =? dispatchTypeIPv4) with true. cbv iota. rewrite !ip4_of_text. cbn [mbind option_bind].
  unfold link_packet. destruct (be_put_4 a) as (x & y & z & w & ->), (be_put_4 b) as (x' & y' & z' & w' & ->). done.
Qed.

Lemma link_packet_text a b : IPv4_text (link_packet a b) 1 = Some (addr_text a) /\ IPv4_text (link_packet a b) 5 = Some (addr_text b).
Proof.
  rewrite !addr_text_be. unfold IPv4_text, link_packet, ip_String.
  pose proof (length_be_put 4 a) as Ha. pose proof (length_be_put 4 b) as Hb.
  destruct (be_put_4 a) as (x & y & z & w & Ea), (be_put_4 b) as (x' & y' & z' & w' & Eb). rewrite Ea, Eb in *. by split.
Qed.

(** ** Dispatching *)

Lemma dispatch_rx ts sv conn b p s :
  sv_sessions sv !! addr_text b = Some p -> sv_sess sv !! p = Some s ->
  dispatch ts sv conn (Some (link_packet b b)) =
    Some (None, MkTcpServer (ts_acceptCh ts) (ts_txChs ts) (<[addr_text b := conn]> (ts_transportConn ts)) (ts_closed ts),
          with_sess sv p (set_storage s (<["rx"%string := StoredConn conn]> (s_storage s)))).
Proof.
  intros Hp Hs. unfold dispatch. change (index (link_packet b b) 0) with (Some 4). cbn [mbind option_bind].
  change (4 =? 1) with false. change (4 =? 4) with true. cbv iota. destruct (link_packet_text b b) as [-> ->].
  cbn [mbind option_bind]. rewrite Hp, String.eqb_refl, Hs. done.
Qed.

Lemma dispatch_tx ts sv conn a b p :
  0 <= a < 2 ^ 32 -> 0 <= b < 2 ^ 32 -> a <> b -> sv_sessions sv !! addr_text b = Some p ->
  dispatch ts sv conn (Some (link_packet a b)) =
    Some (None, MkTcpServer (ts_acceptCh ts)
                  (<[addr_text a := default [] (ts_txChs ts !! addr_text a) ++ [conn]]> (ts_txChs ts))
                  (<[addr_text b := conn]> (ts_transportConn ts)) (ts_closed ts), sv).
Proof.
  intros Ha Hb Hne Hp. unfold dispatch. change (index (link_packet a b) 0) with (Some 4). cbn [mbind option_bind].
  change (4 =? 1) with false. change (4 =? 4) with true. cbv iota. destruct (link_packet_text a b) as [-> ->].
  cbn [mbind option_bind]. rewrite Hp. assert (String.eqb (addr_text a) (addr_text b) = false) as ->; [|done].
  apply String.eqb_neq. intros E. apply Hne. by apply addr_text_inj.
Qed.

Lemma dispatch_unknown ts sv conn a b :
  sv_sessions sv !! addr_text b = None ->
  dispatch ts sv conn (Some (link_packet a b)) =
    Some (Some (SessionNotFound (addr_text b)),
          MkTcpServer (ts_acceptCh ts) (ts_txChs ts) (ts_transportConn ts) (ts_closed ts ++ [conn]), sv).
Proof.
  intros Hp. unfold dispatch. change (index (link_packet a b) 0) with (Some 4). cbn [mbind option_bind].
  change (4 =? 1) with false. change (4 =? 4) with true. cbv iota. destruct (link_packet_text a b) as [-> ->].
  cbn [mbind option_bind]. by rewrite Hp.
Qed.

(** Errors of dispatching go to whoever waits: the refused connection of one
    client ends the session of another one. *)
Lemma foreign_error_ends_session ts sv conn a b ip :
  sv_sessions sv !! addr_text b = None ->
  exists e ts', dispatch ts sv conn (Some (link_packet a b)) = Some (Some e, ts', sv) /\
    exists ts'', session_loop ts' ip [LoopAccept (CaseErr e); LoopAccept CaseConn] = Some ([], Some (Dispatching e), ts'').
Proof.
  intros Hb. eexists _, _. split; [by apply dispatch_unknown|]. by eexists.
Qed.

(** C22. Clients meet: when the client with the address [b] has opened its
    receiving connection and the client with the address [a] dials [b], both
    packets being read whole, the server accepts them, hands the connection of
    [a] to the session of [a], and relays it to the session the route of [b]
    leads to, on the receiving connection of [b]; the clients see success. A
    destination without a session is refused and its connection closed. *)
Theorem tcp_clients_meet ts sv a b pa pb sa sb w n q rx tx :
  0 <= a < 2 ^ 32 -> 0 <= b < 2 ^ 32 -> a <> b -> pa <> pb ->
  sv_sessions sv !! addr_text b = Some pb -> sv_sess sv !! pb = Some sb ->
  sv_sess sv !! pa = Some sa -> s_network sa = Some w -> sv_nets sv !! w = Some n -> s_quota sa = Some q ->
  RouteString (n_router n) (addr_text b) = Some (Some pb) -> ts_txChs ts !! addr_text a = None ->
  exists pkt_b pkt_a ts1 sv1 ts2 ts3 ack,
    client_dispatch dispatchTypeIPv4 (addr_text b) (addr_text b) true (Some 1) = Some (None, pkt_b) /\
    client_dispatch dispatchTypeIPv4 (addr_text a) (addr_text b) true (Some 1) = Some (None, pkt_a) /\
    dispatch ts sv rx (Some pkt_b) = Some (None, ts1, sv1) /\ dispatch ts1 sv1 tx (Some pkt_a) = Some (None, ts2, sv1) /\
    session_loop ts2 (addr_text a) [LoopAccept CaseConn] = Some ([tx], None, ts3) /\
    handleTransport sv1 pa (Some (addr_text b)) = Some (inr (ack, pb, rx)) /\
    forall c x, sv_sessions sv !! addr_text c = None ->
      dispatch ts sv x (Some (link_packet a c)) =
        Some (Some (SessionNotFound (addr_text c)),
              MkTcpServer (ts_acceptCh ts) (ts_txChs ts) (ts_transportConn ts) (ts_closed ts ++ [x]), sv).
Proof.
  intros Ha Hb Hne Hp Htab Hsb Hsa Hw Hn Hq Hroute Hch.
  exists (link_packet b b), (link_packet a b). eexists _, _, _, _, _. split_and!.
  - unfold client_dispatch. by rewrite dispatch_packet_ip4.
  - unfold client_dispatch. by rewrite dispatch_packet_ip4.
  - by apply dispatch_rx.
  - by apply (dispatch_tx _ _ _ a b pb).
  - cbn [session_loop]. unfold AcceptTransport. cbn [ts_txChs]. rewrite lookup_insert_eq, Hch. reflexivity.
  - unfold handleTransport, negotiation. cbn [sv_sess with_sess sv_nets]. rewrite lookup_insert_ne by done. rewrite Hsa.
    cbn [mbind option_bind]. rewrite Hw. cbn [mbind option_bind]. rewrite Hn. cbn [mbind option_bind]. rewrite Hroute.
    cbn [mbind option_bind]. rewrite Hq. cbn [mbind option_bind]. rewrite lookup_insert_eq. cbn [mbind option_bind].
    unfold GetDstTransportWriter. cbn [s_storage set_storage]. rewrite lookup_insert_eq. reflexivity.
  - intros c x Hc. by apply dispatch_unknown.
Qed.

(** Two clients: session 1 has the address 10.1.0.1, session 2 10.1.0.10. *)
Definition sample_link_session : Session := set_quota (SetNetwork (newServerSession "tcp-1") 0) (MkQuota 0 (-1) 0 []).
Definition sample_link_net : Network :=
  MkNetwork "home" "10.1.0.0/16" 1400 ∅ (default NewRouter (Register NewRouter "10.1.0.10/32" 2%nat))
    (MkIPAllocator "" [] [] ∅ "" 0 0).
Definition sample_link_server : Server :=
  MkServer {[1%nat := sample_link_session; 2%nat := sample_link_session]} {[0%nat := sample_link_net]}
    {["10.1.0.1"%string := 1%nat; "10.1.0.10"%string := 2%nat]} ∅ 0.

Lemma tcp_clients_meet_witness :
  exists pkt_a ts1 sv1 ts2 ack, client_dispatch dispatchTypeIPv4 "10.1.0.1" "10.1.0.10" true (Some 1) = Some (None, pkt_a) /\
    dispatch ts1 sv1 8 (Some pkt_a) = Some (None, ts2, sv1) /\
    handleTransport sv1 1 (Some "10.1.0.10"%string) = Some (inr (ack, 2%nat, 7%nat)).
Proof.
  destruct (tcp_clients_meet (MkTcpServer [] ∅ ∅ []) sample_link_server 167837697 167837706 1 2 sample_link_session sample_link_session
    0 sample_link_net (MkQuota 0 (-1) 0 []) 7 8) as (pkt_b & pkt_a & ts1 & sv1 & ts2 & ts3 & ack & _ & H1 & _ & H2 & _ & H3 & _);
    [lia|lia|lia|lia|vm_compute; reflexivity|vm_compute; reflexivity|vm_compute; reflexivity|vm_compute; reflexivity|
     vm_compute; reflexivity|vm_compute; reflexivity|vm_compute; reflexivity|vm_compute; reflexivity|].
  exists pkt_a, ts1, sv1, ts2, ack. split; [exact H1|]. split; [exact H2|exact H3].
Defined.
