(* ===== verification/QuicLink.v ===== *)
(** * Connections over QUIC (vnet/client/client_quic.go, vnet/server/server_quic.go)

    Connections and streams are numbers. What dialling, opening and accepting
    give is an argument. The outer [None] is a panic. *)

From S2P Require Import Prelude GoNet Router QuotaCounter GoFloat SmoothLimiter Metrics Server Proxy TcpLink.

#[local] Open Scope Z_scope.

(** ** The client *)

(** The connection and the sending streams by destination; [qc_closed] and
    [qc_conn_closed] are what has been closed, in order. *)
Record quicClient := MkQuicClient {
  qc_conn : option nat; qc_streams : gmap string nat; qc_closed : list nat; qc_conn_closed : list nat }.

Definition newQuicClient : quicClient := MkQuicClient None ∅ [] [].

(** [Setup]: whatever [DialAddr] returns is kept; the control messages go over
    the same connection. The result is whether there was no error. *)
Definition Setup (c : quicClient) (dialed : option nat) : bool * quicClient :=
  (match dialed with Some _ => true | None => false end,
   MkQuicClient dialed (qc_streams c) (qc_closed c) (qc_conn_closed c)).

(** The receiving loop: every accepted stream is handed to the hub; the first
    error ends the loop, and then all receivers are cancelled. [None] among the
    results is an error. The streams handed over, and those cancelled. *)
Fixpoint rxLoop (accepted : list (option nat)) (cancels : list nat) : list nat * list nat :=
  match accepted with
  | Some stream :: accepted' =>
      let '(rx, cancelled) := rxLoop accepted' (cancels ++ [stream]) in (stream :: rx, cancelled)
  | None :: _ => ([], cancels)
  | [] => ([], [])
  end.

Inductive quic_dial := OpenFailed | Stream (rw : nat).

(** [Dial]: the stream kept for the destination, or a new one, which is kept.
    Without a connection the call of a nil pointer panics. *)
Definition Dial (c : quicClient) (dst : string) (opened : option nat) : option (quic_dial * quicClient) :=
  match qc_streams c !! dst with
  | Some rw => Some (Stream rw, c)
  | None =>
      _ ← qc_conn c;
      Some match opened with
           | None => (OpenFailed, c)
           | Some stream =>
               (Stream stream, MkQuicClient (qc_conn c) (<[dst := stream]> (qc_streams c)) (qc_closed c) (qc_conn_closed c))
           end
  end.

Definition CloseDst (c : quicClient) (dst : string) : quicClient :=
  match qc_streams c !! dst with
  | Some rw => MkQuicClient (qc_conn c) (delete dst (qc_streams c)) (qc_closed c ++ [rw]) (qc_conn_closed c)
  | None => c
  end.

(** An error of a destination closes its stream. *)
Definition OnError (c : quicClient) (dst : string) : quicClient := CloseDst c dst.

(** [Close]: the signal channel is never closed, so every call goes through. *)
Definition quicClient_Close (c : quicClient) : quicClient :=
  MkQuicClient None ∅ (qc_closed c ++ (map_to_list (qc_streams c)).*2) (qc_conn_closed c ++ option_list (qc_conn c)).

(** ** The server's side *)

(** What a session talks over: [Type] and [conn] of the session. *)
Inductive endpoint := EndpointQuic (conn : nat) | EndpointTcp.

Inductive quic_error := AcceptFailed | InvalidSessionType.

(** A new session for an accepted connection. *)
Definition Accept (accepted : option nat) : quic_error + endpoint * Session :=
  match accepted with
  | None => inl AcceptFailed
  | Some conn => inr (EndpointQuic conn, newServerSession "")
  end.

Definition QuicConn (e : endpoint) : option nat := match e with EndpointQuic conn => Some conn | EndpointTcp => None end.

Definition AcceptTransport (e : endpoint) (accepted : nat -> option nat) : quic_error + nat :=
  match QuicConn e with
  | None => inl InvalidSessionType
  | Some conn => match accepted conn with Some stream => inr stream | None => inl AcceptFailed end
  end.

(** A new stream on the connection of the destination. *)
Definition GetDstTransportWriter (e : endpoint) (opened : nat -> option nat) : option nat :=
  conn ← QuicConn e; opened conn.

(** [dstSession.ref.GetDstTransportWriter]: by the destination's transport. *)
Definition dst_writer (e : endpoint) (dst : Session) (opened : nat -> option nat) : option nat :=
  match e with
  | EndpointQuic _ => GetDstTransportWriter e opened
  | EndpointTcp => TcpLink.GetDstTransportWriter dst
  end.

(** [handleTransport] up to the relay, for sessions of both transports. *)
Definition handleTransport (sv : Server) (eps : gmap nat endpoint) (p : nat) (first : option string) (opened : nat -> option nat)
    : option (transport_error + Z * nat * nat) :=
  res ← negotiation sv p first;
  match res with
  | inl e => Some (inl e)
  | inr (ack, d) =>
      dstSession ← sv_sess sv !! d;
      e ← eps !! d;
      Some (match dst_writer e dstSession opened with Some rwc => inr (ack, d, rwc) | None => inl (NoWriter d) end)
  end.
