(* ===== verification/Adaptor.v ===== *)
(** * What the hub asks of a transport (vnet/client/hub/hub_tx.go: [TxAdaptor]), and
      its two implementations

    [TxAdaptor] is the interface of the Go code with what can be observed of an
    implementation: the connections it keeps by destination, all connections it
    holds, and those it closed. [TxAdaptorLaws] is what the hub relies on. The
    destinations of a client share one adaptor; [link_step] is one thing that
    happens to them. *)

From S2P Require Import Prelude Router Protocol Pool Hub TcpLink QuicLink.

#[local] Open Scope Z_scope.

(** A nil transport without an error is a result of its own. *)
Inductive dial_result := DialErr | DialNil | DialConn (c : nat).

Class TxAdaptor (A : Type) := {
  answers : Type; (** what the network answers to a dial *)
  offer : answers -> option nat; (** the connection that was made *)
  usable : answers -> bool; (** whether it was accepted *)
  adial : A -> string -> answers -> option (dial_result * A);
  aclose_dst : A -> string -> A;
  aclose : A -> A;
  kept : A -> gmap string nat;
  held : A -> list nat;
  aclosed : A -> list nat;
  dialable : A -> string -> Prop }.

Class TxAdaptorLaws (A : Type) `{TxAdaptor A} := {
  dial_kept : forall a d c x, kept a !! d = Some c -> adial a d x = Some (DialConn c, a);
  dial_new : forall a d x, dialable a d -> kept a !! d = None ->
    exists r a', adial a d x = Some (r, a') /\
      match (if usable x then offer x else None) with
      | None => r = DialErr /\ kept a' = kept a
      | Some c => r = DialConn c /\ kept a' = <[d := c]> (kept a)
      end /\
      (forall c, c ∈ aclosed a -> c ∈ aclosed a') /\
      held a' ++ aclosed a' ≡ₚ option_list (offer x) ++ held a ++ aclosed a /\
      forall d', dialable a d' -> dialable a' d';
  close_dst : forall a d,
    kept (aclose_dst a d) = delete d (kept a) /\
    aclosed (aclose_dst a d) = aclosed a ++ option_list (kept a !! d) /\
    held (aclose_dst a d) ++ aclosed (aclose_dst a d) ≡ₚ held a ++ aclosed a /\
    forall d', dialable a d' -> dialable (aclose_dst a d) d';
  close_all : forall a,
    kept (aclose a) = ∅ /\ held (aclose a) = [] /\ aclosed (aclose a) ≡ₚ held a ++ aclosed a }.

(** ** The two implementations *)

Definition tcp_dial (c : tcpClient) (d : string) (x : option nat * bool * option Z) : option (dial_result * tcpClient) :=
  let '(dialed, write_ok, ack) := x in
  '(e, rw, c) ← TcpLink.Dial c d dialed write_ok ack;
  Some (match e, rw with Some _, _ => DialErr | None, Some n => DialConn n | None, None => DialNil end, c).

Definition tcp_held (c : tcpClient) : list nat :=
  option_list (tc_control c) ++ option_list (tc_rx c) ++ (map_to_list (tc_conn c)).*2.

#[export] Instance tcp_adaptor : TxAdaptor tcpClient := {
  answers := option nat * bool * option Z;
  offer x := x.1.1;
  usable x := x.1.2 && match x.2 with Some a => a =? 1 | None => false end;
  adial := tcp_dial;
  aclose_dst := TcpLink.CloseDst;
  aclose := tcpClient_Close;
  kept := tc_conn;
  held := tcp_held;
  aclosed := tc_closed;
  dialable c d := d <> tc_IP c /\ is_Some (ip4_of (tc_IP c)) /\ is_Some (ip4_of d) }.

Definition quic_result (r : quic_dial) : dial_result := match r with OpenFailed => DialErr | Stream c => DialConn c end.

#[export] Instance quic_adaptor : TxAdaptor quicClient := {
  answers := option nat;
  offer x := x;
  usable _ := true;
  adial c d x := '(r, c) ← QuicLink.Dial c d x; Some (quic_result r, c);
  aclose_dst := QuicLink.OnError;
  aclose := quicClient_Close;
  kept := qc_streams;
  held c := (map_to_list (qc_streams c)).*2;
  aclosed := qc_closed;
  dialable c _ := is_Some (qc_conn c) }.

(** ** Destinations over an adaptor *)

(** A destination sends over a connection of the adaptor or over a direct
    stream. *)
Inductive way := Relay (c : nat) | Direct (s : nat).

(** What an attempt at a direct connection ends with: an error; nothing, because
    it is disabled or the peer is unknown; a stream that passed the evaluation. *)
Inductive p2p_result := P2PError | P2PNothing | P2PStream (s : nat).

(** [replaceP2P]: a direct connection is not replaced. *)
Definition replace_direct (s : nat) (dst : Destination (RW := way)) : Destination :=
  (ReplaceTx (fun old => match old with Some (Direct _) => (None, false) | _ => (Some (Direct s), true) end) dst).2.

(** [tryP2P], the function set with [SetP2PDialFunc]: whether it returns without
    error. [AfterDial] of the client calls it too and only logs an error. *)
Definition try_direct (r : p2p_result) (dst : Destination (RW := way)) : bool * Destination :=
  match tx dst, r with
  | Some (Direct _), _ => (true, dst)
  | _, P2PError => (false, dst)
  | _, P2PNothing => (true, dst)
  | _, P2PStream s => (true, replace_direct s dst)
  end.
Definition AfterDial (r : p2p_result) (dst : Destination (RW := way)) : Destination := (try_direct r dst).2.

Section Links.
Context {A : Type} `{TxAdaptor A}.

(** Every destination with the number of events in its channel. *)
Record links := MkLinks { l_adaptor : A; l_dsts : gmap string (Destination (RW := way) * nat) }.

(** A packet is pushed (when its channel has room), with what the network would
    answer to a dial, whether the address could be written, the answer of the
    server and what an attempt at a direct connection would end with; the loop of
    a destination takes [n] events and writes them; a direct connection is set up
    by the peer or in the background. *)
Inductive link_event :=
| Push (d : string) (x : answers) (write_ok : bool) (answer : option Z) (r : p2p_result)
| Write (d : string) (n : nat) (write_ok : bool)
| Replace (d : string) (s : nat).

(** [PushTxEvent] with [Dial], and [OnError] when the negotiation fails; a nil
    transport is dereferenced. *)
Definition link_push (l : links) (d : string) (x : answers) (write_ok : bool) (answer : option Z) (r : p2p_result)
    : option (option neg_error * links) :=
  '(dst, n) ← l_dsts l !! d;
  '(e, dst, a) ←
    match tx dst with
    | Some _ => Some (None, dst, l_adaptor l)
    | None =>
        '(res, a) ← adial (l_adaptor l) d x;
        dial ← match res with DialErr => Some DialError | DialNil => None | DialConn c => Some (Dialed (Relay c) write_ok answer) end;
        let '(e, dst) := PushTxEvent dial (Some (try_direct r)) (AfterDial r) dst in
        Some (e, dst, match e with Some _ => aclose_dst a d | None => a end)
    end;
  Some (e, MkLinks a (<[d := (dst, match e with Some _ => n | None => S n end)]> (l_dsts l))).

(** A round of the destination's loop: a nil transport is dereferenced, an error
    of the write goes to [fallbackOrReportError] with [OnError]. *)
Definition link_write (l : links) (d : string) (n : nat) (write_ok : bool) : option links :=
  '(dst, m) ← l_dsts l !! d;
  if decide (1 <= n <= m)%nat then
    match tx dst with
    | None => None
    | Some _ =>
        if write_ok then Some (MkLinks (l_adaptor l) (<[d := (dst, (m - n)%nat)]> (l_dsts l)))
        else
          let '(reported, dst) := fallbackOrReportError dst in
          Some (MkLinks (if (reported : bool) then aclose_dst (l_adaptor l) d else l_adaptor l) (<[d := (dst, (m - n)%nat)]> (l_dsts l)))
    end
  else Some l.

Definition link_replace (l : links) (d : string) (s : nat) : option links :=
  '(dst, n) ← l_dsts l !! d;
  Some (MkLinks (l_adaptor l) (<[d := (replace_direct s dst, n)]> (l_dsts l))).

Definition link_step (l : links) (ev : link_event) : option links :=
  match ev with
  | Push d x write_ok answer r => '(_, l) ← link_push l d x write_ok answer r; Some l
  | Write d n write_ok => link_write l d n write_ok
  | Replace d s => link_replace l d s
  end.

Fixpoint link_run (l : links) (evs : list link_event) : option links :=
  match evs with
  | [] => Some l
  | ev :: evs' => l ← link_step l ev; link_run l evs'
  end.
End Links.
Arguments links A : clear implicits.
Arguments link_event A {_}.
