(* ===== verification/AdaptorProps.v ===== *)
(** * Both transports implement the interface, and what destinations over it do *)

From S2P Require Import Prelude Router Protocol Pool Hub TcpLink QuicLink Adaptor.

#[local] Open Scope Z_scope.

(** ** The laws hold for both implementations *)

Lemma values_insert (m : gmap string nat) d c : m !! d = None -> (map_to_list (<[d := c]> m)).*2 ≡ₚ c :: (map_to_list m).*2.
Proof. intros Hd. by rewrite (map_to_list_insert m d c Hd). Qed.

Lemma values_delete (m : gmap string nat) d c : m !! d = Some c -> c :: (map_to_list (delete d m)).*2 ≡ₚ (map_to_list m).*2.
Proof. intros Hd. by rewrite <- (map_to_list_delete m d c Hd). Qed.

Lemma dispatch_ip4_total from to w ack :
  is_Some (ip4_of from) -> is_Some (ip4_of to) ->
  exists e buf, client_dispatch dispatchTypeIPv4 from to w ack = Some (e, buf) /\
    (e = None <-> w && match ack with Some a => a =? 1 | None => false end = true).
Proof.
  intros [f Hf] [t Ht]. unfold client_dispatch, dispatch_packet.
  change (dispatchTypeIPv4 =? dispatchTypeControl) with false. change (dispatchTypeIPv4 =? dispatchTypeIPv4) with true.
  cbv iota. rewrite Hf, Ht. cbn [mbind option_bind]. destruct w; cbn [negb andb]; [|by eexists _, _].
  destruct ack as [a|]; [|by eexists _, _]. destruct (a =? 1); by eexists _, _.
Qed.

Lemma tcp_close_dst (c : tcpClient) d :
  tc_conn (TcpLink.CloseDst c d) = delete d (tc_conn c) /\
  tc_closed (TcpLink.CloseDst c d) = tc_closed c ++ option_list (tc_conn c !! d) /\
  tcp_held (TcpLink.CloseDst c d) ++ tc_closed (TcpLink.CloseDst c d) ≡ₚ tcp_held c ++ tc_closed c.
Proof.
  unfold TcpLink.CloseDst, tcp_held. destruct (tc_conn c !! d) as [rw|] eqn:Ed; cbn [tc_conn tc_closed tc_control tc_rx option_list].
  - split_and!; [done|done|]. rewrite <- (values_delete _ _ _ Ed). solve_Permutation.
  - rewrite (delete_id _ _ Ed), app_nil_r. done.
Qed.

#[export] Instance tcp_laws : TxAdaptorLaws tcpClient.
Proof.
  split.
  - intros a d c x Hd. cbn [adial tcp_adaptor]. unfold tcp_dial, TcpLink.Dial. destruct x as [[di w] ack].
    cbn [kept tcp_adaptor] in Hd. by rewrite Hd.
  - intros a d [[di w] ack] (Hne & Ha & Hd) Hk. cbn in Hk. cbn [adial tcp_adaptor offer usable fst snd].
    unfold tcp_dial, TcpLink.Dial. rewrite Hk. destruct di as [conn|].
    + destruct (dispatch_ip4_total (tc_IP a) d w ack Ha Hd) as (e & buf & -> & He). cbn [mbind option_bind].
      destruct (w && _) eqn:Eu.
      * destruct He as [_ He]. rewrite (He eq_refl). rewrite (proj2 (String.eqb_neq _ _) Hne).
        eexists _, _. split; [reflexivity|]. cbn. split_and!; [done|done|done| |done].
        unfold tcp_held. cbn. rewrite (values_insert _ _ _ Hk). solve_Permutation.
      * destruct e as [e|]; [|by destruct He as [He _]; specialize (He eq_refl)].
        eexists _, _. split; [reflexivity|]. cbn. split_and!; [done|done| | |done].
        -- intros c Hc. apply elem_of_app. by left.
        -- unfold tcp_held. cbn. solve_Permutation.
    + eexists _, _. split; [reflexivity|]. cbn. destruct (w && _); by split_and!.
  - intros a d. destruct (tcp_close_dst a d) as (H1 & H2 & H3). cbn. split_and!; [done..|].
    intros d'. unfold TcpLink.CloseDst. by destruct (_ !! d).
  - intros a. cbn. unfold tcp_held. cbn. split_and!; [done|done|]. solve_Permutation.
Qed.

#[export] Instance quic_laws : TxAdaptorLaws quicClient.
Proof.
  split.
  - intros a d c x Hd. cbn in *. unfold QuicLink.Dial. by rewrite Hd.
  - intros a d x [conn Hc] Hk. cbn in Hk. cbn [adial quic_adaptor offer usable]. unfold QuicLink.Dial. rewrite Hk, Hc.
    cbn [mbind option_bind]. destruct x as [c|]; eexists _, _; (split; [reflexivity|]); cbn; split_and!; try done.
    by rewrite (values_insert _ _ _ Hk).
  - intros a d. cbn. unfold OnError, QuicLink.CloseDst. destruct (qc_streams a !! d) as [rw|] eqn:Ed; cbn.
    + split_and!; [done|done| |done]. rewrite <- (values_delete _ _ _ Ed). solve_Permutation.
    + rewrite (delete_id _ _ Ed), app_nil_r. by split_and!.
  - intros a. cbn. split_and!; [done|done|]. solve_Permutation.
Qed.

(** ** The life of a destination *)

(** No transport yet; refused for an exceeded quota, over a connection that is
    kept; sending over [c]; [c] failed and was closed; sending directly over [s],
    with a connection that is kept or not; directly with [c] to fall back to; and
    fallen back to [c]. [ok] tells whether [c] is still open. *)
Inductive link_state :=
| Idle | Refused (c : nat) | Live (c : nat) | Dead (c : nat)
| Alone (s : nat) (k : option nat) | Backed (s c : nat) (ok : bool) | Fallen (c : nat) (ok : bool).


Definition spec_replace (s : link_state) (stream : nat) : link_state :=
  match s with
  | Idle => Alone stream None
  | Refused c => Alone stream (Some c)
  | Live c => Backed stream c true
  | Dead c => Backed stream c false
  | _ => s
  end.

(** A write that fails; without a transport there is no write. *)
Definition spec_fail (s : link_state) : link_state :=
  match s with Live c => Dead c | Alone s _ => Alone s None | Backed _ c ok => Fallen c ok | _ => s end.

(** What a negotiation over [c] ends with, and whether the packet is queued. *)
Definition negotiated (c : nat) (write_ok : bool) (answer : option Z) (r : p2p_result) : link_state * bool :=
  match (if write_ok then answer else None) with
  | Some code =>
      if code =? Hub.NegotiateResponseQuotaExceeded
      then match r with P2PError => (Idle, false) | P2PNothing => (Refused c, true) | P2PStream s => (Alone s (Some c), true) end
      else if code =? Hub.NegotiateResponseSuccess
      then (match r with P2PStream s => Backed s c true | _ => Live c end, true)
      else (Idle, false)
  | None => (Idle, false)
  end.

Section Refinement.
Context {A : Type} `{TxAdaptor A} `{!TxAdaptorLaws A}.

Definition spec_push (s : link_state) (x : answers) (write_ok : bool) (answer : option Z) (r : p2p_result) : link_state * bool :=
  match s with
  | Idle => match (if usable x then offer x else None) with None => (Idle, false) | Some c => negotiated c write_ok answer r end
  | Refused c => negotiated c write_ok answer r
  | _ => (s, true)
  end.

(** A destination with the number of packets in its channel; [None] when a
    packet is to be written without a transport. *)
Definition spec_state (p : link_state * nat) (ev : link_event A) : option (link_state * nat) :=
  let '(s, n) := p in
  match ev with
  | Push _ x w ans r => let '(s, queued) := spec_push s x w ans r in Some (s, if queued : bool then S n else n)
  | Write _ k w =>
      if decide (1 <= k <= n)%nat then
        match s with Idle | Refused _ => None | _ => Some (if w then s else spec_fail s, (n - k)%nat) end
      else Some (s, n)
  | Replace _ stream => Some (spec_replace s stream, n)
  end.
























(** A destination whose connection was closed after a failed write never dials
    again. *)
Lemma dead_dials_no_more (s : link_state) ev n s' n' :
  spec_state (s, n) ev = Some (s', n') -> s <> Idle -> (forall c, s <> Refused c) -> s' <> Idle /\ forall c, s' <> Refused c.
Proof.
  intros Hs H1 H2. destruct s as [|c|c|c|st o|st c ok|c ok]; [done|by destruct (H2 c)|..];
    (destruct ev as [d x w ans r|d k w|d st']; cbn in Hs; [simplify_eq; naive_solver|repeat case_decide; repeat case_match; simplify_eq; naive_solver|simplify_eq; naive_solver]).
Qed.
End Refinement.

(** Over QUIC: a refused connection is closed and a new one dialled, which is
    used until a direct stream is set up; when that fails, again. *)
Definition sample_links : links quicClient :=
  MkLinks (MkQuicClient (Some 1%nat) ∅ [] []) {["10.1.0.2"%string := (MkDst None None false, 0%nat)]}.



(** A client without direct connections crashes when the quota of the network is
    exceeded. *)
Example exceeded_quota_crashes :
  link_run sample_links [Push "10.1.0.2" (Some 7%nat : answers) true (Some NegotiateResponseQuotaExceeded) P2PNothing; Write "10.1.0.2" 1 true] = None.
Proof. reflexivity. Qed.
