(* ===== verification/QuicProps.v ===== *)
(** * Clients meet over QUIC, and over both transports *)

From S2P Require Import Prelude GoNet Router RouterSpec RouterProps IPPool IPPoolProps HostRoutes.
From S2P Require Import QuotaCounter GoFloat SmoothLimiter Metrics Server Proxy TcpLink QuicLink.

#[local] Open Scope Z_scope.

(** ** The receiving loop *)

Lemma rxLoop_running streams cancels : rxLoop (Some <$> streams) cancels = (streams, []).
Proof. revert cancels. induction streams as [|s streams IH]; intros cancels; [done|]. cbn. by rewrite IH. Qed.

Lemma rxLoop_ends streams rest cancels : rxLoop ((Some <$> streams) ++ None :: rest) cancels = (streams, cancels ++ streams).
Proof.
  revert cancels. induction streams as [|s streams IH]; intros cancels; cbn; [by rewrite app_nil_r|].
  rewrite IH. by rewrite <- app_assoc.
Qed.

(** ** Relaying *)

(** Whatever transport the destination has, a negotiated connection is relayed
    to it. *)
Lemma handleTransport_to sv eps p first opened ack d s e :
  negotiation sv p first = Some (inr (ack, d)) -> sv_sess sv !! d = Some s -> eps !! d = Some e ->
  handleTransport sv eps p first opened =
    Some (match dst_writer e s opened with Some rwc => inr (ack, d, rwc) | None => inl (NoWriter d) end).
Proof. intros Hn Hs He. unfold handleTransport. rewrite Hn. cbn [mbind option_bind]. by rewrite Hs, He. Qed.

(** The rule of the TCP component is the special case without QUIC sessions. *)
Lemma handleTransport_tcp sv eps p first opened :
  (forall d, is_Some (sv_sess sv !! d) -> eps !! d = Some EndpointTcp) ->
  handleTransport sv eps p first opened = TcpLink.handleTransport sv p first.
Proof.
  intros Htcp. unfold handleTransport, TcpLink.handleTransport. destruct (negotiation sv p first) as [[e|[ack d]]|]; cbn [mbind option_bind]; try done.
  destruct (sv_sess sv !! d) as [s|] eqn:Es; cbn [mbind option_bind]; [|done]. by rewrite (Htcp d (mk_is_Some _ _ Es)).
Qed.

Lemma negotiation_ok sv p dst s w n q d :
  sv_sess sv !! p = Some s -> s_network s = Some w -> sv_nets sv !! w = Some n -> s_quota s = Some q ->
  RouteString (n_router n) dst = Some (Some d) ->
  negotiation sv p (Some dst) =
    Some (inr (if IsExceeded q then Proxy.NegotiateResponseQuotaExceeded else Proxy.NegotiateResponseSuccess, d)).
Proof.
  intros Hs Hw Hn Hq Hr. unfold negotiation. rewrite Hs. cbn [mbind option_bind]. rewrite Hw. cbn [mbind option_bind].
  rewrite Hn. cbn [mbind option_bind]. rewrite Hr. cbn [mbind option_bind]. by rewrite Hq.
Qed.

(** C25. Clients meet over QUIC: the client of session [pa] opens one stream for
    the address [b] and reuses it for every later packet; the server accepts it
    for that session and relays it to the session the route of [b] leads to, on
    a new stream of that session's connection, which the other client's
    receiving loop hands to its hub and cancels when the connection ends. A
    destination that came over TCP gets the data on its receiving connection
    instead, and one whose connection refuses a stream gets none. *)
Theorem quic_clients_meet sv (eps : gmap nat endpoint) b pa pb sa sb w n q ca conn_a conn_b tx rx later opened accepted :
  sv_sess sv !! pa = Some sa -> s_network sa = Some w -> sv_nets sv !! w = Some n -> s_quota sa = Some q ->
  sv_sess sv !! pb = Some sb -> RouteString (n_router n) b = Some (Some pb) ->
  qc_conn ca = Some conn_a -> qc_streams ca !! b = None -> accepted conn_a = Some tx -> opened conn_b = Some rx ->
  let ack := if IsExceeded q then Proxy.NegotiateResponseQuotaExceeded else Proxy.NegotiateResponseSuccess in
  exists ca',
    QuicLink.Dial ca b (Some tx) = Some (Stream tx, ca') /\
    (forall x, QuicLink.Dial ca' b x = Some (Stream tx, ca')) /\
    (forall d x, d <> b -> fst <$> QuicLink.Dial ca' d x = fst <$> QuicLink.Dial ca d x) /\
    QuicLink.AcceptTransport (EndpointQuic conn_a) accepted = inr tx /\
    (eps !! pb = Some (EndpointQuic conn_b) ->
       handleTransport sv eps pa (Some b) opened = Some (inr (ack, pb, rx)) /\
       rxLoop (Some <$> rx :: later) [] = (rx :: later, []) /\
       rxLoop ((Some <$> rx :: later) ++ [None]) [] = (rx :: later, rx :: later)) /\
    (eps !! pb = Some EndpointTcp -> forall conn, s_storage sb !! "rx"%string = Some (StoredConn conn) ->
       handleTransport sv eps pa (Some b) opened = Some (inr (ack, pb, conn))) /\
    (forall c, eps !! pb = Some (EndpointQuic c) -> opened c = None ->
       handleTransport sv eps pa (Some b) opened = Some (inl (NoWriter pb))).
Proof.
  intros Hsa Hw Hn Hq Hsb Hr Hc Hk Hacc Hop ack. pose proof (negotiation_ok sv pa b sa w n q pb Hsa Hw Hn Hq Hr) as Hneg.
  exists (MkQuicClient (qc_conn ca) (<[b := tx]> (qc_streams ca)) (qc_closed ca) (qc_conn_closed ca)).
  unfold QuicLink.Dial. cbn [qc_streams qc_conn]. split_and!.
  - by rewrite Hk, Hc.
  - intros x. by rewrite lookup_insert_eq.
  - intros d x Hne. rewrite lookup_insert_ne by done. destruct (qc_streams ca !! d); [done|]. rewrite Hc. by destruct x.
  - unfold QuicLink.AcceptTransport. cbn [QuicConn]. by rewrite Hacc.
  - intros He. rewrite (handleTransport_to _ _ _ _ _ _ _ _ _ Hneg Hsb He). cbn [dst_writer QuicLink.GetDstTransportWriter QuicConn mbind option_bind]. rewrite Hop.
    split_and!; [done|apply (rxLoop_running (rx :: later))|apply (rxLoop_ends (rx :: later) [])].
  - intros He conn Hst. rewrite (handleTransport_to _ _ _ _ _ _ _ _ _ Hneg Hsb He). cbn.
    unfold TcpLink.GetDstTransportWriter. by rewrite Hst.
  - intros c He Ho. rewrite (handleTransport_to _ _ _ _ _ _ _ _ _ Hneg Hsb He). cbn. by rewrite Ho.
Qed.

Definition sample_quic_session : Session := set_quota (SetNetwork (newServerSession "quic-1") 0) (MkQuota 0 (-1) 0 []).
Definition sample_quic_net : Network :=
  MkNetwork "home" "10.1.0.0/16" 1400 ∅ (default NewRouter (Register NewRouter "10.1.0.10/32" 2%nat))
    (MkIPAllocator "" [] [] ∅ "" 0 0).
Definition sample_quic_server : Server :=
  MkServer {[1%nat := sample_quic_session; 2%nat := sample_quic_session]} {[0%nat := sample_quic_net]}
    {["10.1.0.1"%string := 1%nat; "10.1.0.10"%string := 2%nat]} ∅ 0.

Lemma quic_clients_meet_witness :
  exists ca', QuicLink.Dial (MkQuicClient (Some 5%nat) ∅ [] []) "10.1.0.10" (Some 0%nat) = Some (Stream 0, ca') /\
    handleTransport sample_quic_server {[2%nat := EndpointQuic 6]} 1 (Some "10.1.0.10"%string)
      (fun c => if (c =? 6)%nat then Some 9%nat else None) = Some (inr (1, 2%nat, 9%nat)).
Proof.
  destruct (quic_clients_meet sample_quic_server {[2%nat := EndpointQuic 6]} "10.1.0.10" 1 2 sample_quic_session sample_quic_session
    0 sample_quic_net (MkQuota 0 (-1) 0 []) (MkQuicClient (Some 5%nat) ∅ [] []) 5 6 0 9 []
    (fun c => if (c =? 6)%nat then Some 9%nat else None) (fun _ => Some 0%nat)) as (ca' & H1 & _ & _ & _ & H2 & _);
    [vm_compute; reflexivity..|].
  exists ca'. split; [exact H1|]. destruct H2 as [H2 _]; [vm_compute; reflexivity|]. exact H2.
Defined.
