(* ===== verification/Devices.v ===== *)
(** * Devices, their keys and quotas (manager/server/internal/logic: device/device.go,
      device/sub_device.go, quota/quota.go, quota/flow.go, network/device.go)

    Tables as in [Manager]. Key generation, AES, PEM and the encodings of RSA
    keys are parameters. *)

From S2P Require Import Session.
From S2P Require Import Prelude GoNet GoText Router IPPool QuotaCounter GoFloat SmoothLimiter Metrics Server Manager.

#[local] Open Scope string_scope.
#[local] Open Scope Z_scope.

Inductive device_error := DbError (e : db_error) | NameExists | GenerateFailed | EncryptFailed | BrokenKeypair | InvalidKey | NoPemBlock
| BadPkcs1 | BadPkix | DuplicateKey | UnknownColumn.

(** ** Reading *)

Definition GetDeviceById (db : Db) (id : string) : device_error + string * device_row :=
  match db_devices db !! id with None => inl (DbError NotFound) | Some r => inr (id, r) end.

(** One of the rows with the name. *)
Definition GetDeviceByName (db : Db) (name : string) : device_error + string * device_row :=
  match filter (fun e : string * device_row => dr_Name e.2 = name) (map_to_list (db_devices db)) with
  | [] => inl (DbError NotFound)
  | e :: _ => inr e
  end.

Record SubDeviceBrief := MkBrief {
  sb_Id : Z; sb_QuotaId : Z; sb_BandwidthId : Z; sb_DeviceId : string; sb_NetworkId : string; sb_FixedIP : Z }.

Definition buildSubDeviceBrief (id : Z) (r : sub_row) : SubDeviceBrief :=
  MkBrief id (sr_Quota r) (sr_Bandwidth r) (sr_DeviceId r) (sr_NetworkId r) (fixed_ip (sr_Settings r)).

Definition GetSubDeviceById (db : Db) (id : Z) : device_error + SubDeviceBrief :=
  match db_subs db !! id with None => inl (DbError NotFound) | Some r => inr (buildSubDeviceBrief id r) end.

(** ** Keys *)

Section Keys.
Context {PrivateKey : Type}.
(** [gaes.Encrypt] and [gaes.Decrypt] of a content with a key. *)
Context (Encrypt Decrypt : list Z -> list Z -> option (list Z)).
Context (MarshalPKCS1 : PrivateKey -> list Z) (ParsePKCS1 : list Z -> option PrivateKey) (MarshalPKIX : PrivateKey -> option (list Z)).
(** [pem.EncodeToMemory] of a block of a type, the bytes of the block found by
    [pem.Decode]. *)
Context (pem_encode : string -> list Z -> list Z) (pem_decode : list Z -> option (list Z)).

(** [id] and [now] are generated, [generated] is the result of [GenerateKey].
    The table takes no second row with an id. *)
Definition CreateDevice (db : Db) (deviceKey name id : string) (generated : option PrivateKey) (now : Z)
    : (device_error + string) * Db :=
  if existsb (fun e : string * device_row => String.eqb (dr_Name e.2) name) (map_to_list (db_devices db))
  then (inl NameExists, db)
  else
    match generated with
    | None => (inl GenerateFailed, db)
    | Some privateKey =>
        let privateKeyPEM := pem_encode "RSA PRIVATE KEY" (MarshalPKCS1 privateKey) in
        match Encrypt privateKeyPEM (buildEncryptKey (string_bytes deviceKey)) with
        | None => (inl EncryptFailed, db)
        | Some encrypted =>
            match MarshalPKIX privateKey with
            | None => (inl BadPkix, db)
            | Some publicKeyBytes =>
                let publicKeyPEM := pem_encode "RSA PUBLIC KEY" publicKeyBytes in
                let dev := MkDeviceRow name 1 (bytes_string publicKeyPEM) (b64_encode true encrypted) now in
                match db_devices db !! id with
                | Some _ => (inl DuplicateKey, db)
                | None => (inr id, set_devices db (<[id := dev]> (db_devices db)))
                end
            end
        end
    end.

Definition PrivateKeyBySubDeviceId (db : Db) (id : Z) (key : string) : device_error + PrivateKey :=
  match GetSubDeviceById db id with
  | inl e => inl e
  | inr sd =>
      match GetDeviceById db (sb_DeviceId sd) with
      | inl e => inl e
      | inr (_, dev) =>
          match b64_decode true (dr_PrivateKey dev) with
          | None => inl BrokenKeypair
          | Some encrypted =>
              match Decrypt encrypted (buildEncryptKey (string_bytes key)) with
              | None => inl InvalidKey
              | Some decryptedKey =>
                  match pem_decode decryptedKey with
                  | None => inl NoPemBlock
                  | Some block => match ParsePKCS1 block with Some pri => inr pri | None => inl BadPkcs1 end
                  end
              end
          end
      end
  end.
End Keys.

(** ** Quotas *)

Record QuotaDetail := MkDetail { qd_Quota : quota_info; qd_Usage : Z; qd_IsExceed : bool; qd_Flow : list (Z * Z * Z) }.

(** The rows of the period with their sum ([LoadUsage] for the details). *)
Definition period_flow (db : Db) (id : Z) (target targetType : string) (from to : Z) : list (Z * Z * Z) :=
  (fun e : Z * flow_row => (f_Usage e.2, f_RecordStart e.2, f_RecordEnd e.2)) <$>
    filter (fun e => from <= f_RecordEnd e.2 <= to) (flows_of db id target targetType).

Definition GetQuotaDetails (db : Db) (id : Z) (target targetType : string) (usage : bool) (from to : Z) : device_error + QuotaDetail :=
  match GetById db id with
  | inl e => inl (DbError e)
  | inr q =>
      if usage then
        match LoadUsage db id target targetType from to with
        | inl e => inl (DbError e)
        | inr u => inr (MkDetail q u (qi_Value q <? u) (period_flow db id target targetType from to))
        end
      else inr (MkDetail q 0 false [])
  end.

Definition List_ (db : Db) : list (Z * quota_row) := map_to_list (db_quotas db).

(** What the statements on a column [quota] need of a table: the column, and
    the id of a row as a number ([gconv.Int]), with which it is looked up again. *)
Record quota_column (K R : Type) := MkQuotaColumn { qc_get : R -> Z; qc_set : R -> Z -> R; qc_Int : K -> Z; qc_is : Z -> K -> bool }.
Arguments MkQuotaColumn {K R}.
Arguments qc_get {K R}.
Arguments qc_set {K R}.
Arguments qc_Int {K R}.
Arguments qc_is {K R}.

(** A query for a column that the table does not have fails. *)
Definition resetQuotaValueOfAssociatedObject {K R} `{Countable K} (column : option (quota_column K R)) (rows : gmap K R) (id : Z)
    : device_error + gmap K R :=
  match column with
  | None => inl UnknownColumn
  | Some c =>
      let res := filter (fun e : K * R => qc_get c e.2 = id) (map_to_list rows) in
      let ids := (fun e : K * R => qc_Int c e.1) <$> res in
      inr (map_imap (fun k r => Some (if existsb (fun i => qc_is c i k) ids then qc_set c r IdNoLimit else r)) rows)
  end.

Definition sub_quota : option (quota_column Z sub_row) :=
  Some (MkQuotaColumn sr_Quota (fun r q => MkSubRow (sr_DeviceId r) (sr_NetworkId r) q (sr_Bandwidth r) (sr_Settings r)) (fun i => i) Z.eqb).

(** The table of networks has the columns id, name, cidr, mtu, description and
    extra. *)
Definition network_quota : option (quota_column string network_row) := None.

(** [Delete] is a transaction over sub devices, networks and the quota itself: an
    error rolls it back. *)
Definition Delete (db : Db) (id : Z) : option device_error * Db :=
  match GetById db id with
  | inl e => (Some (DbError e), db)
  | inr q =>
      if qi_Id q =? IdNoLimit then (None, db)
      else
        match resetQuotaValueOfAssociatedObject sub_quota (db_subs db) id with
        | inl e => (Some e, db)
        | inr subs =>
            match resetQuotaValueOfAssociatedObject network_quota (db_networks db) id with
            | inl e => (Some e, db)
            | inr networks => (None, set_quotas (set_networks (set_subs db subs) networks) (delete id (db_quotas db)))
            end
        end
  end.

(** ** Devices with their quotas *)

Record SubDeviceInfo := MkSubInfo { si_brief : SubDeviceBrief; si_Quota : QuotaDetail; si_Bandwidth : QuotaDetail }.
Record DeviceInfo := MkDeviceInfo { di_Id : string; di_Name : string; di_CreatedAt : Z; di_Sub : list SubDeviceInfo }.

Definition fillSubDeviceQuotaDetails (db : Db) (brief : SubDeviceBrief) (from to : Z) : device_error + SubDeviceInfo :=
  match GetQuotaDetails db (sb_QuotaId brief) (sb_DeviceId brief) "device_traffic" true from to with
  | inl e => inl e
  | inr q =>
      match GetQuotaDetails db (sb_BandwidthId brief) (sb_DeviceId brief) "device_bandwidth" false from to with
      | inl e => inl e
      | inr b => inr (MkSubInfo brief q b)
      end
  end.

Definition GetSubDeviceWithUsageById (db : Db) (id from to : Z) : device_error + SubDeviceInfo :=
  match GetSubDeviceById db id with inl e => inl e | inr brief => fillSubDeviceQuotaDetails db brief from to end.

Fixpoint fill_all (db : Db) (rows : list (Z * sub_row)) (from to : Z) : device_error + list SubDeviceInfo :=
  match rows with
  | [] => inr []
  | (id, r) :: rows' =>
      match fillSubDeviceQuotaDetails db (buildSubDeviceBrief id r) from to with
      | inl e => inl e
      | inr sd => match fill_all db rows' from to with inl e => inl e | inr l => inr (sd :: l) end
      end
  end.

(** [sub] restricts the sub devices when it is not empty. *)
Definition GetDeviceInfo (db : Db) (deviceId : string) (sub : list Z) (from to : Z) : device_error + DeviceInfo :=
  match GetDeviceById db deviceId with
  | inl e => inl e
  | inr (_, device) =>
      let rows := filter (fun e : Z * sub_row => sr_DeviceId e.2 = deviceId /\ (sub = [] \/ e.1 ∈ sub)) (map_to_list (db_subs db)) in
      match fill_all db rows from to with
      | inl e => inl e
      | inr l => inr (MkDeviceInfo deviceId (dr_Name device) (dr_CreatedAt device) l)
      end
  end.

(** What [AcquireDevice] tells the client of its device; address and MTU are
    those of the network. *)
Definition dispatched (db : Db) (id : Z) : Session.Device :=
  let quota q := match GetById db q with
                 | inr i => Some (Session.MkQuota (qi_Id i) (qi_Unit i) (qi_Value i) (qi_Period i))
                 | inl _ => None end in
  match db_subs db !! id with
  | None => Session.MkDevice "" "" "" 0 "" None None
  | Some r => Session.MkDevice (sr_DeviceId r) (match db_devices db !! sr_DeviceId r with Some d => dr_Name d | None => "" end) "" 0 ""
                (quota (sr_Quota r)) (quota (sr_Bandwidth r))
  end.
