(* ===== verification/DevicesProps.v ===== *)
(** * Devices keep their keys, and log in with them *)

From S2P Require Import Session.
From S2P Require Import Prelude GoNet GoText Router IPPool QuotaCounter GoFloat SmoothLimiter Metrics Server Manager ManagerProps Devices.
From S2P Require Import Functions Request RequestProps Login LoginProps.

#[local] Open Scope string_scope.
#[local] Open Scope Z_scope.

Section Keys.
Context {PrivateKey : Type} (Encrypt Decrypt : list Z -> list Z -> option (list Z)).
Context (MarshalPKCS1 : PrivateKey -> list Z) (ParsePKCS1 : list Z -> option PrivateKey) (MarshalPKIX : PrivateKey -> option (list Z)).
Context (pem_encode : string -> list Z -> list Z) (pem_decode : list Z -> option (list Z)).

(** What the libraries promise: each decoder undoes its encoder. *)
Record key_codecs : Prop := {
  gaes_ok : forall d k e, Encrypt d k = Some e -> bytes_ok e /\ Decrypt e k = Some d;
  pem_ok : forall ty b, pem_decode (pem_encode ty b) = Some b;
  pkcs1_ok : forall k, ParsePKCS1 (MarshalPKCS1 k) = Some k }.

Abbreviation create := (CreateDevice Encrypt MarshalPKCS1 MarshalPKIX pem_encode).
Abbreviation find := (PrivateKeyBySubDeviceId Decrypt ParsePKCS1 pem_decode).

(** ** Operations of an administrator *)

Inductive manage_op :=
| OpNetwork (o : net_op)
| OpCreateQuota (id : Z) (q : quota_row)
| OpUpdateQuota (id : Z) (name : option string) (value : option Z)
| OpDeleteQuota (id : Z)
| OpUsage (id : Z) (target targetType : string) (usage : Z) (startTime : option Z) (now next : Z)
| OpCreateDevice (deviceKey name id : string) (generated : option PrivateKey) (now : Z)
| OpCreateSub (deviceId networkId : string) (quota : Z) (settings : string)
| OpSetQuota (id quota : Z).

(** The id of a new sub device is a new one. *)
Definition manage (st : Db * Server) (o : manage_op) : option (Db * Server) :=
  let '(db, sv) := st in
  match o with
  | OpNetwork o => '(_, st) ← exec st o; Some st
  | OpCreateQuota id q => Some (Create db id q, sv)
  | OpUpdateQuota id name value => Some (Update db id name value, sv)
  | OpDeleteQuota id => Some ((Delete db id).2, sv)
  | OpUsage id target ty usage start now next => Some (SubmitUsage db id target ty usage start now next, sv)
  | OpCreateDevice deviceKey name id generated now => Some ((create db deviceKey name id generated now).2, sv)
  | OpCreateSub deviceId networkId quota settings =>
      Some ((CreateSubDevice db (fresh (dom (db_subs db))) deviceId networkId quota settings).2, sv)
  | OpSetQuota id quota => Some ((SetSubDeviceQuota db id quota).2, sv)
  end.

Fixpoint manage_all (st : Db * Server) (ops : list manage_op) : option (Db * Server) :=
  match ops with [] => Some st | o :: ops' => st ← manage st o; manage_all st ops' end.

(** What no operation changes: devices stay as they are, sub devices stay with
    their device and network. *)
Definition grows (db db' : Db) : Prop :=
  db_devices db ⊆ db_devices db' /\
  forall i r, db_subs db !! i = Some r -> exists r', db_subs db' !! i = Some r' /\ sr_DeviceId r' = sr_DeviceId r /\ sr_NetworkId r' = sr_NetworkId r.

#[local] Instance grows_preorder : PreOrder grows.
Proof.
  split; [split; naive_solver|]. intros a b c [H1 H2] [H3 H4]. split; [by etrans|]. intros i r Hi.
  destruct (H2 i r Hi) as (r1 & Hr1 & E1 & E2). destruct (H4 i r1 Hr1) as (r2 & Hr2 & E3 & E4). exists r2. split_and!; [done|congruence..].
Qed.

Lemma grows_same db db' : db_devices db' = db_devices db -> db_subs db' = db_subs db -> grows db db'.
Proof. intros H1 H2. split; [by rewrite H1|]. rewrite H2. naive_solver. Qed.

(** Two devices with one name, two sub devices of a device in a network, and
    sub devices without a device do not occur. *)
Record well_formed (db : Db) : Prop := {
  names_unique : forall i j r r', db_devices db !! i = Some r -> db_devices db !! j = Some r' -> dr_Name r = dr_Name r' -> i = j;
  subs_unique : forall i j r r', db_subs db !! i = Some r -> db_subs db !! j = Some r' ->
    sr_DeviceId r = sr_DeviceId r' -> sr_NetworkId r = sr_NetworkId r' -> i = j;
  subs_known : forall i r, db_subs db !! i = Some r -> is_Some (db_devices db !! sr_DeviceId r) }.

(** Changes of other columns. *)
Lemma well_formed_columns db db' :
  db_devices db' = db_devices db ->
  (forall i r', db_subs db' !! i = Some r' -> exists r, db_subs db !! i = Some r /\ sr_DeviceId r' = sr_DeviceId r /\ sr_NetworkId r' = sr_NetworkId r) ->
  well_formed db -> well_formed db'.
Proof.
  intros Hd Hs [H1 H2 H3]. split; rewrite ?Hd; [done| |].
  - intros i j r r' Hi Hj E1 E2. destruct (Hs i r Hi) as (x & Hx & ? & ?), (Hs j r' Hj) as (y & Hy & ? & ?). apply (H2 i j x y); congruence.
  - intros i r Hi. destruct (Hs i r Hi) as (x & Hx & -> & _). by apply (H3 i).
Qed.

Lemma well_formed_same db db' : db_devices db' = db_devices db -> db_subs db' = db_subs db -> well_formed db -> well_formed db'.
Proof. intros Hd Hs. apply well_formed_columns; [done|]. rewrite Hs. naive_solver. Qed.

(** A step of an administrator: what it changes is one of these. *)
Definition kept_by (db db' : Db) : Prop := grows db db' /\ (well_formed db -> well_formed db').

Lemma kept_same db db' : db_devices db' = db_devices db -> db_subs db' = db_subs db -> kept_by db db'.
Proof. intros Hd Hs. split; [by apply grows_same|by apply well_formed_same]. Qed.

Lemma exec_keeps db sv o e db' sv' : exec (db, sv) o = Some (e, (db', sv')) -> db_devices db' = db_devices db /\ db_subs db' = db_subs db.
Proof.
  unfold exec. destruct o as [id row|id|id|id|id cidr name desc].
  - unfold CreateNetwork. destruct (start _ _ _ _) as [[e' sv1]|]; [|done]. cbn [mbind option_bind]. by intros [= _ <- _].
  - destruct (StopNetwork sv id). by intros [= _ <- _].
  - destruct (StartNetwork _ _ _ _) as [[e' sv1]|]; [|done]. cbn [mbind option_bind]. by intros [= _ <- _].
  - unfold DeleteNetwork. destruct (_ !! id); by intros [= _ <- _].
  - destruct (db_networks db !! id) as [row|] eqn:Er; [|unfold UpdateNetwork; rewrite Er; by intros [= _ <- _]].
    rewrite (update_row _ _ _ _ _ _ _ Er). destruct (changes _ _ _); by intros [= _ <- _].
Qed.

(** Deleting a quota never changes a table: the one of networks has no column
    for quotas, so the transaction fails. *)
Lemma quota_kept db id : (Delete db id).2 = db /\ (forall q, db_quotas db !! id = Some q -> id <> IdNoLimit -> (Delete db id).1 = Some UnknownColumn).
Proof.
  unfold Delete. split.
  - destruct (GetById db id) as [e|q]; [done|]. by destruct (qi_Id q =? IdNoLimit).
  - intros q Hq Hne. unfold GetById. rewrite (proj2 (Z.eqb_neq _ _) Hne), Hq. cbn [qi_Id]. by rewrite (proj2 (Z.eqb_neq _ _) Hne).
Qed.

Lemma delete_keeps db id : kept_by db (Delete db id).2.
Proof. destruct (quota_kept db id) as [-> _]. by apply kept_same. Qed.

Lemma create_keeps db deviceKey name id generated now : kept_by db (create db deviceKey name id generated now).2.
Proof using Type.
  clear Decrypt ParsePKCS1 pem_decode. unfold CreateDevice. destruct (existsb _ _) eqn:Ex; [by apply kept_same|]. destruct generated as [k|]; [|by apply kept_same].
  destruct (Encrypt _ _) as [e|]; [|by apply kept_same]. destruct (MarshalPKIX k) as [pub|]; [|by apply kept_same].
  destruct (db_devices db !! id) as [r0|] eqn:Ei; [by apply kept_same|]. cbn [snd].
  assert (forall j r, db_devices db !! j = Some r -> dr_Name r <> name) as Hname.
  { intros j r Hj En. apply not_true_iff_false in Ex. apply Ex, existsb_exists. exists (j, r). split; [|by apply String.eqb_eq].
    by apply list_elem_of_In, elem_of_map_to_list. }
  split; [split; [by apply insert_subseteq|naive_solver]|]. intros [H1 H2 H3]. split; cbn [db_devices db_subs set_devices]; [|done|].
  - intros i j r r' [[<- <-]|[Hi Hr]]%lookup_insert_Some [[<- <-]|[Hj Hr']]%lookup_insert_Some E; [done|..]; cbn in E.
    + by destruct (Hname _ _ Hr').
    + by destruct (Hname _ _ Hr).
    + by apply (H1 i j r r').
  - intros i r Hi. destruct (H3 i r Hi) as [x Hx]. destruct (decide (id = sr_DeviceId r)) as [<-|Hne]; [by rewrite lookup_insert_eq|].
    rewrite lookup_insert_ne by done. by eexists.
Qed.

Lemma sub_keeps db i deviceId networkId quota settings :
  i ∉ dom (db_subs db) -> kept_by db (CreateSubDevice db i deviceId networkId quota settings).2.
Proof.
  intros Hi%not_elem_of_dom. unfold CreateSubDevice. destruct (_ !! networkId) as [net|]; [|by apply kept_same].
  destruct (_ !! deviceId) as [dev|] eqn:Hdev; [|by apply kept_same]. destruct (existsb _ _) eqn:Ex; [by apply kept_same|]. cbn [snd].
  assert (forall j r, db_subs db !! j = Some r -> ~ (sr_NetworkId r = networkId /\ sr_DeviceId r = deviceId)) as Hnew.
  { intros j r Hj [E1 E2]. apply not_true_iff_false in Ex. apply Ex, existsb_exists. exists (j, r).
    split; [by apply list_elem_of_In, elem_of_map_to_list|]. cbn. by rewrite E1, E2, !String.eqb_refl. }
  split; [split; [done|]|].
  - intros j r Hj. exists r. cbn. rewrite lookup_insert_ne; [done|congruence].
  - intros [H1 H2 H3]. split; cbn [db_devices db_subs set_subs]; [done| |].
    + intros a b r r' [[<- <-]|[Ha Hr]]%lookup_insert_Some [[<- <-]|[Hb Hr']]%lookup_insert_Some E1 E2; [done|..]; cbn in E1, E2.
      * by destruct (Hnew _ _ Hr').
      * by destruct (Hnew _ _ Hr).
      * by apply (H2 a b r r').
    + intros a r [[<- <-]|[Ha Hr]]%lookup_insert_Some; [by eexists|]. by apply (H3 a).
Qed.

Lemma set_quota_keeps db id quota : kept_by db (SetSubDeviceQuota db id quota).2.
Proof.
  unfold SetSubDeviceQuota. destruct (db_subs db !! id) as [r|] eqn:Er; [|by apply kept_same]. cbn [snd]. split.
  - split; [done|]. intros i x Hi. cbn. destruct (decide (i = id)) as [->|Hne]; [|rewrite lookup_insert_ne by done; naive_solver].
    rewrite lookup_insert_eq. eexists. split; [done|]. cbn. replace x with r by congruence. done.
  - apply well_formed_columns; [done|]. intros i x. cbn. intros [[<- <-]|[Hi Hr]]%lookup_insert_Some; [by exists r|by exists x].
Qed.

Lemma exec_total st o : exists e st', exec st o = Some (e, st').
Proof.
  destruct st as [db sv]. assert (forall w id row, exists e sv', start sv w id row = Some (e, sv')) as Hs.
  { intros w id row. unfold start, NewNetwork. pose proof (NewIPAllocator_no_panic (nr_Cidr row)) as Hn.
    destruct (NewIPAllocator (nr_Cidr row)); [|..|done]; cbn; by eexists _, _. }
  unfold exec, CreateNetwork, StartNetwork. destruct o as [id row|id|id|id|id cidr name desc].
  - destruct (Hs (fresh (dom (sv_nets sv))) id row) as (e & sv' & ->). by eexists _, _.
  - destruct (StopNetwork sv id). by eexists _, _.
  - destruct (GetNetwork sv id); [by eexists _, _|]. destruct (_ !! id) as [row|]; [|by eexists _, _].
    destruct (Hs (fresh (dom (sv_nets sv))) id row) as (e & sv' & ->). by eexists _, _.
  - destruct (DeleteNetwork db sv id) as [[e db'] sv']. by eexists _, _.
  - destruct (UpdateNetwork db sv id cidr name desc) as [[e db'] sv']. by eexists _, _.
Qed.

Lemma submit_tables db id target ty usage start now next :
  db_devices (SubmitUsage db id target ty usage start now next) = db_devices db /\
  db_subs (SubmitUsage db id target ty usage start now next) = db_subs db.
Proof. unfold SubmitUsage, submitToDatabase, write_flow. destruct (latest _) as [[fid flow]|]; [|done]. by destruct (_ && _). Qed.

Lemma manage_keeps st o : exists st', manage st o = Some st' /\ kept_by st.1 st'.1.
Proof.
  destruct st as [db sv]. destruct o as [o|id q|id name value|id|id target ty usage start now next|deviceKey name id gen now|d n q s|id q]; cbn [manage].
  - destruct (exec_total (db, sv) o) as (e & [db' sv'] & He). rewrite He. cbn [mbind option_bind]. eexists. split; [done|].
    destruct (exec_keeps _ _ _ _ _ _ He). by apply kept_same.
  - eexists. split; [done|]. by apply kept_same.
  - eexists. split; [done|]. by apply kept_same.
  - eexists. split; [done|]. apply delete_keeps.
  - eexists. split; [done|]. by apply kept_same; apply submit_tables.
  - eexists. split; [done|]. apply create_keeps.
  - eexists. split; [done|]. apply sub_keeps, is_fresh.
  - eexists. split; [done|]. apply set_quota_keeps.
Qed.

Lemma manage_all_keeps st ops : exists st', manage_all st ops = Some st' /\ kept_by st.1 st'.1.
Proof.
  revert st. induction ops as [|o ops IH]; intros st; [by exists st; split; [|apply kept_same]|].
  destruct (manage_keeps st o) as (st1 & E1 & [G1 W1]). destruct (IH st1) as (st2 & E2 & [G2 W2]).
  exists st2. cbn [manage_all]. rewrite E1. split; [exact E2|]. split; [by etrans|auto].
Qed.

(** C16. The tables stay consistent: whatever networks, quotas, usage, devices
    and sub devices an administrator creates, changes and deletes, in any order,
    no operation panics, no two devices share a name, a device has at most one
    sub device in a network, every sub device has its device, and devices are
    never changed. *)
Theorem tables_well_formed db sv ops :
  well_formed db ->
  exists db' sv', manage_all (db, sv) ops = Some (db', sv') /\ well_formed db' /\ db_devices db ⊆ db_devices db' /\
    forall i r, db_subs db !! i = Some r ->
      exists r', db_subs db' !! i = Some r' /\ sr_DeviceId r' = sr_DeviceId r /\ sr_NetworkId r' = sr_NetworkId r.
Proof.
  intros Hw. destruct (manage_all_keeps (db, sv) ops) as ([db' sv'] & E & [[G1 G2] W]). exists db', sv'. split_and!; auto.
Qed.

(** ** Keys *)

(** The device [id] keeps the private key [k] under [deviceKey]. *)
Definition keeps_key (db : Db) (id deviceKey : string) (k : PrivateKey) (row : device_row) : Prop :=
  db_devices db !! id = Some row /\
  exists e, dr_PrivateKey row = b64_encode true e /\
    Encrypt (pem_encode "RSA PRIVATE KEY" (MarshalPKCS1 k)) (buildEncryptKey (string_bytes deviceKey)) = Some e.

Lemma create_stores db deviceKey name id generated now id' db' :
  create db deviceKey name id generated now = (inr id', db') ->
  id' = id /\ exists k row, generated = Some k /\ dr_Name row = name /\ keeps_key db' id deviceKey k row.
Proof.
  unfold CreateDevice. destruct (existsb _ _); [done|]. destruct generated as [k|]; [|done].
  destruct (Encrypt _ _) as [e|] eqn:Ee; [|done]. destruct (MarshalPKIX k) as [pub|]; [|done].
  destruct (db_devices db !! id); [done|]. intros [= <- <-]. split; [done|]. exists k. eexists.
  split_and!; [done| |split; [cbn; apply lookup_insert_eq|by exists e]]. done.
Qed.

Lemma keeps_key_grows db db' id deviceKey k row : grows db db' -> keeps_key db id deviceKey k row -> keeps_key db' id deviceKey k row.
Proof. intros [G _] [Hid He]. split; [by eapply lookup_weaken|done]. Qed.

Lemma key_found db id deviceKey k row sid r key :
  key_codecs -> keeps_key db id deviceKey k row -> db_subs db !! sid = Some r -> sr_DeviceId r = id ->
  buildEncryptKey (string_bytes key) = buildEncryptKey (string_bytes deviceKey) -> find db sid key = inr k.
Proof.
  intros [Ha Hp Hk] (Hid & e & Hpk & He) Hs Hdev Hkey. unfold PrivateKeyBySubDeviceId, GetSubDeviceById. rewrite Hs.
  cbn [buildSubDeviceBrief sb_DeviceId]. rewrite Hdev. unfold GetDeviceById. rewrite Hid, Hpk. destruct (Ha _ _ _ He) as [Hb Hd].
  rewrite b64_roundtrip by done. by rewrite Hkey, Hd, Hp, Hk.
Qed.

(** The keys of a login are found in the tables. *)
Definition login_key (db : Db) (id : Z) (key : string) : option PrivateKey :=
  match find db id key with inr k => Some k | inl _ => None end.

End Keys.

(** A network, a device in it, and a second device with the same name. *)
Definition sample_manage : list (manage_op (PrivateKey := unit)) :=
  [OpNetwork (OpCreate "home" (MkNetworkRow "home" "10.1.0.0/16" 1400 "")); OpCreateQuota 1 (MkQuotaRow "basic" "gb" "GB" 5 "month");
   OpCreateDevice "k" "laptop" "d-1" (Some tt) 7; OpCreateSub "d-1" "home" 1 "{}"; OpCreateSub "d-1" "home" 1 "{}";
   OpCreateDevice "k" "laptop" "d-2" (Some tt) 8; OpDeleteQuota 1].
Definition plain_codec (d _ : list Z) : option (list Z) := plain d.

Lemma tables_well_formed_witness :
  exists db' sv', manage_all plain_codec (fun _ => []) (fun _ => Some []) (fun _ b => b) (MkDb ∅ ∅ ∅ ∅ ∅, MkServer ∅ ∅ ∅ ∅ 0) sample_manage =
      Some (db', sv') /\ well_formed db'.
Proof.
  destruct (tables_well_formed plain_codec (fun _ => []) (fun _ => Some []) (fun _ b => b) (MkDb ∅ ∅ ∅ ∅ ∅) (MkServer ∅ ∅ ∅ ∅ 0) sample_manage)
    as (db' & sv' & H1 & H2 & _).
  - split; cbn; intros i; [intros j r r' Hi|intros j r r' Hi|intros r Hi]; rewrite lookup_empty in Hi; discriminate Hi.
  - exists db', sv'. split; [exact H1|exact H2].
Defined.

(** ** What a login tells the client of its device *)

Definition values_ok (db : Db) : Prop :=
  forall i q, db_quotas db !! i = Some q -> i64_ok i /\ i64_ok (qr_Value q).

Lemma i64_is_ok z : i64_ok (i64 z).
Proof. unfold i64_ok. pose proof (i64_range z). lia. Qed.

Lemma bytes_value_ok ty v : i64_ok v -> i64_ok (bytes_value ty v).
Proof. intros Hv. unfold bytes_value. repeat (destruct (String.eqb _ _); [apply i64_is_ok|]). done. Qed.

Lemma dispatched_ok db id : values_ok db -> device_ok (dispatched db id).
Proof.
  intros Hv. unfold dispatched, device_ok. destruct (db_subs db !! id) as [r|]; [|unfold i64_ok; cbn; lia].
  assert (forall q, quota_ok (match GetById db q with
    | inr i => Some (Session.MkQuota (qi_Id i) (qi_Unit i) (qi_Value i) (qi_Period i)) | inl _ => None end)) as Hq.
  { intros q. unfold GetById. destruct (q =? IdNoLimit); [unfold quota_ok, i64_ok, ValueNoLimit; cbn; lia|].
    destruct (db_quotas db !! q) as [x|] eqn:Ex; [|done]. destruct (Hv q x Ex). cbn. split; [done|]. by apply bytes_value_ok. }
  cbn. split_and!; [unfold i64_ok; lia|apply Hq..].
Qed.

Lemma login_session_device sv p typ dev netkey s :
  login_session sv p typ dev netkey = Some s ->
  Session.d_Id (ls_Device s) = Session.d_Id dev /\ Session.d_Name (ls_Device s) = Session.d_Name dev.
Proof.
  unfold login_session. destruct (sv_sess sv !! p) as [x|]; [|done]. cbn [mbind option_bind].
  destruct (s_network x) as [w|]; [|done]. cbn [mbind option_bind]. destruct (sv_nets sv !! w) as [n|]; [|done].
  cbn [mbind option_bind]. by intros [= <-].
Qed.

Lemma dispatched_device db id r row :
  db_subs db !! id = Some r -> db_devices db !! sr_DeviceId r = Some row ->
  Session.d_Id (dispatched db id) = sr_DeviceId r /\ Session.d_Name (dispatched db id) = dr_Name row.
Proof. intros Hr Hd. unfold dispatched. by rewrite Hr, Hd. Qed.

(** C14. A device that was created logs in with its key. When [CreateDevice]
    stored a new key pair under [deviceKey], then after any further work of the
    administrator every sub device of it finds that private key, for every key
    text that agrees with [deviceKey] in the first 16 bytes; a client with a
    link to the sub device and the public half of the pair is handled on the
    rows of the tables and reads the session the server keeps, or its refusal. *)
Theorem created_device_logs_in {PublicKey PrivateKey : Type} Encrypt Decrypt MarshalPKCS1 ParsePKCS1 MarshalPKIX pem_encode pem_decode
    EncryptOAEP DecryptOAEP EncryptCBC DecryptCBC md5_hex intn unixMilli reason netkey (pub : PublicKey) (pri : PrivateKey)
    db0 sv0 deviceKey name id created id' db1 ops from to sid key link hostname encrypt compress last now nonce secret rnd p typ now' msg :
  key_codecs Encrypt Decrypt MarshalPKCS1 ParsePKCS1 pem_encode pem_decode ->
  rsa_pair EncryptOAEP DecryptOAEP pub pri -> aes_ok EncryptCBC DecryptCBC -> aes_uniform EncryptCBC -> md5_ok md5_hex ->
  CreateDevice Encrypt MarshalPKCS1 MarshalPKIX pem_encode db0 deviceKey name id (Some pri) created = (inr id', db1) ->
  exists db sv, manage_all Encrypt MarshalPKCS1 MarshalPKIX pem_encode (db1, sv0) ops = Some (db, sv) /\
    forall r, db_subs db !! sid = Some r -> sr_DeviceId r = id' ->
      buildEncryptKey (string_bytes key) = buildEncryptKey (string_bytes deviceKey) ->
      PrivateKeyBySubDeviceId Decrypt ParsePKCS1 pem_decode db sid key = inr pri /\
      (decode_link link = Some (sid, key) -> i64_ok now -> values_ok db ->
       client_request EncryptOAEP EncryptCBC md5_hex pub link hostname encrypt compress last now nonce secret rnd = inr msg ->
       forall err sv', handshake intn unixMilli sv p (sub_device db sid from to) last = Some (err, sv') ->
         (forall w n, sv_nets sv' !! w = Some n -> i64_ok (n_MTU n)) ->
         exists data,
           server_handshake DecryptOAEP EncryptCBC DecryptCBC md5_hex intn unixMilli reason
             (fun id => (sub_device db id from to, dispatched db id)) (login_key Decrypt ParsePKCS1 pem_decode db) netkey sv p typ now' msg =
             Ret (data, err, sv') /\
           match err with
           | None => exists s, login_session sv' p typ (dispatched db sid) netkey = Some s /\
               client_answer DecryptCBC md5_hex data secret nonce = Ret s /\
               Session.d_Id (ls_Device s) = id /\ Session.d_Name (ls_Device s) = name
           | Some e => client_answer DecryptCBC md5_hex data secret nonce = Fail (Refused (refusal reason e))
           end).
Proof.
  intros Hcod Hrsa Haes Huni Hmd5 Hcr. apply create_stores in Hcr as [-> (k & row & [= <-] & Hname & Hkeep)].
  destruct (manage_all_keeps Encrypt MarshalPKCS1 MarshalPKIX pem_encode (db1, sv0) ops) as ([db sv] & E & [G _]).
  exists db, sv. split; [exact E|]. intros r Hr Hdev Hkey. apply (keeps_key_grows _ _ _ _ _ _ _ _ _ G) in Hkeep.
  pose proof (key_found Encrypt Decrypt MarshalPKCS1 ParsePKCS1 pem_encode pem_decode db id deviceKey pri row sid r key Hcod Hkeep Hr Hdev Hkey) as Hf.
  split; [done|]. intros Hlink Hnow Hv Hmsg err sv' Hh Hmtu.
  destruct (login_faithful EncryptOAEP DecryptOAEP EncryptCBC DecryptCBC md5_hex intn unixMilli reason
    (fun id => (sub_device db id from to, dispatched db id)) (login_key Decrypt ParsePKCS1 pem_decode db) netkey pub pri link sid key
    (sub_device db sid from to) (dispatched db sid) hostname encrypt compress last now nonce secret rnd sv p typ now' msg err sv')
    as (data & Hs & Hc); [done|done|done|done|done|unfold login_key; by rewrite Hf|done|done|by apply dispatched_ok|done|done|done|].
  exists data. split; [done|]. destruct err as [e|]; [done|]. destruct Hc as (s & Hl & Hc). exists s.
  destruct (login_session_device _ _ _ _ _ _ Hl) as [-> ->]. rewrite <- Hdev in Hkeep.
  destruct (dispatched_device db sid r row Hr (proj1 Hkeep)) as [-> ->]. by split_and!.
Qed.

Definition sample_device_db : Db :=
  (CreateDevice plain_codec (fun _ : unit => []) (fun _ => Some []) (fun _ b => b) (MkDb ∅ ∅ ∅ ∅ ∅) "secret key of the device" "laptop" "d-1" (Some tt) 7).2.
Definition sample_device_ops : list (manage_op (PrivateKey := unit)) :=
  [OpNetwork (OpCreate "home" (MkNetworkRow "home" "10.1.0.0/16" 1400 "")); OpCreateSub "d-1" "home" 0 "{}"].
Definition sample_accepted : Server := MkServer {[1%nat := newServerSession "tcp-1"]} ∅ ∅ ∅ 0.
Definition sample_device_st : Db * Server :=
  default (sample_device_db, sample_accepted)
    (manage_all plain_codec (fun _ => []) (fun _ => Some []) (fun _ b => b) (sample_device_db, sample_accepted) sample_device_ops).
Definition sample_device_link : string :=
  b64_encode true (string_bytes (Marshal (JObj [("sub_device_id", JNum 0); ("key", JStr "secret key of th")]))).
Definition sample_device_after : Server :=
  match handshake (fun _ _ => 0) (fun _ => 0) sample_device_st.2 1 (sub_device sample_device_st.1 0 0 100) "" with
  | Some (_, sv) => sv | None => sample_accepted end.
Definition sample_device_message : string :=
  match client_request (fun (_ : unit) _ m => plain m) (fun d _ _ => plain d) (fun _ => "00") tt sample_device_link "pc" true false "" 1 "n" "s" [] with
  | inr m => m | inl _ => "" end.

Lemma created_device_logs_in_witness :
  PrivateKeyBySubDeviceId (fun d _ => Some d) (fun _ => Some tt) Some sample_device_st.1 0 "secret key of th" = inr tt /\
  exists data s,
    server_handshake (fun (_ : unit) m => Some m) (fun d _ _ => plain d) (fun d _ _ => Some d) (fun _ => "00") (fun _ _ => 0) (fun _ => 0)
      (fun _ => "") (fun id => (sub_device sample_device_st.1 id 0 100, dispatched sample_device_st.1 id))
      (login_key (fun d _ => Some d) (fun _ => Some tt) Some sample_device_st.1) "secret" sample_device_st.2 1 "tcp" 2 sample_device_message =
      Ret (data, None, sample_device_after) /\
    client_answer (fun d _ _ => Some d) (fun _ => "00") data "s" "n" = Ret s /\ Session.d_Name (ls_Device s) = "laptop".
Proof.
  destruct (created_device_logs_in plain_codec (fun d _ => Some d) (fun _ => []) (fun _ => Some tt) (fun _ => Some []) (fun _ b => b) Some
    (fun (_ : unit) _ m => plain m) (fun (_ : unit) m => Some m) (fun d _ _ => plain d) (fun d _ _ => Some d) (fun _ => "00")
    (fun _ _ => 0) (fun _ => 0) (fun _ => "") "secret" tt tt (MkDb ∅ ∅ ∅ ∅ ∅) sample_accepted "secret key of the device" "laptop" "d-1" 7 "d-1"
    sample_device_db sample_device_ops 0 100 0 "secret key of th" sample_device_link "pc" true false "" 1 "n" "s" [] 1 "tcp" 2 sample_device_message)
    as (db & sv & Hm & Hall).
  - split; [|intros ty b; reflexivity|intros []; reflexivity]. intros d k e. apply plain_Some.
  - intros rnd m e. apply plain_Some.
  - intros d k iv e. apply plain_Some.
  - intros d d' k iv Hd' _. unfold plain. apply plain_bytes in Hd'. rewrite Hd'. by eexists.
  - intros x. reflexivity.
  - vm_compute. reflexivity.
  - assert (manage_all plain_codec (fun _ => []) (fun _ => Some []) (fun _ b => b) (sample_device_db, sample_accepted) sample_device_ops =
      Some sample_device_st) as Hst by (vm_compute; reflexivity).
    assert (Some (db, sv) = Some sample_device_st) as Hp by (rewrite <- Hm; exact Hst).
    assert (db = fst sample_device_st) as Hdb by (exact (f_equal (fun o => match o with Some p => fst p | None => db end) Hp)).
    assert (sv = snd sample_device_st) as Hsv by (exact (f_equal (fun o => match o with Some p => snd p | None => sv end) Hp)).
    subst db sv. clear Hm Hp Hst.
    destruct (Hall (MkSubRow "d-1" "home" 0 0 "{}")) as [Hk Hl]; [vm_compute; reflexivity|reflexivity|vm_compute; reflexivity|].
    split; [exact Hk|]. destruct (Hl ltac:(vm_compute; reflexivity) ltac:(unfold i64_ok; lia)) with (err := None : option serr) (sv' := sample_device_after)
      as (data & Hs & s & _ & Hc & _ & Hn).
    + intros i q Hi. assert (db_quotas (fst sample_device_st) = ∅) as E by (vm_compute; reflexivity). rewrite E, lookup_empty in Hi. discriminate Hi.
    + vm_compute. reflexivity.
    + vm_compute. reflexivity.
    + intros w n Hn. assert (dom (sv_nets sample_device_after) = {[0%nat]}) as Hd by (vm_compute; reflexivity).
      assert (w = 0%nat) as ->. { apply elem_of_dom_2 in Hn. rewrite Hd in Hn. by apply elem_of_singleton in Hn. }
      assert (n_MTU <$> sv_nets sample_device_after !! 0%nat = Some 1400) as Hmtu by (vm_compute; reflexivity).
      rewrite Hn in Hmtu. injection Hmtu as ->. unfold i64_ok. lia.
    + exists data, s. split; [exact Hs|]. split; [exact Hc|exact Hn].
Defined.

(** ** Quotas *)

(** A device without a limit is shown as over its limit. *)
Lemma unlimited_exceeded db target ty from to d :
  GetQuotaDetails db IdNoLimit target ty true from to = inr d -> 0 <= qd_Usage d -> qd_IsExceed d = true.
Proof.
  unfold GetQuotaDetails, LoadUsage. change (GetById db IdNoLimit) with (inr (A := db_error) (MkQuotaInfo 0 "unlimited" "" "" ValueNoLimit "")).
  cbv iota. intros [= <-]. cbn [qd_Usage qd_IsExceed qi_Value]. intros H. apply Z.ltb_lt. unfold ValueNoLimit. lia.
Qed.

