(* ===== verification/Exit.v ===== *)
(** * Handlers at the exit of the program (common/grace/grace.go)

    What a handler does is a number, running one is adding it to a list. The
    registry is the map of the package. *)

From stdpp Require Import sorting.
From S2P Require Import Prelude.

#[local] Open Scope Z_scope.

Record handlerWithPriority := MkHandler { hp_Name : string; hp_Handler : nat; hp_Priority : Z }.

Definition Less (a b : handlerWithPriority) : bool :=
  if negb (hp_Priority a =? hp_Priority b) then hp_Priority a <? hp_Priority b
  else match String.compare (hp_Name a) (hp_Name b) with Lt => true | _ => false end.

Definition Register (m : gmap string handlerWithPriority) (name : string) (handler : nat) (priority : list Z)
    : gmap string handlerWithPriority :=
  let p := match priority with q :: _ => q | [] => 0 end in
  <[name := MkHandler name handler p]> m.

Definition UnRegister (m : gmap string handlerWithPriority) (name : string) : gmap string handlerWithPriority := delete name m.

(** Not after: the order in which [sort.Sort] leaves two neighbours. *)
Definition not_after (a b : handlerWithPriority) : Prop := Less b a = false.
#[export] Instance not_after_dec a b : Decision (not_after a b) := decide (Less b a = false).

(** [ExecAndExit]: the handlers that run, in order. *)
Definition ExecAndExit (m : gmap string handlerWithPriority) : list handlerWithPriority :=
  merge_sort not_after (map_to_list m).*2.

(** ** The order *)

Lemma not_after_iff a b :
  not_after a b <-> hp_Priority a < hp_Priority b \/ hp_Priority a = hp_Priority b /\ String.le (hp_Name a) (hp_Name b).
Proof.
  unfold not_after, Less, String.le, String.leb. rewrite (String.compare_antisym (hp_Name a) (hp_Name b)).
  destruct (Z.eqb_spec (hp_Priority b) (hp_Priority a)) as [E|E]; cbn [negb].
  - destruct (String.compare (hp_Name b) (hp_Name a)); cbn; naive_solver lia.
  - rewrite Z.ltb_ge. naive_solver lia.
Qed.

#[export] Instance not_after_trans : Transitive not_after.
Proof.
  intros a b c. rewrite !not_after_iff. intros [H|[H H']] [K|[K K']]; try (left; lia). right. split; [lia|]. by trans (hp_Name b).
Qed.

#[export] Instance not_after_total : Total not_after.
Proof.
  intros a b. rewrite !not_after_iff. destruct (Z.lt_total (hp_Priority a) (hp_Priority b)) as [H|[H|H]]; [by auto| |by auto].
  destruct (total String.le (hp_Name a) (hp_Name b)); auto.
Qed.

Lemma not_after_names a b : not_after a b -> not_after b a -> hp_Name a = hp_Name b.
Proof. rewrite !not_after_iff. intros [H|[H H']] [K|[K K']]; try lia. by apply (anti_symm String.le). Qed.

(** ** The registry *)

Inductive exit_op := ORegister (name : string) (handler : nat) (priority : list Z) | OUnRegister (name : string).

Definition exit_step (m : gmap string handlerWithPriority) (o : exit_op) : gmap string handlerWithPriority :=
  match o with ORegister name h p => Register m name h p | OUnRegister name => UnRegister m name end.

(** What is left of the calls for a name: the last one decides. *)
Fixpoint last_for (ops : list exit_op) (name : string) (now : option handlerWithPriority) : option handlerWithPriority :=
  match ops with
  | [] => now
  | ORegister n h p :: ops' =>
      last_for ops' name (if String.eqb n name then Some (MkHandler n h (default 0 (head p))) else now)
  | OUnRegister n :: ops' => last_for ops' name (if String.eqb n name then None else now)
  end.

Lemma exit_registry ops m name : foldl exit_step m ops !! name = last_for ops name (m !! name).
Proof.
  revert m. induction ops as [|[n h p|n] ops IH]; intros m; [done|..]; cbn [foldl exit_step last_for]; rewrite IH; f_equal.
  - unfold Register. destruct (String.eqb_spec n name) as [->|Hne]; [|by rewrite lookup_insert_ne].
    rewrite lookup_insert_eq. by destruct p.
  - unfold UnRegister. destruct (String.eqb_spec n name) as [->|Hne]; [by rewrite lookup_delete_eq|by rewrite lookup_delete_ne].
Qed.

Definition named (m : gmap string handlerWithPriority) : Prop := forall name h, m !! name = Some h -> hp_Name h = name.

Lemma exit_named ops m : named m -> named (foldl exit_step m ops).
Proof.
  revert m. induction ops as [|[n h p|n] ops IH]; intros m Hm; [done|..]; cbn [foldl exit_step]; apply IH; intros name x.
  - unfold Register. by intros [[<- <-]|[_ H]]%lookup_insert_Some; [|apply Hm].
  - unfold UnRegister. intros [_ H]%lookup_delete_Some. by apply Hm.
Qed.

Lemma exec_elem m h : named m -> h ∈ ExecAndExit m <-> m !! hp_Name h = Some h.
Proof.
  intros Hm. unfold ExecAndExit. rewrite merge_sort_Permutation, list_elem_of_fmap. split.
  - intros ([name x] & -> & H%elem_of_map_to_list). cbn. by rewrite (Hm _ _ H).
  - intros H. exists (hp_Name h, h). split; [done|]. by apply elem_of_map_to_list.
Qed.

Lemma exec_names m : named m -> NoDup (hp_Name <$> ExecAndExit m).
Proof.
  intros Hm. unfold ExecAndExit. rewrite merge_sort_Permutation.
  assert (hp_Name <$> (map_to_list m).*2 = (map_to_list m).*1) as ->; [|apply NoDup_fst_map_to_list].
  rewrite <- list_fmap_compose. apply list_fmap_ext. intros i [name x] Hi. cbn. apply Hm, elem_of_map_to_list. by eapply list_elem_of_lookup_2.
Qed.

(** At the exit every handler that is still registered runs exactly once,
    with what the last registration of its name said, in the order of priorities
    and then of names; no other order of these handlers is sorted, so the result
    does not depend on how the sort works or on the order of the map. *)
Theorem exit_order ops :
  let ran := ExecAndExit (foldl exit_step ∅ ops) in
  NoDup (hp_Name <$> ran) /\
  (forall h, h ∈ ran <-> last_for ops (hp_Name h) None = Some h) /\
  StronglySorted (fun a b => hp_Priority a < hp_Priority b \/ hp_Priority a = hp_Priority b /\ String.le (hp_Name a) (hp_Name b)) ran /\
  forall l, l ≡ₚ ran -> Sorted not_after l -> l = ran.
Proof.
  intros ran. assert (named (foldl exit_step ∅ ops)) as Hm by (apply exit_named; intros name h; by rewrite lookup_empty).
  split_and!.
  - by apply exec_names.
  - intros h. unfold ran. rewrite exec_elem by done. rewrite exit_registry. by rewrite lookup_empty.
  - assert (StronglySorted not_after ran) as Hs by (apply StronglySorted_merge_sort; apply _).
    induction Hs as [|a l Hs IH Hall]; constructor; [exact IH|]. eapply Forall_impl; [exact Hall|]. intros b. apply not_after_iff.
  - intros l Hp Hs. apply (Sorted_unique_strong not_after); [|done|apply (Sorted_merge_sort not_after)|done].
    intros a b Ha Hb Hab Hba. pose proof (not_after_names a b Hab Hba) as Hn.
    rewrite Hp in Ha. unfold ran in *. rewrite exec_elem in Ha, Hb by done. congruence.
Qed.
