(* ===== verification/Access.v ===== *)
(** * Signed requests of the management interface
      (manager/server/internal/controller/middleware/auth.go)

    MD5 and the conversion of a text to a number are parameters; the
    configuration and the time are arguments. *)

From S2P Require Import Prelude GoText.

#[local] Open Scope string_scope.
#[local] Open Scope Z_scope.

Record RequiredAuthHeader := MkAuthHeader { Appid : string; Timestamp : string; Signature : string }.
Record AuthConfig := MkAuthConfig { skip_verify_local : bool; allowed_timestamp_diff : Z; apps : list (string * string) }.

Inductive access := Next | MissingHeader | InvalidTimestamp | AppidNotFound | SignatureMismatch.

Definition salt : string := "go_v_net_web_server".

Section Signing.
Context (md5_hex : string -> string) (Int64 : string -> Z).

(** The secret of the first application with the id. *)
Definition secret_of (l : list (string * string)) (appid : string) : string :=
  match find (fun app => String.eqb app.1 appid) l with Some app => app.2 | None => "" end.

Definition Sign (cfg : AuthConfig) (appid timestamp : string) : option string :=
  let secret := secret_of (apps cfg) appid in
  if String.eqb secret "" then None else Some (md5_hex (salt +:+ appid +:+ timestamp +:+ secret)).

Definition CheckSignature (cfg : AuthConfig) (remoteAddr : string) (now : Z) (h : RequiredAuthHeader) : access :=
  if has_prefix remoteAddr "127.0.0.1" && skip_verify_local cfg then Next
  else if String.eqb (Appid h) "" || String.eqb (Timestamp h) "" || String.eqb (Signature h) "" then MissingHeader
  else
    let diff := allowed_timestamp_diff cfg in
    if (0 <? diff) && (diff <? i64 (now - Int64 (Timestamp h))) then InvalidTimestamp
    else match Sign cfg (Appid h) (Timestamp h) with
         | None => AppidNotFound
         | Some sign => if String.eqb sign (Signature h) then Next else SignatureMismatch
         end.

(** The request is local and local requests are not checked. *)
Definition exempt (cfg : AuthConfig) (remoteAddr : string) : Prop :=
  has_prefix remoteAddr "127.0.0.1" = true /\ skip_verify_local cfg = true.

(** The signature is the one of the application's secret. *)
Definition signed (cfg : AuthConfig) (h : RequiredAuthHeader) : Prop :=
  Appid h <> "" /\ Timestamp h <> "" /\ Signature h <> "" /\ secret_of (apps cfg) (Appid h) <> "" /\
  Signature h = md5_hex (salt +:+ Appid h +:+ Timestamp h +:+ secret_of (apps cfg) (Appid h)).

Definition fresh_at (cfg : AuthConfig) (now : Z) (h : RequiredAuthHeader) : Prop :=
  allowed_timestamp_diff cfg <= 0 \/ i64 (now - Int64 (Timestamp h)) <= allowed_timestamp_diff cfg.

Lemma CheckSignature_next cfg remoteAddr now h :
  CheckSignature cfg remoteAddr now h = Next <-> exempt cfg remoteAddr \/ fresh_at cfg now h /\ signed cfg h.
Proof.
  unfold CheckSignature, exempt, signed, fresh_at, Sign. destruct (has_prefix remoteAddr _), (skip_verify_local cfg); cbn [andb]; try (intuition congruence).
  all: destruct (String.eqb_spec (Appid h) ""); cbn [orb]; [intuition congruence|].
  all: destruct (String.eqb_spec (Timestamp h) ""); cbn [orb]; [intuition congruence|].
  all: destruct (String.eqb_spec (Signature h) ""); cbn [orb]; [intuition congruence|].
  all: destruct ((0 <? _) && _) eqn:Hd; [apply andb_true_iff in Hd as [Hd1%Z.ltb_lt Hd2%Z.ltb_lt]; intuition (congruence || lia)|].
  all: apply andb_false_iff in Hd; rewrite !Z.ltb_ge in Hd.
  all: destruct (String.eqb_spec (secret_of (apps cfg) (Appid h)) ""); [intuition congruence|].
  all: destruct (String.eqb_spec (md5_hex (salt +:+ Appid h +:+ Timestamp h +:+ secret_of (apps cfg) (Appid h))) (Signature h)); intuition congruence.
Qed.

(** A request of the management interface is let through exactly when it is
    local and exempt, or carries the signature of an application with a secret
    and is not too old; every other outcome is an error. A signature once
    accepted stays valid until its time plus the allowed difference: at every
    earlier time too, however far its time lies in the future, and for ever
    when the difference is not positive. *)
Theorem signature_decides cfg remoteAddr now h :
  (CheckSignature cfg remoteAddr now h = Next <-> exempt cfg remoteAddr \/ fresh_at cfg now h /\ signed cfg h) /\
  (signed cfg h -> 0 <= Int64 (Timestamp h) < 2 ^ 62 -> forall t, 0 <= t < 2 ^ 62 ->
     t <= Int64 (Timestamp h) + allowed_timestamp_diff cfg \/ allowed_timestamp_diff cfg <= 0 -> CheckSignature cfg remoteAddr t h = Next) /\
  (signed cfg h -> ~ exempt cfg remoteAddr -> 0 < allowed_timestamp_diff cfg -> 0 <= Int64 (Timestamp h) < 2 ^ 62 -> forall t, 0 <= t < 2 ^ 62 ->
     Int64 (Timestamp h) + allowed_timestamp_diff cfg < t -> CheckSignature cfg remoteAddr t h = InvalidTimestamp).
Proof.
  split_and!; [apply CheckSignature_next| |].
  - intros Hs Ht t Hr Hd. apply CheckSignature_next. right. split; [|done]. unfold fresh_at. rewrite i64_small by lia. lia.
  - intros (Ha & Ht & Hsg & _) Hne Hd Hts t Hr Hlt. unfold CheckSignature.
    destruct (has_prefix remoteAddr _ && skip_verify_local cfg) eqn:Hex; [apply andb_true_iff in Hex; by destruct Hne|].
    rewrite (proj2 (String.eqb_neq _ _) Ha), (proj2 (String.eqb_neq _ _) Ht), (proj2 (String.eqb_neq _ _) Hsg). cbn [orb].
    rewrite i64_small by lia. rewrite (proj2 (Z.ltb_lt _ _) Hd). cbn [andb].
    replace (allowed_timestamp_diff cfg <? t - Int64 (Timestamp h)) with true by (symmetry; apply Z.ltb_lt; lia). done.
Qed.
End Signing.
