(* ===== verification/Settings.v ===== *)
(** * Configuration (common/config/config.go, vnet/client/config.go,
      vnet/server/config.go)

    Values of the maps are numbered objects of the types the code stores. The
    outer [None] is a panic. *)

From S2P Require Import Prelude GoNet GoText Router SyncRouter.

#[local] Open Scope string_scope.
#[local] Open Scope Z_scope.

(** ** Mapped configuration *)

Inductive any := AnyTLS (t : nat) | AnyQuic (c : nat) | AnyInt (z : Z).

(** [values] may be a nil map. *)
Definition mappedConfig : Type := option (gmap string any).

Definition NewMappedConfig : mappedConfig := Some ∅.

Definition Get (m : mappedConfig) (key : string) : option any := match m with None => None | Some values => values !! key end.

Definition Set_ (m : mappedConfig) (key : string) (val : any) : mappedConfig := Some (<[key := val]> (default ∅ m)).

(** What is passed as a [MappedConfig]: nil, or a struct that embeds one, which
    may itself be nil. *)
Inductive config_holder := NilConfig | Holder (embedded : option mappedConfig).

(** [GetMappedConfig[T]]: [as_T] is the assertion [v.(T)]. A nil configuration
    gives the zero value whatever the default; a value of another type gives
    the default. *)
Definition GetMappedConfig {T} (zero : T) (as_T : any -> option T) (m : config_holder) (key : string) (def : list T) : option T :=
  match m with
  | NilConfig => Some zero
  | Holder None => None
  | Holder (Some m) =>
      let other := default zero (head def) in
      Some match Get m key with
           | Some v => match as_T v with Some val => val | None => other end
           | None => other
           end
  end.

(** ** The client's configuration *)

Definition TypeQuic : string := "quic".
Definition TypeTCP : string := "tcp".
Definition ConfigKeyTLS : string := "tls".
Definition ConfigKeyQuicConfig : string := "quic_config".
Definition ConfigKeyQuicClientBufferSize : string := "quic_client_buffer_size".

Record P2PConfig := MkP2P { p_Enabled : bool; p_ListenAddr : list string; p_TryInterval : Z; p_ActiveDialPeer : bool }.
Record ClientConfig := MkClientConfig {
  cc_values : option mappedConfig; cc_Link : string; cc_PublicKey : string; cc_Port : Z; cc_Address : string; cc_Type : string;
  cc_InsecureSkipVerify : bool; cc_P2P : P2PConfig; cc_Compress : bool; cc_Encrypt : bool }.

Definition defaultClientConfig : ClientConfig :=
  MkClientConfig (Some NewMappedConfig) "" "" 0 "" TypeQuic false (MkP2P true [] 30 false) false true.

Definition set_values (cfg : ClientConfig) m : ClientConfig :=
  MkClientConfig m (cc_Link cfg) (cc_PublicKey cfg) (cc_Port cfg) (cc_Address cfg) (cc_Type cfg) (cc_InsecureSkipVerify cfg) (cc_P2P cfg)
    (cc_Compress cfg) (cc_Encrypt cfg).
Definition set_server (cfg : ClientConfig) (address : string) (port : Z) : ClientConfig :=
  MkClientConfig (cc_values cfg) (cc_Link cfg) (cc_PublicKey cfg) port address (cc_Type cfg) (cc_InsecureSkipVerify cfg) (cc_P2P cfg)
    (cc_Compress cfg) (cc_Encrypt cfg).
Definition set_insecure (cfg : ClientConfig) (b : bool) : ClientConfig :=
  MkClientConfig (cc_values cfg) (cc_Link cfg) (cc_PublicKey cfg) (cc_Port cfg) (cc_Address cfg) (cc_Type cfg) b (cc_P2P cfg)
    (cc_Compress cfg) (cc_Encrypt cfg).

(** [cfg.Set] of a configuration without a map panics. *)
Definition config_Set (cfg : ClientConfig) (key : string) (val : any) : option ClientConfig :=
  m ← cc_values cfg; Some (set_values cfg (Some (Set_ m key val))).

Inductive ConfigOption :=
| OptTLS (t : nat) | OptAddress (s : string) | OptInsecure (b : bool) | OptQuicConfig (c : nat) | OptQuicBufferSize (size : Z).

Definition WithTLSConfig (t : nat) (cfg : ClientConfig) : option ClientConfig := config_Set cfg ConfigKeyTLS (AnyTLS t).

(** Everything after a second colon is dropped; a port that is no number is 0. *)
Definition WithAddress (s : string) (cfg : ClientConfig) : ClientConfig :=
  match split_all ":" s with
  | host :: port :: _ => set_server cfg host (Atoi port)
  | _ => set_server cfg s (cc_Port cfg)
  end.

Definition WithInsecureSkipVerify (b : bool) (cfg : ClientConfig) : ClientConfig := set_insecure cfg b.

Definition WithQuicClientConfig (c : nat) (cfg : ClientConfig) : option ClientConfig :=
  if negb (String.eqb (cc_Type cfg) TypeQuic) then Some cfg else config_Set cfg ConfigKeyQuicConfig (AnyQuic c).

Definition WithQuicClientBufferSize (size : Z) (cfg : ClientConfig) : option ClientConfig :=
  if negb (String.eqb (cc_Type cfg) TypeQuic) then Some cfg else config_Set cfg ConfigKeyQuicClientBufferSize (AnyInt size).

Definition apply_option (cfg : ClientConfig) (o : ConfigOption) : option ClientConfig :=
  match o with
  | OptTLS t => WithTLSConfig t cfg
  | OptAddress s => Some (WithAddress s cfg)
  | OptInsecure b => Some (WithInsecureSkipVerify b cfg)
  | OptQuicConfig c => WithQuicClientConfig c cfg
  | OptQuicBufferSize n => WithQuicClientBufferSize n cfg
  end.

Definition NewConfig (opts : list ConfigOption) : option ClientConfig :=
  foldl (fun cfg o => cfg ← cfg; apply_option cfg o) (Some defaultClientConfig) opts.

Definition as_tls (v : any) : option (option nat) := match v with AnyTLS t => Some (Some t) | _ => None end.
Definition as_quic (v : any) : option (option nat) := match v with AnyQuic c => Some (Some c) | _ => None end.

(** What [Setup] of the QUIC client dials with: the address and the two
    configurations; [generated] and [default_quic] are used when none was set.
    [skips] is the field [InsecureSkipVerify] of the TLS configurations; setting
    it on a nil one panics. *)
Definition quic_dial_args (cfg : ClientConfig) (skips : nat -> bool) (generated default_quic : nat)
    : option (string * option (nat * bool) * option nat) :=
  t ← GetMappedConfig None as_tls (Holder (cc_values cfg)) ConfigKeyTLS [Some generated];
  q ← GetMappedConfig None as_quic (Holder (cc_values cfg)) ConfigKeyQuicConfig [Some default_quic];
  t ← (if cc_InsecureSkipVerify cfg then t ← t; Some (Some (t, true)) else Some ((fun t => (t, skips t)) <$> t));
  Some (cc_Address cfg +:+ ":" +:+ dec (cc_Port cfg), t, q).

(** ** The server's configuration *)

Record TransportConfig := MkTransportConfig {
  t_values : option mappedConfig; t_Name : string; t_Port : Z; t_Address : string; t_Type : string }.
Record SignalingServerAddress := MkSignaling { sa_IP : string; sa_Transport : string; sa_Port : Z; sa_Version : string }.
Record ServerConfig := MkServerConfig {
  sc_values : option mappedConfig; sc_Servers : list TransportConfig; sc_P2P : option (list SignalingServerAddress) }.

Definition defaultServerConfig : ServerConfig := MkServerConfig (Some NewMappedConfig) [] None.

(** [WithConfig] copies the map and the servers. *)
Definition WithConfig (config cfg : ServerConfig) : ServerConfig := MkServerConfig (sc_values config) (sc_Servers config) (sc_P2P cfg).

Definition server_WithTLSConfig (t : nat) (cfg : ServerConfig) : option ServerConfig :=
  m ← sc_values cfg; Some (MkServerConfig (Some (Set_ m ConfigKeyTLS (AnyTLS t))) (sc_Servers cfg) (sc_P2P cfg)).

Definition WithQuicConfig (t : TransportConfig) (c : nat) : option TransportConfig :=
  if negb (String.eqb (t_Type t) TypeQuic) then Some t
  else m ← t_values t; Some (MkTransportConfig (Some (Set_ m ConfigKeyQuicConfig (AnyQuic c))) (t_Name t) (t_Port t) (t_Address t) (t_Type t)).

Definition server_NewConfig (opts : list (ServerConfig -> option ServerConfig)) : option ServerConfig :=
  foldl (fun cfg o => cfg ← cfg; o cfg) (Some defaultServerConfig) opts.
