(* ===== verification/SettingsProps.v ===== *)
(** * What the options of a configuration amount to *)

From S2P Require Import Prelude GoNet GoText Router SyncRouter Request RequestProps Settings.

#[local] Open Scope string_scope.
#[local] Open Scope Z_scope.

(** ** Ports *)

Lemma dec_loop_digits f n acc : 0 <= n -> string_all is_digit acc = true -> string_all is_digit (dec_loop f n acc) = true.
Proof.
  revert n acc. induction f as [|f IH]; intros n acc Hn Ha; [done|]. cbn [dec_loop]. destruct (n <=? 0); [done|].
  apply IH; [apply Z.div_pos; lia|]. cbn [string_all]. rewrite Ha, is_digit_char; [done|]. apply Z.mod_pos_bound. lia.
Qed.

Lemma dec_all_digits n : 0 <= n -> string_all is_digit (dec n) = true.
Proof. intros Hn. rewrite dec_unfold. destruct (n =? 0); [done|]. by apply dec_loop_digits. Qed.

Lemma append_empty_r (s : string) : s +:+ "" = s.
Proof. induction s as [|c s IH]; [done|]. change (String c s +:+ "") with (String c (s +:+ "")). by rewrite IH. Qed.

Lemma dec_read n : 0 <= n < 10 ^ 20 -> fst (read_digits (dec n) 0) = n.
Proof.
  intros Hn. rewrite dec_unfold. destruct (Z.eqb_spec n 0) as [->|E]; [done|].
  pose proof (read_digits_loop 20 n "" "" ltac:(lia)) as H. rewrite append_empty_r in H. by rewrite H.
Qed.

Lemma Atoi_dec n : 0 <= n < 2 ^ 63 -> Atoi (dec n) = n.
Proof.
  intros Hn. destruct (dec_starts n "" ltac:(lia)) as (d & t & Ht & Hd). rewrite append_empty_r in Ht.
  pose proof (dec_all_digits n ltac:(lia)) as Ha. pose proof (dec_read n ltac:(lia)) as Hr. unfold Atoi. rewrite Ht in *.
  destruct (digit_head d ltac:(lia)) as (_ & Hdig & Hf).
  assert (Ascii.eqb (digit_char d) "-"%char = false) as ->.
  { rewrite Forall_forall in Hf. apply Hf. repeat (apply list_elem_of_here || apply list_elem_of_further). }
  assert (Ascii.eqb (digit_char d) "+"%char = false) as ->.
  { apply Ascii.eqb_neq. intros E. rewrite E in Hdig. by vm_compute in Hdig. }
  rewrite Ha. cbn [andb negb String.eqb]. rewrite Hr. lia.
Qed.

Definition no_colon (s : string) : bool := string_all (fun c => negb (Ascii.eqb c ":"%char)) s.

Lemma digits_no_colon s : string_all is_digit s = true -> no_colon s = true.
Proof.
  unfold no_colon. induction s as [|c s IH]; [done|]. cbn [string_all]. intros [Hc Hs]%andb_true_iff. rewrite (IH Hs), andb_true_r.
  destruct (Ascii.eqb_spec c ":"%char) as [->|]; [by vm_compute in Hc|done].
Qed.

Lemma WithAddress_host_port host port cfg :
  no_colon host = true -> 0 <= port < 2 ^ 63 -> WithAddress (host +:+ ":" +:+ dec port) cfg = set_server cfg host port.
Proof.
  intros Hh Hp. unfold WithAddress. change (":" +:+ dec port) with (String ":" (dec port)). rewrite split_all_app by done.
  rewrite split_all_none by (apply digits_no_colon, dec_all_digits; lia). by rewrite Atoi_dec.
Qed.

(** ** Options *)

Definition last_tls (opts : list ConfigOption) : option nat :=
  foldl (fun r o => match o with OptTLS t => Some t | _ => r end) None opts.
Definition last_quic (opts : list ConfigOption) : option nat :=
  foldl (fun r o => match o with OptQuicConfig c => Some c | _ => r end) None opts.
Definition last_insecure (opts : list ConfigOption) : bool :=
  foldl (fun r o => match o with OptInsecure b => b | _ => r end) false opts.
Definition server_of (opts : list ConfigOption) : string * Z :=
  foldl (fun r o => match o with
                    | OptAddress s => let cfg := WithAddress s (set_server defaultClientConfig r.1 r.2) in (cc_Address cfg, cc_Port cfg)
                    | _ => r end) ("", 0) opts.

(** The configuration after the options. *)
Definition amounts (cfg : ClientConfig) (opts : list ConfigOption) : Prop :=
  cc_Type cfg = TypeQuic /\ cc_InsecureSkipVerify cfg = last_insecure opts /\ (cc_Address cfg, cc_Port cfg) = server_of opts /\
  exists m, cc_values cfg = Some (Some m) /\ m !! ConfigKeyTLS = AnyTLS <$> last_tls opts /\
    m !! ConfigKeyQuicConfig = AnyQuic <$> last_quic opts.

Lemma WithAddress_server s cfg cfg' :
  cc_Address cfg = cc_Address cfg' -> cc_Port cfg = cc_Port cfg' ->
  (cc_Address (WithAddress s cfg), cc_Port (WithAddress s cfg)) = (cc_Address (WithAddress s cfg'), cc_Port (WithAddress s cfg')).
Proof. intros _ Hp. unfold WithAddress. destruct (split_all ":" s) as [|host [|port rest]]; cbn; by rewrite ?Hp. Qed.

Lemma WithAddress_rest s cfg :
  cc_Type (WithAddress s cfg) = cc_Type cfg /\ cc_InsecureSkipVerify (WithAddress s cfg) = cc_InsecureSkipVerify cfg /\
  cc_values (WithAddress s cfg) = cc_values cfg.
Proof. unfold WithAddress. by destruct (split_all ":" s) as [|host [|port rest]]. Qed.

Lemma option_amounts cfg opts o : amounts cfg opts -> exists cfg', apply_option cfg o = Some cfg' /\ amounts cfg' (opts ++ [o]).
Proof.
  intros (Ht & Hi & Hs & m & Hm & Htls & Hquic).
  unfold amounts, last_insecure, server_of, last_tls, last_quic in *. setoid_rewrite foldl_app. cbn [foldl].
  destruct o as [t|s|b|c|n]; cbn [apply_option].
  - unfold WithTLSConfig, config_Set. rewrite Hm. cbn [mbind option_bind]. eexists. split; [done|]. cbn. split_and!; [done..|].
    eexists. split; [done|]. split; [by rewrite lookup_insert_eq|]. by rewrite lookup_insert_ne.
  - eexists. split; [done|]. destruct (WithAddress_rest s cfg) as (-> & -> & ->). split_and!; [done|done| |by exists m].
    destruct (foldl _ ("", 0) opts) as [a p]. cbn [fst snd]. injection Hs as Ha Hp. by apply WithAddress_server.
  - eexists. split; [done|]. cbn. split_and!; [done..|]. by exists m.
  - unfold WithQuicClientConfig, config_Set. rewrite Ht, Hm. cbn [mbind option_bind]. eexists. split; [done|]. cbn. split_and!; [done..|].
    eexists. split; [done|]. split; [by rewrite lookup_insert_ne|]. by rewrite lookup_insert_eq.
  - unfold WithQuicClientBufferSize, config_Set. rewrite Ht, Hm. cbn [mbind option_bind]. eexists. split; [done|]. cbn. split_and!; [done..|].
    eexists. split; [done|]. by rewrite !lookup_insert_ne.
Qed.

Lemma NewConfig_amounts opts : exists cfg, NewConfig opts = Some cfg /\ amounts cfg opts.
Proof.
  induction opts as [|o opts IH] using rev_ind.
  - exists defaultClientConfig. split; [done|]. split_and!; try done. by eexists.
  - destruct IH as (cfg & E & Ha). destruct (option_amounts cfg opts o Ha) as (cfg' & E' & Ha'). exists cfg'. split; [|done].
    unfold NewConfig in *. rewrite foldl_app. cbn [foldl]. rewrite E. exact E'.
Qed.

(** A later option of another kind leaves the server. *)
Definition is_address (o : ConfigOption) : bool := match o with OptAddress _ => true | _ => false end.

Lemma server_of_last before after s :
  forallb (fun o => negb (is_address o)) after = true -> server_of (before ++ OptAddress s :: after) = server_of (before ++ [OptAddress s]).
Proof.
  intros Ha. change (OptAddress s :: after) with ([OptAddress s] ++ after)%list. rewrite app_assoc. unfold server_of. rewrite foldl_app.
  generalize (foldl (fun r o => match o with
                    | OptAddress s => let cfg := WithAddress s (set_server defaultClientConfig r.1 r.2) in (cc_Address cfg, cc_Port cfg)
                    | _ => r end) ("", 0) (before ++ [OptAddress s])).
  induction after as [|o after IH]; intros r; [done|]. cbn [forallb foldl] in *. apply andb_true_iff in Ha as [Ho Ha].
  destruct o; try done; by apply IH.
Qed.

(** Options of a client: whatever options are given, in any order, the
    configuration exists, and a QUIC client dials with the last TLS and the
    last QUIC configuration given, and with the generated and the default one
    otherwise. The certificate is not verified exactly when the last of the
    options for it says so, or when the TLS configuration does. The last
    address of the form host:port is the text that is dialled, when the host
    has no colon and the port is a number. *)
Theorem options_decide opts skips generated default_quic :
  let t := default generated (last_tls opts) in
  exists cfg addr, NewConfig opts = Some cfg /\
    quic_dial_args cfg skips generated default_quic =
      Some (addr, Some (t, last_insecure opts || skips t), Some (default default_quic (last_quic opts))) /\
    forall before after host port, opts = (before ++ OptAddress (host +:+ ":" +:+ dec port) :: after)%list ->
      forallb (fun o => negb (is_address o)) after = true -> no_colon host = true -> 0 <= port < 2 ^ 63 ->
      addr = host +:+ ":" +:+ dec port.
Proof.
  destruct (NewConfig_amounts opts) as (cfg & E & Ht & Hi & Hs & m & Hm & Htls & Hquic). exists cfg. eexists. split; [done|].
  split.
  - unfold quic_dial_args, GetMappedConfig. rewrite Hm, Hi. cbn [mbind option_bind Get]. rewrite Htls, Hquic.
    destruct (last_tls opts), (last_quic opts), (last_insecure opts); reflexivity.
  - intros before after host port Ho Ha Hh Hp. rewrite Ho, server_of_last in Hs by done. unfold server_of in Hs.
    rewrite foldl_app in Hs. cbn [foldl] in Hs. rewrite WithAddress_host_port in Hs by done. cbn in Hs. by injection Hs as -> ->.
Qed.

(** Addresses of IPv6 servers are cut at their colons. *)
Example ipv6_address_lost : WithAddress "[::1]:9800" defaultClientConfig = set_server defaultClientConfig "[" 0.
Proof. reflexivity. Qed.

(** A nil configuration hides the default, an embedded nil one panics. *)
Lemma nil_config_default {T} (zero : T) as_T key def :
  GetMappedConfig zero as_T NilConfig key [def] = Some zero /\ GetMappedConfig zero as_T (Holder None) key [def] = None.
Proof. done. Qed.

(** [WithConfig] loses the addresses of the signalling server. *)
Lemma WithConfig_drops_p2p config : sc_P2P <$> server_NewConfig [fun cfg => Some (WithConfig config cfg)] = Some None.
Proof. done. Qed.
