(* ===== verification/Serve.v ===== *)
(** * Accepting sessions and serving their calls (vnet/server: server.go, server_p2p.go,
      loop.go)

    What the goroutines meet is an argument: the results of accepting and
    receiving, generated ids, ticks and the clock. A new session gets a new
    place on the heap. The outer [None] is a panic. *)

From S2P Require Import Prelude GoNet GoText Router QuotaCounter GoFloat SmoothLimiter Metrics Server Functions Proxy TcpLink QuicLink.
From S2P Require Import SyncRouter Login Settings.

#[local] Open Scope string_scope.
#[local] Open Scope Z_scope.

(** ** The signalling server *)

Record p2pSignalingServer := MkP2PServer {
  ps_config : option (list SignalingServerAddress); ps_host : bool; ps_addresses : list string; ps_hostId : string }.

Definition newP2PSignalingServer (config : option (list SignalingServerAddress)) : p2pSignalingServer := MkP2PServer config false [] "".

(** The text of an address; [StringCast] of a text that is no address panics. *)
Definition MultiAddr (network : list string) (c : SignalingServerAddress) : string :=
  let n := match network with n :: _ => n | [] => "ip4" end in
  let str := "/" +:+ n +:+ "/" +:+ sa_IP c +:+ "/" +:+ sa_Transport c +:+ "/" +:+ dec (sa_Port c) in
  if String.eqb (sa_Version c) "" then str else str +:+ "/" +:+ sa_Version c.

Inductive p2p_run_error := NoAddressForP2P | HostFailed.

(** [Run]: [valid] tells which texts are addresses, [host] is the id and the
    addresses of the host, if one can be made. A nil configuration panics. *)
Definition p2p_Run (valid : string -> bool) (host : option (string * list string)) (s : p2pSignalingServer)
    : option (option p2p_run_error * p2pSignalingServer) :=
  config ← ps_config s;
  if negb (forallb (fun a => valid (MultiAddr [] a)) config) then None
  else if bool_decide (config = []) then Some (Some NoAddressForP2P, s)
  else match host with
       | None => Some (Some HostFailed, s)
       | Some (id, addrs) => Some (None, MkP2PServer (ps_config s) true addrs id)
       end.

(** [Close] of a server that has no host calls a nil interface. *)
Definition p2p_Close (s : p2pSignalingServer) : option p2pSignalingServer := if ps_host s then Some s else None.

Definition ID (s : p2pSignalingServer) : string := ps_hostId s.
Definition Addresses (s : p2pSignalingServer) : list string := ps_addresses s.

(** What [funcGetP2PRelayInfo] marshals; the slice is nil until [Run]. *)
Definition relay_info (s : p2pSignalingServer) : json :=
  JObj [("id", JStr (ID s));
        ("addresses", if ps_host s then JArr (JStr <$> Addresses s) else JNull)].

(** ** The client's way to the signalling server (client_p2p.go) *)

Record AddressInfo := MkAddressInfo { ai_Id : string; ai_Addresses : list string }.

Definition as_strings (v : json) : option (list string) :=
  match v with JArr l => json_strings l | JNull => Some [] | _ => None end.

Definition set_address_info (a : AddressInfo) (k : string) (v : json) : option AddressInfo :=
  if String.eqb k "id" then s ← as_string (ai_Id a) v; Some (MkAddressInfo s (ai_Addresses a))
  else if String.eqb k "addresses" then l ← as_strings v; Some (MkAddressInfo (ai_Id a) l)
  else Some a.

Inductive peer_info := PeerError | NoPeerInfo | PeerInfo (a : AddressInfo).

(** [getPeerInfo] on the result of the call: data that is no text panics, the
    text [null] leaves a nil pointer. *)
Definition getPeerInfo (resp : option FuncCallResponse) : option peer_info :=
  match resp with
  | None => Some PeerError
  | Some r =>
      match rs_Data r with
      | JStr text =>
          Some match b64_decode true text with
               | None => PeerError
               | Some data =>
                   match Unmarshal (bytes_string data) with
                   | None => PeerError
                   | Some JNull => NoPeerInfo
                   | Some v => match into set_address_info (MkAddressInfo "" []) v with Some a => PeerInfo a | None => PeerError end
                   end
               end
      | _ => None
      end
  end.

Definition listen_addresses (valid : string -> bool) (configured : list string) : list string :=
  let l := match configured with [] => ["/ip4/0.0.0.0/tcp/0"] | _ => configured end in filter (fun s => valid s = true) l.

(** What [connectP2PSignalingServer] dials: [None] a panic, then the addresses to
    listen at and to connect to, if there is a signalling server. *)
Definition signalling_addresses (valid : string -> bool) (configured : list string) (resp : option FuncCallResponse)
    : option (option (list string * list string)) :=
  info ← getPeerInfo resp;
  match info with
  | PeerError => Some None
  | NoPeerInfo => None
  | PeerInfo a =>
      if bool_decide (ai_Addresses a = []) then Some None
      else if String.eqb (ai_Id a) "" then Some None
      else Some (Some (listen_addresses valid configured,
                       filter (fun s => valid s = true) ((fun s => s +:+ "/p2p/" +:+ ai_Id a) <$> ai_Addresses a)))
  end.

(** ** Serving *)

(** [Serve] until the signal: whether it returned an error, and the transport
    servers it started. [closed]: the signal came. *)
Definition Serve (valid : string -> bool) (host : option (string * list string)) (cfg : ServerConfig) (closed : bool)
    : option (option p2p_run_error * list TransportConfig * p2pSignalingServer) :=
  '(err, ps) ← p2p_Run valid host (newP2PSignalingServer (sc_P2P cfg));
  match err with
  | Some e => ps ← p2p_Close ps; Some (Some e, [], ps)
  | None => if closed then ps ← p2p_Close ps; Some (None, sc_Servers cfg, ps) else Some (None, sc_Servers cfg, ps)
  end.

Inductive serve_error := InvalidServerType (t : string) | SetupFailed.

(** The name of a server without one; [rnd] is the generated text. *)
Definition server_name (cfg : TransportConfig) (rnd : string) : string :=
  if String.eqb (t_Name cfg) "" then "unnamed-" +:+ t_Type cfg +:+ "-server-" +:+ substring 0 8 rnd else t_Name cfg.

(** One turn: the signal, or a generated id with the accepted connection. *)
Inductive serve_event := ServeSig | ServeAccept (id : string) (accepted : option nat).

Record serving := MkServing { sg_server : Server; sg_eps : gmap nat endpoint; sg_started : list nat }.

Definition session_id (t id : string) : string := lower_all t +:+ "-" +:+ id.

(** An accepted connection becomes a session, which [handleSession] then runs;
    an error of accepting is logged. *)
Definition serve_turn (t : string) (mk : nat -> endpoint) (st : serving) (id : string) (accepted : option nat) : serving :=
  match accepted with
  | None => st
  | Some conn =>
      let p := fresh (dom (sv_sess (sg_server st))) in
      MkServing (with_sess (sg_server st) p (newServerSession (session_id t id))) (<[p := mk conn]> (sg_eps st)) (sg_started st ++ [p])
  end.

Fixpoint serve_loop (t : string) (mk : nat -> endpoint) (st : serving) (events : list serve_event) : serving :=
  match events with
  | [] => st
  | ServeSig :: _ => st
  | ServeAccept id accepted :: events' => serve_loop t mk (serve_turn t mk st id accepted) events'
  end.

Definition endpoint_of (t : string) : option (nat -> endpoint) :=
  if String.eqb t TypeQuic then Some EndpointQuic else if String.eqb t TypeTCP then Some (fun _ => EndpointTcp) else None.

(** [serve]: the servers by name are [internals]. *)
Definition serve (cfg : TransportConfig) (rnd : string) (setup_ok : bool) (events : list serve_event)
    (internals : gmap string string) (st : serving) : option serve_error * gmap string string * serving :=
  match endpoint_of (t_Type cfg) with
  | None => (Some (InvalidServerType (t_Type cfg)), internals, st)
  | Some mk =>
      let internals := <[server_name cfg rnd := t_Type cfg]> internals in
      if negb setup_ok then (Some SetupFailed, internals, st)
      else (None, internals, serve_loop (t_Type cfg) mk st events)
  end.

(** ** Calls of a session *)

Inductive call_event := CallSig | CallCtx | CallReceive (now : Z) (datagram : option string).
Inductive call_end := CallServerClosed | CallCtxDone | CallReceiveError.

Section Calls.
Context (md5_hex : string -> string) (relayInfo : json) (functions : gmap string FuncCallHandler).

(** The messages that are sent and why the loop ended, if it did; an error of
    handling is logged. *)
Fixpoint handleFuncCallLoop (sv : Server) (p : nat) (events : list call_event) : option (list (list Z) * option call_end * Server) :=
  match events with
  | [] => Some ([], None, sv)
  | CallSig :: _ => Some ([], Some CallServerClosed, sv)
  | CallCtx :: _ => Some ([], Some CallCtxDone, sv)
  | CallReceive _ None :: _ => Some ([], Some CallReceiveError, sv)
  | CallReceive now (Some datagram) :: events' =>
      '(answer, sv) ← HandleFuncCallEvent md5_hex relayInfo functions now sv p datagram;
      '(sent, e, sv) ← handleFuncCallLoop sv p events';
      Some (option_list answer ++ sent, e, sv)%list
  end.
End Calls.

(** [PushEvent]: the message of an event. *)
Definition event_json (id event : string) (data : json) : json := JObj [("event_id", JStr id); ("event", JStr event); ("data", data)].
Definition PushEvent (id event : string) (data : json) : list Z :=
  MessageTypeServerEvent :: string_bytes (Marshal (event_json id event data)).

(** ** Periodic work *)

(** The tick of every minute: every session of the table submits its usage. *)
Definition usage_tick (sv : Server) : option (list Z * Server) :=
  foldl (fun acc e => '(us, sv) ← acc; '(u, sv) ← updateUsage sv (e : string * nat).2; Some (us ++ [u], sv)%list)
    (Some ([], sv)) (map_to_list (sv_sessions sv)).
