(* ===== verification/ServeProps.v ===== *)
(** * Sessions are accepted, calls are served, and clients find the signalling server *)

From S2P Require Import Prelude GoNet GoText Router RouterProps QuotaCounter GoFloat SmoothLimiter Metrics Server Functions FunctionsProps.
From S2P Require Import Calls CallsProps Proxy TcpLink QuicLink SyncRouter SyncProps Request RequestProps Login LoginProps Settings Serve.

#[local] Open Scope string_scope.
#[local] Open Scope Z_scope.

(** ** The signalling server *)

(** A server that cannot start its signalling server does not return its error:
    closing what was not started panics. *)
Lemma Serve_never_fails valid host cfg closed e started ps : Serve valid host cfg closed <> Some (Some e, started, ps).
Proof.
  unfold Serve, p2p_Run. cbn [ps_config newP2PSignalingServer]. destruct (sc_P2P cfg) as [l|]; [|done]. cbn [mbind option_bind].
  destruct (negb (forallb _ l)); [done|]. case_bool_decide; [done|]. destruct host as [[id addrs]|]; [|done]. cbn. by destruct closed.
Qed.

Lemma Serve_started valid host cfg closed started ps :
  Serve valid host cfg closed = Some (None, started, ps) ->
  exists l id addrs, sc_P2P cfg = Some l /\ l <> [] /\ host = Some (id, addrs) /\ ps = MkP2PServer (Some l) true addrs id /\ started = sc_Servers cfg.
Proof.
  unfold Serve, p2p_Run. cbn [ps_config newP2PSignalingServer]. destruct (sc_P2P cfg) as [l|]; [|done]. cbn [mbind option_bind].
  destruct (negb (forallb _ l)); [done|]. case_bool_decide; [done|]. destruct host as [[id addrs]|]; [|done]. cbn.
  destruct closed; intros [= <- <-]; by exists l, id, addrs.
Qed.

Lemma address_info_json id addrs :
  into set_address_info (MkAddressInfo "" []) (JObj [("id", JStr id); ("addresses", JArr (JStr <$> addrs))]) = Some (MkAddressInfo id addrs).
Proof. next_field. next_field; [|cbn [as_strings]; by rewrite json_strings_all]. reflexivity. Qed.

(** Clients find the signalling server: once the server serves, the answer
    to the call for the relay tells its host id and addresses, and a client that
    reads the answer listens at its own addresses (or at any) and connects to
    each of the host's addresses with the id appended, leaving out those that
    are no addresses. *)
Theorem signalling_found md5_hex valid id addrs cfg closed started ps now sv p req configured :
  Serve valid (Some (id, addrs)) cfg closed = Some (None, started, ps) -> id <> "" -> addrs <> [] ->
  is_Some (sv_sess sv !! p) -> rq_FuncName req = FuncNameGetP2PPeerInfo ->
  exists resp, handleFuncCall md5_hex (relay_info ps) server_functions now sv p req = Some (resp, sv) /\
    rs_RequestId resp = rq_RequestId req /\
    signalling_addresses valid configured (Some resp) =
      Some (Some (filter (fun s => valid s = true) (if decide (configured = []) then ["/ip4/0.0.0.0/tcp/0"] else configured),
                  filter (fun s => valid s = true) ((fun s => s +:+ "/p2p/" +:+ id) <$> addrs))).
Proof.
  intros Hs Hid Haddr [s Hp] Hf. apply Serve_started in Hs as (l & id' & addrs' & _ & _ & [= <- <-] & -> & _).
  unfold handleFuncCall. rewrite Hf. change (server_functions !! FuncNameGetP2PPeerInfo) with (Some funcGetP2PRelayInfo).
  unfold call_handler. rewrite Hp. cbn [mbind option_bind]. eexists. split; [reflexivity|]. split; [reflexivity|].
  unfold signalling_addresses, getPeerInfo. cbn [rs_Data ok_response base64_json]. unfold base64_json.
  rewrite b64_roundtrip by apply string_bytes_ok. rewrite bytes_string_bytes.
  unfold relay_info. cbn [ps_host ID Addresses ps_hostId ps_addresses].
  assert (Unmarshal (Marshal (JObj [("id", JStr id); ("addresses", JArr (JStr <$> addrs))])) =
    Some (JObj [("id", JStr id); ("addresses", JArr (JStr <$> addrs))])) as ->.
  { apply Unmarshal_Marshal. pose proof (nums_strings addrs) as Hn. cbn [nums_ok foldr snd]. by split_and!. }
  pose proof (address_info_json id addrs) as Hinto. cbv iota. rewrite Hinto. cbn [mbind option_bind ai_Addresses ai_Id].
  rewrite bool_decide_false by done. rewrite (proj2 (String.eqb_neq _ _) Hid). unfold listen_addresses.
  by destruct configured as [|c configured].
Qed.

Lemma signalling_found_witness :
  exists resp, handleFuncCall (fun s => s) (relay_info (MkP2PServer (Some [MkSignaling "0.0.0.0" "tcp" 9901 ""]) true ["/ip4/1.2.3.4/tcp/9901"] "Qm"))
      server_functions 0 (MkServer {[1%nat := newServerSession "tcp-1"]} ∅ ∅ ∅ 0) 1 (MkRequest "7" FuncNameGetP2PPeerInfo None) =
      Some (resp, MkServer {[1%nat := newServerSession "tcp-1"]} ∅ ∅ ∅ 0) /\
    signalling_addresses (fun _ => true) [] (Some resp) = Some (Some (["/ip4/0.0.0.0/tcp/0"], ["/ip4/1.2.3.4/tcp/9901/p2p/Qm"])).
Proof.
  destruct (signalling_found (fun s => s) (fun _ => true) "Qm" ["/ip4/1.2.3.4/tcp/9901"]
    (MkServerConfig None [] (Some [MkSignaling "0.0.0.0" "tcp" 9901 ""])) false []
    (MkP2PServer (Some [MkSignaling "0.0.0.0" "tcp" 9901 ""]) true ["/ip4/1.2.3.4/tcp/9901"] "Qm") 0
    (MkServer {[1%nat := newServerSession "tcp-1"]} ∅ ∅ ∅ 0) 1 (MkRequest "7" FuncNameGetP2PPeerInfo None) []) as (resp & H1 & _ & H2).
  - vm_compute. reflexivity.
  - discriminate.
  - discriminate.
  - eexists. vm_compute. reflexivity.
  - reflexivity.
  - exists resp. split; [exact H1|]. exact H2.
Defined.

(** ** Calls *)

Section Calls.
Context (md5_hex : string -> string) (relayInfo : json) (functions : gmap string FuncCallHandler).

(** The session has its network. *)
Definition serviceable (sv : Server) (p : nat) : Prop :=
  exists s w n, sv_sess sv !! p = Some s /\ s_network s = Some w /\ sv_nets sv !! w = Some n.

(** A registration of a peer that is no text. *)
Definition harmful (req : FuncCallRequest) : bool :=
  match functions !! rq_FuncName req, arg (rq_Args req) "peer" with
  | Some funcRegisterP2PPeer, Some (JStr _) => false
  | Some funcRegisterP2PPeer, Some _ => true
  | _, _ => false
  end.

Lemma with_sess_serviceable sv p s s' w n :
  sv_sess sv !! p = Some s -> s_network s' = Some w -> sv_nets sv !! w = Some n -> serviceable (with_sess sv p s') p.
Proof. intros _ Hw Hn. exists s', w, n. cbn. by rewrite lookup_insert_eq. Qed.

Lemma handleFuncCall_total now sv p req :
  serviceable sv p -> harmful req = false ->
  exists resp sv', handleFuncCall md5_hex relayInfo functions now sv p req = Some (resp, sv') /\ serviceable sv' p.
Proof.
  intros (s & w & n & Hs & Hw & Hn) Hh. unfold harmful in Hh. unfold handleFuncCall.
  assert (serviceable sv p) as Hsv by (by exists s, w, n).
  destruct (functions !! rq_FuncName req) as [h|]; [|by eexists _, _].
  unfold call_handler. rewrite Hs. cbn [mbind option_bind]. destruct h.
  - rewrite Hw. cbn [mbind option_bind with_sess sv_nets]. rewrite Hn. cbn [mbind option_bind]. eexists _, _. split; [reflexivity|].
    by apply (with_sess_serviceable sv p s _ w n).
  - rewrite Hw. cbn [mbind option_bind]. rewrite Hn. cbn [mbind option_bind]. by eexists _, _.
  - by eexists _, _.
  - by eexists _, _.
  - destruct (arg (rq_Args req) "peer") as [[]|]; try discriminate Hh; [|by eexists _, _].
    destruct (String.eqb _ ""); [by eexists _, _|]. destruct (s_storage s !! _); [by eexists _, _|].
    eexists _, _. split; [reflexivity|]. destruct (with_sess_serviceable sv p s
      (set_storage s (<[sessionStorageKeyP2PPeer := StoredPeer s0]> (s_storage s))) w n Hs Hw Hn) as (s1 & w1 & n1 & H1 & H2 & H3).
    by exists s1, w1, n1.
Qed.

(** The requests the loop takes, and why it ends. *)
Fixpoint taken (events : list call_event) : list FuncCallRequest * option call_end :=
  match events with
  | [] => ([], None)
  | CallSig :: _ => ([], Some CallServerClosed)
  | CallCtx :: _ => ([], Some CallCtxDone)
  | CallReceive _ None :: _ => ([], Some CallReceiveError)
  | CallReceive _ (Some d) :: events' =>
      let '(reqs, e) := taken events' in (option_list (decode_request d) ++ reqs, e)%list
  end.

(** The request a message answers. *)
Definition answers (msg : list Z) : option string :=
  match msg with
  | typ :: rest => if typ =? MessageTypeFuncCall then rs_RequestId <$> decode_response (bytes_string rest) else None
  | [] => None
  end.

Lemma answer_names now sv p req resp sv' :
  handleFuncCall md5_hex relayInfo functions now sv p req = Some (resp, sv') ->
  answers (MessageTypeFuncCall :: string_bytes (Marshal (response_json resp))) = Some (rq_RequestId req).
Proof.
  intros H. apply handleFuncCall_shape in H as (Hid & Hc & Hk & Hd). unfold answers. rewrite bytes_string_bytes.
  change (MessageTypeFuncCall =? MessageTypeFuncCall) with true. cbv iota.
  rewrite decode_response_json by (done || lia). cbn [fmap option_fmap option_map]. by rewrite Hid.
Qed.

Lemma calls_served_from sv p events :
  serviceable sv p -> forallb (fun req => negb (harmful req)) (taken events).1 = true ->
  exists sent sv', handleFuncCallLoop md5_hex relayInfo functions sv p events = Some (sent, (taken events).2, sv') /\ serviceable sv' p /\
    answers <$> sent = Some ∘ rq_RequestId <$> (taken events).1.
Proof.
  revert sv. induction events as [|ev events IH]; intros sv Hs Hh; [by exists [], sv|].
  destruct ev as [| |now [d|]]; [by exists [], sv..| |by exists [], sv]. cbn [taken handleFuncCallLoop] in *.
  destruct (taken events) as [reqs e]. cbn [fst snd] in *. unfold HandleFuncCallEvent.
  destruct (decode_request d) as [req|] eqn:Ed; cbn [option_list app] in *.
  - cbn [forallb] in Hh. apply andb_true_iff in Hh as [Hreq%negb_true_iff Hh].
    destruct (handleFuncCall_total now sv p req Hs Hreq) as (resp & sv1 & E & Hs1). rewrite E. cbn [mbind option_bind].
    destruct (IH sv1 Hs1 Hh) as (sent & sv2 & E2 & Hs2 & Ha). rewrite E2. cbn [mbind option_bind].
    eexists _, sv2. split; [reflexivity|]. split; [done|]. rewrite !fmap_app, Ha. f_equal. apply answer_names in E.
    change ([answers (MessageTypeFuncCall :: string_bytes (Marshal (response_json resp)))] = [Some (rq_RequestId req)]). by rewrite E.
  - cbn [mbind option_bind]. destruct (IH sv Hs Hh) as (sent & sv2 & E2 & Hs2 & Ha). rewrite E2. by exists sent, sv2.
Qed.

(** C26. The calls of a session are served: while its client sends, every message
    that is a request is answered by exactly one message, in order and with the
    id of the request, messages that are none are skipped, and the loop goes on
    until the server or the session ends or receiving fails. The one request
    that breaks this is a registration of a peer that is no text: it panics. *)
Theorem calls_served sv p events :
  serviceable sv p ->
  (forallb (fun req => negb (harmful req)) (taken events).1 = true ->
   exists sent sv', handleFuncCallLoop md5_hex relayInfo functions sv p events = Some (sent, (taken events).2, sv') /\
     answers <$> sent = Some ∘ rq_RequestId <$> (taken events).1) /\
  (forall now d req rest, decode_request d = Some req -> harmful req = true ->
     handleFuncCallLoop md5_hex relayInfo functions sv p (CallReceive now (Some d) :: rest) = None).
Proof.
  intros Hs. split.
  - intros Hh. destruct (calls_served_from sv p events Hs Hh) as (sent & sv' & E & _ & Ha). by exists sent, sv'.
  - intros now d req rest Hd Hh. destruct Hs as (s & w & n & Hp & _ & _). cbn [handleFuncCallLoop]. unfold HandleFuncCallEvent, handleFuncCall.
    rewrite Hd. unfold harmful in Hh. destruct (functions !! rq_FuncName req) as [[]|]; try discriminate Hh.
    unfold call_handler. rewrite Hp. cbn [mbind option_bind]. by destruct (arg (rq_Args req) "peer") as [[]|].
Qed.
End Calls.

Definition sample_events : list call_event :=
  [CallReceive 5 (Some "no json"); CallReceive 6 (Some (Marshal (request_json (MkRequest "a" FuncNamePing None))));
   CallReceive 7 (Some (Marshal (request_json (MkRequest "b" "nothing" None)))); CallReceive 8 None].

Lemma calls_served_witness :
  exists sent sv', handleFuncCallLoop (fun s => s) JNull server_functions sample_call_server 1 sample_events =
      Some (sent, Some CallReceiveError, sv') /\ answers <$> sent = [Some "a"; Some "b"].
Proof.
  destruct (calls_served (fun s => s) JNull server_functions sample_call_server 1 sample_events) as [H _].
  - eexists _, _, _. split; [vm_compute; reflexivity|]. split; vm_compute; reflexivity.
  - destruct (H ltac:(vm_compute; reflexivity)) as (sent & sv' & H1 & H2). exists sent, sv'. split; [exact H1|]. rewrite H2. vm_compute. reflexivity.
Defined.

(** ** Accepting *)

(** The connections that are accepted before the signal, with their ids. *)
Fixpoint accepted_of (events : list serve_event) : list (string * nat) :=
  match events with
  | [] => []
  | ServeSig :: _ => []
  | ServeAccept id (Some conn) :: events' => (id, conn) :: accepted_of events'
  | ServeAccept _ None :: events' => accepted_of events'
  end.

(** The session at [p] talks over the connection [e]. *)
Definition session_at (t : string) (mk : nat -> endpoint) (st : serving) (p : nat) (e : string * nat) : Prop :=
  sv_sess (sg_server st) !! p = Some (newServerSession (session_id t e.1)) /\ sg_eps st !! p = Some (mk e.2).

(** Sessions that exist stay as they are. *)
Definition stays (st st' : serving) : Prop :=
  forall p, p ∈ dom (sv_sess (sg_server st)) ->
    sv_sess (sg_server st') !! p = sv_sess (sg_server st) !! p /\ sg_eps st' !! p = sg_eps st !! p.

Lemma serve_loop_spec t mk events : forall st,
  exists ps, sg_started (serve_loop t mk st events) = (sg_started st ++ ps)%list /\
    Forall2 (session_at t mk (serve_loop t mk st events)) ps (accepted_of events) /\ NoDup ps /\
    Forall (fun p => p ∉ dom (sv_sess (sg_server st))) ps /\ stays st (serve_loop t mk st events) /\
    dom (sv_sess (sg_server (serve_loop t mk st events))) = dom (sv_sess (sg_server st)) ∪ list_to_set ps.
Proof.
  induction events as [|[|id [conn|]] events IH]; intros st; cbn [serve_loop accepted_of serve_turn].
  - exists []. rewrite app_nil_r. split_and!; [done|constructor|constructor|constructor|done|cbn; set_solver].
  - exists []. rewrite app_nil_r. split_and!; [done|constructor|constructor|constructor|done|cbn; set_solver].
  - set (p := fresh (dom (sv_sess (sg_server st)))). pose proof (is_fresh (dom (sv_sess (sg_server st)))) as Hp. fold p in Hp.
    set (st1 := MkServing _ _ _). destruct (IH st1) as (ps & H1 & H2 & H3 & H4 & H5 & H6).
    assert (dom (sv_sess (sg_server st1)) = {[p]} ∪ dom (sv_sess (sg_server st))) as Hd by (cbn; by rewrite dom_insert_L).
    exists (p :: ps). rewrite H1. cbn [sg_started st1]. split_and!.
    + by rewrite <- app_assoc.
    + constructor; [|done]. destruct (H5 p) as [Hs He]; [rewrite Hd; set_solver|]. split; [rewrite Hs|rewrite He]; cbn; apply lookup_insert_eq.
    + constructor; [|done]. intros Hin. rewrite Forall_forall in H4. apply (H4 p Hin). rewrite Hd. set_solver.
    + constructor; [done|]. eapply Forall_impl; [exact H4|]. cbn beta. intros q Hq Hin. apply Hq. rewrite Hd. set_solver.
    + intros q Hq. destruct (H5 q) as [Hs He]; [rewrite Hd; set_solver|]. rewrite Hs, He. cbn. rewrite !lookup_insert_ne by (by intros <-). done.
    + rewrite H6, Hd. cbn. set_solver.
  - destruct (IH st) as (ps & H). by exists ps.
Qed.

Lemma string_app_inj (a b c : string) : a +:+ b = a +:+ c -> b = c.
Proof. induction a as [|x a IH]; [done|]. intros [= H]. by apply IH. Qed.

Lemma session_id_inj t id id' : session_id t id = session_id t id' -> id = id'.
Proof. unfold session_id. intros H%string_app_inj. by injection H. Qed.

(** A transport server turns accepted connections into sessions: of a known
    type and set up, it registers under its name and starts one session for
    every connection that is accepted before the signal, in order, each at a
    new place with its own id and endpoint, while sessions that exist stay as
    they are; failed accepts are skipped. An unknown type starts nothing. *)
Theorem sessions_accepted cfg rnd events internals st :
  match endpoint_of (t_Type cfg) with
  | None => serve cfg rnd true events internals st = (Some (InvalidServerType (t_Type cfg)), internals, st)
  | Some mk =>
      serve cfg rnd false events internals st = (Some SetupFailed, <[server_name cfg rnd := t_Type cfg]> internals, st) /\
      exists ps st', serve cfg rnd true events internals st = (None, <[server_name cfg rnd := t_Type cfg]> internals, st') /\
        sg_started st' = (sg_started st ++ ps)%list /\ Forall2 (session_at (t_Type cfg) mk st') ps (accepted_of events) /\ NoDup ps /\
        Forall (fun p => p ∉ dom (sv_sess (sg_server st))) ps /\ stays st st' /\
        (NoDup (accepted_of events).*1 -> NoDup (session_id (t_Type cfg) <$> (accepted_of events).*1))
  end.
Proof.
  unfold serve. destruct (endpoint_of (t_Type cfg)) as [mk|]; [|done]. split; [done|].
  destruct (serve_loop_spec (t_Type cfg) mk events st) as (ps & H1 & H2 & H3 & H4 & H5 & _). exists ps. eexists. split; [done|].
  split_and!; [done..|]. intros Hnd. apply NoDup_fmap_2; [|done]. intros a b. apply session_id_inj.
Qed.

(** ** Usage is submitted *)

(** What a session has counted and not submitted, and all it has counted. *)
Definition pending (sv : Server) (p : nat) : Z := default 0 (usage <$> (sv_sess sv !! p ≫= s_quota)).
Definition counted (sv : Server) (p : nat) : Z :=
  default 0 ((fun q => usage q + sum (submitted q)) <$> (sv_sess sv !! p ≫= s_quota)).

Lemma CommitUsage_account q : usage (CommitUsage q).2 = 0 /\ usage (CommitUsage q).2 + sum (submitted (CommitUsage q).2) = usage q + sum (submitted q).
Proof.
  unfold CommitUsage. destruct (usage q =? 0) eqn:E; cbn [snd submit set_usage usage submitted]; [split; [lia|done]|].
  rewrite sum_app. cbn. lia.
Qed.

Lemma updateUsage_settles sv p :
  is_Some (sv_sess sv !! p) ->
  exists u sv', updateUsage sv p = Some (u, sv') /\ u = pending sv p /\ dom (sv_sess sv') = dom (sv_sess sv) /\
    (forall q, counted sv' q = counted sv q) /\ (forall q, pending sv' q = if decide (q = p) then 0 else pending sv q).
Proof.
  intros [s Hs]. unfold updateUsage, pending, counted. rewrite Hs. cbn [mbind option_bind]. destruct (s_quota s) as [q|] eqn:Eq.
  - pose proof (CommitUsage_account q) as [H1 H2].
    assert ((CommitUsage q).1 = usage q) as Hu by (unfold CommitUsage; destruct (usage q =? 0) eqn:E; cbn; lia).
    destruct (CommitUsage q) as [u q']. cbn [fst snd] in *. eexists _, _. split; [reflexivity|]. cbn [with_sess sv_sess]. split; [done|].
    split; [rewrite dom_insert_L; apply elem_of_dom_2 in Hs; set_solver|]. split; intros r; destruct (decide (r = p)) as [->|Hne].
    + rewrite lookup_insert_eq, Hs. cbn. by rewrite Eq.
    + by rewrite lookup_insert_ne.
    + rewrite lookup_insert_eq. cbn. done.
    + by rewrite lookup_insert_ne.
  - exists 0, sv. split_and!; [done|done|done|done|]. intros r. destruct (decide (r = p)) as [->|]; [|done]. rewrite Hs. cbn. by rewrite Eq.
Qed.

Lemma usage_fold l : forall us sv, Forall (fun e => is_Some (sv_sess sv !! e.2)) l ->
  exists us' sv',
    foldl (fun acc e => '(us, sv) ← acc; '(u, sv) ← updateUsage sv (e : string * nat).2; Some (us ++ [u], sv)%list) (Some (us, sv)) l =
      Some ((us ++ us')%list, sv') /\
    (forall q, counted sv' q = counted sv q) /\ (forall q, pending sv' q = if decide (q ∈ l.*2) then 0 else pending sv q) /\
    (NoDup l.*2 -> us' = pending sv <$> l.*2).
Proof.
  induction l as [|[ip p] l IH]; intros us sv Hl.
  { exists [], sv. rewrite app_nil_r. split_and!; try done. }
  apply Forall_cons in Hl as [Hp Hl]. cbn [snd] in Hp. cbn [foldl mbind option_bind snd].
  destruct (updateUsage_settles sv p Hp) as (u & sv1 & E & -> & Hd & Hc & Hpe). rewrite E. cbn [mbind option_bind].
  destruct (IH (us ++ [pending sv p])%list sv1) as (us' & sv2 & E2 & Hc2 & Hp2 & Hus).
  { eapply Forall_impl; [exact Hl|]. cbn. intros [i q] Hq. apply elem_of_dom. rewrite Hd. by apply elem_of_dom. }
  exists (pending sv p :: us'), sv2. rewrite E2, <- app_assoc. split_and!; [done|intros q; by rewrite Hc2|..].
  - intros q. rewrite Hp2, Hpe, fmap_cons. cbn [snd]. destruct (decide (q = p)) as [->|Hne].
    + rewrite (decide_True (P := p ∈ p :: l.*2)) by apply list_elem_of_here. by destruct (decide (p ∈ l.*2)).
    + apply decide_ext. rewrite elem_of_cons. naive_solver.
  - rewrite fmap_cons. cbn [snd]. intros [Hn Hnd]%NoDup_cons. rewrite (Hus Hnd), fmap_cons. f_equal. apply list_fmap_ext.
    intros i q Hq. rewrite Hpe, decide_False; [done|]. intros ->. by apply Hn, (list_elem_of_lookup_2 _ i).
Qed.

(** Every minute the usage of all sessions is submitted: the tick submits
    exactly what each session of the table has counted since the last one,
    leaves nothing pending there, touches no other session, and what a session
    has counted in all, submitted or pending, is unchanged. *)
Theorem usage_tick_settles sv :
  (forall ip p, sv_sessions sv !! ip = Some p -> is_Some (sv_sess sv !! p)) ->
  exists us sv', usage_tick sv = Some (us, sv') /\
    (forall q, counted sv' q = counted sv q) /\
    (forall ip p, sv_sessions sv !! ip = Some p -> pending sv' p = 0) /\
    (forall q, (forall ip, sv_sessions sv !! ip <> Some q) -> pending sv' q = pending sv q) /\
    (NoDup (map_to_list (sv_sessions sv)).*2 -> us = pending sv <$> (map_to_list (sv_sessions sv)).*2).
Proof.
  intros Hok. unfold usage_tick. destruct (usage_fold (map_to_list (sv_sessions sv)) [] sv) as (us & sv' & E & Hc & Hp & Hus).
  { apply Forall_forall. intros [ip p] Hin%elem_of_map_to_list. by apply (Hok ip). }
  exists us, sv'. split_and!; [done|done|..|done].
  - intros ip p Hin. rewrite Hp, decide_True; [done|]. apply list_elem_of_fmap. exists (ip, p). split; [done|]. by apply elem_of_map_to_list.
  - intros q Hq. rewrite Hp, decide_False; [done|]. intros ([ip p] & -> & Hin%elem_of_map_to_list)%list_elem_of_fmap. by apply (Hq ip).
Qed.

Lemma usage_tick_settles_witness :
  let s := set_quota (newServerSession "tcp-1") (MkQuota 0 (-1) 700 [300]) in
  let sv := MkServer {[1%nat := s; 2%nat := s]} ∅ {["10.1.0.1" := 1%nat]} ∅ 0 in
  exists us sv', usage_tick sv = Some (us, sv') /\ us = [700] /\ pending sv' 1 = 0 /\ pending sv' 2 = 700 /\ counted sv' 1 = 1000.
Proof.
  intros s sv. destruct (usage_tick_settles sv) as (us & sv' & H1 & Hc & H2 & H3 & H4).
  - intros ip p Hp. cbn [sv sv_sessions] in Hp. apply lookup_singleton_Some in Hp as [_ <-]. exists s. vm_compute. reflexivity.
  - exists us, sv'. split; [exact H1|]. split; [rewrite H4; [vm_compute; reflexivity|]|].
    { assert ((map_to_list (sv_sessions sv)).*2 = [1%nat]) as -> by (vm_compute; reflexivity). apply NoDup_singleton. }
    split; [apply (H2 "10.1.0.1"); vm_compute; reflexivity|]. split.
    + rewrite H3; [vm_compute; reflexivity|]. intros ip Hp. cbn [sv sv_sessions] in Hp. apply lookup_singleton_Some in Hp as [_ E]. discriminate E.
    + rewrite Hc. vm_compute. reflexivity.
Defined.
