(* ===== verification/Boot.v ===== *)
(** * Starting the networks, and what is shown of them (manager/server/server.go,
      logic/network/network.go and session.go, vnet/server/network.go and
      network_mgr.go)

    Times of creation and the keys of networks are arguments. *)

From stdpp Require Import sorting.
From S2P Require Import Prelude GoNet GoText Router IPPool QuotaCounter GoFloat SmoothLimiter Metrics Server Manager ManagerProps.

#[local] Open Scope string_scope.
#[local] Open Scope Z_scope.

Definition ListNetworkInfos (db : Db) : list (string * network_row) := map_to_list (db_networks db).

(** One network of the list; one whose block is refused is logged. *)
Definition start_one (sv : Server) (info : string * network_row) : option Server :=
  '(_, sv) ← start sv (fresh (dom (sv_nets sv))) info.1 info.2; Some sv.

Definition StartAllNetworks (db : Db) (sv : Server) : option Server :=
  foldl (fun sv info => sv ← sv; start_one sv info) (Some sv) (ListNetworkInfos db).

Definition GetAllNetworks (sv : Server) : gmap string nat := sv_manager sv.
Definition NetworkCount (sv : Server) : Z := Z.of_nat (size (sv_manager sv)).

(** ** What is shown *)

Section Views.
Context (createdAt : nat -> Z) (netkey : nat -> string).

Definition created_le (p q : nat) : Prop := createdAt p <= createdAt q.
#[global] Instance created_le_dec p q : Decision (created_le p q) := decide (createdAt p <= createdAt q).

(** The sessions of a network, the oldest first; the sort is not stable. *)
Definition ListSessions (n : Network) : list nat := merge_sort created_le (map_to_list (n_sessions n)).*2.

Record SessionView := MkView { v_SessionId : string; v_Network : string; v_IP : string; v_CIDR : string; v_Key : string }.

(** A session that has no network is a nil pointer. *)
Definition view (sv : Server) (p : nat) : option SessionView :=
  s ← sv_sess sv !! p;
  w ← s_network s;
  n ← sv_nets sv !! w;
  Some (MkView (s_SessionId s) (n_CIDR n) (s_IP s) (s_CIDR s) (netkey w)).

Definition listSession (sv : Server) (n : Network) : option (list SessionView) := mapM (view sv) (ListSessions n).

Definition ListSessionByNetwork (sv : Server) (networkId : string) : option (db_error + list SessionView) :=
  match GetNetwork sv networkId with
  | None => Some (inl NotFound)
  | Some w => n ← sv_nets sv !! w; l ← listSession sv n; Some (inr l)
  end.

Record NetworkDetails := MkDetails { nd_Info : network_row; nd_Running : bool; nd_Sessions : list SessionView; nd_SessionCount : Z }.

Definition hide_key (v : SessionView) : SessionView := MkView (v_SessionId v) (v_Network v) (v_IP v) (v_CIDR v) "".

Definition GetNetworkDetails (db : Db) (sv : Server) (networkId : string) : option (db_error + NetworkDetails) :=
  match db_networks db !! networkId with
  | None => Some (inl NotFound)
  | Some info =>
      match GetNetwork sv networkId with
      | None => Some (inr (MkDetails info false [] 0))
      | Some w =>
          n ← sv_nets sv !! w;
          sessions ← listSession sv n;
          let sessions := hide_key <$> sessions in
          Some (inr (MkDetails info true sessions (zlen sessions)))
      end
  end.
End Views.

(** ** After a start the networks match their rows *)

Lemma start_one_spec sv c id row :
  represents (MkDb ∅ ∅ (c_rows c) ∅ ∅, sv) c -> c_rows c !! id = Some row -> id ∉ c_running c ->
  exists sv', start_one sv (id, row) = Some sv' /\ effect sv sv' /\
    represents (MkDb ∅ ∅ (c_rows c) ∅ ∅, sv')
      (MkCatalog (c_rows c) (if decide (block_error (nr_Cidr row) = None) then {[id]} ∪ c_running c else c_running c)).
Proof.
  intros Hr Hrow Hid. unfold start_one. cbn [fst snd].
  destruct (start_spec sv id row c (fresh (dom (sv_nets sv)))) as (sv' & E & He & Hr'); [done|done| |apply is_fresh|].
  { apply not_elem_of_dom. pose proof (rep_running _ _ Hr) as Hd. cbn [snd] in Hd. by rewrite Hd. }
  rewrite E. cbn [mbind option_bind]. exists sv'. split; [done|]. split; [done|]. unfold spec_start in Hr'.
  destruct (block_error (nr_Cidr row)) as [e|]; [rewrite decide_False by done|rewrite decide_True by done]; [|done]. by destruct c.
Qed.

(** The ids of the list whose blocks are accepted. *)
Definition startable (l : list (string * network_row)) : gset string :=
  list_to_set (filter (fun e => block_error (nr_Cidr e.2) = None) l).*1.

Lemma start_all_spec l : forall sv c,
  represents (MkDb ∅ ∅ (c_rows c) ∅ ∅, sv) c -> NoDup l.*1 ->
  Forall (fun e => c_rows c !! e.1 = Some e.2 /\ e.1 ∉ c_running c) l ->
  exists sv', foldl (fun sv info => sv ← sv; start_one sv info) (Some sv) l = Some sv' /\ effect sv sv' /\
    represents (MkDb ∅ ∅ (c_rows c) ∅ ∅, sv') (MkCatalog (c_rows c) (startable l ∪ c_running c)).
Proof.
  induction l as [|[id row] l IH]; intros sv c Hr Hnd Hl.
  { exists sv. split; [done|]. split; [reflexivity|]. unfold startable. cbn. rewrite union_empty_l_L. by destruct c. }
  apply NoDup_cons in Hnd as [Hn Hnd]. apply Forall_cons in Hl as [[Hrow Hid] Hl]. cbn [fst snd] in *.
  destruct (start_one_spec sv c id row Hr Hrow Hid) as (sv1 & E1 & He1 & Hr1). cbn [foldl mbind option_bind]. rewrite E1.
  match type of Hr1 with represents _ ?c' => destruct (IH sv1 c') as (sv2 & E2 & He2 & Hr2) end; [done|done| |].
  { rewrite Forall_forall in *. intros [i r] Hin. destruct (Hl _ Hin) as [Hi Hni]. cbn in *. split; [done|].
    assert (i <> id) by (intros ->; apply Hn, list_elem_of_fmap; by exists (id, r)). case_decide; set_solver. }
  exists sv2. split; [done|]. split; [by etrans|]. cbn [c_rows c_running] in Hr2.
  replace (startable ((id, row) :: l) ∪ c_running c) with
    (startable l ∪ (if decide (block_error (nr_Cidr row) = None) then {[id]} ∪ c_running c else c_running c)); [done|].
  unfold startable. rewrite filter_cons. cbn [fst snd]. repeat case_decide; try done; cbn; set_solver.
Qed.

(** C38. When the program starts, every network of the table whose block is
    accepted runs under its id with the block and MTU of its row, one whose
    block is refused is left out, and nothing else runs; so the work of the
    administrator starts from tables and networks that agree. No session
    changes. *)
Theorem boot_matches db sv :
  sv_manager sv = ∅ -> db_networks db !! ""%string = None ->
  exists sv', StartAllNetworks db sv = Some sv' /\
    represents (db, sv') (MkCatalog (db_networks db) (startable (ListNetworkInfos db))) /\
    (forall id row, db_networks db !! id = Some row ->
       (id ∈ dom (GetAllNetworks sv') <-> block_error (nr_Cidr row) = None)) /\
    NetworkCount sv' = Z.of_nat (size (startable (ListNetworkInfos db))) /\ sv_sess sv' = sv_sess sv.
Proof.
  intros Hm He. destruct (start_all_spec (ListNetworkInfos db) sv (MkCatalog (db_networks db) ∅)) as (sv' & E & Heff & Hr).
  - split; cbn; [done|by rewrite Hm, dom_empty_L|done|]. intros id w. by rewrite Hm, lookup_empty.
  - apply NoDup_fst_map_to_list.
  - apply Forall_forall. intros [id row] Hin%elem_of_map_to_list. cbn. set_solver.
  - cbn [c_rows c_running] in Hr. rewrite union_empty_r_L in Hr. exists sv'. split; [done|].
    assert (dom (sv_manager sv') = startable (ListNetworkInfos db)) as Hd by (pose proof (rep_running _ _ Hr) as H; exact H).
    split_and!.
    + destruct Hr as [R1 R2 R3 R4]. by split.
    + intros id row Hrow. unfold GetAllNetworks. rewrite Hd. unfold startable. rewrite elem_of_list_to_set, list_elem_of_fmap. split.
      * intros ([i r] & -> & [Hb Hin%elem_of_map_to_list]%list_elem_of_filter). cbn in *. congruence.
      * intros Hb. exists (id, row). split; [done|]. apply list_elem_of_filter. split; [done|]. by apply elem_of_map_to_list.
    + unfold NetworkCount. by rewrite <- Hd, size_dom.
    + apply map_eq. intros p. destruct (eff_others _ _ Heff p) as [Ho|(id & w & n & [Hrun _] & _)]; [done|]. by rewrite Hm, lookup_empty in Hrun.
Qed.

Lemma boot_matches_witness :
  let db := MkDb ∅ ∅ {["a" := MkNetworkRow "a" "10.1.0.0/16" 1400 ""; "b" := MkNetworkRow "b" "10.2.0.0" 1400 ""]} ∅ ∅ in
  exists sv', StartAllNetworks db (MkServer ∅ ∅ ∅ ∅ 0) = Some sv' /\ NetworkCount sv' = 1.
Proof.
  intros db. destruct (boot_matches db (MkServer ∅ ∅ ∅ ∅ 0)) as (sv' & H1 & _ & _ & H2 & _); [reflexivity|vm_compute; reflexivity|].
  exists sv'. split; [exact H1|]. rewrite H2. vm_compute. reflexivity.
Defined.

(** ** What is shown *)

(** The list of a network's sessions shows the key of the network, the details
    of the network hide it. *)
Lemma details_hide_keys createdAt netkey db sv id d :
  GetNetworkDetails createdAt netkey db sv id = Some (inr d) -> Forall (fun v => v_Key v = "") (nd_Sessions d).
Proof.
  unfold GetNetworkDetails. destruct (db_networks db !! id) as [row|]; [|done]. destruct (GetNetwork sv id) as [w|]; [|intros [= <-]; constructor].
  destruct (sv_nets sv !! w) as [n|]; [|done]. cbn [mbind option_bind]. destruct (listSession _ _ _ _); [|done]. cbn [mbind option_bind].
  intros [= <-]. cbn. by apply Forall_fmap, Forall_true.
Qed.

Lemma list_shows_keys createdAt netkey sv id w n l :
  GetNetwork sv id = Some w -> sv_nets sv !! w = Some n ->
  (forall p, p ∈ (map_to_list (n_sessions n)).*2 -> s_network <$> sv_sess sv !! p = Some (Some w)) ->
  ListSessionByNetwork createdAt netkey sv id = Some (inr l) -> Forall (fun v => v_Key v = netkey w) l.
Proof.
  intros Hid Hn Hs. unfold ListSessionByNetwork. rewrite Hid, Hn. cbn [mbind option_bind]. unfold listSession.
  destruct (mapM _ _) as [views|] eqn:E; [|done]. cbn [mbind option_bind]. intros [= <-]. apply mapM_Some in E.
  apply Forall_forall. intros v [i Hi]%list_elem_of_lookup. destruct (Forall2_lookup_r _ _ _ _ _ E Hi) as (p & Hp & Hv).
  apply list_elem_of_lookup_2 in Hp. unfold ListSessions in Hp. rewrite merge_sort_Permutation in Hp. specialize (Hs p Hp). unfold view in Hv.
  destruct (sv_sess sv !! p) as [s|]; [|done]. cbn in Hs, Hv. injection Hs as Hs. rewrite Hs in Hv. cbn in Hv. rewrite Hn in Hv. cbn in Hv.
  by injection Hv as <-.
Qed.
