(* ===== verification/Period.v ===== *)
(** * Periods of a quota ([LoadUsage], manager/server/internal/logic/quota/flow.go)

    The period of a quota is the calendar day or month of the moment at which
    the usage is loaded. Times are Unix seconds; the location is the function that
    gives the offset to UTC at every moment, so that it may change in the course
    of a day or month. The calendar is that of Go's time package: days are counted
    from the first of January of the year 1. *)

From S2P Require Import Prelude GoNet GoText Router QuotaCounter GoFloat SmoothLimiter Metrics Server Manager.

#[local] Open Scope Z_scope.

(** ** The calendar *)

Definition isLeap (year : Z) : bool := (year mod 4 =? 0) && (negb (year mod 100 =? 0) || (year mod 400 =? 0)).

(** Days before the year, and before the month in its year; month 13 is the
    end of the year. *)
Definition before_year (year : Z) : Z := let k := year - 1 in 365 * k + k / 4 - k / 100 + k / 400.

Definition daysBefore (month : Z) : Z :=
  nth (Z.to_nat (month - 1)) [0; 31; 59; 90; 120; 151; 181; 212; 243; 273; 304; 334; 365] 0.

Definition before_month (year month : Z) : Z := daysBefore month + if isLeap year && (2 <? month) then 1 else 0.

(** The first of January 1970. *)
Definition unix_epoch : Z := 719162.

Definition year_of (n : Z) : Z :=
  let y := 400 * n / 146097 + 1 in
  if n <? before_year y then y - 1 else if before_year (y + 1) <=? n then y + 1 else y.

Fixpoint month_from (fuel : nat) (year yday month : Z) : Z :=
  match fuel with
  | O => month
  | S fuel' => if yday <? before_month year (month + 1) then month else month_from fuel' year yday (month + 1)
  end.

(** Year, month and day of a day. *)
Definition civil (n : Z) : Z * Z * Z :=
  let y := year_of n in
  let m := month_from 11 y (n - before_year y) 1 in
  (y, m, n - before_year y - before_month y m + 1).

(** What the clock of the location shows, as seconds, with its day and date. *)
Definition clock (off : Z -> Z) (t : Z) : Z := t + off t.
Definition local_day (off : Z -> Z) (t : Z) : Z := clock off t / 86400 + unix_epoch.
Definition local_date (off : Z -> Z) (t : Z) : Z * Z * Z := civil (local_day off t).

(** The moment [time.Date] chooses for what a clock shows: the offset at that
    many seconds UTC is the first guess, and the offset there is taken. *)
Definition at_local (off : Z -> Z) (c : Z) : Z := c - off (c - off c).

(** Midnight before a day, on the clock. *)
Definition midnight (n : Z) : Z := (n - unix_epoch) * 86400.

(** [time.Date] with the time of day in seconds; a month out of range moves the
    year. *)
Definition Date (off : Z -> Z) (year month day sec : Z) : Z :=
  let y := year + (month - 1) / 12 in
  let m := (month - 1) mod 12 + 1 in
  at_local off (midnight (before_year y + before_month y m + day - 1) + sec).

(** [AddDate(0, months, 0)]. *)
Definition AddDate_months (off : Z -> Z) (t months : Z) : Z :=
  let '(y, m, d) := local_date off t in Date off y (m + months) d (clock off t mod 86400).

(** ** Periods *)

Definition PeriodTypeDay : string := "day".

Definition period (ty : string) (off : Z -> Z) (now : Z) : Z * Z :=
  let '(y, m, d) := local_date off now in
  if String.eqb ty PeriodTypeDay then
    let startTime := Date off y m d 0 in (startTime, startTime + 24 * 3600 - 1)
  else
    let startTime := Date off y m 1 0 in (startTime, AddDate_months off startTime 1 - 1).

Definition LoadUsage_now (db : Db) (id : Z) (target targetType : string) (off : Z -> Z) (now : Z) : db_error + Z :=
  match GetById db id with
  | inl e => inl e
  | inr q => let '(startTime, endTime) := period (qi_Period q) off now in LoadUsage db id target targetType startTime endTime
  end.

(** ** Days and dates correspond *)

Lemma before_year_step y : before_year (y + 1) = before_year y + 365 + if isLeap y then 1 else 0.
Proof.
  unfold before_year, isLeap.
  destruct (Z.eqb_spec (y mod 4) 0), (Z.eqb_spec (y mod 100) 0), (Z.eqb_spec (y mod 400) 0); cbn [andb orb negb];
    Z.to_euclidean_division_equations; lia.
Qed.

Lemma before_year_mono y y' : y < y' -> before_year (y + 1) <= before_year y'.
Proof. unfold before_year. intros H. Z.to_euclidean_division_equations; lia. Qed.

Lemma year_of_spec n : before_year (year_of n) <= n < before_year (year_of n + 1).
Proof.
  unfold year_of. set (k := 400 * n / 146097).
  assert (146097 * k <= 400 * n < 146097 * (k + 1)) as Hk by (unfold k; Z.to_euclidean_division_equations; lia).
  assert (before_year k <= n) by (unfold before_year; Z.to_euclidean_division_equations; lia).
  assert (n < before_year (k + 3)) by (unfold before_year; Z.to_euclidean_division_equations; lia).
  clearbody k. destruct (Z.ltb_spec n (before_year (k + 1))); [replace (k + 1 - 1 + 1) with (k + 1) by lia; by replace (k + 1 - 1) with k by lia|].
  destruct (Z.leb_spec (before_year (k + 1 + 1)) n); [|done]. by replace (k + 1 + 1 + 1) with (k + 3) by lia.
Qed.

Ltac month_cases m :=
  let H := fresh in
  assert (m = 1 \/ m = 2 \/ m = 3 \/ m = 4 \/ m = 5 \/ m = 6 \/ m = 7 \/ m = 8 \/ m = 9 \/ m = 10 \/ m = 11 \/ m = 12) as H by lia;
  destruct H as [->|[->|[->|[->|[->|[->|[->|[->|[->|[->|[->| ->]]]]]]]]]]].

Lemma before_month_step y m : 1 <= m <= 12 -> 28 <= before_month y (m + 1) - before_month y m <= 31.
Proof. intros Hm. unfold before_month. destruct (isLeap y); month_cases m; vm_compute; by split. Qed.

Lemma before_month_mono y m m' : 1 <= m -> m < m' -> m' <= 13 -> before_month y (m + 1) <= before_month y m'.
Proof.
  intros H1 Hlt H13. replace m' with (m + 1 + Z.of_nat (Z.to_nat (m' - m - 1))) in * by lia.
  induction (Z.to_nat (m' - m - 1)) as [|n IH]; [rewrite Z.add_0_r; lia|].
  pose proof (before_month_step y (m + 1 + Z.of_nat n) ltac:(lia)). specialize (IH ltac:(lia) ltac:(lia)).
  replace (m + 1 + Z.of_nat (S n)) with (m + 1 + Z.of_nat n + 1) by lia. lia.
Qed.

Lemma before_month_ends y : before_month y 1 = 0 /\ before_month y 13 = 365 + if isLeap y then 1 else 0.
Proof. unfold before_month. by destruct (isLeap y). Qed.

Lemma month_from_spec f y yday m :
  1 <= m -> m + Z.of_nat f <= 12 -> before_month y m <= yday < before_month y (m + Z.of_nat f + 1) ->
  let r := month_from f y yday m in m <= r <= m + Z.of_nat f /\ before_month y r <= yday < before_month y (r + 1).
Proof.
  revert m. induction f as [|f IH]; intros m H1 Hf Hd; cbn [month_from]; [replace (m + Z.of_nat 0 + 1) with (m + 1) in Hd by lia; lia|].
  destruct (Z.ltb_spec yday (before_month y (m + 1))); [lia|].
  destruct (IH (m + 1)) as [Hr Hb]; [lia..| |].
  - replace (m + 1 + Z.of_nat f + 1) with (m + Z.of_nat (S f) + 1) by lia. lia.
  - split; [lia|done].
Qed.

(** The first day of a month. *)
Definition first_of (y m : Z) : Z := before_year y + before_month y m.

(** The date of a day is the year and month it falls into. *)
Lemma civil_spec n :
  exists y m, civil n = (y, m, n - first_of y m + 1) /\ 1 <= m <= 12 /\ first_of y m <= n < first_of y (m + 1).
Proof.
  unfold civil, first_of. pose proof (year_of_spec n) as Hy. set (y := year_of n) in *. rewrite before_year_step in Hy.
  destruct (before_month_ends y) as [H1 H13].
  destruct (month_from_spec 11 y (n - before_year y) 1) as [Hr Hb]; [lia..| |].
  { change (1 + Z.of_nat 11 + 1) with 13. rewrite H1, H13. lia. }
  set (m := month_from 11 y (n - before_year y) 1) in *. exists y, m. split; [do 2 f_equal; lia|]. lia.
Qed.

(** A day falls into one month only. *)
Lemma month_unique y m y' m' n :
  1 <= m <= 12 -> 1 <= m' <= 12 -> first_of y m <= n < first_of y (m + 1) -> first_of y' m' <= n < first_of y' (m' + 1) ->
  y = y' /\ m = m'.
Proof.
  unfold first_of. intros Hm Hm' Hn Hn'. assert (forall y m, 1 <= m <= 12 -> 0 <= before_month y m /\ before_month y (m + 1) <= 365 + if isLeap y then 1 else 0) as Hb.
  { intros z k Hk. destruct (before_month_ends z) as [H1 H13]. split.
    - destruct (decide (k = 1)) as [->|]; [lia|]. pose proof (before_month_mono z 1 k). pose proof (before_month_step z 1). lia.
    - rewrite <- H13. destruct (decide (k = 12)) as [->|]; [done|]. apply before_month_mono; lia. }
  pose proof (Hb y m Hm). pose proof (Hb y' m' Hm'). pose proof (before_year_step y). pose proof (before_year_step y').
  assert (y = y') as <-.
  { destruct (Z.lt_trichotomy y y') as [E|[E|E]]; [|done|]; apply before_year_mono in E; lia. }
  split; [done|]. destruct (Z.lt_trichotomy m m') as [E|[E|E]]; [|done|]; exfalso.
  - pose proof (before_month_mono y m m'). lia.
  - pose proof (before_month_mono y m' m). lia.
Qed.

Lemma civil_unique y m n :
  1 <= m <= 12 -> first_of y m <= n < first_of y (m + 1) -> civil n = (y, m, n - first_of y m + 1).
Proof. intros Hm Hn. destruct (civil_spec n) as (y' & m' & -> & Hm' & Hn'). by destruct (month_unique y m y' m' n) as [-> ->]. Qed.

(** ** What a period is *)

(** Two moments have the same date, to the day or to the month. *)
Definition same_period (ty : string) (off : Z -> Z) (a b : Z) : bool :=
  let '(y, m, d) := local_date off a in
  let '(y', m', d') := local_date off b in
  (y =? y') && (m =? m') && (negb (String.eqb ty PeriodTypeDay) || (d =? d')).

(** The clock shows the midnight before a day once, at the moment [time.Date]
    chooses, and only from then on something later. *)
Definition clean (off : Z -> Z) (n : Z) : Prop :=
  let s := at_local off (midnight n) in clock off s = midnight n /\ forall t, midnight n <= clock off t <-> s <= t.

(** The zones in which periods are calendar days or months: for days all
    midnights are clean and 24 hours apart, for months the first of each is. *)
Definition regular (ty : string) (off : Z -> Z) : Prop :=
  if String.eqb ty PeriodTypeDay
  then forall n, clean off n /\ at_local off (midnight (n + 1)) = at_local off (midnight n) + 86400
  else forall y m, 1 <= m <= 12 -> clean off (first_of y m).

Lemma constant_regular ty o : regular ty (fun _ => o).
Proof. unfold regular, clean, clock, at_local, midnight. destruct (String.eqb _ _); intros; split_and!; intros; lia. Qed.

Lemma Date_first off y m d : 1 <= m <= 12 -> Date off y m d 0 = at_local off (midnight (first_of y m + d - 1)).
Proof.
  intros Hm. unfold Date, first_of. rewrite Z.div_small, Z.mod_small by lia. replace (m - 1 + 1) with m by lia. by rewrite !Z.add_0_r.
Qed.

Lemma first_of_next y m : 1 <= m <= 12 -> first_of (y + (m + 1 - 1) / 12) ((m + 1 - 1) mod 12 + 1) = first_of y (m + 1).
Proof.
  intros Hm. replace (m + 1 - 1) with m by lia. destruct (decide (m = 12)) as [->|].
  - change (12 / 12) with 1. change (12 mod 12 + 1) with 1. change (12 + 1) with 13. unfold first_of. rewrite before_year_step.
    destruct (before_month_ends y) as [_ ->]. destruct (before_month_ends (y + 1)) as [-> _]. lia.
  - rewrite Z.div_small, Z.mod_small by lia. by rewrite Z.add_0_r.
Qed.

Lemma local_day_ge off n t : n <= local_day off t <-> midnight n <= clock off t.
Proof. unfold local_day, midnight. split; intros H; Z.to_euclidean_division_equations; lia. Qed.

Lemma local_day_range off a b t :
  clean off a -> clean off b -> at_local off (midnight a) <= t <= at_local off (midnight b) - 1 <-> a <= local_day off t < b.
Proof.
  intros [_ Ha] [_ Hb]. rewrite <- (Ha t), <- local_day_ge. pose proof (Hb t) as Ht. rewrite <- local_day_ge in Ht. lia.
Qed.

Lemma local_day_midnight off n : clean off n -> local_day off (at_local off (midnight n)) = n.
Proof. intros [Hc _]. unfold local_day. rewrite Hc. unfold midnight. rewrite Z.div_mul by lia. lia. Qed.

(** The bounds of a period, as days. *)
Lemma period_bounds ty off now :
  regular ty off ->
  exists y m d a b, local_date off now = (y, m, d) /\ 1 <= m <= 12 /\ first_of y m <= local_day off now < first_of y (m + 1) /\
    d = local_day off now - first_of y m + 1 /\ clean off a /\ clean off b /\
    period ty off now = (at_local off (midnight a), at_local off (midnight b) - 1) /\
    if String.eqb ty PeriodTypeDay then a = local_day off now /\ b = a + 1 else a = first_of y m /\ b = first_of y (m + 1).
Proof.
  unfold period, local_date, regular. destruct (civil_spec (local_day off now)) as (y & m & E & Hm & Hn). rewrite E.
  intros Hr. eexists y, m, _. destruct (String.eqb ty PeriodTypeDay).
  - exists (local_day off now), (local_day off now + 1). split_and!; [first [done|lia]..|apply Hr|apply Hr| |done|done]. rewrite Date_first by done.
    destruct (Hr (local_day off now)) as [_ ->]. replace (first_of y m + _ - 1) with (local_day off now) by lia. done.
  - assert (clean off (first_of y (m + 1))) as Hc.
    { rewrite <- first_of_next by done. apply Hr. pose proof (Z.mod_pos_bound (m + 1 - 1) 12). lia. }
    exists (first_of y m), (first_of y (m + 1)). split_and!; [first [done|lia]..|by apply Hr|done| |done|done]. rewrite Date_first by done.
    replace (first_of y m + 1 - 1) with (first_of y m) by lia. f_equal. unfold AddDate_months, local_date.
    rewrite local_day_midnight by (by apply Hr). destruct (Hr y m Hm) as [Hk _]. rewrite Hk.
    assert (midnight (first_of y m) mod 86400 = 0) as -> by (unfold midnight; by rewrite Z.mod_mul).
    rewrite (civil_unique y m) by lia. unfold Date. pose proof (first_of_next y m Hm) as Hf. unfold first_of in Hf at 1. rewrite Hf.
    rewrite Z.add_0_r. do 3 f_equal. lia.
Qed.

(** A moment lies in the period exactly when it has the same date. *)
Lemma in_period ty off now t :
  regular ty off -> ((period ty off now).1 <= t <= (period ty off now).2) <-> same_period ty off now t = true.
Proof.
  intros Hr. destruct (period_bounds ty off now Hr) as (y & m & d & a & b & E & Hm & Hn & Hd & Ha & Hb & -> & Hab). cbn [fst snd].
  rewrite local_day_range by done.
  unfold same_period. rewrite E. unfold local_date. destruct (civil_spec (local_day off t)) as (y' & m' & -> & Hm' & Hn').
  rewrite !andb_true_iff, orb_true_iff, negb_true_iff, !Z.eqb_eq. destruct (String.eqb ty PeriodTypeDay); destruct Hab as [-> ->].
  - split.
    + intros Ht. assert (local_day off t = local_day off now) as Et by lia. rewrite Et in *.
      destruct (month_unique y m y' m' (local_day off now)) as [-> ->]; [done..|]. split; [done|]. right. lia.
    + intros [[-> ->] [?|Hday]]; [done|]. lia.
  - split.
    + intros Ht. destruct (month_unique y m y' m' (local_day off t)) as [-> ->]; [done..|]. by split; [|left].
    + intros [[-> ->] _]. done.
Qed.

(** A period begins where the one before ends. *)
Lemma period_next ty off now : regular ty off -> (period ty off ((period ty off now).2 + 1)).1 = (period ty off now).2 + 1.
Proof.
  intros Hr. destruct (period_bounds ty off now Hr) as (y & m & d & a & b & E & Hm & Hn & Hd & Ha & Hb & -> & Hab). cbn [snd].
  replace (at_local off (midnight b) - 1 + 1) with (at_local off (midnight b)) by lia.
  pose proof (local_day_midnight off b Hb) as Hl. set (t := at_local off (midnight b)) in *.
  destruct (period_bounds ty off t Hr) as (y' & m' & d' & a' & b' & E' & Hm' & Hn' & Hd' & _ & _ & -> & Hab'). cbn [fst].
  assert (a' = b) as ->; [|done]. rewrite Hl in *. destruct (String.eqb ty PeriodTypeDay); [lia|].
  destruct Hab as [-> ->], Hab' as [-> ->]. pose proof (first_of_next y m Hm) as Hf.
  set (y2 := y + (m + 1 - 1) / 12) in *. set (m2 := (m + 1 - 1) mod 12 + 1) in *. rewrite <- Hf in Hn' |- *.
  assert (1 <= m2 <= 12) as Hm2 by (unfold m2; pose proof (Z.mod_pos_bound (m + 1 - 1) 12); lia).
  destruct (month_unique y2 m2 y' m' (first_of y2 m2)) as [-> ->]; [done|done| |done|done].
  unfold first_of. pose proof (before_month_step y2 m2 Hm2). lia.
Qed.

Lemma period_shape ty off now :
  regular ty off ->
  let '(from, to) := period ty off now in
  from <= now <= to /\ (period ty off (to + 1)).1 = to + 1 /\
  if String.eqb ty PeriodTypeDay then to - from + 1 = 86400
  else exists days, 28 <= days <= 31 /\ to - from + 1 = 86400 * days + off from - off (to + 1).
Proof.
  intros Hr. pose proof (period_next ty off now Hr) as Hnext. pose proof (in_period ty off now now Hr) as Hin.
  assert (same_period ty off now now = true) as Hs.
  { unfold same_period. destruct (local_date off now) as [[y m] d]. by rewrite !Z.eqb_refl, orb_true_r. }
  apply Hin in Hs. destruct (period_bounds ty off now Hr) as (y & m & d & a & b & E & Hm & Hn & Hd & Ha & Hb & Ep & Hab).
  rewrite Ep in *. cbn [fst snd] in *. split_and!; [lia..|done|]. unfold regular in Hr. destruct (String.eqb ty PeriodTypeDay).
  - destruct Hab as [-> ->]. destruct (Hr (local_day off now)) as [_ ->]. lia.
  - exists (b - a). destruct Hab as [-> ->]. pose proof (before_month_step y m Hm). unfold first_of. split; [lia|].
    destruct Ha as [Ha _], Hb as [Hb _]. rewrite Z.sub_add. unfold clock, first_of, midnight in *. lia.
Qed.
