(* ===== verification/Accounting.v ===== *)
(** * From the counters of sessions to the database (common/quota/quota.go with
      manager/server/internal/logic/quota/adaptor.go)

    [Adaptor] is the interface the counters use, over a world that the
    submissions change; [AdaptorLaws] is what they rely on. The management
    server's adaptor implements it over the tables. *)

From S2P Require Import Prelude Threads QuotaCounter.
From S2P Require Import GoNet GoText Router IPPool GoFloat SmoothLimiter Metrics Server Manager ManagerProps Period.

#[local] Open Scope Z_scope.

(** ** Numbers that agree in 64 bits *)

Definition eqm (x y : Z) : Prop := i64 x = i64 y.
Infix "≡64" := eqm (at level 70).

#[export] Instance eqm_equiv : Equivalence eqm.
Proof. split; [done|by intros x y|]. intros x y z Hxy Hyz. unfold eqm in *. congruence. Qed.

Lemma eqm_iff x y : x ≡64 y <-> exists k, x = y + k * 2 ^ 64.
Proof.
  split; [|intros [k H]; by apply i64_eq with k]. intros H. destruct (i64_cong x) as [j Hj], (i64_cong y) as [l Hl].
  exists (l - j). unfold eqm in H. lia.
Qed.

#[export] Instance eqm_add : Proper (eqm ==> eqm ==> eqm) Z.add.
Proof. intros x y Hxy u v Huv. apply eqm_iff in Hxy as [k Hk], Huv as [l Hl]. apply eqm_iff. exists (k + l). lia. Qed.

Lemma i64_eqm x : i64 x ≡64 x.
Proof. apply eqm_iff. apply i64_cong. Qed.

(** ** The interface *)

(** A submission is two statements: one reads a row, the other writes with what
    was read. *)
Class Adaptor (A W S K : Type) := {
  LoadUsage_ : A -> W -> option Z;
  GetQuotaMaxUsage_ : A -> Z;
  SelectRow : A -> W -> S;
  SubmitUsage_ : A -> W -> S -> Z -> W;
  Tick : Z -> W -> W; (** the clock moves *)
  account : A -> K; (** what usage is booked on *)
  booked : W -> K -> Z;
  current : A -> W -> S -> Prop (** what was read has not changed *) }.

(** With a current row a submission books its amount on its own account, and
    leaves the rows of other accounts as they are. *)
Class AdaptorLaws (A W S K : Type) `{Adaptor A W S K} `{EqDecision K} : Prop := {
  select_current : forall a w, current a w (SelectRow a w);
  submit_booked : forall a w s u k, current a w s ->
    booked (SubmitUsage_ a w s u) k ≡64 booked w k + (if decide (k = account a) then u else 0);
  submit_other : forall a b w s t u, account a <> account b -> current a w s -> current b w t -> current a (SubmitUsage_ b w t u) s;
  tick_booked : forall t w k, booked (Tick t w) k = booked w k;
  tick_current : forall t a w s, current a w s -> current a (Tick t w) s }.

Section Counters.
Context {A W S K : Type} `{Adaptor A W S K} `{EqDecision K} `{!AdaptorLaws A W S K}.

(** [New] of a counter. *)
Definition NewQuota (a : A) (w : W) : option Quota := New (GetQuotaMaxUsage_ a) (LoadUsage_ a w).

(** A submission under way: before its first statement, between the two, done. *)
Inductive job := JSelect (a : A) (u : Z) | JWrite (a : A) (u : Z) (s : S) | JDone.

Record ledger := MkLedger { l_counters : list (A * Quota); l_jobs : list job; l_world : W }.

(** The submissions a call on a counter starts. *)
Definition new_jobs (a : A) (q q' : Quota) : list job := JSelect a <$> drop (length (submitted q)) (submitted q').

(** Calls on a counter, the next statement of a submission, the clock. *)
Inductive account_event := EvAdd (i : nat) (value : Z) | EvCommit (i : nat) | EvDb (j : nat) | EvTime (t : Z).

(** Whether a call was refused, and the state after an event. *)
Definition counter_step (st : ledger) (i : nat) (call : Quota -> bool * Quota) : bool * ledger :=
  match l_counters st !! i with
  | None => (true, st)
  | Some (a, q) =>
      let '(refused, q') := call q in
      (refused, MkLedger (<[i := (a, q')]> (l_counters st)) (l_jobs st ++ new_jobs a q q') (l_world st))
  end.

Definition db_step (st : ledger) (j : nat) : ledger :=
  match l_jobs st !! j with
  | Some (JSelect a u) => MkLedger (l_counters st) (<[j := JWrite a u (SelectRow a (l_world st))]> (l_jobs st)) (l_world st)
  | Some (JWrite a u s) => MkLedger (l_counters st) (<[j := JDone]> (l_jobs st)) (SubmitUsage_ a (l_world st) s u)
  | _ => st
  end.

Definition account_step (st : ledger) (ev : account_event) : bool * ledger :=
  match ev with
  | EvAdd i v => counter_step st i (fun q => AddUsage q v)
  | EvCommit i => counter_step st i (fun q => (true, (CommitUsage q).2))
  | EvDb j => (true, db_step st j)
  | EvTime t => (true, MkLedger (l_counters st) (l_jobs st) (Tick t (l_world st)))
  end.

Fixpoint account_run (st : ledger) (evs : list account_event) : list bool * ledger :=
  match evs with
  | [] => ([], st)
  | ev :: evs' => let '(r, st) := account_step st ev in let '(rs, st) := account_run st evs' in (r :: rs, st)
  end.

(** The accounts of the submissions between their two statements. *)
Definition writing (jobs : list job) : list K := omap (fun j => match j with JWrite a _ _ => Some (account a) | _ => None end) jobs.

(** No two submissions of one account are ever between their statements at
    once. *)
Fixpoint orderly (st : ledger) (evs : list account_event) : Prop :=
  NoDup (writing (l_jobs st)) /\ match evs with [] => True | ev :: evs' => orderly (account_step st ev).2 evs' end.

(** Sums over the counters and over the submissions of an account. *)
Definition share (k : K) (e : A * Quota) : Z := if decide (k = account e.1) then usage e.2 else 0.
Definition on_counters (k : K) (accts : list (A * Quota)) : Z := total (share k) accts.
Definition job_share (k : K) (j : job) : Z :=
  match j with JSelect a u | JWrite a u _ => if decide (k = account a) then u else 0 | JDone => 0 end.
Definition in_flight (k : K) (jobs : list job) : Z := total (job_share k) jobs.

(** What an event adds to an account when it is not refused. *)
Definition value_for (k : K) (accts : list (A * Quota)) (ev : account_event) (refused : bool) : Z :=
  match ev with
  | EvAdd i v => match accts !! i with
                 | Some (a, _) => if refused then 0 else if decide (k = account a) then v else 0
                 | None => 0 end
  | _ => 0
  end.

Definition accepted (k : K) (accts : list (A * Quota)) (evs : list account_event) (rs : list bool) : Z :=
  QuotaCounter.sum (zip_with (value_for k accts) evs rs).

(** ** Calls submit what they take off *)

Lemma CommitUsage_submits q : exists news, submitted (CommitUsage q).2 = submitted q ++ news /\ QuotaCounter.sum news + usage (CommitUsage q).2 = usage q.
Proof.
  unfold CommitUsage, QuotaCounter.sum. destruct (usage q =? 0) eqn:E; [exists []; cbn; by rewrite app_nil_r|].
  exists [usage q]. cbn. split; [done|lia].
Qed.

Lemma AddUsage_submits q v :
  exists news, submitted (AddUsage q v).2 = submitted q ++ news /\
    QuotaCounter.sum news + usage (AddUsage q v).2 ≡64 usage q + (if (AddUsage q v).1 then 0 else v).
Proof.
  unfold AddUsage. destruct (Z.eqb_spec v 0) as [->|Ev]; [exists []; cbn; by rewrite app_nil_r, Z.add_0_r|].
  destruct (isExceeded q); cbn [fst snd].
  - destruct (CommitUsage_submits q) as (news & H1 & H2). exists news. split; [done|]. by rewrite H2, Z.add_0_r.
  - exists []. cbn. rewrite app_nil_r. split; [done|]. apply i64_eqm.
Qed.

Lemma in_flight_app k l l' : in_flight k (l ++ l') = in_flight k l + in_flight k l'.
Proof. unfold in_flight, total. induction l as [|j l IH]; cbn [app foldr]; [done|lia]. Qed.

Lemma in_flight_new k a q q' news :
  submitted q' = submitted q ++ news -> in_flight k (new_jobs a q q') = if decide (k = account a) then QuotaCounter.sum news else 0.
Proof.
  intros Hs. unfold new_jobs. rewrite Hs, drop_app_length. unfold in_flight, total, QuotaCounter.sum.
  clear Hs. induction news as [|u news IH]; [by case_decide|]. rewrite fmap_cons. cbn [foldr job_share]. rewrite IH. case_decide; lia.
Qed.

(** What the books show of an account: recorded, on the counters, under way. *)
Definition balance (k : K) (st : ledger) : Z := booked (l_world st) k + on_counters k (l_counters st) + in_flight k (l_jobs st).

Lemma counter_balance (st : ledger) i (call : Quota -> bool * Quota) (v : Z) k :
  (forall q, exists news, submitted (call q).2 = submitted q ++ news /\ QuotaCounter.sum news + usage (call q).2 ≡64 usage q + (if (call q).1 then 0 else v)) ->
  balance k (counter_step st i call).2 ≡64
    balance k st + match l_counters st !! i with Some (a, _) => if (counter_step st i call).1 then 0 else if decide (k = account a) then v else 0 | None => 0 end.
Proof.
  intros Hcall. unfold counter_step. destruct (l_counters st !! i) as [[a q]|] eqn:Hi; [|by rewrite Z.add_0_r].
  destruct (Hcall q) as (news & Hn & Hs). destruct (call q) as [refused q']. cbn [fst snd] in *. unfold balance. cbn [l_world l_counters l_jobs].
  rewrite in_flight_app, (in_flight_new k a q q' news Hn). unfold on_counters. rewrite (total_insert _ _ _ (a, q)) by done. unfold share. cbn [fst snd].
  apply eqm_iff in Hs as [x Hx]. destruct (decide (k = account a)); [|destruct refused; unfold eqm; f_equal; lia].
  apply eqm_iff. exists x. destruct refused; lia.
Qed.

(** Rows that were read and not yet written with are current. *)
Definition snapshots_ok (st : ledger) : Prop := Forall (fun j => match j with JWrite a _ s => current a (l_world st) s | _ => True end) (l_jobs st).

Lemma writing_lookup jobs i a u s : jobs !! i = Some (JWrite a u s) -> account a ∈ writing jobs.
Proof. intros Hi. apply list_elem_of_omap. eexists. split; [by eapply list_elem_of_lookup_2|done]. Qed.

Lemma writing_unique jobs i j a u s b v t :
  NoDup (writing jobs) -> jobs !! i = Some (JWrite a u s) -> jobs !! j = Some (JWrite b v t) -> i <> j -> account a <> account b.
Proof.
  revert i j. induction jobs as [|x jobs IH]; intros i j Hnd Hi Hj Hne; [done|]. unfold writing in Hnd. cbn [omap list_omap] in Hnd.
  destruct i as [|i], j as [|j]; cbn [lookup list_lookup] in *; [done| | |].
  - injection Hi as ->. apply NoDup_cons in Hnd as [Hnot _]. intros E. apply Hnot. rewrite E. by eapply writing_lookup.
  - injection Hj as ->. apply NoDup_cons in Hnd as [Hnot _]. intros E. apply Hnot. rewrite <- E. by eapply writing_lookup.
  - apply (IH i j); [|done|done|lia]. destruct x; [done| |done]. by apply NoDup_cons in Hnd as [_ Hnd].
Qed.

Lemma db_balance (st : ledger) j k : snapshots_ok st -> balance k (db_step st j) ≡64 balance k st.
Proof.
  intros Hs. unfold db_step. destruct (l_jobs st !! j) as [[a u|a u s|]|] eqn:Hj; [| |done|done]; unfold balance, in_flight; cbn [l_world l_counters l_jobs];
    rewrite (total_insert _ _ _ _ _ Hj); cbn [job_share].
  - unfold eqm. f_equal. lia.
  - pose proof (Forall_lookup_1 _ _ _ _ Hs Hj) as Hc. cbn in Hc. pose proof (submit_booked a (l_world st) s u k Hc) as Hb.
    apply eqm_iff in Hb as [x Hx]. apply eqm_iff. exists x. lia.
Qed.

Lemma step_snapshots (st : ledger) ev : NoDup (writing (l_jobs st)) -> snapshots_ok st -> snapshots_ok (account_step st ev).2.
Proof.
  intros Hnd Hs. unfold snapshots_ok in *.
  assert (forall i call, Forall (fun j => match j with JWrite a _ s => current a (l_world (counter_step st i call).2) s | _ => True end)
    (l_jobs (counter_step st i call).2)) as Hcount.
  { intros i call. unfold counter_step. destruct (l_counters st !! i) as [[a q]|]; [|done]. destruct (call q) as [refused q']. cbn [snd l_jobs l_world].
    apply Forall_app_2; [done|]. apply Forall_fmap, Forall_true. done. }
  destruct ev as [i v|i|j|t]; cbn [account_step snd]; [apply Hcount|apply Hcount| |].
  - unfold db_step. destruct (l_jobs st !! j) as [[a u|a u s|]|] eqn:Hj; [| |done|done]; cbn [l_jobs l_world].
    + apply Forall_insert; [done|apply select_current].
    + apply Forall_lookup. intros i x Hx. destruct (decide (i = j)) as [->|Hne].
      { rewrite list_lookup_insert_eq in Hx by (by apply lookup_lt_Some in Hj). by injection Hx as <-. }
      rewrite list_lookup_insert_ne in Hx by done. destruct x as [b v|b v t|]; [done| |done].
      apply submit_other; [|exact (Forall_lookup_1 _ _ _ _ Hs Hx)|exact (Forall_lookup_1 _ _ _ _ Hs Hj)].
      by eapply writing_unique.
  - cbn [l_jobs l_world]. eapply Forall_impl; [exact Hs|]. intros [| |]; [done|apply tick_current|done].
Qed.

Lemma step_balance (st : ledger) ev k :
  snapshots_ok st ->
  balance k (account_step st ev).2 ≡64 balance k st + value_for k (l_counters st) ev (account_step st ev).1 /\
  (l_counters (account_step st ev).2).*1 = (l_counters st).*1.
Proof.
  intros Hs. split.
  - destruct ev as [i v|i|j|t]; cbn [account_step value_for fst snd].
    + apply counter_balance. intros q. apply AddUsage_submits.
    + rewrite (counter_balance st i _ 0 k); [|intros q; destruct (CommitUsage_submits q) as (news & H1 & H2); exists news; cbn; by rewrite H2, Z.add_0_r].
      destruct (l_counters st !! i) as [[a q]|]; [|done]. unfold eqm. f_equal. repeat case_match; lia.
    + rewrite Z.add_0_r. by apply db_balance.
    + rewrite Z.add_0_r. unfold balance. cbn [l_world l_counters l_jobs]. by rewrite tick_booked.
  - assert (forall i call, (l_counters (counter_step st i call).2).*1 = (l_counters st).*1) as Hcount.
    { intros i call. unfold counter_step. destruct (l_counters st !! i) as [[a q]|] eqn:Hi; [|done]. destruct (call q). cbn.
      rewrite list_fmap_insert. by apply list_insert_id; rewrite list_lookup_fmap, Hi. }
    destruct ev as [i v|i|j|t]; cbn [account_step snd]; [apply Hcount|apply Hcount| |done].
    unfold db_step. by destruct (l_jobs st !! j) as [[]|].
Qed.

(** Which counter books on which account never changes. *)
Lemma value_for_same k accts accts' ev r : accts'.*1 = accts.*1 -> value_for k accts' ev r = value_for k accts ev r.
Proof.
  intros Hf. destruct ev as [i v|i|j|t]; [|done|done|done]. cbn [value_for].
  assert (fst <$> accts' !! i = fst <$> accts !! i) as Hi by (rewrite <- !list_lookup_fmap; by rewrite Hf).
  destruct (accts' !! i) as [[a q]|], (accts !! i) as [[a' q']|]; try done. cbn in Hi. by injection Hi as ->.
Qed.

Lemma run_balance evs : forall st k,
  snapshots_ok st -> orderly st evs ->
  balance k (account_run st evs).2 ≡64 balance k st + accepted k (l_counters st) evs (account_run st evs).1.
Proof.
  induction evs as [|ev evs IH]; intros st k Hs Ho; cbn [account_run]; [cbn; by rewrite Z.add_0_r|]. destruct Ho as [Hnd Ho].
  pose proof (step_balance st ev k Hs) as [Hb Hf]. pose proof (step_snapshots st ev Hnd Hs) as Hs1.
  destruct (account_step st ev) as [r st1]. cbn [fst snd] in *. pose proof (IH st1 k Hs1 Ho) as Hr.
  destruct (account_run st1 evs) as [rs st2]. cbn [fst snd] in *. rewrite Hr, Hb. unfold accepted. cbn [zip_with]. unfold QuotaCounter.sum. cbn [foldr].
  replace (zip_with (value_for k (l_counters st1)) evs rs) with (zip_with (value_for k (l_counters st)) evs rs).
  - unfold eqm. f_equal. lia.
  - clear - Hf. revert rs. induction evs as [|e evs IH]; intros [|r rs]; try done. cbn. f_equal; [symmetry; by apply value_for_same|apply IH].
Qed.
End Counters.

(** ** The adaptor of the management server *)

(** The tables, the time and the zone of the server. *)
Record world := MkWorld { w_db : Db; w_now : Z; w_off : Z -> Z }.

(** [lastEndTime] is never read. *)
Record adaptor := MkAdaptor { a_quota : Z; a_Value : Z; a_target : string; a_targetType : string; a_startTime : Z }.

Definition NewAdaptor (w : world) (id : Z) (target targetType : string) : db_error + adaptor :=
  match GetQuotaAdaptor (w_db w) id with
  | inl e => inl e
  | inr v => inr (MkAdaptor id v target targetType (w_now w))
  end.

Definition adaptor_LoadUsage (a : adaptor) (w : world) : option Z :=
  match LoadUsage_now (w_db w) (a_quota a) (a_target a) (a_targetType a) (w_off w) (w_now w) with inr u => Some u | inl _ => None end.

(** The id of a new row is a new one. *)
Definition adaptor_SubmitUsage (a : adaptor) (w : world) (seen : option (Z * flow_row)) (usage : Z) : world :=
  MkWorld (write_flow (w_db w) seen (a_quota a) (a_target a) (a_targetType a) usage (a_startTime a) (w_now w) (fresh (dom (db_flows (w_db w)))))
    (w_now w) (w_off w).

#[export] Instance manager_adaptor : Adaptor adaptor world (option (Z * flow_row)) key := {
  LoadUsage_ := adaptor_LoadUsage;
  GetQuotaMaxUsage_ := a_Value;
  SelectRow a w := latest (flows_of (w_db w) (a_quota a) (a_target a) (a_targetType a));
  SubmitUsage_ := adaptor_SubmitUsage;
  Tick t w := MkWorld (w_db w) t (w_off w);
  account a := (a_quota a, a_target a, a_targetType a);
  booked w k := recorded (db_flows (w_db w)) k;
  current a w seen := row_current (w_db w) (a_quota a, a_target a, a_targetType a) seen }.

#[export] Instance manager_laws : AdaptorLaws adaptor world (option (Z * flow_row)) key.
Proof.
  split; cbn [booked SubmitUsage_ manager_adaptor account adaptor_SubmitUsage w_db current SelectRow Tick].
  - intros a w. apply latest_current.
  - intros a w s u k Hc. unfold eqm. rewrite write_recorded; [done|done|]. apply not_elem_of_dom, is_fresh.
  - intros a b w s t u Hne Hs Ht. apply write_other; [done| |done|done]. apply not_elem_of_dom, is_fresh.
  - done.
  - done.
Qed.

(** C15. Traffic that was accepted is recorded. For any sessions, each with a
    counter over the management server's adaptor, any of them for the same
    device: after any calls of [AddUsage] and commits, the statements of their
    submissions coming in any order except that no two submissions for the same
    quota and device are between their two statements at once, what the tables
    show for a quota and device, what its counters hold and what is under way add
    up to what they did at the beginning and what was accepted since, in 64-bit
    arithmetic; when all is committed and written the tables show it all. *)
Theorem traffic_recorded (sessions : list (adaptor * Quota)) (w : world) evs :
  orderly (MkLedger sessions [] w) evs ->
  let '(rs, st) := account_run (MkLedger sessions [] w) evs in
  forall k, i64 (recorded (db_flows (w_db (l_world st))) k + on_counters k (l_counters st) + in_flight k (l_jobs st)) =
      i64 (recorded (db_flows (w_db w)) k + on_counters k sessions + accepted k sessions evs rs) /\
    (Forall (fun e => usage e.2 = 0) (l_counters st) -> Forall (fun j => j = JDone) (l_jobs st) ->
     i64 (recorded (db_flows (w_db (l_world st))) k) = i64 (recorded (db_flows (w_db w)) k + on_counters k sessions + accepted k sessions evs rs)).
Proof.
  intros Ho. pose proof (run_balance evs (MkLedger sessions [] w)) as Hrun. destruct (account_run _ evs) as [rs st]. intros k.
  assert (balance k st ≡64 recorded (db_flows (w_db w)) k + on_counters k sessions + accepted k sessions evs rs) as Hb.
  { rewrite Hrun; [|apply Forall_nil_2|done]. unfold balance. cbn. by rewrite Z.add_0_r. }
  split; [exact Hb|]. intros Hc Hj. rewrite <- Hb. unfold balance, on_counters, in_flight. rewrite (total_zero (share k)), (total_zero (job_share k)).
  - by rewrite !Z.add_0_r.
  - eapply Forall_impl; [exact Hj|]. by intros j ->.
  - eapply Forall_impl; [exact Hc|]. intros e He. unfold share. by case_decide.
Qed.

(** Two sessions of one device, whose submissions take turns. *)
Definition sample_adaptor : adaptor := MkAdaptor 1 1000 "d-1" "device_traffic" 50.
Definition sample_sessions : list (adaptor * Quota) := [(sample_adaptor, MkQuota 0 1000 0 []); (sample_adaptor, MkQuota 0 1000 0 [])].
Definition sample_world : world := MkWorld (MkDb ∅ ∅ ∅ ∅ ∅) 60 (fun _ => 3600).
Definition sample_account : key := (1, "d-1"%string, "device_traffic"%string).
Definition taking_turns : list account_event :=
  [EvAdd 0 900; EvAdd 1 400; EvCommit 0; EvTime 70; EvCommit 1; EvDb 0; EvDb 0; EvDb 1; EvAdd 0 300; EvDb 1; EvCommit 0; EvDb 2; EvDb 2].

Lemma traffic_recorded_witness :
  i64 (recorded (db_flows (w_db (l_world (account_run (MkLedger sample_sessions [] sample_world) taking_turns).2))) sample_account) = 1600.
Proof.
  assert (orderly (MkLedger sample_sessions [] sample_world) taking_turns) as Ho.
  { vm_compute. repeat split; repeat (apply NoDup_cons_2; [apply not_elem_of_nil|]); apply NoDup_nil_2. }
  pose proof (traffic_recorded sample_sessions sample_world taking_turns Ho) as H.
  destruct (account_run (MkLedger sample_sessions [] sample_world) taking_turns) as [rs st] eqn:E. vm_compute in E. injection E as <- <-.
  destruct (H sample_account) as [_ H1]. cbn [snd]. rewrite H1; [vm_compute; reflexivity|by repeat constructor|by repeat constructor].
Defined.

(** Without that, an update is lost: two sessions of a device submit 400 and 300
    bytes, both read the row of 900 bytes before either writes. *)
Example lost_update :
  let '(_, st) := account_run (MkLedger sample_sessions [] sample_world)
    [EvAdd 0 900; EvCommit 0; EvDb 0; EvDb 0; EvAdd 0 400; EvAdd 1 300; EvCommit 0; EvCommit 1; EvDb 1; EvDb 2; EvDb 1; EvDb 2] in
  l_jobs st = [JDone; JDone; JDone] /\ on_counters sample_account (l_counters st) = 0 /\
  recorded (db_flows (w_db (l_world st))) sample_account = 1200.
Proof. vm_compute. by split_and!. Qed.
