(* ===== verification/PeriodProps.v ===== *)
(** * Every usage row counts in one period *)

From stdpp Require Import sorting.
From S2P Require Import Prelude Threads QuotaCounter.
From S2P Require Import GoNet GoText Router IPPool GoFloat SmoothLimiter Metrics Server Manager ManagerProps Period Accounting.

#[local] Open Scope Z_scope.

Lemma sum_cons a l : sum (a :: l) = a + sum l.
Proof. done. Qed.

(** What the rows of a list amount to. *)
Definition total (l : list (Z * flow_row)) : Z := sum ((fun e => f_Usage e.2) <$> l).

Lemma fold_total l : foldr (fun e acc => i64 (f_Usage (e : Z * flow_row).2 + acc)) 0 l ≡64 total l.
Proof. induction l as [|e l IH]; [done|]. cbn [foldr total fmap list_fmap sum]. rewrite i64_eqm. by apply eqm_add. Qed.

Lemma same_flow_key id target ty f : same_flow id target ty f = true <-> flow_key f = (id, target, ty).
Proof. unfold same_flow, flow_key. rewrite !andb_true_iff, Z.eqb_eq, !String.eqb_eq. naive_solver. Qed.

Lemma flows_total db id target ty : total (flows_of db id target ty) = recorded (db_flows db) (id, target, ty).
Proof.
  unfold flows_of, recorded, total. induction (map_to_list (db_flows db)) as [|[i f] l IH]; [done|].
  rewrite filter_cons, fmap_cons. rewrite sum_cons, <- IH. unfold amount at 1. cbn [snd].
  destruct (decide (same_flow id target ty f = true)) as [E|E]; rewrite same_flow_key in E.
  - by rewrite decide_True.
  - by rewrite decide_False.
Qed.

(** Rows sorted by the moments whose period they fall into. *)
Section Partition.
Context (same : Z -> Z -> bool).

Abbreviation falls t e := (same t (f_RecordEnd (e : Z * flow_row).2) = true).

(** How many of the moments a row counts at. *)
Definition hits (ts : list Z) (e : Z * flow_row) : Z := zlen (filter (fun t => falls t e) ts).

Lemma partition_total ts l :
  sum ((fun t => total (filter (fun e => falls t e) l)) <$> ts) = sum ((fun e => f_Usage e.2 * hits ts e) <$> l).
Proof.
  induction ts as [|t ts IH].
  - induction l as [|e l IHl]; [done|]. rewrite fmap_cons, sum_cons, <- IHl. change (hits [] e) with 0. rewrite Z.mul_0_r. done.
  - rewrite fmap_cons, sum_cons, IH. clear IH. unfold hits. induction l as [|e l IHl]; [done|]. rewrite !fmap_cons, !sum_cons, <- IHl.
    rewrite !filter_cons. destruct (decide (falls t e)); [|lia]. unfold total. rewrite fmap_cons, sum_cons, zlen_cons. lia.
Qed.
End Partition.

(** The rows counted at a moment. *)
Definition counted_at (db : Db) (ty : string) (id : Z) (target targetType : string) (off : Z -> Z) (t : Z) : list (Z * flow_row) :=
  filter (fun e => same_period ty off t (f_RecordEnd e.2) = true) (flows_of db id target targetType).

Lemma load_counted db id target ty off now q :
  regular (qi_Period q) off -> GetById db id = inr q -> exists u, LoadUsage_now db id target ty off now = inr u /\ u ≡64 total (counted_at db (qi_Period q) id target ty off now).
Proof.
  intros Hr Hq. unfold LoadUsage_now, LoadUsage. rewrite Hq. pose proof (fun t => in_period (qi_Period q) off now t Hr) as Hin.
  destruct (period (qi_Period q) off now) as [from to]. cbn [fst snd] in Hin. eexists. split; [done|]. rewrite fold_total. unfold counted_at.
  erewrite list_filter_iff; [done|]. intros e. apply Hin.
Qed.

Lemma same_period_join ty off a b c : same_period ty off a c = true -> same_period ty off b c = true -> same_period ty off a b = true.
Proof.
  unfold same_period. destruct (local_date off a) as [[y m] d], (local_date off b) as [[y1 m1] d1], (local_date off c) as [[y2 m2] d2].
  rewrite !andb_true_iff, !orb_true_iff, !Z.eqb_eq. naive_solver.
Qed.

(** Moments of different periods. *)
Abbreviation different ty off ts := (StronglySorted (fun t t' => same_period ty off t t' = false) ts).

Lemma hits_one ty off ts e :
  different ty off ts -> Exists (fun t => same_period ty off t (f_RecordEnd e.2) = true) ts -> hits (same_period ty off) ts e = 1.
Proof.
  intros Hd. induction Hd as [|t ts Hd IH Hall]; intros Hex; [by inversion Hex|]. unfold hits in *. rewrite filter_cons.
  destruct (decide (same_period ty off t (f_RecordEnd e.2) = true)) as [Ht|Ht].
  - rewrite zlen_cons. replace (filter _ ts) with (@nil Z); [done|]. symmetry. clear Hd IH Hex.
    induction Hall as [|t' ts Hne Hall IH]; [done|]. rewrite filter_cons, decide_False; [done|]. intros Ht'.
    by rewrite (same_period_join _ _ _ _ _ Ht Ht') in Hne.
  - apply IH. by inversion Hex.
Qed.

Lemma loads_total db id target ty off q ts us :
  regular (qi_Period q) off -> GetById db id = inr q ->
  mapM (fun t => match LoadUsage_now db id target ty off t with inr u => Some u | inl _ => None end) ts = Some us ->
  sum us ≡64 sum ((fun t => total (counted_at db (qi_Period q) id target ty off t)) <$> ts).
Proof.
  intros Hr Hq Hus. apply mapM_Some in Hus. induction Hus as [|t u ts us Hu Hus IH]; [done|]. rewrite fmap_cons, !sum_cons.
  apply eqm_add; [|done]. destruct (load_counted db id target ty off t q Hr Hq) as (u' & E & Hu'). rewrite E in Hu. by simplify_eq.
Qed.

(** C37. Usage is counted by calendar days or months, in zones that are regular
    for the quota: every midnight that begins a period happens once, and for
    daily quotas midnights are 24 hours apart. That holds of every zone whose
    offset does not change, and for monthly quotas of zones that change it at
    other times than the first midnight of a month. Loading the usage of an
    account sums exactly the rows that ended on the local date of the moment, to
    the day or to the month. A period holds its moment, the next one begins a
    second after its end, a day has 86400 seconds and a month 28 to 31 days, up
    to a change of the offset. Loaded once in each of any periods that hold all
    rows of the account, the usage adds up to everything recorded for it: no row
    is left out between two periods and none counts twice. *)
Theorem usage_by_period db id target ty off q :
  regular (qi_Period q) off -> GetById db id = inr q ->
  (forall now, exists u, LoadUsage_now db id target ty off now = inr u /\ u ≡64 total (counted_at db (qi_Period q) id target ty off now)) /\
  (forall now, let '(from, to) := period (qi_Period q) off now in
     from <= now <= to /\ (period (qi_Period q) off (to + 1)).1 = to + 1 /\
     if String.eqb (qi_Period q) PeriodTypeDay then to - from + 1 = 86400
     else exists days, 28 <= days <= 31 /\ to - from + 1 = 86400 * days + off from - off (to + 1)) /\
  (forall ts us, different (qi_Period q) off ts ->
     Forall (fun e => Exists (fun t => same_period (qi_Period q) off t (f_RecordEnd e.2) = true) ts) (flows_of db id target ty) ->
     mapM (fun t => match LoadUsage_now db id target ty off t with inr u => Some u | inl _ => None end) ts = Some us ->
     sum us ≡64 recorded (db_flows db) (id, target, ty)).
Proof.
  intros Hr Hq. split_and!.
  - intros now. by apply load_counted.
  - intros now. by apply period_shape.
  - intros ts us Hd Hc Hus. rewrite (loads_total _ _ _ _ _ _ _ _ Hr Hq Hus). unfold counted_at. rewrite partition_total, <- flows_total. unfold total.
    rewrite (Forall_fmap_ext_1 _ (fun e => f_Usage e.2)); [done|]. apply Forall_forall. intros e He.
    rewrite hits_one; [lia|done|]. rewrite Forall_forall in Hc. by apply Hc.
Qed.

(** The time of central Europe in 2024: summer time begins on 31 March and ends
    on 27 October, at one o'clock UTC. *)
Definition berlin (t : Z) : Z := if (1711846800 <=? t) && (t <? 1729990800) then 7200 else 3600.

Lemma berlin_clean n : clean berlin n.
Proof.
  unfold clean, clock, at_local, midnight, berlin, unix_epoch.
  assert (forall a c, (if (1711846800 <=? a) && (a <? 1729990800) then 7200 else 3600) = c -> 1711846800 <= a < 1729990800 /\ c = 7200 \/ ~ (1711846800 <= a < 1729990800) /\ c = 3600) as Hoff.
  { intros a c <-. destruct (Z.leb_spec 1711846800 a), (Z.ltb_spec a 1729990800); cbn; lia. }
  set (c := (n - 719162) * 86400). assert (exists k, c = 86400 * k) as [k Hk] by (exists (n - 719162); lia). clearbody c.
  destruct (Hoff c _ eq_refl) as [[H1 ->]|[H1 ->]].
  - destruct (Hoff (c - 7200) _ eq_refl) as [[H2 ->]|[H2 ->]].
    + destruct (Hoff (c - 7200) _ eq_refl) as [[H3 ->]|[H3 ->]]; [|lia]. split; [lia|]. intros t. destruct (Hoff t _ eq_refl) as [[H4 ->]|[H4 ->]]; lia.
    + destruct (Hoff (c - 3600) _ eq_refl) as [[H3 ->]|[H3 ->]]; [lia|]. split; [lia|]. intros t. destruct (Hoff t _ eq_refl) as [[H4 ->]|[H4 ->]]; lia.
  - destruct (Hoff (c - 3600) _ eq_refl) as [[H2 ->]|[H2 ->]].
    + destruct (Hoff (c - 7200) _ eq_refl) as [[H3 ->]|[H3 ->]]; [|lia]. split; [lia|]. intros t. destruct (Hoff t _ eq_refl) as [[H4 ->]|[H4 ->]]; lia.
    + destruct (Hoff (c - 3600) _ eq_refl) as [[H3 ->]|[H3 ->]]; [lia|]. split; [lia|]. intros t. destruct (Hoff t _ eq_refl) as [[H4 ->]|[H4 ->]]; lia.
Qed.

(** Rows on the last second of February, on the first of March, and at its end. *)
Definition sample_flows : Db :=
  MkDb {[1 := MkQuotaRow "monthly" "gb" "gb" 1 "month"]}
    {[1 := MkFlow 1 100 "d-1" "device_traffic" 0 1709247599; 2 := MkFlow 1 20 "d-1" "device_traffic" 0 1709247600;
      3 := MkFlow 1 3 "d-1" "device_traffic" 0 1711922399]} ∅ ∅ ∅.

Lemma usage_by_period_witness :
  local_date berlin 1709247599 = (2024, 2, 29) /\ local_date berlin 1709247600 = (2024, 3, 1) /\ local_date berlin 1711922399 = (2024, 3, 31) /\
  LoadUsage_now sample_flows 1 "d-1" "device_traffic" berlin 1707000000 = inr 100 /\
  LoadUsage_now sample_flows 1 "d-1" "device_traffic" berlin 1710000000 = inr 23 /\
  sum [100; 23] ≡64 recorded (db_flows sample_flows) (1, "d-1"%string, "device_traffic"%string).
Proof.
  do 5 (split; [by vm_compute|]).
  destruct (usage_by_period sample_flows 1 "d-1" "device_traffic" berlin (MkQuotaInfo 1 "monthly" "gb" "gb" 1073741824 "month")) as (_ & _ & H);
    [intros y m _; apply berlin_clean|by vm_compute|].
  apply (H [1707000000; 1710000000]); [|apply (bool_decide_unpack _); by vm_compute|by vm_compute].
  repeat constructor; by vm_compute.
Defined.

(** A daily quota in that zone: the period of 31 March reaches an hour into the
    next day, and an hour of 27 October is in no period. *)
Example days_with_a_change :
  let '(from, to) := period "day" berlin 1711900000 in
  let '(from', to') := period "day" berlin 1730000000 in
  (local_date berlin from, local_date berlin to) = ((2024, 3, 31), (2024, 4, 1)) /\ (period "day" berlin to).1 = to - 3599 /\
  local_date berlin from' = (2024, 10, 27) /\ (period "day" berlin 1730080000).1 = to' + 3601.
Proof. by vm_compute. Qed.
