(* ===== verification/Tun.v ===== *)
(** * Setting up the device (vnet/client/dev_linux.go, dev_windows.go)

    The calls of the TUN and netlink libraries are what they return. *)

From S2P Require Import Session.
From S2P Require Import Prelude GoNet GoText Router RouterSpec RouterKeys RouterProps IPPool IPPoolProps HostRoutes.
From S2P Require Import QuotaCounter GoFloat SmoothLimiter Metrics Server ServerProps Functions Request Login.

#[local] Open Scope string_scope.
#[local] Open Scope Z_scope.

(** ** netip.ParsePrefix *)

Record Prefix := MkPrefix { pf_Addr : list Z; pf_Bits : Z }.

(** The text before and after the last separator. *)
Fixpoint cut_last (sep : ascii) (s : string) : option (string * string) :=
  match s with
  | EmptyString => None
  | String c s' =>
      match cut_last sep s' with
      | Some (a, b) => Some (String c a, b)
      | None => if Ascii.eqb c sep then Some (EmptyString, s') else None
      end
  end.

(** No sign and no leading zero. *)
Definition prefix_bits (s : string) : option Z :=
  match s with
  | String c (String _ _) => if (49 <=? ord c) && (ord c <=? 57) then dtoi s 0 false else None
  | _ => dtoi s 0 false
  end.

Definition ParsePrefix (s : string) : option Prefix :=
  '(addr, bitsStr) ← cut_last "/"%char s;
  '(ip16, maxBits) ← ParseAddr addr;
  bits ← prefix_bits bitsStr;
  if maxBits <? bits then None else Some (MkPrefix (if maxBits =? 32 then drop 12 ip16 else ip16) bits).

(** ** The device *)

Inductive goos := Linux | Windows.

(** [tun.Options]; a text that is no prefix gives the zero prefix. *)
Record Options := MkOptions { o_Name : string; o_Inet4Address : list (option Prefix); o_MTU : Z; o_GSO : bool }.

(** What [tun.New], [netlink.LinkByName] and [netlink.LinkSetUp] return. *)
Record tun_results := MkResults { r_New : option nat; r_LinkByName : bool; r_LinkSetUp : bool }.

Inductive device_error := CreateError | GetLinkError | SetUpError.

(** A session without a device name gets one. *)
Definition named_device (d : Session.Device) : Session.Device :=
  if String.eqb (Session.d_Name d) ""
  then Session.MkDevice (Session.d_Id d) "tun0" (Session.d_CIDR d) (Session.d_MTU d) (Session.d_Key d) (Session.d_DataTrafficQuota d)
         (Session.d_BandwidthQuota d)
  else d.

Definition tun_options (os : goos) (d : Session.Device) : Options :=
  MkOptions (Session.d_Name d) [ParsePrefix (Session.d_CIDR d)] (u32 (Session.d_MTU d)) (match os with Linux => true | Windows => false end).

(** The device, the error and the session's device afterwards. On Linux a device
    that was created is returned with the errors of its link. *)
Definition linux_setupDevice (d : Session.Device) (tun : Options -> tun_results) : option nat * option device_error * Session.Device :=
  let d := named_device d in
  let r := tun (tun_options Linux d) in
  match r_New r with
  | None => (None, Some CreateError, d)
  | Some dev =>
      if negb (r_LinkByName r) then (Some dev, Some GetLinkError, d)
      else if negb (r_LinkSetUp r) then (Some dev, Some SetUpError, d)
      else (Some dev, None, d)
  end.

Definition windows_setupDevice (d : Session.Device) (tun : Options -> tun_results) : option nat * option device_error * Session.Device :=
  let d := named_device d in
  match r_New (tun (tun_options Windows d)) with
  | None => (None, Some CreateError, d)
  | Some dev => (Some dev, None, d)
  end.

(** The build selects one of them. *)
Definition setupDevice (os : goos) : Session.Device -> (Options -> tun_results) -> option nat * option device_error * Session.Device :=
  match os with Linux => linux_setupDevice | Windows => windows_setupDevice end.

(** ** The prefix of an assigned address *)

Lemma cut_last_none sep s : string_all (fun c => negb (Ascii.eqb c sep)) s = true -> cut_last sep s = None.
Proof.
  induction s as [|c s IH]; [done|]. cbn [string_all cut_last]. intros [Hc Hs]%andb_true_iff. rewrite IH by done.
  apply negb_true_iff in Hc. by rewrite Hc.
Qed.

Lemma cut_last_app sep s t : string_all (fun c => negb (Ascii.eqb c sep)) t = true -> cut_last sep (s +:+ String sep t) = Some (s, t).
Proof.
  intros Ht. induction s as [|c s IH].
  - change ("" +:+ String sep t) with (String sep t). cbn [cut_last]. by rewrite cut_last_none, Ascii.eqb_refl.
  - change (String c s +:+ String sep t) with (String c (s +:+ String sep t)). cbn [cut_last]. by rewrite IH.
Qed.

Lemma prefix_bits_dec n : 0 <= n <= 32 -> prefix_bits (dec n) = Some n /\ string_all (fun c => negb (Ascii.eqb c "/")) (dec n) = true.
Proof.
  intros Hn. apply (below_cases (fun n => prefix_bits (dec n) = Some n /\ string_all (fun c => negb (Ascii.eqb c "/")) (dec n) = true) 33 n);
    [lia|]. cbn [seq fmap list_fmap]. repeat constructor.
Qed.

Lemma ParsePrefix_text ip n :
  length ip = 4%nat -> bytes_ok ip -> 0 <= n <= 32 -> ParsePrefix (cidr_text ip n) = Some (MkPrefix ip n).
Proof.
  intros Hl Hok Hn. destruct (prefix_bits_dec n Hn) as [Hb Hs]. unfold ParsePrefix, cidr_text.
  change ("/" +:+ dec n) with (String "/" (dec n)). rewrite cut_last_app by done. cbn [mbind option_bind].
  rewrite ParseAddr_text by done. cbn [mbind option_bind]. rewrite Hb. cbn [mbind option_bind]. destruct (Z.ltb_spec 32 n); [lia|]. done.
Qed.

Lemma assigned_prefix a ones : 0 <= ones <= 32 -> ParsePrefix (assigned_text a ones) = Some (MkPrefix (be_put 4 a) ones).
Proof.
  intros Ho. unfold assigned_text. rewrite addr_text_be.
  change (ip4_text (be_put 4 a) +:+ "/" +:+ dec ones) with (cidr_text (be_put 4 a) ones).
  apply ParsePrefix_text; [apply length_be_put|apply be_put_ok|done].
Qed.

(** What a client is told of a running session. *)
Lemma told_device w ID CIDR base ones sv held lost active n p a typ dev netkey :
  served w ID CIDR base ones sv held lost active -> sv_nets sv !! w = Some n -> held !! p = Some a ->
  exists s, login_session sv p typ dev netkey = Some s /\ ls_IP s = addr_text a /\
    Session.d_CIDR (ls_Device s) = assigned_text a ones /\ Session.d_MTU (ls_Device s) = n_MTU n /\
    Session.d_Name (ls_Device s) = Session.d_Name dev /\ 0 <= ones <= 32 /\
    RouteString (n_router n) (addr_text a) = Some (Some p).
Proof.
  intros [_ (n' & Hn' & Hnet) _ Hheap _] Hn Hp. simplify_eq. destruct (Hheap p a Hp) as (s & Hs & Hip & Hc & Hw).
  unfold login_session. rewrite Hs. cbn [mbind option_bind]. rewrite Hw. cbn [mbind option_bind]. rewrite Hn'. cbn [mbind option_bind].
  eexists. split; [reflexivity|]. cbn. split_and!; [done..| | |]; [apply (net_ok_ones _ _ _ _ _ _ Hnet)..|].
  pose proof (net_ok_range _ _ _ _ _ _ _ _ Hnet Hp) as Hr. destruct Hnet as (_ & _ & _ & t & Hrep & Hf).
  rewrite (host_lookup _ t a Hrep) by (intros k q (b & _ & ->)%Hf; apply length_addr_bits). do 2 f_equal. apply Hf. eauto.
Qed.

(** C36. The device of a client gets the address that leads to the client: on a
    server with one network, after any logins that name no earlier session (no
    reconnects), whether the lookups of the manager succeed or not, and any ends
    of sessions, what the client of a running session reads
    sets up a device with one address, that of the session with the length of
    the network's prefix, and with the MTU of the network, on either system; the
    server routes this address to this session. A device without a name is
    called tun0. Creating the device can fail, and on Linux finding its link and
    setting it up; then the device that was created is returned all the same. *)
Theorem device_reachable intn w ID CIDR MTU base ones n events :
  intn_ok intn -> ID <> "" -> v4_block CIDR = Some (base, ones) -> NewNetwork ID CIDR MTU = Ret n ->
  exists sv active n', run intn (fresh_server w n, ∅) events = Some (sv, active) /\ sv_nets sv !! w = Some n' /\
    forall p typ dev netkey, p ∈ active -> exists s a,
      login_session sv p typ dev netkey = Some s /\ ls_IP s = addr_text a /\ RouteString (n_router n') (addr_text a) = Some (Some p) /\
      forall os tun,
        let name := if String.eqb (Session.d_Name dev) "" then "tun0" else Session.d_Name dev in
        let r := tun (MkOptions name [Some (MkPrefix (be_put 4 a) ones)] (u32 (n_MTU n')) (match os with Linux => true | Windows => false end)) in
        exists err d, setupDevice os (ls_Device s) tun = (r_New r, err, d) /\ Session.d_Name d = name /\
          (err = None <-> is_Some (r_New r) /\ (os = Linux -> r_LinkByName r = true /\ r_LinkSetUp r = true)).
Proof.
  intros Hintn Hid Hblock Hnew. pose proof (fresh_served w ID CIDR MTU base ones n Hid Hblock Hnew) as Hsv0.
  destruct (run_ok intn Hintn w ID CIDR base ones events _ ∅ ∅ ∅ Hsv0) as (sv & held & lost & active & Hrun & Hsv & _).
  pose proof (sv_net _ _ _ _ _ _ _ _ _ Hsv) as (n' & Hn & _). exists sv, active, n'. split_and!; [done..|].
  intros p typ dev netkey Hact. destruct (sv_runs _ _ _ _ _ _ _ _ _ Hsv p Hact) as [[a Ha] _].
  destruct (told_device w ID CIDR base ones sv held lost active n' p a typ dev netkey Hsv Hn Ha) as (s & Hs & Hip & Hc & Hm & Hname & Ho & Hr).
  exists s, a. split_and!; [done..|]. intros os tun name r.
  assert (tun_options os (named_device (ls_Device s)) = MkOptions name [Some (MkPrefix (be_put 4 a) ones)] (u32 (n_MTU n'))
    (match os with Linux => true | Windows => false end)) as Hopt.
  { unfold tun_options, named_device, name. rewrite Hname. destruct (String.eqb _ _); cbn [Session.d_Name Session.d_CIDR Session.d_MTU]; by rewrite ?Hname, Hc, Hm, assigned_prefix. }
  assert (Session.d_Name (named_device (ls_Device s)) = name) as Hnm.
  { unfold named_device, name. rewrite Hname. by destruct (String.eqb _ _). }
  destruct os; cbn [setupDevice]; unfold linux_setupDevice, windows_setupDevice; rewrite Hopt; fold r.
  - destruct (r_New r), (r_LinkByName r), (r_LinkSetUp r); eexists _, _; (split; [reflexivity|]); (split; [done|]); naive_solver.
  - destruct (r_New r); eexists _, _; (split; [reflexivity|]); (split; [done|]); naive_solver.
Qed.

Lemma device_reachable_witness :
  exists sv active n', run sample_intn (fresh_server 0 sample_net, ∅) sample_events = Some (sv, active) /\ sv_nets sv !! 0%nat = Some n' /\
    forall typ dev netkey, exists s a, login_session sv 2 typ dev netkey = Some s /\ RouteString (n_router n') (addr_text a) = Some (Some 2%nat).
Proof.
  destruct (device_reachable sample_intn 0 "home" "10.1.0.0/16" 1400 167837696 16 sample_net sample_events)
    as (sv & active & n' & Hrun & Hn & Hall).
  - intros seed n Hn. by apply Z.mod_pos_bound.
  - done.
  - vm_compute. reflexivity.
  - vm_compute. reflexivity.
  - exists sv, active, n'. split; [exact Hrun|]. split; [exact Hn|]. intros typ dev netkey.
    assert (observe (run sample_intn (fresh_server 0 sample_net, ∅) sample_events) 0 "10.1.0.10" = ([4; 2]%nat, Some (Some 2%nat))) as Hobs
      by (vm_compute; reflexivity).
    rewrite Hrun in Hobs. pose proof (f_equal fst Hobs) as Hact. cbn [observe fst] in Hact.
    assert (2%nat ∈ active) as H2 by (apply elem_of_elements; rewrite Hact; apply list_elem_of_further, list_elem_of_here).
    destruct (Hall 2%nat typ dev netkey H2) as (s & a & H1 & _ & H3 & _). exists s, a. split; [exact H1|exact H3].
Defined.
