(* ===== verification/RouterHeap.v ===== *)
(** * The route table under concurrent calls (common/router/router.go)

    The nodes of the tries are a heap with atomic fields, and a call is a
    sequence of atomic operations on it: loads and stores of a field and the
    compare-and-swap that links a new node. Goroutines make calls one after
    the other; a schedule says whose atomic operation comes next. *)

From S2P Require Import Prelude Threads GoNet Router RouterSpec.

#[export] Instance family_eq_dec : EqDecision family.
Proof. solve_decision. Defined.

(** ** Nodes *)

Record cell (V : Type) := MkCell { c_zero : option nat; c_one : option nat; c_leaf : bool; c_target : option V }.
Arguments MkCell {V} c_zero c_one c_leaf c_target.
Arguments c_zero {V} c.
Arguments c_one {V} c.
Arguments c_leaf {V} c.
Arguments c_target {V} c.

Definition new_cell {V} : cell V := MkCell None None false None.

Section Calls.
Context {V : Type}.
Implicit Types (H : gmap nat (cell V)) (c : cell V).

(** The two tries of a router. *)
Definition root (f : family) : nat := match f with FamV4 => 0 | FamV6 => 1 end.
Definition maxBits (f : family) : nat := match f with FamV4 => 32 | FamV6 => 128 end.
Definition new_heap : gmap nat (cell V) := {[0%nat := new_cell; 1%nat := new_cell]}.

Definition child (b : bool) (c : cell V) : option nat := if b then c_one c else c_zero c.
Definition set_child (b : bool) (c : cell V) (p : nat) : cell V :=
  if b then MkCell (c_zero c) (Some p) (c_leaf c) (c_target c) else MkCell (Some p) (c_one c) (c_leaf c) (c_target c).
Definition set_leaf (c : cell V) (l : bool) : cell V := MkCell (c_zero c) (c_one c) l (c_target c).
Definition set_target (c : cell V) (v : option V) : cell V := MkCell (c_zero c) (c_one c) (c_leaf c) v.

(** ** Calls *)

Inductive action := ActInsert (v : V) | ActRemove | ActLookup.

(** A call on the trie of a family: the address and the number of its bits to
    follow. *)
Record call := MkCall { k_fam : family; k_ip : list Z; k_ones : nat; k_act : action }.

(** Where a call stands: at the head of its loop with the current node and the
    index, before the compare-and-swap, before the second read, between the two
    stores at the end; for a look-up before reading the leaf mark, the target
    or the child, [last] after the loop. *)
Inductive pc :=
| Walk (cur i : nat) | Swap (cur i : nat) | Reload (cur i : nat) | Second (cur : nat)
| LookLeaf (cur i : nat) (best : option V) (last : bool) | LookTarget (cur i : nat) (best : option V) (last : bool)
| LookChild (cur i : nat) (best : option V)
| Returned (r : option V) | Crashed.

(** The head of the loop of a look-up. *)
Definition look (k : call) (cur i : nat) (best : option V) : pc := LookLeaf cur i best (k_ones k <=? i)%nat.

Definition begin_call (k : call) : pc :=
  match k_act k with ActLookup => look k (root (k_fam k)) 0 None | _ => Walk (root (k_fam k)) 0 end.

Definition bit (k : call) (i : nat) : option bool := (fun v => negb (v =? 0)) <$> bit_val (k_ip k) (Z.of_nat i).

(** The field of a node, and a bit of the address, as far as they exist: a
    missing node is a nil pointer, whose fields cannot be read, and a missing bit
    an index out of range. *)
Definition on (H : gmap nat (cell V)) (cur : nat) (F : cell V -> gmap nat (cell V) * pc) : gmap nat (cell V) * pc :=
  match H !! cur with Some c => F c | None => (H, Crashed) end.
Definition at_child (H : gmap nat (cell V)) (k : call) (cur i : nat) (F : bool -> cell V -> option nat -> gmap nat (cell V) * pc)
    : gmap nat (cell V) * pc :=
  match bit k i with Some b => on H cur (fun c => F b c (child b c)) | None => (H, Crashed) end.

(** The next atomic operation of an insertion. *)
Definition insert_atomic (H : gmap nat (cell V)) (k : call) (v : V) (s : pc) : gmap nat (cell V) * pc :=
  match s with
  | Walk cur i =>
      if (k_ones k <=? i)%nat then on H cur (fun c => (<[cur := set_leaf c true]> H, Second cur))
      else at_child H k cur i (fun _ _ next =>
        match next with Some next => (H, Walk next (S i)) | None => (H, Swap cur i) end)
  | Swap cur i =>
      at_child H k cur i (fun b c next =>
        match next with
        | None => let next := fresh (dom H) in (<[next := new_cell]> (<[cur := set_child b c next]> H), Walk next (S i))
        | Some _ => (H, Reload cur i)
        end)
  | Reload cur i =>
      at_child H k cur i (fun _ _ next => match next with Some next => (H, Walk next (S i)) | None => (H, Crashed) end)
  | Second cur => on H cur (fun c => (<[cur := set_target c (Some v)]> H, Returned None))
  | _ => (H, s)
  end.

(** Of a removal. *)
Definition remove_atomic (H : gmap nat (cell V)) (k : call) (s : pc) : gmap nat (cell V) * pc :=
  match s with
  | Walk cur i =>
      if (k_ones k <=? i)%nat then on H cur (fun c => (<[cur := set_leaf c false]> H, Second cur))
      else at_child H k cur i (fun _ _ next =>
        match next with Some next => (H, Walk next (S i)) | None => (H, Returned None) end)
  | Second cur => on H cur (fun c => (<[cur := set_target c None]> H, Returned None))
  | _ => (H, s)
  end.

(** Of a look-up. *)
Definition lookup_atomic (H : gmap nat (cell V)) (k : call) (s : pc) : gmap nat (cell V) * pc :=
  match s with
  | LookLeaf cur i best last =>
      on H cur (fun c => (H, if c_leaf c then LookTarget cur i best last else if last then Returned best else LookChild cur i best))
  | LookTarget cur i best last =>
      on H cur (fun c => let best := match c_target c with Some v => Some v | None => best end in
                         (H, if last then Returned best else LookChild cur i best))
  | LookChild cur i best =>
      at_child H k cur i (fun _ _ next => (H, match next with Some next => look k next (S i) best | None => LookLeaf cur i best true end))
  | _ => (H, s)
  end.

Definition atomic (H : gmap nat (cell V)) (k : call) (s : pc) : gmap nat (cell V) * pc :=
  match k_act k with
  | ActInsert v => insert_atomic H k v s
  | ActRemove => remove_atomic H k s
  | ActLookup => lookup_atomic H k s
  end.

(** ** Goroutines *)

Inductive request := Update (o : route_op V) | Find (f : family) (ip : list Z).

(** The call a request makes; a text that is no block and an address of another
    length return at once. *)
Definition call_of (r : request) : option call :=
  match r with
  | Update o =>
      '(_, ipNet) ← ParseCIDR (op_addr o);
      let ip := net_IP ipNet in
      let ones := Z.to_nat (fst (mask_Size (net_Mask ipNet))) in
      let act := match o with OpRegister _ v => ActInsert v | OpUnRegister _ => ActRemove end in
      match To4 ip with
      | Some ip4 => Some (MkCall FamV4 ip4 ones act)
      | None => ip6 ← To16 ip; Some (MkCall FamV6 ip6 ones act)
      end
  | Find f ip => if bool_decide (length ip = maxBits f / 8)%nat then Some (MkCall f ip (maxBits f) ActLookup) else None
  end.

Record goroutine := MkGo { g_log : list (request * option V); g_cur : option (request * call * pc); g_todo : list request }.

Definition go_step (H : gmap nat (cell V)) (g : goroutine) : gmap nat (cell V) * goroutine :=
  match g_cur g with
  | None =>
      match g_todo g with
      | [] => (H, g)
      | r :: todo =>
          (H, match call_of r with
              | None => MkGo (g_log g ++ [(r, None)]) None todo
              | Some k => MkGo (g_log g) (Some (r, k, begin_call k)) todo
              end)
      end
  | Some (r, k, Returned v) => (H, MkGo (g_log g ++ [(r, v)]) None (g_todo g))
  | Some (r, k, s) => let '(H, s) := atomic H k s in (H, MkGo (g_log g) (Some (r, k, s)) (g_todo g))
  end.

Definition go_run (sched : list nat) (H : gmap nat (cell V)) (gs : list goroutine) : gmap nat (cell V) * list goroutine :=
  run go_step sched H gs.

Definition go (l : list request) : goroutine := MkGo [] None l.

Definition finished (g : goroutine) : bool :=
  match g_cur g, g_todo g with None, [] => true | _, _ => false end.
Definition crashed (g : goroutine) : bool := match g_cur g with Some (_, _, Crashed) => true | _ => false end.

(** The trie a heap holds, as the sequential operations see it. *)
Fixpoint unfold_at (n : nat) (H : gmap nat (cell V)) (p : nat) : TrieNode V :=
  match n with
  | O => NilNode
  | S n' =>
      match H !! p with
      | None => NilNode
      | Some c =>
          let sub q := match q with Some p => unfold_at n' H p | None => NilNode end in
          Node (sub (c_zero c)) (sub (c_one c)) (c_leaf c) (c_target c)
      end
  end.

Definition router_of (H : gmap nat (cell V)) : Router V := 
  MkRouter (unfold_at (S (maxBits FamV4)) H (root FamV4)) (unfold_at (S (maxBits FamV6)) H (root FamV6)).
End Calls.
