(* ===== verification/RouterHeapProps.v ===== *)
(** * Concurrent calls on the route table *)

From S2P Require Import Prelude Threads GoNet Router RouterSpec RouterHeap.

(** ** The nodes form two trees *)

Section Trees.
Context {V : Type}.
Implicit Types (H : gmap nat (cell V)) (f : family) (q : list bool) (p : nat).

Definition child_of H p b : option nat := H !! p ≫= child b.

Fixpoint walk H p q : option nat := match q with [] => Some p | b :: q' => c ← child_of H p b; walk H c q' end.

(** The node of a prefix. *)
Definition node_at H f q : option nat := walk H (root f) q.

Lemma walk_app H p q q' : walk H p (q ++ q') = c ← walk H p q; walk H c q'.
Proof. revert p. induction q as [|b q IH]; intros p; [done|]. cbn [app walk]. destruct (child_of H p b); [apply IH|done]. Qed.

Lemma node_snoc H f q b : node_at H f (q ++ [b]) = c ← node_at H f q; child_of H c b.
Proof.
  unfold node_at. rewrite walk_app. destruct (walk H (root f) q) as [c|]; [|done]. cbn [mbind option_bind walk].
  by destruct (child_of H c b).
Qed.

(** No node is reached in two ways, and none is deeper than addresses are long. *)
Record tree H : Prop := {
  tr_node f q p : node_at H f q = Some p -> is_Some (H !! p);
  tr_inj f f' q q' p : node_at H f q = Some p -> node_at H f' q' = Some p -> f = f' /\ q = q';
  tr_depth f q p : node_at H f q = Some p -> (length q <= maxBits f)%nat }.

(** Nodes never leave their place. *)
Definition extends H H' : Prop := forall f q p, node_at H f q = Some p -> node_at H' f q = Some p.

#[local] Instance extends_preorder : PreOrder extends.
Proof. split; [by intros H f q p|]. intros H1 H2 H3 H12 H23 f q p Hp. by apply H23, H12. Qed.

(** What the node of a prefix holds: a missing one is as good as an empty one. *)
Definition holds H (k : family * list bool) : bool * option V :=
  match (p ← node_at H k.1 k.2; H !! p) with Some c => (c_leaf c, c_target c) | None => (false, None) end.

Lemma node_same H H' f q : (forall p b, child_of H' p b = child_of H p b) -> node_at H' f q = node_at H f q.
Proof.
  intros Hc. unfold node_at. generalize (root f). induction q as [|b q IH]; intros p; [done|]. cbn [walk]. rewrite Hc.
  destruct (child_of H p b); [apply IH|done].
Qed.

Lemma tree_same H H' : (forall p b, child_of H' p b = child_of H p b) -> (forall p, is_Some (H !! p) -> is_Some (H' !! p)) -> tree H -> tree H'.
Proof.
  intros Hc Hd [T1 T2 T3]. split.
  - intros f q p. rewrite (node_same H H') by done. eauto.
  - intros f f' q q' p. rewrite !(node_same H H') by done. eauto.
  - intros f q p. rewrite (node_same H H') by done. eauto.
Qed.

(** A store into a field of the node of [q]. *)
Lemma store_spec H f q cur c c' :
  tree H -> node_at H f q = Some cur -> H !! cur = Some c -> c_zero c' = c_zero c -> c_one c' = c_one c ->
  let H' := <[cur := c']> H in
  tree H' /\ extends H H' /\ forall k, holds H' k = if decide (k = (f, q)) then (c_leaf c', c_target c') else holds H k.
Proof.
  intros HT Hn Hc H0 H1 H'.
  assert (forall p b, child_of H' p b = child_of H p b) as Hch.
  { intros p b. unfold child_of, H'. destruct (decide (p = cur)) as [->|Hp]; [|by rewrite lookup_insert_ne].
    rewrite lookup_insert_eq, Hc. cbn [mbind option_bind]. unfold child. by rewrite H0, H1. }
  split_and!.
  - apply (tree_same H); [done| |done]. intros p Hp. unfold H'. apply lookup_insert_is_Some. by destruct (decide (cur = p)); [left|right].
  - intros f' q' p. by rewrite (node_same H H').
  - intros [f' q']. unfold holds. cbn [fst snd]. rewrite (node_same H H') by done. case_decide as E.
    + injection E as -> ->. rewrite Hn. cbn [mbind option_bind]. unfold H'. by rewrite lookup_insert_eq.
    + destruct (node_at H f' q') as [p|] eqn:Hp; [|done]. cbn [mbind option_bind]. unfold H'. rewrite lookup_insert_ne; [done|].
      intros <-. apply E. destruct (tr_inj _ HT _ _ _ _ _ Hn Hp). congruence.
Qed.

(** Linking a new node under the node of [q]. *)
Lemma link_node H f q cur c b next :
  tree H -> node_at H f q = Some cur -> H !! cur = Some c -> child b c = None -> H !! next = None ->
  let H' := <[next := new_cell]> (<[cur := set_child b c next]> H) in
  forall f' q', node_at H' f' q' = if decide ((f', q') = (f, q ++ [b])) then Some next else node_at H f' q'.
Proof.
  intros HT Hn Hc Hb Hx H' f' q'. assert (cur <> next) as Hne by (intros ->; congruence).
  assert (forall p b', child_of H' p b' = if decide (p = cur /\ b' = b) then Some next else if decide (p = next) then None else child_of H p b') as Hch.
  { intros p b'. unfold child_of, H'. destruct (decide (p = next)) as [->|Hp].
    - rewrite lookup_insert_eq. rewrite decide_False by naive_solver. by destruct b'.
    - rewrite lookup_insert_ne by done. destruct (decide (p = cur)) as [->|Hp'].
      + rewrite lookup_insert_eq, Hc. cbn [mbind option_bind]. destruct b, b'; cbn in *; repeat case_decide; naive_solver.
      + rewrite lookup_insert_ne by done. by rewrite decide_False by naive_solver. }
  induction q' as [|b' q' IH] using rev_ind.
  { rewrite decide_False; [done|]. intros [= _ E]. by destruct q. }
  rewrite !node_snoc, IH. destruct (decide ((f', q') = (f, q ++ [b]))) as [[= -> ->]|E1].
  - cbn [mbind option_bind]. rewrite Hch, decide_False by naive_solver. rewrite decide_True by done.
    rewrite decide_False. 2:{ intros [= E]. apply (f_equal length) in E. rewrite !length_app in E. cbn in E. lia. }
    rewrite node_snoc, Hn. cbn [mbind option_bind]. unfold child_of. rewrite Hc. cbn [mbind option_bind]. by rewrite Hb.
  - destruct (node_at H f' q') as [p|] eqn:Hp; cbn [mbind option_bind].
    + rewrite Hch. assert (p <> next) as Hpn by (intros ->; destruct (tr_node _ HT _ _ _ Hp); congruence).
      rewrite (decide_False (P := p = next)) by done. destruct (decide (p = cur)) as [->|Hpc].
      * destruct (tr_inj _ HT _ _ _ _ _ Hn Hp) as [<- <-]. destruct (decide (b' = b)) as [->|Hbb].
        -- by rewrite !decide_True.
        -- rewrite !decide_False; [done| |naive_solver]. intros [= E]. apply app_inj_tail in E. naive_solver.
      * rewrite !decide_False; [done| |naive_solver]. intros [= -> E]. apply app_inj_tail in E as [-> ->]. naive_solver.
    + rewrite decide_False; [done|]. intros [= -> E]. apply app_inj_tail in E as [-> ->]. congruence.
Qed.

Lemma link_spec H f q cur c b next :
  tree H -> node_at H f q = Some cur -> H !! cur = Some c -> child b c = None -> H !! next = None -> (length q < maxBits f)%nat ->
  let H' := <[next := new_cell]> (<[cur := set_child b c next]> H) in
  tree H' /\ extends H H' /\ node_at H' f (q ++ [b]) = Some next /\ forall k, holds H' k = holds H k.
Proof.
  intros HT Hn Hc Hb Hx Hl H'. pose proof (link_node H f q cur c b next HT Hn Hc Hb Hx) as Hat. fold H' in Hat. cbv zeta in Hat.
  assert (node_at H f (q ++ [b]) = None) as Hnone.
  { rewrite node_snoc, Hn. cbn [mbind option_bind]. unfold child_of. rewrite Hc. cbn [mbind option_bind]. by rewrite Hb. }
  assert (forall f' q', node_at H f' q' <> Some next) as Hfree by (intros f' q' E; destruct (tr_node _ HT _ _ _ E); congruence).
  assert (forall p, p <> next -> exists c', H' !! p = c' /\ (fun c => (c_leaf c, c_target c)) <$> c' = (fun c => (c_leaf c, c_target c)) <$> H !! p) as Hlk.
  { intros p Hp. eexists. split; [done|]. unfold H'. rewrite lookup_insert_ne by done. destruct (decide (p = cur)) as [->|Hpc].
    - rewrite lookup_insert_eq, Hc. by destruct b.
    - by rewrite lookup_insert_ne. }
  split_and!.
  - split.
    + intros f' q' p. rewrite Hat. case_decide; intros E; simplify_eq.
      * unfold H'. by rewrite lookup_insert_eq.
      * destruct (tr_node _ HT _ _ _ E) as [c' Hc']. unfold H'. apply lookup_insert_is_Some'. right. apply lookup_insert_is_Some'. right. by eexists.
    + intros f' f'' q' q'' p. rewrite !Hat. repeat case_decide; intros E1 E2; simplify_eq; try done.
      * by apply Hfree in E2.
      * by apply Hfree in E1.
      * by apply (tr_inj _ HT _ _ _ _ p).
    + intros f' q' p. rewrite Hat. case_decide as E; intros E'; [|by apply (tr_depth _ HT _ _ p)]. injection E as -> ->. rewrite length_app. cbn. lia.
  - intros f' q' p Hp. rewrite Hat, decide_False; [done|]. intros [= -> ->]. congruence.
  - by rewrite Hat, decide_True.
  - intros [f' q']. unfold holds. cbn [fst snd]. rewrite Hat. case_decide as E.
    + injection E as -> ->. rewrite Hnone. cbn [mbind option_bind]. unfold H'. by rewrite lookup_insert_eq.
    + destruct (node_at H f' q') as [p|] eqn:Hp; [|done]. cbn [mbind option_bind]. destruct (Hlk p) as (c' & -> & Hc'); [intros ->; by apply Hfree in Hp|].
      destruct c' as [c1|], (H !! p) as [c2|]; cbn in Hc'; congruence.
Qed.
End Trees.

(** ** One atomic operation *)

Section Steps.
Context {V : Type}.
Implicit Types (H : gmap nat (cell V)) (k : @call V) (s : @pc V).

Definition bits_of k : list bool := to_bits (k_ip k).
Definition prefix k (i : nat) : list bool := take i (bits_of k).
Definition key k : family * list bool := (k_fam k, prefix k (k_ones k)).

Definition is_lookup k : bool := match k_act k with ActLookup => true | _ => false end.
Definition is_insert k : bool := match k_act k with ActInsert _ => true | _ => false end.
Definition inserted k : option V := match k_act k with ActInsert v => Some v | _ => None end.

Record call_ok k : Prop := {
  ok_bits : length (bits_of k) = maxBits (k_fam k);
  ok_ones : (k_ones k <= maxBits (k_fam k))%nat;
  ok_look : is_lookup k = true -> k_ones k = maxBits (k_fam k) }.

(** The current node of a call is that of the bits it has followed. *)
Definition pc_ok H k s : Prop :=
  match s with
  | Walk cur i => is_lookup k = false /\ (i <= k_ones k)%nat /\ node_at H (k_fam k) (prefix k i) = Some cur
  | Swap cur i => is_insert k = true /\ (i < k_ones k)%nat /\ node_at H (k_fam k) (prefix k i) = Some cur
  | Reload cur i => is_insert k = true /\ (i < k_ones k)%nat /\ node_at H (k_fam k) (prefix k i) = Some cur /\
      is_Some (node_at H (k_fam k) (prefix k (S i)))
  | Second cur => is_lookup k = false /\ node_at H (k_fam k) (prefix k (k_ones k)) = Some cur
  | LookLeaf cur i _ last | LookTarget cur i _ last =>
      is_lookup k = true /\ (i <= k_ones k)%nat /\ (last = false -> i < k_ones k)%nat /\ node_at H (k_fam k) (prefix k i) = Some cur
  | LookChild cur i _ => is_lookup k = true /\ (i < k_ones k)%nat /\ node_at H (k_fam k) (prefix k i) = Some cur
  | Returned _ => True
  | Crashed => False
  end.

(** What an operation makes of the fields of the node of its key. *)
Definition effect k s (x : bool * option V) : bool * option V :=
  match s with
  | Walk _ i => if (k_ones k <=? i)%nat then (is_insert k, x.2) else x
  | Second _ => (x.1, inserted k)
  | _ => x
  end.

Definition sound_step H k s (H' : gmap nat (cell V)) s' : Prop :=
  tree H' /\ extends H H' /\ pc_ok H' k s' /\ forall x, holds H' x = if decide (x = key k) then effect k s (holds H x) else holds H x.

Lemma bit_bits k i : bit k i = bits_of k !! i.
Proof.
  unfold bit. rewrite bit_val_spec. unfold bits_of. destruct (to_bits (k_ip k) !! i) as [b|]; [|done]. cbn. by destruct b.
Qed.

Lemma at_child_ok H k cur i :
  tree H -> call_ok k -> (i < k_ones k)%nat -> node_at H (k_fam k) (prefix k i) = Some cur ->
  exists b c, H !! cur = Some c /\ prefix k (S i) = prefix k i ++ [b] /\ node_at H (k_fam k) (prefix k (S i)) = child b c /\
    length (prefix k i) = i /\ forall F, at_child H k cur i F = F b c (child b c).
Proof.
  intros HT [Hb Ho _] Hi Hn. destruct (lookup_lt_is_Some_2 (bits_of k) i) as [b Hlk]; [lia|].
  destruct (tr_node _ HT _ _ _ Hn) as [c Hc]. exists b, c. assert (prefix k (S i) = prefix k i ++ [b]) as Hp by (by apply take_S_r).
  split_and!; [done|done| | |].
  - rewrite Hp, node_snoc, Hn. cbn [mbind option_bind]. unfold child_of. by rewrite Hc.
  - unfold prefix. rewrite length_take. lia.
  - intros F. unfold at_child, on. by rewrite bit_bits, Hlk, Hc.
Qed.

(** A step that changes nothing but the call. *)
Lemma sound_same H k s s' : tree H -> pc_ok H k s' -> (forall x, effect k s x = x) -> sound_step H k s H s'.
Proof. intros HT Hok He. split_and!; [done|by intros f q p|done|]. intros x. rewrite He. by case_decide. Qed.

Lemma sound_store H k s s' cur c c' :
  tree H -> node_at H (k_fam k) (prefix k (k_ones k)) = Some cur -> H !! cur = Some c -> c_zero c' = c_zero c -> c_one c' = c_one c ->
  (c_leaf c', c_target c') = effect k s (c_leaf c, c_target c) ->
  (forall H', extends H H' -> pc_ok H' k s') ->
  sound_step H k s (<[cur := c']> H) s'.
Proof.
  intros HT Hn Hc H0 H1 He Hok. destruct (store_spec H _ _ cur c c' HT Hn Hc H0 H1) as (HT' & Hext & Hh). split_and!; [done|done|by apply Hok|].
  intros x. rewrite Hh. case_decide as E; [|by rewrite decide_False]. rewrite decide_True by done. rewrite He. subst x. unfold holds. cbn [fst snd].
  rewrite Hn. cbn [mbind option_bind]. by rewrite Hc.
Qed.

Lemma look_ok H k cur i best :
  is_lookup k = true -> (i <= k_ones k)%nat -> node_at H (k_fam k) (prefix k i) = Some cur -> pc_ok H k (look k cur i best).
Proof. intros Hl Hi Hn. cbn. split_and!; [done|done| |done]. intros Hle%Nat.leb_gt. lia. Qed.

(** The two stores at the end of an update. *)
Lemma leaf_ok H k cur i :
  tree H -> is_lookup k = false -> (k_ones k <= i)%nat -> pc_ok H k (Walk cur i) ->
  let '(H', s') := on H cur (fun c => (<[cur := set_leaf c (is_insert k)]> H, Second cur)) in sound_step H k (Walk cur i) H' s'.
Proof.
  intros HT Hl Hend (_ & Hle & Hn). assert (i = k_ones k) as -> by lia. destruct (tr_node _ HT _ _ _ Hn) as [c Hc]. unfold on. rewrite Hc.
  apply (sound_store _ _ _ _ cur c); [done..| |]; cbn [effect]; [by rewrite (proj2 (Nat.leb_le _ _))|]. intros H' He. split; [done|]. by apply He.
Qed.

Lemma target_ok H k cur :
  tree H -> pc_ok H k (Second cur) ->
  let '(H', s') := on H cur (fun c => (<[cur := set_target c (inserted k)]> H, Returned None)) in sound_step H k (Second cur) H' s'.
Proof.
  intros HT (_ & Hn). destruct (tr_node _ HT _ _ _ Hn) as [c Hc]. unfold on. rewrite Hc. by apply (sound_store _ _ _ _ cur c).
Qed.

(** A step down an update makes. *)
Lemma down_ok H k cur i s :
  tree H -> call_ok k -> pc_ok H k (Walk cur i) -> (i < k_ones k)%nat -> (s = Returned None \/ is_insert k = true /\ s = Swap cur i) ->
  let '(H', s') := at_child H k cur i (fun _ _ next => match next with Some next => (H, Walk next (S i)) | None => (H, s) end) in
  sound_step H k (Walk cur i) H' s'.
Proof.
  intros HT Hk (Hl & Hle & Hn) Hlt Hs. destruct (at_child_ok H k cur i HT Hk Hlt Hn) as (b & c & Hc & Hp & Hch & Hlen & ->).
  assert (forall x, effect k (Walk cur i) x = x) as He by (intros x; cbn; by rewrite (proj2 (Nat.leb_gt _ _) Hlt)).
  destruct (child b c) as [next|]; (apply sound_same; [done| |done]).
  - cbn. split_and!; [done|lia|done].
  - destruct Hs as [->|[Hi ->]]; [done|]. by cbn.
Qed.

(** A failed compare-and-swap means that another call has linked a node, which
    the second read finds. *)
Lemma swap_ok H k v cur i :
  tree H -> call_ok k -> is_lookup k = false -> pc_ok H k (Swap cur i) ->
  let '(H', s') := insert_atomic H k v (Swap cur i) in sound_step H k (Swap cur i) H' s'.
Proof.
  intros HT Hk Hl (Hi & Hlt & Hn). cbn [insert_atomic]. destruct (at_child_ok H k cur i HT Hk Hlt Hn) as (b & c & Hc & Hp & Hch & Hlen & ->).
  destruct (child b c) as [next|] eqn:Hb; [apply sound_same; try done; cbn; rewrite Hch; by split_and!|].
  pose proof (ok_ones k Hk).
  destruct (link_spec H (k_fam k) (prefix k i) cur c b (fresh (dom H)) HT Hn Hc Hb) as (HT' & Hext & Hat & Hh);
    [apply not_elem_of_dom, is_fresh|lia|].
  cbv beta zeta iota. split_and!; [done|done| |].
  - cbn. split_and!; [done|lia|]. by rewrite Hp.
  - intros x. rewrite Hh. by case_decide.
Qed.

Lemma reload_ok H k v cur i :
  tree H -> call_ok k -> is_lookup k = false -> pc_ok H k (Reload cur i) ->
  let '(H', s') := insert_atomic H k v (Reload cur i) in sound_step H k (Reload cur i) H' s'.
Proof.
  intros HT Hk Hl (Hi & Hlt & Hn & Hsome). cbn [insert_atomic]. destruct (at_child_ok H k cur i HT Hk Hlt Hn) as (b & c & Hc & Hp & Hch & Hlen & ->).
  rewrite Hch in Hsome. destruct (child b c) as [next|]; [|by destruct Hsome]. apply sound_same; [done| |done]. cbn. split_and!; [done|lia|done].
Qed.

Lemma lookup_ok H k s :
  tree H -> call_ok k -> is_lookup k = true -> pc_ok H k s -> let '(H', s') := lookup_atomic H k s in sound_step H k s H' s'.
Proof.
  intros HT Hk Hl Hs.
  destruct s as [cur i|cur i|cur i|cur|cur i best last|cur i best last|cur i best| |]; cbn [lookup_atomic pc_ok] in *;
    try (by apply sound_same); try (destruct Hs; unfold is_lookup, is_insert in *; by destruct (k_act k)).
  - destruct Hs as (_ & Hle & Hlast & Hn). destruct (tr_node _ HT _ _ _ Hn) as [c Hc]. unfold on. rewrite Hc.
    apply sound_same; [done| |done]. destruct (c_leaf c), last; cbn; first [done|split_and!; auto].
  - destruct Hs as (_ & Hle & Hlast & Hn). destruct (tr_node _ HT _ _ _ Hn) as [c Hc]. unfold on. rewrite Hc.
    apply sound_same; [done| |done]. destruct last; cbn; first [done|split_and!; auto].
  - destruct Hs as (_ & Hlt & Hn). destruct (at_child_ok H k cur i HT Hk Hlt Hn) as (b & c & Hc & Hp & Hch & Hlen & ->).
    apply sound_same; [done| |done]. destruct (child b c) as [next|]; [by apply look_ok|]. cbn. split_and!; [done|lia|done|done].
Qed.

Lemma update_ok H k s :
  tree H -> call_ok k -> is_lookup k = false -> pc_ok H k s -> let '(H', s') := atomic H k s in sound_step H k s H' s'.
Proof.
  intros HT Hk Hl Hs. pose proof (leaf_ok H k) as Hleaf. pose proof (target_ok H k) as Htgt. pose proof (down_ok H k) as Hdown.
  unfold atomic, is_insert, inserted in *. destruct (k_act k) as [v| |] eqn:Ha; [| |unfold is_lookup in Hl; by rewrite Ha in Hl];
    destruct s as [cur i|cur i|cur i|cur| | | | |]; cbn [insert_atomic remove_atomic] in *;
    try (by apply sound_same); try (cbn [pc_ok] in Hs; destruct Hs; unfold is_insert in *; rewrite ?Ha in *; congruence).
  - destruct (Nat.leb_spec (k_ones k) i); [by apply Hleaf|]. apply Hdown; auto.
  - by apply (swap_ok H k v).
  - by apply (reload_ok H k v).
  - by apply Htgt.
  - destruct (Nat.leb_spec (k_ones k) i); [by apply Hleaf|]. apply Hdown; auto.
  - by apply Htgt.
Qed.

Lemma atomic_ok H k s : tree H -> call_ok k -> pc_ok H k s -> let '(H', s') := atomic H k s in sound_step H k s H' s'.
Proof.
  intros HT Hk Hs. destruct (is_lookup k) eqn:Hl; [|by apply update_ok]. pose proof (lookup_ok H k s HT Hk Hl Hs) as Hlo.
  unfold atomic, is_lookup in *. by destruct (k_act k).
Qed.

(** What holds of a call holds whatever others do. *)
Lemma pc_ok_extends H H' k s : extends H H' -> pc_ok H k s -> pc_ok H' k s.
Proof.
  intros He. destruct s; cbn; try tauto; try naive_solver. intros (H1 & H2 & H3 & [x H4]). split_and!; [done|done|by apply He|]. exists x. by apply He.
Qed.

Lemma begin_ok H k : pc_ok H k (begin_call k).
Proof.
  assert (node_at H (k_fam k) (prefix k 0) = Some (root (k_fam k))) as Hn by done.
  unfold begin_call. destruct (k_act k) eqn:Ha.
  1,2: cbn; unfold is_lookup; rewrite Ha; split_and!; [done|lia|done].
  apply look_ok; [unfold is_lookup; by rewrite Ha|lia|done].
Qed.
End Steps.

(** ** Requests and tables *)

Section Requests.
Context {V : Type}.
Implicit Types (H : gmap nat (cell V)) (k : @call V) (r : @request V) (t : Tables V) (x : family * list bool).

Definition req_ok r : Prop := match r with Update o => mapped_cidr (op_addr o) = false | Find _ _ => True end.
Definition op_value (o : route_op V) : option V := match o with OpRegister _ v => Some v | OpUnRegister _ => None end.
Definition tget t x : option V := match x.1 with FamV4 => t_v4 t !! x.2 | FamV6 => t_v6 t !! x.2 end.

Definition updates (l : list request) : list (route_op V) := omap (fun r => match r with Update o => Some o | Find _ _ => None end) l.
Definition key_of (o : route_op V) : option (family * list bool) := cidr_key (op_addr o).
Definition keys (l : list request) : list (family * list bool) := omap key_of (updates l).

(** The entry a heap has for a prefix. *)
Definition value H x : option V := if (holds H x).1 then (holds H x).2 else None.

Lemma tget_op t o x : tget (spec_op t o) x = if decide (key_of o = Some x) then op_value o else tget t x.
Proof.
  unfold key_of. destruct x as [f q]. destruct o as [a v|a]; cbn [spec_op op_addr op_value]; unfold spec_register, spec_unregister, tget; cbn [fst snd];
    destruct (cidr_key a) as [[[] q']|], f; case_decide; simplify_eq; cbn [t_v4 t_v6];
    rewrite ?lookup_insert_eq, ?lookup_delete_eq, ?lookup_insert_ne, ?lookup_delete_ne by naive_solver; done.
Qed.

Lemma tget_ops_other ops t x : x ∉ omap key_of ops -> tget (spec_ops ops t) x = tget t x.
Proof.
  revert t. induction ops as [|o ops IH]; intros t Hx; [done|]. cbn [spec_ops foldl]. fold (spec_ops ops (spec_op t o)).
  cbn [omap list_omap] in Hx. rewrite IH, tget_op.
  - rewrite decide_False; [done|]. intros E. rewrite E in Hx. by apply Hx, list_elem_of_here.
  - intros Hin. apply Hx. destruct (key_of o); [by apply list_elem_of_further|done].
Qed.

Lemma tget_ops_ext ops t t' x : tget t x = tget t' x -> tget (spec_ops ops t) x = tget (spec_ops ops t') x.
Proof.
  revert t t'. induction ops as [|o ops IH]; intros t t' E; [done|]. cbn [spec_ops foldl]. apply (IH (spec_op t o) (spec_op t' o)).
  rewrite !tget_op. by case_decide.
Qed.

Lemma keys_app l l' : keys (l ++ l') = keys l ++ keys l'.
Proof. unfold keys, updates. by rewrite !omap_app. Qed.

Lemma keys_concat ps x : x ∈ keys (concat ps) -> exists p, p ∈ ps /\ x ∈ keys p.
Proof.
  induction ps as [|p ps IH]; [by intros ?%elem_of_nil|]. cbn [concat]. rewrite keys_app. intros [Hx|Hx]%elem_of_app.
  - exists p. split; [apply list_elem_of_here|done].
  - destruct (IH Hx) as (p' & Hp & Hx'). exists p'. split; [by apply list_elem_of_further|done].
Qed.

(** Among many lists of updates only the one that has the prefix matters. *)
Lemma tget_middle (l1 l2 : list (list request)) (p : list request) t x :
  (forall q, q ∈ l1 \/ q ∈ l2 -> x ∉ keys q) ->
  tget (spec_ops (updates (concat (l1 ++ p :: l2))) t) x = tget (spec_ops (updates p) t) x.
Proof.
  intros Hq. rewrite concat_app. cbn [concat]. unfold updates at 1. rewrite !omap_app. fold (updates (concat l1)) (updates p) (updates (concat l2)).
  unfold spec_ops at 1. rewrite !foldl_app. fold (spec_ops (updates (concat l1)) t). fold (spec_ops (updates p) (spec_ops (updates (concat l1)) t)).
  fold (spec_ops (updates (concat l2)) (spec_ops (updates p) (spec_ops (updates (concat l1)) t))).
  rewrite tget_ops_other by (intros (q & Hin & Hx)%keys_concat; apply (Hq q); [by right|done]).
  apply tget_ops_ext, tget_ops_other. intros (q & Hin & Hx)%keys_concat. apply (Hq q); [by left|done].
Qed.

Lemma spec_ops_snoc ops o t : spec_ops (ops ++ [o]) t = spec_op (spec_ops ops t) o.
Proof. unfold spec_ops. by rewrite foldl_app. Qed.

Lemma call_of_update o k :
  req_ok (Update o) -> call_of (Update o) = Some k ->
  call_ok k /\ is_lookup k = false /\ key_of o = Some (key k) /\ op_value o = inserted k /\ is_insert k = bool_decide (is_Some (op_value o)).
Proof.
  intros Hm. cbn [call_of req_ok] in *. destruct (ParseCIDR (op_addr o)) as [[ip n]|] eqn:EP; [|done]. cbn [mbind option_bind].
  destruct (cidr_cases _ _ _ EP Hm) as (ones & Hones & [(Hl & Ho & H4)|(Hl & Ho & H4 & H16)]); rewrite Hones, H4, ?H16; cbn [mbind option_bind];
    intros [= <-]; unfold key_of, cidr_key; rewrite EP; cbn [mbind option_bind]; rewrite Hones, H4; split_and!; try (by destruct o).
  - split; cbn; [unfold bits_of; cbn; rewrite length_to_bits, Hl; lia|lia|by destruct o].
  - split; cbn; [unfold bits_of; cbn; rewrite length_to_bits, Hl; lia|lia|by destruct o].
Qed.

Lemma call_of_none o : req_ok (Update o) -> call_of (Update o) = None -> key_of o = None.
Proof.
  intros Hm. cbn [call_of req_ok] in *. unfold key_of, cidr_key. destruct (ParseCIDR (op_addr o)) as [[ip n]|] eqn:EP; [|done]. cbn [mbind option_bind].
  destruct (cidr_cases _ _ _ EP Hm) as (ones & Hones & [(Hl & Ho & H4)|(Hl & Ho & H4 & H16)]); rewrite Hones, H4, ?H16; done.
Qed.

Lemma call_of_find f ip k : call_of (Find f ip) = Some k -> call_ok k /\ is_lookup k = true /\ k_fam k = f /\ k_ip k = ip /\ k_ones k = maxBits f.
Proof.
  cbn [call_of]. case_bool_decide as Hl; [|done]. intros [= <-]. cbn. split_and!; try done. split; [|done|done].
  unfold bits_of. cbn. rewrite length_to_bits, Hl. by destruct f.
Qed.
End Requests.
