(* ===== verification/RouterConc.v ===== *)
(** * Goroutines that share the route table *)

From S2P Require Import Prelude Threads GoNet Router RouterSpec RouterKeys RouterProps RouterHeap RouterHeapProps.

(** ** Look-ups of undisturbed addresses *)

Section Lookups.
Context {V : Type} (get : list bool -> option V) (bits : list bool).

(** The best match among the prefixes shorter than [i]. *)
Definition below (i : nat) : option V := match i with O => None | S j => lpm get bits j end.

Lemma lpm_step i : lpm get bits i = match get (take i bits) with Some v => Some v | None => below i end.
Proof. by destruct i. Qed.

Lemma lpm_beyond i n : (i <= n)%nat -> (forall j, (i < j <= n)%nat -> get (take j bits) = None) -> lpm get bits n = lpm get bits i.
Proof.
  intros Hle. induction n as [|n IH]; intros Hj; [by replace i with 0%nat by lia|]. destruct (decide (i = S n)) as [->|]; [done|].
  rewrite lpm_step, Hj by lia. apply IH; [lia|]. intros j ?. apply Hj. lia.
Qed.

(** What a look-up has found so far. *)
Definition found (n : nat) (leaf : nat -> bool) (s : @pc V) : Prop :=
  let last i best := lpm get bits n = match get (take i bits) with Some v => Some v | None => best end in
  match s with
  | LookLeaf _ i best false => best = below i
  | LookTarget _ i best false => best = below i /\ leaf i = true
  | LookLeaf _ i best true => last i best
  | LookTarget _ i best true => last i best /\ leaf i = true
  | LookChild _ i best => best = lpm get bits i
  | Returned r => r = lpm get bits n
  | _ => True
  end.
End Lookups.

Section Undisturbed.
Context {V : Type}.
Implicit Types (H : gmap nat (cell V)) (k : @call V) (s : @pc V).

Lemma node_missing H f q q' : node_at H f q = None -> node_at H f (q ++ q') = None.
Proof. unfold node_at. rewrite walk_app. by intros ->. Qed.

Lemma holds_node H f q p c : node_at H f q = Some p -> H !! p = Some c -> holds H (f, q) = (c_leaf c, c_target c).
Proof. intros Hn Hc. unfold holds. cbn [fst snd]. rewrite Hn. cbn [mbind option_bind]. by rewrite Hc. Qed.

(** The loop head after the last bit is the check after the loop. *)
Lemma look_found get k leaf cur i best :
  (i <= k_ones k)%nat -> best = below get (bits_of k) i -> found get (bits_of k) (k_ones k) leaf (look k cur i best).
Proof.
  intros Hi ->. unfold look. destruct (Nat.leb_spec (k_ones k) i); [|done]. cbn. assert (i = k_ones k) as -> by lia. apply lpm_step.
Qed.

(** While no update touches a prefix of the address, each operation of a
    look-up keeps what it has found right. [H0] is the heap at the start. *)
Lemma lookup_found H0 H k s :
  tree H -> call_ok k -> is_lookup k = true -> pc_ok H k s ->
  (forall i, (i <= k_ones k)%nat -> holds H (k_fam k, prefix k i) = holds H0 (k_fam k, prefix k i)) ->
  let get q := value H0 (k_fam k, q) in
  let leaf i := (holds H0 (k_fam k, prefix k i)).1 in
  found get (bits_of k) (k_ones k) leaf s -> found get (bits_of k) (k_ones k) leaf (lookup_atomic H k s).2.
Proof.
  intros HT Hk Hl Hs Hh get leaf Hf.
  assert (forall cur i c, (i <= k_ones k)%nat -> node_at H (k_fam k) (prefix k i) = Some cur -> H !! cur = Some c ->
    leaf i = c_leaf c /\ get (prefix k i) = if c_leaf c then c_target c else None) as Hcell.
  { intros cur i c Hi Hn Hc. unfold leaf, get, value. rewrite <- Hh by done. rewrite (holds_node _ _ _ _ _ Hn Hc). done. }
  destruct s as [cur i|cur i|cur i|cur|cur i best last|cur i best last|cur i best| |]; cbn [lookup_atomic pc_ok] in *; try done.
  - destruct Hs as (_ & Hle & Hlast & Hn). destruct (tr_node _ HT _ _ _ Hn) as [c Hc]. destruct (Hcell cur i c Hle Hn Hc) as [Hlf Hg].
    unfold on. rewrite Hc. cbn [snd]. destruct (c_leaf c) eqn:El; [by destruct last|]. fold (prefix k i) in *.
    destruct last; cbn [found] in *; fold (prefix k i) in *.
    + by rewrite Hg in Hf.
    + rewrite lpm_step. fold (prefix k i). by rewrite Hg.
  - destruct Hs as (_ & Hle & Hlast & Hn). destruct (tr_node _ HT _ _ _ Hn) as [c Hc]. destruct (Hcell cur i c Hle Hn Hc) as [Hlf Hg].
    unfold on. rewrite Hc. cbn [snd]. destruct last; cbn [found] in *; fold (prefix k i) in *; destruct Hf as [Hf Hleaf]; rewrite Hlf in Hleaf;
      rewrite Hleaf in Hg.
    + rewrite Hg in Hf. by rewrite Hf.
    + rewrite lpm_step. fold (prefix k i). rewrite Hg. by rewrite <- Hf.
  - destruct Hs as (_ & Hlt & Hn). destruct (at_child_ok H k cur i HT Hk Hlt Hn) as (b & c & Hc & Hp & Hch & Hlen & ->). cbn [snd].
    cbn [found] in Hf. destruct (child b c) as [next|] eqn:Eb; [apply look_found; [lia|done]|]. cbn [found].
    rewrite (lpm_beyond get (bits_of k) i (k_ones k)).
    + rewrite Hf. fold (prefix k i). rewrite lpm_step. fold (prefix k i). by destruct (get (prefix k i)).
    + lia.
    + intros j Hj. fold (prefix k j). unfold get, value. rewrite <- Hh by lia. unfold holds. cbn [fst snd].
      replace (prefix k j) with (prefix k (S i) ++ drop (S i) (prefix k j)).
      2:{ unfold prefix. rewrite <- (take_drop (S i) (take j (bits_of k))) at 2. rewrite take_take. do 2 f_equal. lia. }
      by rewrite node_missing.
Qed.
End Undisturbed.

(** ** Where an update goes next *)

Section Updates.
Context {V : Type}.
Implicit Types (H : gmap nat (cell V)) (k : @call V) (s : @pc V).

(** The call is still on its way down. *)
Definition descending s : Prop := match s with Walk _ _ | Swap _ _ | Reload _ _ => True | _ => False end.

Lemma update_next H k s :
  tree H -> call_ok k -> is_lookup k = false -> pc_ok H k s ->
  let s' := (atomic H k s).2 in
  match s with
  | Walk cur i =>
      if (k_ones k <=? i)%nat then s' = Second cur
      else descending s' \/ s' = Returned None /\ is_insert k = false /\ node_at H (k_fam k) (prefix k (k_ones k)) = None
  | Swap _ _ | Reload _ _ => descending s'
  | Second _ => s' = Returned None
  | _ => True
  end.
Proof.
  intros HT Hk Hl Hs. destruct s as [cur i|cur i|cur i|cur| | | | |]; try done.
  - destruct Hs as (_ & Hle & Hn). destruct (tr_node _ HT _ _ _ Hn) as [c Hc]. destruct (Nat.leb_spec (k_ones k) i) as [Hend|Hlt].
    + unfold atomic, is_lookup in *. destruct (k_act k); [| |done]; cbn [insert_atomic remove_atomic];
        rewrite (proj2 (Nat.leb_le _ _) Hend); unfold on; by rewrite Hc.
    + destruct (at_child_ok H k cur i HT Hk Hlt Hn) as (b & c' & _ & Hp & Hch & _ & HF).
      unfold atomic, is_lookup, is_insert in *. destruct (k_act k); [| |done]; cbn [insert_atomic remove_atomic];
        rewrite (proj2 (Nat.leb_gt _ _) Hlt), HF; destruct (child b c'); [by left..|]. right. split_and!; [done|done|].
      replace (prefix k (k_ones k)) with (prefix k (S i) ++ drop (S i) (prefix k (k_ones k))); [by apply node_missing|].
      unfold prefix. rewrite <- (take_drop (S i) (take (k_ones k) (bits_of k))) at 2. rewrite take_take. do 2 f_equal. lia.
  - destruct Hs as (Hi & Hlt & Hn). destruct (at_child_ok H k cur i HT Hk Hlt Hn) as (b & c' & _ & _ & _ & _ & HF).
    unfold atomic, is_insert in *. destruct (k_act k); [|done|done]. cbn [insert_atomic]. rewrite HF. by destruct (child b c').
  - destruct Hs as (Hi & Hlt & Hn & Hsome). destruct (at_child_ok H k cur i HT Hk Hlt Hn) as (b & c' & _ & _ & Hch & _ & HF).
    unfold atomic, is_insert in *. destruct (k_act k); [|done|done]. cbn [insert_atomic]. rewrite HF. rewrite Hch in Hsome.
    destruct (child b c'); [done|by destruct Hsome].
  - destruct Hs as (_ & Hn). destruct (tr_node _ HT _ _ _ Hn) as [c Hc].
    unfold atomic, is_lookup in *. destruct (k_act k); [| |done]; cbn [insert_atomic remove_atomic]; unfold on; by rewrite Hc.
Qed.
End Updates.

(** ** Goroutines *)

Section Goroutines.
Context {V : Type}.
Implicit Types (H : gmap nat (cell V)) (k : @call V) (s : @pc V) (r : @request V) (g : @goroutine V) (x : family * list bool).

(** Everything a goroutine was given, and the updates it has made. *)
Definition requests_of g : list request := (g_log g).*1 ++ option_list ((fun c => c.1.1) <$> g_cur g) ++ g_todo g.
Definition updated g : list (route_op V) := updates (g_log g).*1.

Context (H0 : gmap nat (cell V)) (t0 : Tables V) (ps : list (list (@request V))).
Context (Ht0 : forall x, value H0 x = tget t0 x).
Context (Hps : Forall (Forall req_ok) ps).

(** No prefix is updated by two goroutines. *)
Definition disjoint_keys : Prop := forall i j p p' x, i <> j -> ps !! i = Some p -> ps !! j = Some p' -> x ∈ keys p -> x ∉ keys p'.
Context (Hdis : disjoint_keys).

Definition untouched x : Prop := forall p, p ∈ ps -> x ∉ keys p.

(** What the heap holds for a prefix of the goroutine. *)
Definition settled H g x : Prop :=
  let before := value H x = tget (spec_ops (updated g) t0) x in
  match g_cur g with
  | Some (Update o, k, s) =>
      if decide (key k = x) then
        match s with Second _ => (holds H x).1 = is_insert k | Returned _ => value H x = op_value o | _ => before end
      else before
  | _ => before
  end.

(** The answer to a look-up that no update disturbs. *)
Definition answer (f : family) (ip : list Z) : option V :=
  if bool_decide (length ip = maxBits f / 8)%nat then lpm (fun q => tget t0 (f, q)) (to_bits ip) (maxBits f) else None.
Definition undisturbed (f : family) (ip : list Z) : Prop := forall i, (i <= maxBits f)%nat -> untouched (f, take i (to_bits ip)).

Definition answers_ok g : Prop :=
  (forall f ip v, (Find f ip, v) ∈ g_log g -> undisturbed f ip -> v = answer f ip) /\
  match g_cur g with
  | Some (Find f ip, k, s) => undisturbed f ip ->
      found (fun q => value H0 (f, q)) (to_bits ip) (maxBits f) (fun i => (holds H0 (f, take i (to_bits ip))).1) s
  | _ => True
  end.

Definition current_ok H g : Prop := match g_cur g with Some (r, k, s) => call_of r = Some k /\ pc_ok H k s | None => True end.

Record inv H (gs : list goroutine) : Prop := {
  inv_tree : tree H;
  inv_given : requests_of <$> gs = ps;
  inv_current i g : gs !! i = Some g -> current_ok H g;
  inv_settled i g x : gs !! i = Some g -> x ∈ keys (requests_of g) -> settled H g x;
  inv_rest x : untouched x -> holds H x = holds H0 x;
  inv_answers i g : gs !! i = Some g -> answers_ok g }.

(** A step of one goroutine, as the others see it: nodes stay, and only the
    fields of a prefix of its own change. *)
Definition others_see H H' g : Prop := extends H H' /\ forall x, x ∉ keys (requests_of g) -> holds H' x = holds H x.

Lemma inv_step_other H H' gs i g g' :
  inv H gs -> gs !! i = Some g -> tree H' -> others_see H H' g -> requests_of g' = requests_of g -> current_ok H' g' ->
  (forall x, x ∈ keys (requests_of g) -> settled H' g' x) -> answers_ok g' -> inv H' (<[i := g']> gs).
Proof using Hdis.
  intros [I1 I2 I3 I4 I5 I6] Hi HT [Hext Hh] Hreq Hcur Hset Hans.
  assert (forall j gj, gs !! j = Some gj -> ps !! j = Some (requests_of gj)) as Hpj.
  { intros j gj Hj. rewrite <- I2. by rewrite list_lookup_fmap, Hj. }
  assert (forall j gj x, j <> i -> gs !! j = Some gj -> x ∈ keys (requests_of gj) -> holds H' x = holds H x) as Hoth.
  { intros j gj x Hne Hj Hx. apply Hh. by apply (Hdis j i _ _ _ Hne (Hpj j gj Hj) (Hpj i g Hi)). }
  split.
  - done.
  - rewrite <- I2. apply list_eq. intros j. rewrite !list_lookup_fmap. destruct (decide (j = i)) as [->|Hne].
    + rewrite list_lookup_insert_eq by (by eapply lookup_lt_Some). rewrite Hi. cbn. by rewrite Hreq.
    + by rewrite list_lookup_insert_ne.
  - intros j gj [(<- & <- & _)|[Hne Hj]]%list_lookup_insert_Some; [done|]. specialize (I3 j gj Hj). unfold current_ok in *.
    destruct (g_cur gj) as [[[r k] s]|]; [|done]. destruct I3 as [Hc Hs]. split; [done|]. by apply (pc_ok_extends H).
  - intros j gj x [(<- & <- & _)|[Hne Hj]]%list_lookup_insert_Some Hx; [rewrite Hreq in Hx; by apply Hset|].
    specialize (I4 j gj x Hj Hx). unfold settled, value in *. rewrite (Hoth j gj x) by done. exact I4.
  - intros x Hx. rewrite Hh; [by apply I5|]. apply Hx. by eapply list_elem_of_lookup_2, Hpj.
  - intros j gj [(<- & <- & _)|[Hne Hj]]%list_lookup_insert_Some; [done|]. by apply (I6 j).
Qed.

Lemma inv_req_ok H gs i g r : inv H gs -> gs !! i = Some g -> r ∈ requests_of g -> req_ok r.
Proof using Hps.
  intros HI Hi Hr. rewrite Forall_forall in Hps. assert (requests_of g ∈ ps) as Hin.
  { rewrite <- (inv_given _ _ HI). apply list_elem_of_fmap. exists g. split; [done|]. by eapply list_elem_of_lookup_2. }
  specialize (Hps _ Hin). rewrite Forall_forall in Hps. by apply Hps.
Qed.

Lemma others_same H g : others_see H H g.
Proof. split; [by intros f q p|done]. Qed.

(** Taking a request, and logging a call that has returned. *)
Lemma inv_take H gs i g r todo :
  inv H gs -> gs !! i = Some g -> g_cur g = None -> g_todo g = r :: todo ->
  inv H (<[i := match call_of r with
                | None => MkGo (g_log g ++ [(r, None)]) None todo
                | Some k => MkGo (g_log g) (Some (r, k, begin_call k)) todo
                end]> gs).
Proof using Hdis Hps Ht0.
  intros HI Hi Hc Hd. pose proof (inv_settled _ _ HI i g) as Hset. pose proof (inv_answers _ _ HI i g Hi) as [Ha _].
  assert (req_ok r) as Hr. { apply (inv_req_ok H gs i g r HI Hi). unfold requests_of. rewrite Hd. apply elem_of_app. right. apply elem_of_app. right. apply list_elem_of_here. }
  apply (inv_step_other H H gs i g); [done|done|apply (inv_tree _ _ HI)|apply others_same|..].
  - unfold requests_of. rewrite Hc, Hd. destruct (call_of r); cbn; [done|]. by rewrite fmap_app, <- app_assoc.
  - destruct (call_of r) as [k|] eqn:Ek; [|done]. split; [done|]. apply begin_ok.
  - intros x Hx. specialize (Hset x Hi Hx). unfold settled in *. rewrite Hc in Hset. destruct (call_of r) as [k|] eqn:Ek; cbn [g_cur].
    + destruct r as [o|f ip]; [|exact Hset]. case_decide; [|exact Hset]. unfold begin_call.
      destruct (call_of_update o k Hr Ek) as (_ & Hl & _). unfold is_lookup in Hl. by destruct (k_act k).
    + rewrite Hset. unfold updated. cbn [g_log]. rewrite fmap_app. unfold updates. rewrite omap_app. destruct r as [o|f ip]; cbn [fmap list_fmap omap list_omap fst];
        [|by rewrite app_nil_r]. rewrite spec_ops_snoc, tget_op, (call_of_none o Hr Ek). by rewrite decide_False.
  - destruct (call_of r) as [k|] eqn:Ek; cbn [g_log g_cur].
    + split; [exact Ha|]. destruct r as [o|f ip]; [done|]. intros Hu. destruct (call_of_find f ip k Ek) as (Hok & Hl & <- & <- & Hn).
      cbn [g_cur]. unfold begin_call. unfold is_lookup in Hl. destruct (k_act k); try done. rewrite <- Hn. by apply look_found; [lia|].
    + split; [|done]. intros f ip v [Hin|Hin]%elem_of_app Hu; [by apply Ha|]. apply list_elem_of_singleton in Hin as [= <- ->].
      cbn [call_of] in Ek. unfold answer. by case_bool_decide.
Qed.

Lemma inv_log H gs i g r k v :
  inv H gs -> gs !! i = Some g -> g_cur g = Some (r, k, Returned v) -> inv H (<[i := MkGo (g_log g ++ [(r, v)]) None (g_todo g)]> gs).
Proof using Hdis Hps Ht0.
  intros HI Hi Hc. pose proof (inv_settled _ _ HI i g) as Hset. pose proof (inv_answers _ _ HI i g Hi) as [Ha Hf].
  pose proof (inv_current _ _ HI i g Hi) as Hcur. unfold current_ok in Hcur. rewrite Hc in Hcur, Hf. destruct Hcur as [Hk _].
  assert (req_ok r) as Hr. { apply (inv_req_ok H gs i g r HI Hi). unfold requests_of. rewrite Hc. apply elem_of_app. right. apply list_elem_of_here. }
  apply (inv_step_other H H gs i g); [done|done|apply (inv_tree _ _ HI)|apply others_same| |done|..].
  - unfold requests_of. rewrite Hc. cbn. by rewrite fmap_app, <- app_assoc.
  - intros x Hx. specialize (Hset x Hi Hx). unfold settled in *. rewrite Hc in Hset. cbn [g_cur]. unfold updated in *. cbn [g_log].
    rewrite fmap_app. unfold updates. rewrite omap_app. destruct r as [o|f ip]; cbn [fmap list_fmap omap list_omap fst]; [|by rewrite app_nil_r].
    destruct (call_of_update o k Hr Hk) as (_ & _ & Hkey & _). rewrite spec_ops_snoc, tget_op, Hkey.
    destruct (decide (key k = x)) as [->|Hne]; [by rewrite decide_True|]. rewrite decide_False by congruence. exact Hset.
  - split; [|done]. cbn [g_log]. intros f ip v' [Hin|Hin]%elem_of_app Hu; [by apply Ha|]. apply list_elem_of_singleton in Hin as [= <- <-].
    rewrite (Hf Hu). unfold answer. cbn [call_of] in Hk. case_bool_decide; [|done]. apply lpm_ext. intros q. apply Ht0.
Qed.

Lemma inv_atomic H gs i g r k s :
  inv H gs -> gs !! i = Some g -> g_cur g = Some (r, k, s) -> (forall v, s <> Returned v) ->
  let '(H', s') := atomic H k s in inv H' (<[i := MkGo (g_log g) (Some (r, k, s')) (g_todo g)]> gs).
Proof using Hdis Hps Ht0.
  intros HI Hi Hc Hnr. pose proof (inv_settled _ _ HI i g) as Hset. pose proof (inv_answers _ _ HI i g Hi) as [Ha Hf].
  pose proof (inv_current _ _ HI i g Hi) as Hcur. unfold current_ok in Hcur. rewrite Hc in Hcur, Hf. destruct Hcur as [Hk Hpc].
  assert (r ∈ requests_of g) as Hin. { unfold requests_of. rewrite Hc. apply elem_of_app. right. apply list_elem_of_here. }
  pose proof (inv_req_ok H gs i g r HI Hi Hin) as Hr. pose proof (inv_tree _ _ HI) as HT.
  assert (requests_of (MkGo (g_log g) (Some (r, k, (atomic H k s).2)) (g_todo g)) = requests_of g) as Hreq by (unfold requests_of; by rewrite Hc).
  destruct r as [o|f ip].
  - destruct (call_of_update o k Hr Hk) as (Hok & Hl & Hkey & Hval & Hins). pose proof (atomic_ok H k s HT Hok Hpc) as Hsound.
    pose proof (update_next H k s HT Hok Hl Hpc) as Hnext. destruct (atomic H k s) as [H' s'] eqn:Es. destruct Hsound as (HT' & Hext & Hpc' & Hh).
    cbn [snd] in *. assert (key k ∈ keys (requests_of g)) as Hmine.
    { unfold keys, updates. apply list_elem_of_omap. exists o. split; [|done]. apply list_elem_of_omap. by exists (Update o). }
    apply (inv_step_other H H' gs i g); try done.
    + split; [done|]. intros x Hx. rewrite Hh, decide_False; [done|]. intros ->. done.
    + intros x Hx. specialize (Hset x Hi Hx). unfold settled in *. rewrite Hc in Hset. cbn [g_cur]. unfold value. rewrite Hh.
      rewrite (decide_ext (x = key k) (key k = x)) by naive_solver. case_decide as E; [|exact Hset]. subst x.
      unfold updated in *. cbn [g_log].
      destruct s as [cur j|cur j|cur j|cur| | | | |]; cbn [effect pc_ok] in *; try (by destruct Hpc; congruence); try done.
      * destruct (k_ones k <=? j)%nat; [by subst s'|]. destruct Hnext as [Hd|(-> & Hni & Hnone)]; [by destruct s'|].
        unfold holds. cbn [key fst snd]. rewrite Hnone. cbn. rewrite Hval. unfold inserted, is_insert in *. by destruct (k_act k).
      * by destruct s'.
      * by destruct s'.
      * subst s'. cbn [fst snd]. rewrite Hset, Hval. unfold is_insert, inserted. by destruct (k_act k).
  - destruct (call_of_find f ip k Hk) as (Hok & Hl & Hfam & Hip & Hn). subst f ip. pose proof (atomic_ok H k s HT Hok Hpc) as Hsound.
    assert (atomic H k s = (H, (lookup_atomic H k s).2)) as Es.
    { unfold atomic, is_lookup in *. destruct (k_act k); try done. unfold lookup_atomic, at_child, on.
      destruct s; try done; repeat (case_match; try done). }
    rewrite Es in *. cbn [snd] in *. destruct Hsound as (HT' & Hext & Hpc' & Hh).
    apply (inv_step_other H H gs i g); [done|done|done|apply others_same|exact Hreq|by split| |].
    + intros x Hx. specialize (Hset x Hi Hx). unfold settled in *. rewrite Hc in Hset. exact Hset.
    + split; [exact Ha|]. cbn [g_cur]. intros Hu. specialize (Hf Hu). rewrite <- Hn in *.
      apply (lookup_found H0 H k s); try done. intros j Hj. apply (inv_rest _ _ HI). apply Hu. lia.
Qed.

Lemma inv_go_step H gs i g : inv H gs -> gs !! i = Some g -> inv (go_step H g).1 (<[i := (go_step H g).2]> gs).
Proof using Hdis Hps Ht0.
  intros HI Hi. unfold go_step. destruct (g_cur g) as [[[r k] s]|] eqn:Hc.
  - destruct s; try (by apply (inv_log H gs i g r k));
      pose proof (inv_atomic H gs i g r k _ HI Hi Hc ltac:(done)) as Hinv; destruct (atomic H k _); exact Hinv.
  - destruct (g_todo g) as [|r todo] eqn:Hd; cbn [fst snd]; [by rewrite list_insert_id|]. by apply (inv_take H gs i g).
Qed.
End Goroutines.

(** ** Every call ends after finitely many operations of its own *)

Section Progress.
Context {V : Type}.
Implicit Types (H : gmap nat (cell V)) (k : @call V) (s : @pc V) (g : @goroutine V).

Definition pc_cost k s : nat :=
  match s with
  | Walk _ i | LookLeaf _ i _ false => 3 * (k_ones k - i) + 3
  | Swap _ i | LookTarget _ i _ false => 3 * (k_ones k - i) + 2
  | Reload _ i | LookChild _ i _ => 3 * (k_ones k - i) + 1
  | LookLeaf _ _ _ true => 3
  | Second _ | LookTarget _ _ _ true => 2
  | Returned _ | Crashed => 1
  end.

(** Operations one request may take. *)
Definition request_cost : nat := 400.
Definition go_cost g : nat := match g_cur g with Some (_, k, s) => pc_cost k s | None => 0 end + request_cost * length (g_todo g).

Lemma begin_cost k : call_ok k -> (pc_cost k (begin_call k) < request_cost)%nat.
Proof.
  intros [_ Ho _]. assert (maxBits (k_fam k) <= 128)%nat by (destruct (k_fam k); cbn; lia). unfold begin_call, look, request_cost.
  destruct (k_act k); cbn [pc_cost]; [lia|lia|]. destruct (k_ones k <=? 0)%nat; lia.
Qed.

Lemma atomic_cost H k s :
  tree H -> call_ok k -> pc_ok H k s -> (forall v, s <> Returned v) -> (pc_cost k (atomic H k s).2 < pc_cost k s)%nat.
Proof.
  intros HT Hk Hs Hnr. unfold atomic.
  assert (forall cur i F, (i < k_ones k)%nat -> node_at H (k_fam k) (prefix k i) = Some cur -> exists b c, at_child H k cur i F = F b c (child b c)) as Hat.
  { intros cur i F Hi Hn. destruct (at_child_ok H k cur i HT Hk Hi Hn) as (b & c & _ & _ & _ & _ & HF). eauto. }
  assert (forall f q cur F, node_at H f q = Some cur -> exists c, on H cur F = F c) as Hon.
  { intros f q cur F Hn. destruct (tr_node _ HT _ _ _ Hn) as [c Hc]. exists c. unfold on. by rewrite Hc. }
  destruct s as [cur i|cur i|cur i|cur|cur i best last|cur i best last|cur i best|v|]; cbn [pc_ok] in Hs; try (by destruct (Hnr v)); try done;
    unfold is_lookup, is_insert in Hs; destruct (k_act k) as [v| |]; cbn [insert_atomic remove_atomic lookup_atomic];
    try (by destruct Hs).
  all: try (destruct Hs as (_ & Hle & Hn); destruct (Nat.leb_spec (k_ones k) i) as [Hend|Hlt];
    [edestruct Hon as [c ->]; [done|]; cbn; lia|edestruct (Hat cur i) as (b & c & ->); [done..|]; destruct (child b c); cbn; lia]).
  - destruct Hs as (_ & Hlt & Hn). edestruct (Hat cur i) as (b & c & ->); [done..|]. destruct (child b c); cbn; lia.
  - destruct Hs as (_ & Hlt & Hn & _). edestruct (Hat cur i) as (b & c & ->); [done..|]. destruct (child b c); cbn; lia.
  - destruct Hs as (_ & Hn). edestruct Hon as [c ->]; [done|]. cbn. lia.
  - destruct Hs as (_ & Hn). edestruct Hon as [c ->]; [done|]. cbn. lia.
  - destruct Hs as (_ & Hle & Hlast & Hn). edestruct Hon as [c ->]; [done|]. cbn [snd]. destruct (c_leaf c), last; cbn; lia.
  - destruct Hs as (_ & Hle & Hlast & Hn). edestruct Hon as [c ->]; [done|]. cbn [snd]. destruct last; cbn; lia.
  - destruct Hs as (_ & Hlt & Hn). edestruct (Hat cur i) as (b & c & ->); [done..|]. cbn [snd]. unfold look.
    destruct (child b c); [|cbn; lia]. destruct (Nat.leb_spec (k_ones k) (S i)); cbn [pc_cost]; lia.
Qed.
End Progress.

(** ** The heap keeps its shape, whatever the goroutines update *)

Section Shape.
Context {V : Type} (ps : list (list (@request V))) (Hps : Forall (Forall req_ok) ps).
Implicit Types (H : gmap nat (cell V)) (g : @goroutine V) (gs : list (@goroutine V)).

Record shape H gs : Prop := {
  sh_tree : tree H;
  sh_given : requests_of <$> gs = ps;
  sh_current i g : gs !! i = Some g -> current_ok H g }.

Lemma shape_call H gs i g r k : shape H gs -> gs !! i = Some g -> r ∈ requests_of g -> call_of r = Some k -> call_ok k.
Proof using Hps.
  intros HI Hi Hr Hk. destruct r as [o|f ip]; [|by apply (call_of_find f ip)]. apply (call_of_update o); [|done].
  assert (requests_of g ∈ ps) as Hin.
  { rewrite <- (sh_given _ _ HI). apply list_elem_of_fmap. exists g. split; [done|]. by eapply list_elem_of_lookup_2. }
  rewrite Forall_forall in Hps. specialize (Hps _ Hin). rewrite Forall_forall in Hps. by apply Hps.
Qed.

Lemma shape_next H H' gs i g g' :
  shape H gs -> gs !! i = Some g -> tree H' -> extends H H' -> requests_of g' = requests_of g -> current_ok H' g' ->
  shape H' (<[i := g']> gs).
Proof.
  intros [S1 S2 S3] Hi HT Hext Hreq Hcur. split; [done| |].
  - rewrite <- S2, list_fmap_insert, Hreq. apply list_insert_id. by rewrite list_lookup_fmap, Hi.
  - intros j gj [(<- & <- & _)|[Hne Hj]]%list_lookup_insert_Some; [done|]. specialize (S3 j gj Hj). unfold current_ok in *.
    destruct (g_cur gj) as [[[r k] s]|]; [|done]. destruct S3 as [Hc Hs]. split; [done|]. by apply (pc_ok_extends H).
Qed.

Lemma shape_step H gs i g : shape H gs -> gs !! i = Some g -> shape (go_step H g).1 (<[i := (go_step H g).2]> gs).
Proof using Hps.
  intros HI Hi. pose proof (sh_tree _ _ HI) as HT. pose proof (sh_current _ _ HI i g Hi) as Hcur. unfold current_ok in Hcur.
  assert (extends H H) as Hsame by by intros f q p. unfold go_step. destruct (g_cur g) as [[[r k] s]|] eqn:Hc.
  - destruct Hcur as [Hk Hs].
    assert (call_ok k) as Hok. { apply (shape_call H gs i g r); [done..| |done]. unfold requests_of. rewrite Hc. apply elem_of_app. right. apply list_elem_of_here. }
    pose proof (atomic_ok H k s HT Hok Hs) as Hsound.
    assert (forall H' s', tree H' -> extends H H' -> pc_ok H' k s' ->
      shape H' (<[i := MkGo (g_log g) (Some (r, k, s')) (g_todo g)]> gs)) as Hnext.
    { intros H' s' HT' Hext Hpc. apply (shape_next H H' gs i g); [done..| |by split]. unfold requests_of. by rewrite Hc. }
    destruct s; try (destruct (atomic H k _) as [H' s']; destruct Hsound as (HT' & Hext & Hpc & _); by apply Hnext).
    apply (shape_next H H gs i g); [done..| |done]. unfold requests_of. rewrite Hc. cbn. by rewrite fmap_app, <- app_assoc.
  - destruct (g_todo g) as [|r todo] eqn:Hd; cbn [fst snd]; [by rewrite list_insert_id|].
    apply (shape_next H H gs i g); [done..| |].
    + unfold requests_of. rewrite Hc, Hd. destruct (call_of r); cbn; [done|]. by rewrite fmap_app, <- app_assoc.
    + destruct (call_of r) as [k|] eqn:Ek; [|done]. split; [done|]. apply begin_ok.
Qed.

Lemma shape_start H : tree H -> shape H (go <$> ps).
Proof.
  intros HT. split; [done| |].
  - rewrite <- list_fmap_compose. rewrite <- (list_fmap_id ps) at 2. by apply list_fmap_ext.
  - by intros i g (p & -> & _)%list_lookup_fmap_Some.
Qed.

(** A goroutine's steps are counted off its cost. *)
Lemma go_step_cost H gs i g :
  shape H gs -> gs !! i = Some g -> finished g = false -> (go_cost (go_step H g).2 < go_cost g)%nat.
Proof using Hps.
  intros HI Hi Hf. pose proof (sh_current _ _ HI i g Hi) as Hcur. unfold current_ok in Hcur. unfold go_step, go_cost, finished in *.
  destruct (g_cur g) as [[[r k] s]|] eqn:Hc.
  - destruct Hcur as [Hk Hs]. assert (call_ok k) as Hok.
    { apply (shape_call H gs i g r); [done..| |done]. unfold requests_of. rewrite Hc. apply elem_of_app. right. apply list_elem_of_here. }
    pose proof (atomic_cost H k s (sh_tree _ _ HI) Hok Hs) as Hlt.
    destruct s; first [specialize (Hlt ltac:(done)); destruct (atomic H k _) as [H' s'] eqn:Es; cbn [snd g_cur g_todo] in *; lia
                      |cbn [snd g_cur g_todo pc_cost]; lia].
  - destruct (g_todo g) as [|r todo] eqn:Hd; [done|]. cbn [snd length]. destruct (call_of r) as [k|] eqn:Hk; cbn [g_cur g_todo]; [|unfold request_cost; lia].
    assert (call_ok k) as Hok.
    { apply (shape_call H gs i g r); [done..| |done]. unfold requests_of. rewrite Hc, Hd. apply elem_of_app. right. apply elem_of_app. right. apply list_elem_of_here. }
    pose proof (begin_cost k Hok). unfold request_cost in *. lia.
Qed.

Lemma cost_zero g : finished g = true <-> go_cost g = 0%nat.
Proof.
  unfold finished, go_cost, request_cost. destruct (g_cur g) as [[[r k] s]|].
  - split; [done|]. assert (0 < pc_cost k s)%nat by (unfold pc_cost; repeat case_match; lia). lia.
  - destruct (g_todo g); cbn; split; try done; lia.
Qed.

Lemma run_cost sched H gs i g :
  shape H gs -> gs !! i = Some g ->
  exists g', (run go_step sched H gs).2 !! i = Some g' /\ (go_cost g' <= go_cost g - count_occ Nat.eq_dec sched i)%nat.
Proof using Hps.
  revert H gs g. induction sched as [|j sched IH]; intros H gs g HI Hi; [exists g; split; [done|cbn; lia]|]. cbn [run].
  destruct (gs !! j) as [gj|] eqn:Hj.
  - pose proof (shape_step H gs j gj HI Hj) as HI'. pose proof (go_step_cost H gs j gj HI Hj) as Hcost.
    assert (finished gj = true -> (go_step H gj).2 = gj) as Hfin.
    { unfold finished, go_step. destruct (g_cur gj); [done|]. by destruct (g_todo gj). }
    destruct (go_step H gj) as [H' gj'] eqn:Es. cbn [fst snd] in *. destruct (decide (j = i)) as [->|Hne].
    + rewrite Hi in Hj. injection Hj as <-. destruct (IH H' (<[i:=gj']> gs) gj') as (g' & Hg' & Hle); [done|by rewrite list_lookup_insert_eq by (by eapply lookup_lt_Some)|].
      exists g'. split; [done|]. cbn [count_occ]. destruct (Nat.eq_dec i i); [|done]. destruct (finished g) eqn:Ef.
      * rewrite Hfin in Hle by done. apply cost_zero in Ef. lia.
      * specialize (Hcost eq_refl). lia.
    + destruct (IH H' (<[j:=gj']> gs) g) as (g' & Hg' & Hle); [done|by rewrite list_lookup_insert_ne|]. exists g'. split; [done|].
      cbn [count_occ]. by destruct (Nat.eq_dec j i).
  - destruct (IH H gs g HI Hi) as (g' & Hg' & Hle). exists g'. split; [done|]. cbn [count_occ]. destruct (Nat.eq_dec j i) as [->|]; [congruence|done].
Qed.

Lemma shape_run sched H : tree H -> shape (go_run sched H (go <$> ps)).1 (go_run sched H (go <$> ps)).2.
Proof using All. intros HT. apply (run_invariant go_step shape); [|by apply shape_start]. intros H' gs i g. by apply shape_step. Qed.
End Shape.

(** ** The trie a heap holds *)

Section Unfolding.
Context {V : Type}.
Implicit Types (H : gmap nat (cell V)) (t : Tables V).

Lemma unfold_get n H p q :
  trie_get q (unfold_at n H p) =
  if (length q <? n)%nat then match (p' ← walk H p q; H !! p') with Some c => if c_leaf c then c_target c else None | None => None end else None.
Proof.
  revert p q. induction n as [|n IH]; intros p q; [by destruct q|]. cbn [unfold_at]. destruct q as [|b q]; cbn [walk length].
  - cbn [Nat.ltb Nat.leb mbind option_bind]. destruct (H !! p); [done|done].
  - change (S (length q) <? S n)%nat with (length q <? n)%nat. unfold child_of. destruct (H !! p) as [c|]; cbn [mbind option_bind].
    + cbn [trie_get]. unfold child. destruct b; cbn [mbind option_bind].
      * destruct (c_one c) as [p'|]; cbn [mbind option_bind]; [apply IH|]. by destruct (_ <? _)%nat.
      * destruct (c_zero c) as [p'|]; cbn [mbind option_bind]; [apply IH|]. by destruct (_ <? _)%nat.
    + by destruct (_ <? _)%nat.
Qed.

Lemma value_get H f q : tree H -> value H (f, q) = trie_get q (unfold_at (S (maxBits f)) H (root f)).
Proof.
  intros HT. rewrite unfold_get. unfold value, holds. cbn [fst snd]. fold (node_at H f q). destruct (node_at H f q) as [p|] eqn:Hn.
  - pose proof (tr_depth _ HT _ _ _ Hn). rewrite (proj2 (Nat.ltb_lt _ _)) by lia. cbn [mbind option_bind]. by destruct (H !! p).
  - cbn [mbind option_bind]. by destruct (_ <? _)%nat.
Qed.

Lemma router_of_represents H t : tree H -> represents (router_of H) t <-> forall x, value H x = tget t x.
Proof.
  intros HT. assert (forall f, is_nil (unfold_at (S (maxBits f)) H (root f)) = false) as Hnil.
  { intros f. cbn [unfold_at]. destruct (tr_node _ HT f [] (root f) eq_refl) as [c ->]. done. }
  split.
  - intros (_ & _ & H4 & H6) [[] q]; rewrite value_get by done; [apply H4|apply H6].
  - intros Hv. split_and!; [apply (Hnil FamV4)|apply (Hnil FamV6)|..]; intros q.
    + specialize (Hv (FamV4, q)). by rewrite value_get in Hv.
    + specialize (Hv (FamV6, q)). by rewrite value_get in Hv.
Qed.

Lemma new_heap_tree : tree (@new_heap V).
Proof.
  assert (forall f q p, node_at (@new_heap V) f q = Some p -> q = [] /\ p = root f) as Hn.
  { intros f [|b q] p; [by intros [= <-]|]. unfold node_at. cbn [walk]. unfold child_of. by destruct f, b. }
  split.
  - intros f q p [_ ->]%Hn. by destruct f; eexists.
  - intros f f' q q' p [-> ->]%Hn [-> E]%Hn. split; [|done]. by destruct f, f'.
  - intros f q p [-> _]%Hn. cbn. lia.
Qed.
End Unfolding.

(** ** Any schedule *)

Section Schedules.
Context {V : Type} (H0 : gmap nat (cell V)) (t0 : Tables V) (ps : list (list (@request V))).
Context (HT0 : tree H0) (Ht0 : forall x, value H0 x = tget t0 x) (Hps : Forall (Forall req_ok) ps) (Hdis : disjoint_keys ps).
Implicit Types (g : @goroutine V).

Lemma requests_go (p : list (@request V)) : requests_of (go p) = p.
Proof. done. Qed.

Lemma inv_start : inv H0 t0 ps H0 (go <$> ps).
Proof using HT0 Ht0.
  assert (forall i g, (go <$> ps) !! i = Some g -> exists p, g = go p) as Hg.
  { intros i g (p & -> & _)%list_lookup_fmap_Some. eauto. }
  split; [done| | | |done|].
  - rewrite <- list_fmap_compose. rewrite <- (list_fmap_id ps) at 2. by apply list_fmap_ext.
  - by intros i g [p ->]%Hg.
  - intros i g x [p ->]%Hg _. cbn. apply Ht0.
  - intros i g [p ->]%Hg. split; [|done]. intros f ip v Hin. by apply elem_of_nil in Hin.
Qed.

Lemma inv_run sched : inv H0 t0 ps (go_run sched H0 (go <$> ps)).1 (go_run sched H0 (go <$> ps)).2.
Proof using All. apply (run_invariant go_step (inv H0 t0 ps)); [|apply inv_start]. intros H gs i g. by apply inv_go_step. Qed.

(** The updates of all goroutines, in the order of the list. *)
Lemma tget_concat gs H x :
  inv H0 t0 ps H gs -> Forall (fun g => finished g = true) gs -> value H x = tget (spec_ops (updates (concat ps)) t0) x.
Proof using Hdis Ht0.
  intros HI Hf. assert (forall i p, ps !! i = Some p -> exists g, gs !! i = Some g /\ requests_of g = p /\ updated g = updates p) as Hg.
  { intros i p Hp. rewrite <- (inv_given _ _ _ _ _ HI) in Hp. apply list_lookup_fmap_Some in Hp as (g & -> & Hi). exists g. split_and!; [done..|].
    rewrite Forall_forall in Hf. specialize (Hf g ltac:(by eapply list_elem_of_lookup_2)). unfold finished, updated, requests_of in *.
    destruct (g_cur g); [done|]. destruct (g_todo g); [|done]. by rewrite !app_nil_r. }
  destruct (decide (Exists (fun p => x ∈ keys p) ps)) as [Hex|Hno].
  - apply Exists_exists in Hex as (p & Hin & Hx). apply list_elem_of_lookup_1 in Hin as [i Hp].
    destruct (Hg _ _ Hp) as (g & Hi & Hreq & Hup). pose proof (inv_settled _ _ _ _ _ HI _ g x Hi ltac:(by rewrite Hreq)) as Hs.
    rewrite Forall_forall in Hf. specialize (Hf g ltac:(by eapply list_elem_of_lookup_2)). unfold settled, finished in *.
    destruct (g_cur g); [done|]. rewrite Hs, Hup. rewrite <- (take_drop_middle ps i p Hp). symmetry. apply tget_middle. intros q Hq Hxq.
    assert (exists j, j <> i /\ ps !! j = Some q) as (j & Hne & Hj); [|by apply (Hdis i j p q x ltac:(done) Hp Hj)].
    destruct Hq as [[j Hj]%list_elem_of_lookup_1|[j Hj]%list_elem_of_lookup_1].
    + apply lookup_take_Some in Hj as [Hj Hlt]. exists j. split; [lia|done].
    + rewrite lookup_drop in Hj. exists (S i + j)%nat. split; [lia|done].
  - rewrite tget_ops_other.
    + unfold value. rewrite (inv_rest _ _ _ _ _ HI); [apply Ht0|]. intros p Hin Hx. apply Hno, Exists_exists. by exists p.
    + intros (p & Hin & Hx)%keys_concat. apply Hno, Exists_exists. by exists p.
Qed.
End Schedules.

(** ** Properties *)

(** The look-up of a family, alone. *)
Definition lookup_of {V} (f : family) (r : Router V) (ip : list Z) : option (option V) :=
  match f with FamV4 => lookupIPv4 r ip | FamV6 => lookupIPv6 r ip end.

Lemma lookup_of_answer {V} (r : Router V) t f ip : represents r t -> lookup_of f r ip = Some (answer t f ip).
Proof.
  intros Hr. unfold lookup_of, answer. destruct f; case_bool_decide as Hl; cbn in Hl.
  - by apply lookupIPv4_lpm.
  - unfold lookupIPv4. by rewrite bool_decide_eq_true_2.
  - by apply lookupIPv6_lpm.
  - unfold lookupIPv6. by rewrite bool_decide_eq_true_2.
Qed.

(** C11. Goroutines share the route table safely. Several goroutines register,
    remove and look up routes at once, no prefix being updated by two of them,
    and their atomic operations are interleaved in any way, failed
    compare-and-swaps included. No nil pointer is ever followed. A look-up whose
    address no running update matches returns what it returns alone. Once all
    calls have returned, the router answers every text and every packet as after
    the same updates made one after the other. *)
Theorem concurrent_routes {V} (H0 : gmap nat (cell V)) t0 ps sched :
  tree H0 -> represents (router_of H0) t0 -> Forall (Forall req_ok) ps -> disjoint_keys ps ->
  let '(H, gs) := go_run sched H0 (go <$> ps) in
  Forall (fun g => crashed g = false) gs /\
  (forall i g f ip v, gs !! i = Some g -> (Find f ip, v) ∈ g_log g -> undisturbed ps f ip -> lookup_of f (router_of H0) ip = Some v) /\
  (Forall (fun g => finished g = true) gs ->
     exists r, run_ops (updates (concat ps)) (router_of H0) = Some r /\
       (forall addr, RouteString (router_of H) addr = RouteString r addr) /\ (forall buf, Route (router_of H) buf = Route r buf)).
Proof.
  intros HT Hr Hps Hdis. pose proof (proj1 (router_of_represents H0 t0 HT) Hr) as Ht0.
  pose proof (inv_run H0 t0 ps HT Ht0 Hps Hdis sched) as HI. destruct (go_run sched H0 (go <$> ps)) as [H gs]. cbn [fst snd] in HI. split_and!.
  - apply Forall_forall. intros g [i Hi]%list_elem_of_lookup_1. pose proof (inv_current _ _ _ _ _ HI i g Hi) as Hc. unfold current_ok, crashed in *.
    destruct (g_cur g) as [[[r k] s]|]; [|done]. destruct Hc as [_ Hs]. by destruct s.
  - intros i g f ip v Hi Hin Hu. destruct (inv_answers _ _ _ _ _ HI i g Hi) as [Ha _]. rewrite (Ha f ip v Hin Hu). by apply lookup_of_answer.
  - intros Hf. assert (Forall (fun o => mapped_cidr (op_addr o) = false) (updates (concat ps))) as Hm.
    { apply List.Forall_concat in Hps. rewrite Forall_forall in Hps. apply Forall_forall. intros o (rq & Hin & Ho)%list_elem_of_omap.
      specialize (Hps rq Hin). by destruct rq; simplify_eq. }
    destruct (run_ops_spec _ _ t0 Hr Hm) as (r & E & Hr'). exists r. split; [done|].
    assert (represents (router_of H) (spec_ops (updates (concat ps)) t0)) as HR.
    { apply router_of_represents; [apply (inv_tree _ _ _ _ _ HI)|]. intros x. by apply (tget_concat H0 t0 ps Ht0 Hdis gs). }
    split; intros; [by rewrite !(RouteString_lpm _ _ _ HR), (RouteString_lpm _ _ _ Hr')|]. by rewrite (Route_spec _ _ _ HR), (Route_spec _ _ _ Hr').
Qed.

(** Two goroutines whose first bits agree, so that they race for the same nodes,
    and a look-up elsewhere. *)
Definition sample_programs : list (list (@request nat)) :=
  [[Update (OpRegister "10.1.0.0/16" 2%nat)]; [Update (OpRegister "10.1.2.0/24" 3%nat); Find FamV4 [172; 16; 0; 1]]].
Definition sample_schedule : list nat := concat (replicate 120 [0%nat; 1%nat]).
Definition sample_schedule2 : list nat := concat (replicate 400 [1; 0; 1]%nat).

Lemma sample_disjoint : disjoint_keys sample_programs.
Proof.
  intros [|[|i]] [|[|j]] p p' x Hne Hp Hp'; try done; injection Hp as <-; injection Hp' as <-; revert x; apply Forall_forall;
    apply (bool_decide_unpack _); vm_compute; exact I.
Qed.

Lemma concurrent_routes_witness :
  RouteString (router_of (go_run sample_schedule new_heap (go <$> sample_programs)).1) "10.1.2.3" = Some (Some 3%nat) /\
  lookup_of FamV4 (router_of (@new_heap nat)) [172; 16; 0; 1] = Some None.
Proof.
  pose proof (concurrent_routes (@new_heap nat) empty_tables sample_programs sample_schedule new_heap_tree) as H.
  destruct (go_run sample_schedule new_heap (go <$> sample_programs)) as [H' gs] eqn:E.
  destruct H as (_ & Hfind & Hfin).
  - apply router_of_represents; [apply new_heap_tree|]. intros [[] q]; rewrite value_get by apply new_heap_tree; by destruct q as [|[] q].
  - repeat constructor.
  - apply sample_disjoint.
  - assert (gs = (go_run sample_schedule new_heap (go <$> sample_programs)).2) as Egs by (by rewrite E). split.
    + destruct Hfin as (r & Hr & Hs & _).
      * rewrite Egs. apply (bool_decide_unpack _). vm_compute. exact I.
      * cbn [fst]. rewrite Hs. vm_compute in Hr. injection Hr as <-. vm_compute. reflexivity.
    + apply (Hfind 1%nat (MkGo [(Update (OpRegister "10.1.2.0/24" 3%nat), None); (Find FamV4 [172; 16; 0; 1], None)] None [])).
      * rewrite Egs. vm_compute. reflexivity.
      * apply list_elem_of_further, list_elem_of_here.
      * intros i Hi p Hp. assert (Forall (fun p => (FamV4, take i (to_bits [172; 16; 0; 1])) ∉ keys p) sample_programs) as Hall;
          [|rewrite Forall_forall in Hall; by apply Hall].
        assert (Forall (fun i => Forall (fun p => (FamV4, take i (to_bits [172; 16; 0; 1])) ∉ keys p) sample_programs) (seq 0 33)) as H33
          by (apply (bool_decide_unpack _); vm_compute; exact I).
        rewrite Forall_seq in H33. apply H33. cbn in Hi. lia.
Defined.

(** C24. The route table is wait-free: whatever the others register, remove and
    look up, the same prefixes included, and however a schedule favours them, a
    goroutine has finished all its requests once it has made 400 atomic operations
    for each of them, and at no time does any goroutine follow a nil pointer. The
    blocks that are registered and removed must not be IPv4-mapped IPv6 ones, on
    which the code panics. *)
Theorem routes_wait_free {V} (H0 : gmap nat (cell V)) ps sched i p :
  tree H0 -> Forall (Forall req_ok) ps -> ps !! i = Some p ->
  (request_cost * length p <= count_occ Nat.eq_dec sched i)%nat ->
  Forall (fun g => crashed g = false) (go_run sched H0 (go <$> ps)).2 /\
  exists g, (go_run sched H0 (go <$> ps)).2 !! i = Some g /\ finished g = true /\ (g_log g).*1 = p.
Proof.
  intros HT Hps Hp Hc. pose proof (shape_run ps Hps sched H0 HT) as HI.
  destruct (run_cost ps Hps sched H0 (go <$> ps) i (go p)) as (g & Hg & Hle); [by apply shape_start|by rewrite list_lookup_fmap, Hp|].
  assert (finished g = true) as Hf by (apply cost_zero; unfold go_cost at 2 in Hle; cbn [go g_cur g_todo] in Hle; lia).
  split.
  - apply Forall_forall. intros g' [j Hj]%list_elem_of_lookup_1. pose proof (sh_current _ _ _ HI j g' Hj) as Hcur. unfold current_ok, crashed in *.
    destruct (g_cur g') as [[[r k] s]|]; [|done]. destruct Hcur as [_ Hs]. by destruct s.
  - exists g. split_and!; [done..|]. pose proof (sh_given _ _ _ HI) as Hgiven. assert (requests_of g = p) as <-.
    { apply (f_equal (fun l => l !! i)) in Hgiven. rewrite list_lookup_fmap, Hp in Hgiven. unfold go_run in Hgiven. rewrite Hg in Hgiven. by injection Hgiven. }
    unfold requests_of, finished in *. destruct (g_cur g); [done|]. destruct (g_todo g); [|done]. by rewrite !app_nil_r.
Qed.

(** Two goroutines that update the same prefix. *)
Definition contended : list (list (@request nat)) :=
  [[Update (OpRegister "10.1.0.0/16" 2%nat)]; [Update (OpRegister "10.1.0.0/16" 3%nat); Update (OpUnRegister "10.1.0.0/16")]].

Lemma routes_wait_free_witness :
  exists g, (go_run sample_schedule2 new_heap (go <$> contended)).2 !! 0%nat = Some g /\ finished g = true.
Proof.
  destruct (routes_wait_free (@new_heap nat) contended sample_schedule2 0 [Update (OpRegister "10.1.0.0/16" 2%nat)] new_heap_tree)
    as (_ & g & Hg & Hf & _).
  - repeat constructor.
  - reflexivity.
  - vm_compute. lia.
  - exists g. split; [exact Hg|exact Hf].
Defined.

(** ** Two updates of one prefix *)

(** A removal and a registration of the same prefix: the mark of the leaf and the
    target are two stores, and in between the registration makes the target that
    is being removed visible again. The look-ups, one after the other, find no
    route and then the old one. *)
Definition old_route : gmap nat (cell nat) := (go_run (replicate 20 0%nat) new_heap [go [Update (OpRegister "10.0.0.0/8" 1%nat)]]).1.
Definition racing : list (@goroutine nat) :=
  [go [Update (OpUnRegister "10.0.0.0/8")]; go [Update (OpRegister "10.0.0.0/8" 2%nat)]; go [Find FamV4 [10; 0; 0; 1]; Find FamV4 [10; 0; 0; 1]]].
Definition race_schedule : list nat := (replicate 10 0 ++ replicate 30 2 ++ replicate 10 1 ++ replicate 30 2)%nat.

Example route_resurrected :
  (g_log <$> (go_run race_schedule old_route racing).2 !! 2%nat) =
  Some [(Find FamV4 [10; 0; 0; 1], None); (Find FamV4 [10; 0; 0; 1], Some 1%nat)].
Proof. vm_compute. reflexivity. Qed.
