(* ===== verification/Api.v ===== *)
(** * The management interface (manager/server/api, manager/server/internal/controller,
      manager/server/internal/cmd)

    A request is signed, checked, handled by a controller that calls the logic,
    and answered. Decoding, validation and the recovery of a panicking handler
    are the web framework's; generated ids, keys and the time are in [env]. *)

From S2P Require Import Session.
From S2P Require Import Prelude GoNet GoText Router IPPool QuotaCounter GoFloat SmoothLimiter Metrics Server Manager ManagerProps Devices.
From S2P Require Import Functions Request RequestProps Login LoginProps DevicesProps Access Boot.

#[local] Open Scope string_scope.
#[local] Open Scope Z_scope.

(** ** Requests *)

Record CreateNetworkReq := MkCreateNetworkReq { cn_Name : string; cn_CIDR : string; cn_Description : string }.
Record CreateQuotaReq := MkCreateQuotaReq { cq_Name : string; cq_Type : string; cq_Unit : string; cq_Value : Z; cq_Period : string }.
Record CreateSubDeviceReq := MkCreateSubDeviceReq { cs_DeviceId : string; cs_NetworkId : string; cs_Quota : Z; cs_Settings : option string }.

Inductive api_request :=
| GetNetworkDetailsReq (NetworkId : string)
| CreateNetworkRequest (r : CreateNetworkReq)
| StopNetworkReq (NetworkId : string)
| StartNetworkReq (NetworkId : string)
| RemoveNetworkReq (NetworkId : string)
| UpdateNetworkReq (NetworkId : string) (Fields : gmap string field_value)
| ListSessionReq (NetworkId : string)
| GetQuotaReq (Id : Z)
| ListQuotaReq
| CreateQuotaRequest (r : CreateQuotaReq)
| UpdateQuotaReq (Id : Z) (Fields : gmap string json)
| DeleteQuotaReq (Id : Z)
| CreateDeviceReq (Key Name : string)
| CreateSubDeviceRequest (r : CreateSubDeviceReq)
| GetDeviceReq (DeviceId : string) (SubDeviceId : Z)
| SetSubDeviceQuotaReq (SubDeviceId Quota : Z).

(** The fields marked as required, as they were decoded. *)
Definition required_fields (r : api_request) : list json :=
  match r with
  | GetNetworkDetailsReq id | StopNetworkReq id | StartNetworkReq id | RemoveNetworkReq id | UpdateNetworkReq id _ => [JStr id]
  | GetQuotaReq id | DeleteQuotaReq id => [JNum id]
  | CreateQuotaRequest r => [JStr (cq_Name r); JStr (cq_Type r); JStr (cq_Unit r); JNum (cq_Value r)]
  | UpdateQuotaReq id fields => [JNum id; JObj (map_to_list fields)]
  | CreateDeviceReq key name => [JStr key; JStr name]
  | CreateSubDeviceRequest r => [JStr (cs_DeviceId r); JStr (cs_NetworkId r)]
  | GetDeviceReq id _ => [JStr id]
  | SetSubDeviceQuotaReq id quota => [JNum id; JNum quota]
  | CreateNetworkRequest _ | ListSessionReq _ | ListQuotaReq => []
  end.

(** ** Answers *)

Inductive api_data :=
| Nothing
| CreatedId (id : string)
| NetworkData (d : NetworkDetails)
| SessionsData (l : list SessionView)
| QuotaData (q : quota_info)
| QuotasData (l : list (Z * quota_row))
| DeviceData (d : DeviceInfo).

Inductive api_response :=
| Unauthorized (why : access)
| Invalid
| Failed (e : device_error)
| Recovered
| Success (d : api_data).

Section Interface.
Context {PrivateKey : Type} (Encrypt : list Z -> list Z -> option (list Z)).
Context (MarshalPKCS1 : PrivateKey -> list Z) (MarshalPKIX : PrivateKey -> option (list Z)) (pem_encode : string -> list Z -> list Z).
Context (md5_hex : string -> string) (Int64 : string -> Z).
(** The rule of the validator, the texts of the default settings, and the
    conversions the database makes of a field. *)
Context (required : json -> bool) (defaultSettings : string) (to_string : json -> string) (to_int : json -> Z).
(** The order and the keys of what is shown. *)
Context (createdAt : nat -> Z) (netkey : nat -> string).

(** What is generated for a request: ids, a key pair, the time and the current
    period of usage. *)
Record env := MkEnv {
  e_uuid : string; e_quota_id : Z; e_generated : option PrivateKey; e_now : Z; e_from : Z; e_to : Z }.

(** A field that is given and not null. *)
Definition given {A} (f : json -> A) (v : option json) : option A :=
  match v with Some JNull | None => None | Some j => Some (f j) end.

(** ** Controllers that read *)

Definition answer_of {E A} (lift : E -> device_error) (data : A -> api_data) (r : E + A) : api_response :=
  match r with inl e => Failed (lift e) | inr a => Success (data a) end.
Definition recovered {E A} (lift : E -> device_error) (data : A -> api_data) (r : option (E + A)) : api_response :=
  match r with Some r => answer_of lift data r | None => Recovered end.

Definition GetNetworkDetails_v1 (st : Db * Server) (NetworkId : string) : api_response :=
  recovered DbError NetworkData (GetNetworkDetails createdAt netkey st.1 st.2 NetworkId).
Definition ListSession_v1 (st : Db * Server) (NetworkId : string) : api_response :=
  recovered DbError SessionsData (ListSessionByNetwork createdAt netkey st.2 NetworkId).
Definition GetQuota_v1 (st : Db * Server) (Id : Z) : api_response := answer_of DbError QuotaData (GetById st.1 Id).
Definition ListQuota_v1 (st : Db * Server) : api_response := Success (QuotasData (List_ st.1)).

(** The sub device of the request is always passed on, 0 when none was given. *)
Definition GetDevice_v1 (st : Db * Server) (e : env) (DeviceId : string) (SubDeviceId : Z) : api_response :=
  answer_of (fun e => e) DeviceData (GetDeviceInfo st.1 DeviceId [SubDeviceId] (e_from e) (e_to e)).

(** ** Controllers that change something *)

Definition done_with {E} (lift : E -> device_error) (data : api_data) (err : option E) : api_response :=
  match err with Some e => Failed (lift e) | None => Success data end.

(** The operations on networks. *)
Definition network_v1 (st : Db * Server) (o : net_op) (data : api_data) : api_response * (Db * Server) :=
  match exec st o with Some (err, st') => (done_with DbError data err, st') | None => (Recovered, st) end.

Definition CreateNetwork_v1 (st : Db * Server) (e : env) (r : CreateNetworkReq) : api_response * (Db * Server) :=
  network_v1 st (OpCreate (e_uuid e) (MkNetworkRow (cn_Name r) (cn_CIDR r) 1392 (cn_Description r))) (CreatedId (e_uuid e)).
Definition StopNetwork_v1 (st : Db * Server) (NetworkId : string) : api_response * (Db * Server) := network_v1 st (OpStop NetworkId) Nothing.
Definition StartNetwork_v1 (st : Db * Server) (NetworkId : string) : api_response * (Db * Server) := network_v1 st (OpStart NetworkId) Nothing.
Definition RemoveNetwork_v1 (st : Db * Server) (NetworkId : string) : api_response * (Db * Server) := network_v1 st (OpDelete NetworkId) Nothing.
Definition UpdateNetwork_v1 (st : Db * Server) (NetworkId : string) (Fields : gmap string field_value) : api_response * (Db * Server) :=
  network_v1 st (OpUpdate NetworkId (Fields !! "cidr") (Fields !! "name") (Fields !! "description")) Nothing.

Definition CreateQuota_v1 (st : Db * Server) (e : env) (r : CreateQuotaReq) : api_response * (Db * Server) :=
  (Success Nothing, (Create st.1 (e_quota_id e) (MkQuotaRow (cq_Name r) (cq_Type r) (cq_Unit r) (cq_Value r) (cq_Period r)), st.2)).
Definition UpdateQuota_v1 (st : Db * Server) (Id : Z) (Fields : gmap string json) : api_response * (Db * Server) :=
  (Success Nothing, (Update st.1 Id (given to_string (Fields !! "name")) (given to_int (Fields !! "value")), st.2)).
Definition DeleteQuota_v1 (st : Db * Server) (Id : Z) : api_response * (Db * Server) :=
  let '(err, db) := Delete st.1 Id in (done_with (fun e => e) Nothing err, (db, st.2)).

Definition CreateDevice_v1 (st : Db * Server) (e : env) (Key Name : string) : api_response * (Db * Server) :=
  let '(r, db) := CreateDevice Encrypt MarshalPKCS1 MarshalPKIX pem_encode st.1 Key Name (e_uuid e) (e_generated e) (e_now e) in
  (answer_of (fun e => e) CreatedId r, (db, st.2)).
Definition CreateSubDevice_v1 (st : Db * Server) (r : CreateSubDeviceReq) : api_response * (Db * Server) :=
  let '(err, db) := CreateSubDevice st.1 (fresh (dom (db_subs st.1))) (cs_DeviceId r) (cs_NetworkId r) (cs_Quota r) (default defaultSettings (cs_Settings r)) in
  (done_with DbError Nothing err, (db, st.2)).
Definition SetSubDeviceQuota_v1 (st : Db * Server) (SubDeviceId Quota : Z) : api_response * (Db * Server) :=
  let '(err, db) := SetSubDeviceQuota st.1 SubDeviceId Quota in (done_with DbError Nothing err, (db, st.2)).

(** The routes of the controllers. *)
Definition handle (st : Db * Server) (e : env) (r : api_request) : api_response * (Db * Server) :=
  match r with
  | GetNetworkDetailsReq id => (GetNetworkDetails_v1 st id, st)
  | CreateNetworkRequest r => CreateNetwork_v1 st e r
  | StopNetworkReq id => StopNetwork_v1 st id
  | StartNetworkReq id => StartNetwork_v1 st id
  | RemoveNetworkReq id => RemoveNetwork_v1 st id
  | UpdateNetworkReq id fields => UpdateNetwork_v1 st id fields
  | ListSessionReq id => (ListSession_v1 st id, st)
  | GetQuotaReq id => (GetQuota_v1 st id, st)
  | ListQuotaReq => (ListQuota_v1 st, st)
  | CreateQuotaRequest r => CreateQuota_v1 st e r
  | UpdateQuotaReq id fields => UpdateQuota_v1 st id fields
  | DeleteQuotaReq id => DeleteQuota_v1 st id
  | CreateDeviceReq key name => CreateDevice_v1 st e key name
  | CreateSubDeviceRequest r => CreateSubDevice_v1 st r
  | GetDeviceReq id sub => (GetDevice_v1 st e id sub, st)
  | SetSubDeviceQuotaReq id quota => SetSubDeviceQuota_v1 st id quota
  end.

(** A request as it arrives. *)
Record arrival := MkArrival { a_remote : string; a_header : RequiredAuthHeader; a_request : api_request; a_env : env }.

(** The group of the web server: the signature comes first, then the handler;
    the request is validated before its controller is called. *)
Definition web_server (cfg : AuthConfig) (st : Db * Server) (a : arrival) : api_response * (Db * Server) :=
  match CheckSignature md5_hex Int64 cfg (a_remote a) (e_now (a_env a)) (a_header a) with
  | Next => if forallb required (required_fields (a_request a)) then handle st (a_env a) (a_request a) else (Invalid, st)
  | why => (Unauthorized why, st)
  end.

Fixpoint serve_api (cfg : AuthConfig) (st : Db * Server) (l : list arrival) : list api_response * (Db * Server) :=
  match l with
  | [] => ([], st)
  | a :: l' => let '(r, st) := web_server cfg st a in let '(rs, st) := serve_api cfg st l' in (r :: rs, st)
  end.
End Interface.
