(* ===== verification/ApiProps.v ===== *)
(** * Only authorised requests change the tables, and only the rows they name *)

From S2P Require Import Session.
From S2P Require Import Prelude GoNet GoText Router IPPool QuotaCounter GoFloat SmoothLimiter Metrics Server Manager ManagerProps Devices.
From S2P Require Import Functions Request RequestProps Login LoginProps DevicesProps Access Boot Api.

#[local] Open Scope string_scope.
#[local] Open Scope Z_scope.

Section Guard.
Context {PrivateKey : Type} (Encrypt : list Z -> list Z -> option (list Z)).
Context (MarshalPKCS1 : PrivateKey -> list Z) (MarshalPKIX : PrivateKey -> option (list Z)) (pem_encode : string -> list Z -> list Z).
Context (md5_hex : string -> string) (Int64 : string -> Z).
Context (required : json -> bool) (defaultSettings : string) (to_string : json -> string) (to_int : json -> Z).
Context (createdAt : nat -> Z) (netkey : nat -> string).

Abbreviation serve1 := (web_server Encrypt MarshalPKCS1 MarshalPKIX pem_encode md5_hex Int64 required defaultSettings to_string to_int createdAt netkey).
Abbreviation serve_all := (serve_api Encrypt MarshalPKCS1 MarshalPKIX pem_encode md5_hex Int64 required defaultSettings to_string to_int createdAt netkey).
Abbreviation handle1 := (handle Encrypt MarshalPKCS1 MarshalPKIX pem_encode defaultSettings to_string to_int createdAt netkey).
Abbreviation manage1 := (manage Encrypt MarshalPKCS1 MarshalPKIX pem_encode).
Abbreviation manages := (manage_all Encrypt MarshalPKCS1 MarshalPKIX pem_encode).

(** The operation of the manager a request asks for; reading asks for none. *)
Definition op_of (e : @env PrivateKey) (r : api_request) : option (@manage_op PrivateKey) :=
  match r with
  | CreateNetworkRequest r => Some (OpNetwork (OpCreate (e_uuid e) (MkNetworkRow (cn_Name r) (cn_CIDR r) 1392 (cn_Description r))))
  | StopNetworkReq id => Some (OpNetwork (OpStop id))
  | StartNetworkReq id => Some (OpNetwork (OpStart id))
  | RemoveNetworkReq id => Some (OpNetwork (OpDelete id))
  | UpdateNetworkReq id f => Some (OpNetwork (OpUpdate id (f !! "cidr") (f !! "name") (f !! "description")))
  | CreateQuotaRequest r => Some (OpCreateQuota (e_quota_id e) (MkQuotaRow (cq_Name r) (cq_Type r) (cq_Unit r) (cq_Value r) (cq_Period r)))
  | UpdateQuotaReq id f => Some (OpUpdateQuota id (given to_string (f !! "name")) (given to_int (f !! "value")))
  | DeleteQuotaReq id => Some (OpDeleteQuota id)
  | CreateDeviceReq key name => Some (OpCreateDevice key name (e_uuid e) (e_generated e) (e_now e))
  | CreateSubDeviceRequest r => Some (OpCreateSub (cs_DeviceId r) (cs_NetworkId r) (cs_Quota r) (default defaultSettings (cs_Settings r)))
  | SetSubDeviceQuotaReq id quota => Some (OpSetQuota id quota)
  | _ => None
  end.

(** A request is authorised when it is local and local requests are exempt, or
    when it carries, not too late, the signature of an application's secret. It is
    accepted when its required fields are given too. *)
Definition authorised (cfg : AuthConfig) (a : @arrival PrivateKey) : Prop :=
  exempt cfg (a_remote a) \/ fresh_at Int64 cfg (e_now (a_env a)) (a_header a) /\ signed md5_hex cfg (a_header a).
Definition complete (a : @arrival PrivateKey) : Prop := forallb required (required_fields (a_request a)) = true.
Definition accepted (cfg : AuthConfig) (a : @arrival PrivateKey) : Prop := authorised cfg a /\ complete a.

#[local] Instance accepted_dec cfg a : Decision (accepted cfg a).
Proof. unfold accepted, authorised, complete, exempt, fresh_at, signed. apply _. Defined.

(** A handler does what the operation does; it panics only while reading. *)
Lemma handle_manages st e r :
  match op_of e r with
  | Some o => manage1 st o = Some (handle1 st e r).2 /\ (handle1 st e r).1 <> Recovered
  | None => (handle1 st e r).2 = st
  end /\ (forall why, (handle1 st e r).1 <> Unauthorized why) /\ (handle1 st e r).1 <> Invalid.
Proof.
  assert (forall o data, manage1 st (OpNetwork o) = Some (network_v1 st o data).2 /\ (network_v1 st o data).1 <> Recovered /\
    (forall why, (network_v1 st o data).1 <> Unauthorized why) /\ (network_v1 st o data).1 <> Invalid) as Hnet.
  { intros o data. unfold network_v1. destruct st as [db sv]. destruct (exec_total (db, sv) o) as (err & st' & E). cbn [manage]. rewrite E. by destruct err. }
  destruct st as [db sv].
  destruct r; cbn [handle op_of];
    try (match goal with |- context [network_v1 _ ?o ?d] => idtac | _ => fail end).
  all: try (edestruct Hnet as (H1 & H2 & H3 & H4); split; [split; [exact H1|exact H2]|split; [exact H3|exact H4]]).
  - split; [done|]. unfold GetNetworkDetails_v1, recovered. destruct (GetNetworkDetails _ _ _ _ _) as [[]|]; done.
  - split; [done|]. unfold ListSession_v1, recovered. destruct (ListSessionByNetwork _ _ _ _) as [[]|]; done.
  - split; [done|]. unfold GetQuota_v1. by destruct (GetById _ _).
  - done.
  - done.
  - done.
  - unfold DeleteQuota_v1. cbn [manage fst snd]. destruct (Delete _ _) as [[] db']; done.
  - unfold CreateDevice_v1. cbn [manage fst snd]. destruct (CreateDevice _ _ _ _ _ _ _ _ _ _) as [[] db']; done.
  - unfold CreateSubDevice_v1. cbn [manage fst snd]. destruct (CreateSubDevice _ _ _ _ _ _) as [[] db']; done.
  - split; [done|]. unfold GetDevice_v1. by destruct (GetDeviceInfo _ _ _ _ _).
  - unfold SetSubDeviceQuota_v1. cbn [manage fst snd]. destruct (SetSubDeviceQuota _ _ _) as [[] db']; done.
Qed.

(** ** What a request names *)

Inductive row := RNetwork (id : string) | RQuota (id : Z) | RDevice (id : string) | RSub (id : Z).

(** The rows a request asks to change or to add; the id of a new sub device is
    not known before. *)
Definition names (a : @arrival PrivateKey) : list row :=
  match a_request a with
  | CreateNetworkRequest _ => [RNetwork (e_uuid (a_env a))]
  | StopNetworkReq id | StartNetworkReq id | RemoveNetworkReq id | UpdateNetworkReq id _ => [RNetwork id]
  | CreateQuotaRequest _ => [RQuota (e_quota_id (a_env a))]
  | UpdateQuotaReq id _ | DeleteQuotaReq id => [RQuota id]
  | CreateDeviceReq _ _ => [RDevice (e_uuid (a_env a))]
  | SetSubDeviceQuotaReq id _ => [RSub id]
  | _ => []
  end.

(** A row is the same in two states, and a network is registered in both or in
    none of them; rows of sub devices may be added. *)
Definition same_row (st st' : Db * Server) (x : row) : Prop :=
  match x with
  | RNetwork id => db_networks st'.1 !! id = db_networks st.1 !! id /\ sv_manager st'.2 !! id = sv_manager st.2 !! id
  | RQuota id => db_quotas st'.1 !! id = db_quotas st.1 !! id
  | RDevice id => db_devices st'.1 !! id = db_devices st.1 !! id
  | RSub id => is_Some (db_subs st.1 !! id) -> db_subs st'.1 !! id = db_subs st.1 !! id
  end.

Lemma same_row_refl st x : same_row st st x.
Proof. by destruct x. Qed.

Lemma same_row_trans a b c x : same_row a b x -> same_row b c x -> same_row a c x.
Proof.
  destruct x; cbn [same_row]; [intros [-> ->] [-> ->]; done|congruence|congruence|].
  intros H1 H2 Ha. rewrite H2 by (by rewrite H1). by apply H1.
Qed.

(** The id of an operation on networks. *)
Definition net_id (o : net_op) : string :=
  match o with OpCreate id _ | OpStop id | OpStart id | OpDelete id | OpUpdate id _ _ _ => id end.

Lemma start_frame sv w id row e sv' i : start sv w id row = Some (e, sv') -> i <> id -> sv_manager sv' !! i = sv_manager sv !! i.
Proof.
  unfold start, NewNetwork. destruct (NewIPAllocator (nr_Cidr row)) as [pool|err|]; cbn; [|by intros [= _ <-]|done].
  intros [= _ <-] Hne. unfold RegisterNetwork, with_net. cbn [sv_nets]. rewrite lookup_insert_eq. cbn [n_ID].
  destruct (String.eqb id ""); [done|]. cbn [sv_manager]. by rewrite lookup_insert_ne.
Qed.

Lemma exec_frame st o e st' :
  exec st o = Some (e, st') ->
  db_quotas st'.1 = db_quotas st.1 /\ db_flows st'.1 = db_flows st.1 /\ forall i, i <> net_id o -> same_row st st' (RNetwork i).
Proof.
  destruct st as [db sv]. unfold exec, CreateNetwork, StopNetwork, StartNetwork, DeleteNetwork. cbn [same_row fst snd].
  destruct o as [id row|id|id|id|id cidr name desc]; cbn [net_id].
  - destruct (start _ _ _ _) as [[e' sv1]|] eqn:Es; [|done]. cbn [mbind option_bind]. intros [= _ <-]. cbn. split_and!; [done..|].
    intros i Hi. split; [by rewrite lookup_insert_ne|by eapply start_frame].
  - destruct (GetNetwork sv id); intros [= _ <-]; cbn [fst snd]; (split_and!; [done..|]); intros i Hi; rewrite ?stop_manager; (split; [done|]); [|done].
    by rewrite lookup_delete_ne.
  - destruct (GetNetwork sv id); cbn [mbind option_bind]; [by intros [= _ <-]|]. destruct (db_networks db !! id) as [row|]; [|by intros [= _ <-]].
    destruct (start _ _ _ _) as [[e' sv1]|] eqn:Es; [|done]. cbn [mbind option_bind]. intros [= _ <-]. split_and!; [done..|].
    intros i Hi. split; [done|by eapply start_frame].
  - destruct (db_networks db !! id); intros [= _ <-]; cbn; (split_and!; [done..|]); intros i Hi; rewrite ?stop_manager; (split; [|done || by rewrite lookup_delete_ne]); [|done].
    by rewrite lookup_delete_ne.
  - destruct (db_networks db !! id) as [row|] eqn:Er; [|unfold UpdateNetwork; rewrite Er; by intros [= _ <-]].
    rewrite (update_row _ _ _ _ _ _ _ Er). destruct (changes _ _ _); intros [= _ <-]; cbn; (split_and!; [done..|]); intros i Hi; rewrite stop_manager;
      (split; [done || by rewrite lookup_insert_ne|by rewrite lookup_delete_ne]).
Qed.

Lemma handle_frame st a x :
  x ∉ names a -> same_row st (handle1 st (a_env a) (a_request a)).2 x /\ db_flows (handle1 st (a_env a) (a_request a)).2.1 = db_flows st.1.
Proof.
  assert (forall o data, x <> RNetwork (net_id o) -> same_row st (network_v1 st o data).2 x /\ db_flows (network_v1 st o data).2.1 = db_flows st.1) as Hnet.
  { intros o data Hx. unfold network_v1. destruct (exec_total st o) as (err & st' & E). rewrite E. cbn [snd].
    destruct (exec_frame st o err st' E) as (Hq & Hf & Hn). destruct st as [db sv], st' as [db' sv']. destruct (exec_keeps _ _ _ _ _ _ E) as [Hd Hs].
    cbn [fst snd] in *. split; [|done]. destruct x; [apply Hn; congruence|cbn; congruence..]. }
  unfold names. destruct (a_request a); cbn [handle]; intros Hx; try (by split; [apply same_row_refl|]);
    try (apply Hnet; cbn [net_id]; intros ->; apply Hx, list_elem_of_here); destruct st as [db sv]; cbn [fst snd].
  - cbn. split; [|done]. destruct x as [|i| |]; [done| |done|done]. cbn. rewrite lookup_insert_ne; [done|set_solver].
  - cbn. split; [|done]. destruct x as [|i| |]; [done| |done|done]. cbn. rewrite lookup_alter_ne; [done|set_solver].
  - unfold DeleteQuota_v1. cbn [fst]. destruct (quota_kept db Id) as [E _]. destruct (Delete db Id) as [err db']. cbn in E |- *. subst db'. by split; [apply same_row_refl|].
  - unfold CreateDevice_v1, CreateDevice. cbn [fst snd]. destruct (existsb _ _); [by split; [apply same_row_refl|]|].
    destruct (e_generated _); [|by split; [apply same_row_refl|]]. destruct (Encrypt _ _); [|by split; [apply same_row_refl|]].
    destruct (MarshalPKIX _); [|by split; [apply same_row_refl|]]. destruct (db_devices db !! _); [by split; [apply same_row_refl|]|]. cbn. split; [|done].
    destruct x; cbn; try done. rewrite lookup_insert_ne; [done|set_solver].
  - unfold CreateSubDevice_v1, CreateSubDevice. cbn [fst snd]. destruct (db_networks db !! _); [|by split; [apply same_row_refl|]].
    destruct (db_devices db !! _); [|by split; [apply same_row_refl|]]. destruct (existsb _ _); [by split; [apply same_row_refl|]|]. cbn. split; [|done].
    destruct x; cbn; try done. intros Hi. rewrite lookup_insert_ne; [done|]. intros <-. apply elem_of_dom, is_fresh in Hi. done.
  - unfold SetSubDeviceQuota_v1, SetSubDeviceQuota. cbn [fst snd]. destruct (db_subs db !! _); [|by split; [apply same_row_refl|]]. cbn. split; [|done].
    destruct x; cbn; try done. intros Hi. rewrite lookup_insert_ne; [done|set_solver].
Qed.

(** ** Requests one after the other *)

(** What a caller is told. *)
Definition told (cfg : AuthConfig) (a : @arrival PrivateKey) (r : api_response) : Prop :=
  (~ authorised cfg a -> exists why, why <> Next /\ r = Unauthorized why) /\
  (authorised cfg a -> (forall why, r <> Unauthorized why) /\ (r = Invalid <-> ~ complete a) /\
     (r = Recovered -> op_of (a_env a) (a_request a) = None)).

(** The operations of the requests that are accepted. *)
Definition ops_of (cfg : AuthConfig) (l : list (@arrival PrivateKey)) : list (@manage_op PrivateKey) :=
  omap (fun a => if decide (accepted cfg a) then op_of (a_env a) (a_request a) else None) l.

Lemma serve_accepted cfg st a : accepted cfg a -> serve1 cfg st a = handle1 st (a_env a) (a_request a).
Proof. intros [Ha Hc]. unfold web_server. rewrite (proj2 (CheckSignature_next _ _ _ _ _ _) Ha). unfold complete in Hc. by rewrite Hc. Qed.

Lemma serve_refused cfg st a : ~ accepted cfg a -> (serve1 cfg st a).2 = st /\ told cfg a (serve1 cfg st a).1.
Proof.
  intros Hn. unfold web_server, told. pose proof (CheckSignature_next md5_hex Int64 cfg (a_remote a) (e_now (a_env a)) (a_header a)) as Hc.
  fold (authorised cfg a) in Hc. unfold accepted, complete in *. destruct (CheckSignature _ _ _ _ _ _) eqn:E.
  1: { assert (authorised cfg a) as Ha by (by apply Hc). destruct (forallb required _) eqn:Er; [by destruct Hn|]. split; [done|].
    split; [done|]. intros _. by split_and!. }
  all: assert (~ authorised cfg a) as Ha by (intros Ha%Hc; done); split; [done|]; split; [|done]; intros _; eexists; (split; [|reflexivity]); discriminate.
Qed.

Lemma serve_one cfg st a :
  told cfg a (serve1 cfg st a).1 /\
  match (if decide (accepted cfg a) then op_of (a_env a) (a_request a) else None) with
  | Some o => manage1 st o = Some (serve1 cfg st a).2
  | None => (serve1 cfg st a).2 = st
  end.
Proof.
  case_decide as Hacc; [|destruct (serve_refused cfg st a Hacc) as [H1 H2]; by split]. rewrite serve_accepted by done.
  destruct (handle_manages st (a_env a) (a_request a)) as (Hop & Hu & Hi). destruct Hacc as [Ha Hcomp].
  split; [|destruct (op_of _ _); [by destruct Hop|done]]. split; [done|]. intros _. split_and!; [done|by split|].
  destruct (op_of _ _); [by destruct Hop|done].
Qed.

Lemma serve_frame cfg st l x :
  (forall a, a ∈ l -> accepted cfg a -> x ∉ names a) ->
  same_row st (serve_all cfg st l).2 x.
Proof.
  revert st. induction l as [|a l IH]; intros st Hx; [apply same_row_refl|]. cbn [serve_api].
  assert (same_row st (serve1 cfg st a).2 x) as H1.
  { destruct (decide (accepted cfg a)) as [Ha|Ha]; [|by destruct (serve_refused cfg st a Ha) as [-> _]; apply same_row_refl].
    rewrite serve_accepted by done. apply handle_frame, Hx; [apply list_elem_of_here|done]. }
  destruct (serve1 cfg st a) as [r st1]. cbn [snd] in H1. specialize (IH st1). destruct (serve_all cfg st1 l) as [rs st2]. cbn [snd] in *.
  eapply same_row_trans; [exact H1|]. apply IH. intros b Hb. apply Hx. by apply list_elem_of_further.
Qed.

(** C12. The management interface. A request is authorised when it comes from
    the machine itself and local requests are exempt from signing, or when it
    carries the MD5 sum over salt, application, time and the application's
    secret and its time is not too far back; it is accepted when it is authorised
    and complete. Whatever requests arrive: every network, quota, device and sub
    device that no accepted request names stays as it is, with its row and, for a
    network, its registration; tables and networks change as by the operations of
    the accepted requests, one after the other; the tables stay consistent. Every
    request that is not authorised is answered with a reason, every incomplete one
    is reported as such, and no request that changes something panics. *)
Theorem api_guarded cfg st l :
  Forall2 (told cfg) l (serve_all cfg st l).1 /\
  (forall x, (forall a, a ∈ l -> accepted cfg a -> x ∉ names a) -> same_row st (serve_all cfg st l).2 x) /\
  manages st (ops_of cfg l) = Some (serve_all cfg st l).2 /\
  (well_formed st.1 -> well_formed (serve_all cfg st l).2.1).
Proof.
  assert (forall l st, manages st (ops_of cfg l) = Some (serve_all cfg st l).2 /\ Forall2 (told cfg) l (serve_all cfg st l).1) as Hall.
  { clear. intros l. induction l as [|a l IH]; intros st; [done|]. cbn [serve_api ops_of omap list_omap]. destruct (serve_one cfg st a) as [Htold Hop].
    destruct (serve1 cfg st a) as [r st1]. cbn [fst snd] in *. destruct (IH st1) as [H1 H2].
    destruct (serve_all cfg st1 l) as [rs st2]. cbn [fst snd] in *. split; [|by constructor].
    destruct (if decide (accepted cfg a) then _ else None) as [o|]; [|by subst st1]. cbn [manage_all]. rewrite Hop. exact H1. }
  destruct (Hall l st) as [H1 H2]. split_and!; [done|apply serve_frame|done|]. intros Hw.
  destruct (manage_all_keeps Encrypt MarshalPKCS1 MarshalPKIX pem_encode st (ops_of cfg l)) as (st' & E & [_ W]). rewrite H1 in E. injection E as <-. auto.
Qed.

(** The sub devices of a device are not shown unless one of them is asked for:
    without one the number 0 is passed on as if it had been asked for. *)
Lemma device_without_subs st e id d :
  db_subs st.1 !! 0 = None ->
  (handle1 st e (GetDeviceReq id 0)).1 = Success (DeviceData d) -> di_Sub d = [].
Proof.
  intros H0. cbn [handle fst]. unfold GetDevice_v1, GetDeviceInfo. destruct (GetDeviceById st.1 id) as [err|[k row]]; [done|].
  assert (filter (fun e : Z * sub_row => sr_DeviceId e.2 = id /\ ([0] = [] \/ e.1 ∈ [0])) (map_to_list (db_subs st.1)) = []) as ->.
  { destruct (filter _ _) as [|[i r] l'] eqn:E; [done|]. assert ((i, r) ∈ (i, r) :: l') as Hin by apply list_elem_of_here. rewrite <- E in Hin.
    apply list_elem_of_filter in Hin as [(_ & [?|Hi]) Hin]; [done|]. cbn in Hi. apply list_elem_of_singleton in Hi as ->.
    apply elem_of_map_to_list in Hin. congruence. }
  cbn [fill_all answer_of]. by intros [= <-].
Qed.
End Guard.
