(* ===== verification/HubLife.v ===== *)
(** * The goroutines of a hub (vnet/client/hub: hub.go Start and Stop, the loops of
      hub_tx.go and hub_rx.go)

    A hub runs the loop that reads the device, the loop that dispatches what was
    read, the loop that writes to the device, and is stopped by closing a
    channel. An event is opaque here; [Hub] and [Device] model what a turn of a
    loop does with it. A schedule says which goroutine goes next. *)

From S2P Require Import Prelude.

(** ** Closing a channel once

    [Stop] of a hub, and the [cancel] of [HandleRx]: look whether the channel is
    closed, then close it. Closing a closed channel panics: [None]. *)
Inductive stopping := StopCheck | StopClose | StopDone.

#[export] Instance stopping_eq_dec : EqDecision stopping.
Proof. solve_decision. Defined.

Definition stop_step (sig : bool) (s : stopping) : option (bool * stopping) :=
  match s with
  | StopCheck => Some (sig, if sig then StopDone else StopClose)
  | StopClose => if sig then None else Some (true, StopDone)
  | StopDone => Some (sig, StopDone)
  end.

(** The loop over batches, which only Linux has, and the loop over single
    packets; on Linux the second follows when the first has returned. *)
Inductive way := Batch | Single.

Definition first_way (linux : bool) : way := if linux then Batch else Single.
Definition loops (linux : bool) : nat := if linux then 2 else 1.

Section Hub.
Context {E : Type} (cap rxcap : nat).

(** What a read of the device gives. *)
Inductive reading := ReadFailed | ReadNothing | ReadEvent (e : E).

Inductive reader_pc := RdSelect (w : way) | RdRead (w : way) | RdSend (w : way) (e : E) | RdGone.
(** [TxPush e]: the parts of the event are pushed to their destinations. *)
Inductive tx_pc := TxSelect | TxPush (e : E) | TxStop (s : stopping) | TxGone.
Inductive writer_pc := WrRange (w : way) | WrWrite (w : way) (e : E) | WrStop (w : way) (s : stopping) | WrGone.

(** [h_err] says whether the variable [err] of [txLoop] holds an error;
    [h_reads] and [h_arrivals] are what the device and the transports will
    still deliver, [h_written] the writes with their results, [h_stops] the
    calls of [Stop] from outside. *)
Record hub := MkHub {
  h_sig : bool; h_panicked : bool;
  h_reads : list reading; h_reader : reader_pc; h_err : bool; h_txq : list E; h_tx : tx_pc; h_dispatched : list E;
  h_arrivals : list E; h_rxq : list E; h_writer : writer_pc; h_written : list (way * E * bool); h_stops : list stopping }.

(** [NewHub] and [Start]. *)
Definition start (linux : bool) (reads : list reading) (arrivals : list E) (stops : nat) : hub :=
  MkHub false false reads (RdSelect (first_way linux)) false [] TxSelect []
    arrivals [] (WrRange (first_way linux)) [] (replicate stops StopCheck).

Definition set_reader (h : hub) (reads : list reading) (r : reader_pc) (err : bool) (q : list E) : hub :=
  MkHub (h_sig h) (h_panicked h) reads r err q (h_tx h) (h_dispatched h) (h_arrivals h) (h_rxq h) (h_writer h) (h_written h) (h_stops h).
Definition set_tx (h : hub) (q : list E) (t : tx_pc) (d : list E) : hub :=
  MkHub (h_sig h) (h_panicked h) (h_reads h) (h_reader h) (h_err h) q t d (h_arrivals h) (h_rxq h) (h_writer h) (h_written h) (h_stops h).
Definition set_rx (h : hub) (a q : list E) (w : writer_pc) (l : list (way * E * bool)) : hub :=
  MkHub (h_sig h) (h_panicked h) (h_reads h) (h_reader h) (h_err h) (h_txq h) (h_tx h) (h_dispatched h) a q w l (h_stops h).
Definition set_stops (h : hub) (l : list stopping) : hub :=
  MkHub (h_sig h) (h_panicked h) (h_reads h) (h_reader h) (h_err h) (h_txq h) (h_tx h) (h_dispatched h) (h_arrivals h) (h_rxq h) (h_writer h) (h_written h) l.
Definition set_sig (h : hub) (s : bool) : hub :=
  MkHub s (h_panicked h) (h_reads h) (h_reader h) (h_err h) (h_txq h) (h_tx h) (h_dispatched h) (h_arrivals h) (h_rxq h) (h_writer h) (h_written h) (h_stops h).
Definition panic (h : hub) : hub :=
  MkHub (h_sig h) true (h_reads h) (h_reader h) (h_err h) (h_txq h) (h_tx h) (h_dispatched h) (h_arrivals h) (h_rxq h) (h_writer h) (h_written h) (h_stops h).

(** A step of a call of [Stop]; [k] is where its caller goes on. *)
Definition stopping_step (h : hub) (s : stopping) (k : hub -> stopping -> hub) : hub :=
  match stop_step (h_sig h) s with Some (sig, s) => k (set_sig h sig) s | None => panic h end.

(** The reading goroutine: [readDeviceLinux], then [readDevice]; what a loop
    returns is stored in [err]. [None]: it cannot go on now. *)
Definition read_returns (h : hub) (reads : list reading) (w : way) (failed : bool) : hub :=
  set_reader h reads (match w with Batch => RdSelect Single | Single => RdGone end) failed (h_txq h).

Definition reader_step (h : hub) : option hub :=
  match h_reader h with
  | RdSelect w => Some (if h_sig h then read_returns h (h_reads h) w false else set_reader h (h_reads h) (RdRead w) (h_err h) (h_txq h))
  | RdRead w =>
      match h_reads h with
      | [] => None
      | ReadFailed :: l => Some (read_returns h l w true)
      | ReadNothing :: l => Some (set_reader h l (RdSelect w) (h_err h) (h_txq h))
      | ReadEvent e :: l => Some (set_reader h l (RdSend w e) (h_err h) (h_txq h))
      end
  | RdSend w e =>
      if (length (h_txq h) <? cap)%nat then Some (set_reader h (h_reads h) (RdSelect w) (h_err h) (h_txq h ++ [e])) else None
  | RdGone => None
  end.

(** [txLoop]: of several cases that are ready a select takes any ([sig_first]);
    the deferred function stops the hub when [err] is set. A push waits for a
    dial, a negotiation or room in the channel of its destination, and does not
    watch the signal. *)
Definition tx_step (sig_first : bool) (h : hub) : option hub :=
  match h_tx h with
  | TxSelect =>
      match h_sig h && (sig_first || match h_txq h with [] => true | _ => false end), h_txq h with
      | true, q => Some (set_tx h q (if h_err h then TxStop StopCheck else TxGone) (h_dispatched h))
      | false, e :: q => Some (set_tx h q (TxPush e) (h_dispatched h))
      | false, [] => None
      end
  | TxStop s => Some (stopping_step h s (fun h s => set_tx h (h_txq h) (match s with StopDone => TxGone | _ => TxStop s end) (h_dispatched h)))
  | TxPush _ | TxGone => None
  end.

(** The destinations have taken what was pushed, or refused it. *)
Definition push_step (h : hub) : option hub :=
  match h_tx h with TxPush e => Some (set_tx h (h_txq h) TxSelect (h_dispatched h ++ [e])) | _ => None end.

(** A receiving goroutine hands an event over. *)
Definition arrive_step (h : hub) : option hub :=
  match h_arrivals h with
  | e :: l => if (length (h_rxq h) <? rxcap)%nat then Some (set_rx h l (h_rxq h ++ [e]) (h_writer h) (h_written h)) else None
  | [] => None
  end.

(** [rxLoop]: [writeDeviceLinux], then [writeDevice]. The channel it ranges over
    is never closed. *)
Definition writer_step (ok : bool) (h : hub) : option hub :=
  match h_writer h with
  | WrRange w => match h_rxq h with e :: q => Some (set_rx h (h_arrivals h) q (WrWrite w e) (h_written h)) | [] => None end
  | WrWrite w e => Some (set_rx h (h_arrivals h) (h_rxq h) (if ok then WrRange w else WrStop w StopCheck) (h_written h ++ [(w, e, ok)]))
  | WrStop w s =>
      Some (stopping_step h s (fun h s =>
        set_rx h (h_arrivals h) (h_rxq h)
          (match s, w with StopDone, Batch => WrRange Single | StopDone, Single => WrGone | _, _ => WrStop w s end) (h_written h)))
  | WrGone => None
  end.

(** [Stop] called from outside, by the release of the client. *)
Definition release_step (i : nat) (h : hub) : option hub :=
  match h_stops h !! i with
  | None | Some StopDone => None
  | Some s => Some (stopping_step h s (fun h s => set_stops h (<[i := s]> (h_stops h))))
  end.

Inductive actor := AReader | ATx (sig_first : bool) | APushed | AArrive | AWriter (ok : bool) | ARelease (i : nat).

Definition actor_step (a : actor) (h : hub) : option hub :=
  match a with
  | AReader => reader_step h
  | ATx b => tx_step b h
  | APushed => push_step h
  | AArrive => arrive_step h
  | AWriter ok => writer_step ok h
  | ARelease i => release_step i h
  end.

(** A panic ends the process; a goroutine that cannot go on waits. *)
Definition hub_step (h : hub) (a : actor) : hub := if h_panicked h then h else default h (actor_step a h).
Definition hub_run (h : hub) (sched : list actor) : hub := foldl hub_step h sched.
End Hub.
