(* ===== verification/HubLifeProps.v ===== *)
(** * What the goroutines of a hub do (vnet/client/hub) *)

From S2P Require Import Prelude HubLife.

(** Fields of updated states. *)
Ltac hub_simpl :=
  cbn [h_sig h_panicked h_reads h_reader h_err h_txq h_tx h_dispatched h_arrivals h_rxq h_writer h_written h_stops
       set_reader set_tx set_rx set_stops set_sig panic start] in *.

Section Props.
Context {E : Type} (cap rxcap : nat).
Implicit Types (h : @hub E).

Abbreviation run := (hub_run cap rxcap).
Abbreviation step := (hub_step cap rxcap).

(** Events on their way: what the device delivers, what the reader holds, what is
    being pushed, what the writer holds; the writes that failed. *)
Definition events (l : list (@reading E)) : list E := omap (fun r => match r with ReadEvent e => Some e | _ => None end) l.
Definition reader_holds h : list E := match h_reader h with RdSend _ e => [e] | _ => [] end.
Definition tx_holds h : list E := match h_tx h with TxPush e => [e] | _ => [] end.
Definition writer_holds h : list E := match h_writer h with WrWrite _ e => [e] | _ => [] end.
Definition failed h : list (way * E * bool) := filter (fun x => x.2 = false) (h_written h).

(** Calls of [Stop] that will close the channel, those that have begun. *)
Definition count (P : stopping -> bool) (l : list stopping) : nat := length (filter (fun s => P s = true) l).
Definition closing (s : stopping) : bool := match s with StopClose => true | _ => false end.
Definition begun (s : stopping) : bool := match s with StopCheck => false | _ => true end.
Definition writer_closing h : nat :=
  match h_writer h with WrStop _ StopClose => 1 | WrStop _ StopCheck => if h_sig h then 0 else 1 | _ => 0 end.
Definition one (b : bool) : nat := if b then 1 else 0.
Definition any_failed h : nat := match failed h with [] => 0 | _ => 1 end.

(** The writer after a failure has found the channel closed or closes it. *)
Definition writer_ok (linux : bool) h : Prop :=
  match h_writer h with
  | WrRange w | WrWrite w _ => (w = first_way linux /\ failed h = []) \/ (w = Single /\ linux = true /\ length (failed h) = 1 /\ h_sig h = true)
  | WrStop w s =>
      s <> StopDone /\
      ((w = first_way linux /\ length (failed h) = 1) \/ (w = Single /\ linux = true /\ length (failed h) = 2 /\ h_sig h = true))
  | WrGone => length (failed h) = loops linux /\ h_sig h = true
  end%nat.

Record inv (linux : bool) (reads : list (@reading E)) (arrivals : list E) (n : nat) h : Prop := {
  inv_fifo : h_dispatched h ++ tx_holds h ++ h_txq h ++ reader_holds h ++ events (h_reads h) = events reads;
  inv_rx : (h_written h).*1.*2 ++ writer_holds h ++ h_rxq h ++ h_arrivals h = arrivals;
  inv_tx : match h_tx h with TxSelect | TxPush _ => True | TxStop StopClose => False | _ => h_sig h = true end;
  inv_cause : h_sig h = true -> failed h <> [] \/ StopDone ∈ h_stops h;
  inv_stops : length (h_stops h) = n;
  inv_closers : if h_panicked h then (2 <= count begun (h_stops h) + any_failed h)%nat
                else (count closing (h_stops h) + writer_closing h + one (h_sig h) <= count begun (h_stops h) + any_failed h)%nat;
  inv_writer : writer_ok linux h }.

Lemma count_le P l : (count P l <= length l)%nat.
Proof. apply length_filter. Qed.

Lemma count_insert P l i s t : l !! i = Some s -> (count P (<[i := t]> l) + one (P s) = count P l + one (P t))%nat.
Proof.
  unfold count. revert i. induction l as [|x l IH]; intros [|i] Hi; [done|done| |].
  - injection Hi as ->. cbn [insert list_insert]. rewrite !filter_cons.
    destruct (P s), (P t); repeat (case_decide; try congruence); cbn [one length]; lia.
  - cbn [insert list_insert]. rewrite !filter_cons. specialize (IH i Hi). unfold insert in *. repeat (case_decide; try congruence); cbn [length]; lia.
Qed.

Lemma run_app h l l' : run h (l ++ l') = run (run h l) l'.
Proof. unfold hub_run. apply foldl_app. Qed.

Lemma start_inv linux reads arrivals n : inv linux reads arrivals n (start linux reads arrivals n).
Proof.
  assert (forall P, P StopCheck = false -> count P (replicate n StopCheck) = 0%nat) as Hc.
  { intros P HP. unfold count. clear -HP. induction n as [|n IH]; [done|]. cbn [replicate]. rewrite filter_cons, HP. by case_decide. }
  split; unfold any_failed, writer_closing, writer_ok, failed; hub_simpl; try done; [by rewrite length_replicate| |by left].
  rewrite !Hc by done. cbn. lia.
Qed.

(** ** Steps keep the invariant *)

Ltac unfold_inv := unfold reader_holds, tx_holds, writer_holds, any_failed, writer_closing, writer_ok, failed in *.
Ltac inv_split := split; hub_simpl; try done.

Lemma reader_inv linux reads arrivals n h h' :
  inv linux reads arrivals n h -> h_panicked h = false -> reader_step cap h = Some h' -> inv linux reads arrivals n h'.
Proof.
  intros [Hf Hr Ht Hc Hs Hn Hw] Hp Hstep. rewrite Hp in Hn. unfold reader_step, read_returns in Hstep. unfold_inv.
  destruct (h_reader h) as [w|w|w e|] eqn:Er; [| | |done].
  - injection Hstep as <-. destruct (h_sig h) eqn:Es; [destruct w|]; inv_split; unfold_inv; hub_simpl; rewrite ?Hp, ?Es; done.
  - destruct (h_reads h) as [|[| |e] l] eqn:El; [done|..]; injection Hstep as <-; [destruct w|..]; inv_split; unfold_inv; hub_simpl; rewrite ?Hp; done.
  - destruct (_ <? _)%nat; [|done]. injection Hstep as <-. inv_split; unfold_inv; hub_simpl; rewrite ?Hp; [|done]. by rewrite <- Hf, <- !app_assoc.
Qed.

Lemma tx_inv linux reads arrivals n b h h' :
  inv linux reads arrivals n h -> h_panicked h = false -> tx_step b h = Some h' -> inv linux reads arrivals n h'.
Proof.
  intros [Hf Hr Ht Hc Hs Hn Hw] Hp Hstep. rewrite Hp in Hn. unfold tx_step, stopping_step in Hstep. unfold_inv.
  destruct (h_tx h) as [|e0|s|] eqn:Et; [|done| |done].
  - destruct (h_sig h && _) eqn:Eb.
    + apply andb_true_iff in Eb as [Es _]. injection Hstep as <-. destruct (h_err h); inv_split; unfold_inv; hub_simpl; rewrite ?Hp; done.
    + destruct (h_txq h) as [|e q] eqn:Eq; [done|]. injection Hstep as <-. inv_split; unfold_inv; hub_simpl; rewrite ?Hp; done.
  - assert (h_sig h = true /\ s <> StopClose) as [Es Hs'] by (by destruct s). rewrite Es in *.
    destruct s; [|done|]; cbn [stop_step] in Hstep; injection Hstep as <-; inv_split; unfold_inv; hub_simpl; rewrite ?Hp; done.
Qed.

Lemma push_inv linux reads arrivals n h h' :
  inv linux reads arrivals n h -> h_panicked h = false -> push_step h = Some h' -> inv linux reads arrivals n h'.
Proof.
  intros [Hf Hr Ht Hc Hs Hn Hw] Hp Hstep. rewrite Hp in Hn. unfold push_step in Hstep. unfold_inv. destruct (h_tx h) as [|e| |] eqn:Et; try done.
  injection Hstep as <-. inv_split; unfold_inv; hub_simpl; rewrite ?Hp; [|done]. by rewrite <- Hf, <- !app_assoc.
Qed.

Lemma arrive_inv linux reads arrivals n h h' :
  inv linux reads arrivals n h -> h_panicked h = false -> arrive_step rxcap h = Some h' -> inv linux reads arrivals n h'.
Proof.
  intros [Hf Hr Ht Hc Hs Hn Hw] Hp Hstep. rewrite Hp in Hn. unfold arrive_step in Hstep. unfold_inv.
  destruct (h_arrivals h) as [|e l] eqn:Ea; [done|]. destruct (_ <? _)%nat; [|done]. injection Hstep as <-.
  inv_split; unfold_inv; hub_simpl; rewrite ?Hp; [|done]. by rewrite <- Hr, <- !app_assoc.
Qed.

Lemma release_inv linux reads arrivals n i h h' :
  inv linux reads arrivals n h -> h_panicked h = false -> release_step i h = Some h' -> inv linux reads arrivals n h'.
Proof.
  intros [Hf Hr Ht Hc Hs Hn Hw] Hp Hstep. rewrite Hp in Hn. unfold release_step, stopping_step in Hstep. unfold_inv.
  destruct (h_stops h !! i) as [s|] eqn:Ei; [|done].
  assert (i < length (h_stops h))%nat as Hi by by eapply lookup_lt_Some.
  assert (forall t, StopDone ∈ h_stops h -> s <> StopDone -> StopDone ∈ <[i := t]> (h_stops h)) as Hkeep.
  { intros t [j Hj]%list_elem_of_lookup Hne. apply list_elem_of_lookup. exists j. rewrite list_lookup_insert_ne; [done|congruence]. }
  assert (StopDone ∈ <[i := StopDone]> (h_stops h)) as Hdone by by apply list_elem_of_lookup; exists i; apply list_lookup_insert_eq.
  destruct s; [| |done]; cbn [stop_step] in Hstep.
  - destruct (h_sig h) eqn:Es; injection Hstep as <-; inv_split; unfold_inv; hub_simpl; rewrite ?Es, ?Hp, ?length_insert; try done.
    + intros _. by right.
    + pose proof (count_insert closing _ _ _ StopDone Ei). pose proof (count_insert begun _ _ _ StopDone Ei). cbn [one closing begun] in *. lia.
    + pose proof (count_insert closing _ _ _ StopClose Ei). pose proof (count_insert begun _ _ _ StopClose Ei). cbn [one closing begun] in *. lia.
  - assert (0 < count closing (h_stops h))%nat as Hpos.
    { pose proof (count_insert closing _ _ _ StopDone Ei). cbn [one closing] in *. lia. }
    destruct (h_sig h) eqn:Es; injection Hstep as <-; inv_split; unfold_inv; hub_simpl; rewrite ?Es, ?Hp, ?length_insert; try done.
    + cbn [one] in Hn. destruct (h_writer h) as [| |? []|]; lia.
    + by destruct (h_tx h) as [| |[]|].
    + intros _. by right.
    + pose proof (count_insert closing _ _ _ StopDone Ei). pose proof (count_insert begun _ _ _ StopDone Ei). cbn [one closing begun] in *.
      destruct (h_writer h) as [| |? []|]; lia.
    + destruct (h_writer h) as [| |? []|]; intuition congruence.
Qed.

(** A write that is made. *)
Lemma failed_snoc (l : list (way * E * bool)) w e ok :
  filter (fun x : way * E * bool => x.2 = false) (l ++ [(w, e, ok)]) = filter (fun x : way * E * bool => x.2 = false) l ++ (if ok then [] else [(w, e, ok)]).
Proof. rewrite filter_app. f_equal. by destruct ok. Qed.

Lemma write_inv linux reads arrivals n w e (ok : bool) h :
  inv linux reads arrivals n h -> h_panicked h = false -> h_writer h = WrWrite w e ->
  inv linux reads arrivals n (set_rx h (h_arrivals h) (h_rxq h) (if ok then WrRange w else WrStop w StopCheck) (h_written h ++ [(w, e, ok)])).
Proof.
  intros [Hf Hr Ht Hc Hs Hn Hw] Hp Ew. rewrite Hp in Hn. unfold_inv. rewrite Ew in *. inv_split; unfold_inv; hub_simpl; rewrite ?Hp, ?failed_snoc.
  - rewrite <- Hr, !fmap_app, <- !app_assoc. by destruct ok.
  - intros Hsig. destruct (Hc Hsig) as [Hc'|]; [|by right]. left. by destruct (filter _ (h_written h)).
  - destruct ok; [by rewrite app_nil_r|]. destruct Hw as [[_ Hw]|(_ & _ & Hw & Hsig)].
    + rewrite Hw in *. cbn [app]. destruct (h_sig h); cbn [one] in *; lia.
    + rewrite Hsig in *. destruct (filter _ (h_written h)) as [|? [|]]; [done| |done]. cbn [app] in *. lia.
  - destruct ok; [by rewrite app_nil_r|]. rewrite length_app. cbn [length].
    split; [done|]. destruct Hw as [[-> Hw]|(-> & -> & Hw & Hsig)]; [left|right]; rewrite ?Hw; done.
Qed.

Lemma writer_inv linux reads arrivals n ok h h' :
  inv linux reads arrivals n h -> h_panicked h = false -> writer_step ok h = Some h' -> inv linux reads arrivals n h'.
Proof.
  intros Hinv Hp Hstep. unfold writer_step, stopping_step in Hstep. destruct (h_writer h) as [w|w e|w s|] eqn:Ew; [| | |done].
  - destruct Hinv as [Hf Hr Ht Hc Hs Hn Hw]. rewrite Hp in Hn. unfold_inv. rewrite Ew in *.
    destruct (h_rxq h) as [|e q] eqn:Eq; [done|]. injection Hstep as <-. inv_split; unfold_inv; hub_simpl; rewrite ?Hp; done.
  - injection Hstep as <-. by apply write_inv.
  - destruct Hinv as [Hf Hr Ht Hc Hs Hn Hw]. rewrite Hp in Hn. unfold_inv. rewrite Ew in *.
    assert (length (filter (fun x : way * E * bool => x.2 = false) (h_written h)) <> 0)%nat as Hne by (destruct Hw as [_ [[_ ?]|(_ & _ & ? & _)]]; lia).
    assert (filter (fun x : way * E * bool => x.2 = false) (h_written h) <> []) as Hne' by (intros X; by rewrite X in Hne).
    destruct s; cbn [stop_step] in Hstep; [| |].
    + destruct (h_sig h) eqn:Es; cbn [stop_step] in Hstep; injection Hstep as <-.
      * destruct w; inv_split; unfold_inv; hub_simpl; rewrite ?Es, ?Hp; try done.
        -- destruct Hw as [_ [[Hl ?]|[? _]]]; [|done]. right. by destruct linux.
        -- destruct Hw as [_ [[Hl ?]|(_ & -> & ? & _)]]; [|done]. by destruct linux.
      * inv_split; unfold_inv; hub_simpl; rewrite ?Es, ?Hp; try done; destruct w; try done; (split; [done|]); by destruct Hw as [_ Hw].
    + destruct (h_sig h) eqn:Es; cbn [stop_step] in Hstep; injection Hstep as <-.
      * inv_split; unfold_inv; hub_simpl; rewrite ?Es, ?Ew, ?Hp; try done. cbn [one] in Hn. lia.
      * destruct w; inv_split; unfold_inv; hub_simpl; rewrite ?Es, ?Hp; try done; cbn [one] in *; try lia.
        1, 4: by destruct (h_tx h) as [| |[]|].
        1, 3: intros _; by left.
        -- destruct Hw as [_ [[Hl ?]|[? _]]]; [|done]. right. by destruct linux.
        -- destruct Hw as [_ [[Hl ?]|(_ & _ & _ & ?)]]; [|done]. by destruct linux.
    + by destruct Hw.
Qed.

Lemma run_inv linux reads arrivals n sched h : inv linux reads arrivals n h -> inv linux reads arrivals n (run h sched).
Proof.
  revert h. induction sched as [|a sched IH]; intros h Hinv; [done|]. cbn [hub_run foldl]. apply IH. unfold hub_step.
  destruct (h_panicked h) eqn:Hp; [done|]. destruct (actor_step cap rxcap a h) as [h'|] eqn:Ea; [|done]. cbn [default].
  destruct a; [eapply reader_inv|eapply tx_inv|eapply push_inv|eapply arrive_inv|eapply writer_inv|eapply release_inv]; done.
Qed.

(** C23. Whatever the device delivers or refuses, whenever the hub is stopped and
    however its goroutines are interleaved: what is read is dispatched in the
    order it was read and nothing is lost on the way, and so for what is written.
    Only a failed write or a call from outside stops the hub: an error of reading
    does not, the dispatching loop ends only in a stopped hub, and its own call
    of [Stop] never closes anything. The channel is closed twice, a panic, only
    if two calls of [Stop] compete: two from outside, or one and a failed write.
    The writing loop ends only by failures, on Linux by two: it is not stopped
    with the hub. *)
Theorem hub_lifecycle linux reads arrivals n sched :
  let h := run (start linux reads arrivals n) sched in
  h_dispatched h ++ tx_holds h ++ h_txq h ++ reader_holds h ++ events (h_reads h) = events reads /\
  (h_written h).*1.*2 ++ writer_holds h ++ h_rxq h ++ h_arrivals h = arrivals /\
  (h_sig h = true -> failed h <> [] \/ StopDone ∈ h_stops h) /\
  (h_tx h <> TxSelect -> tx_holds h = [] -> h_sig h = true /\ h_tx h <> TxStop StopClose) /\
  (h_panicked h = true -> (2 <= n + any_failed h)%nat) /\
  (h_writer h = WrGone -> length (failed h) = loops linux).
Proof.
  intros h. destruct (run_inv linux reads arrivals n sched _ (start_inv linux reads arrivals n)) as [Hf Hr Ht Hc Hs Hn Hw]. fold h in Hf, Hr, Ht, Hc, Hs, Hn, Hw.
  split_and!; [done|done|done|..].
  - intros Hne Hh. unfold tx_holds in Hh. by destruct (h_tx h) as [|e|[]|].
  - intros Hp. rewrite Hp in Hn. pose proof (count_le begun (h_stops h)). lia.
  - intros Hg. unfold writer_ok in Hw. rewrite Hg in Hw. by destruct Hw.
Qed.

(** ** An open hub goes on *)

(** Steps of the reading and dispatching loops and of the destinations that are
    still to come. *)
Definition work h : nat :=
  5 * length (h_reads h) + 2 * length (h_txq h) + length (tx_holds h) + match h_reader h with RdSelect _ => 1 | RdSend _ _ => 4 | _ => 0 end.

Definition opened h : Prop := h_sig h = false /\ h_panicked h = false.

(** Everything read so far is dispatched; the device has nothing or the reading
    goroutine has returned. *)
Definition all_dispatched h : Prop := h_txq h = [] /\ tx_holds h = [] /\ reader_holds h = [] /\ (h_reads h = [] \/ h_reader h = RdGone).

(** What the two loops look at. *)
Definition loops_see h := (h_reads h, h_reader h, h_txq h, h_tx h).

(** The actors that keep events moving. *)
Definition moving (a : actor) : bool := match a with AReader | ATx _ | APushed => true | _ => false end.

(** The other actors leave that alone. *)
Lemma others_see h h' a :
  actor_step cap rxcap a h = Some h' -> moving a = false -> loops_see h' = loops_see h.
Proof.
  destruct a as [|b| | |ok|i]; try done; cbn [actor_step]; intros Hstep _.
  - unfold arrive_step in Hstep. destruct (h_arrivals h); [done|]. destruct (_ <? _)%nat; [|done]. by injection Hstep as <-.
  - unfold writer_step, stopping_step in Hstep. destruct (h_writer h) as [w|w e|w s|]; [destruct (h_rxq h); [done|]| | |done]; simplify_eq; [done|done|].
    by destruct (stop_step (h_sig h) s) as [[b s']|].
  - unfold release_step, stopping_step in Hstep. destruct (h_stops h !! i) as [s|]; [|done]. destruct (stop_step (h_sig h) s) as [[b s']|], s; by simplify_eq.
Qed.

(** A closed channel stays closed. *)
Lemma stopping_closed h s k : h_sig h = true -> (forall h' s', h_sig (k h' s') = h_sig h') ->
  h_sig (stopping_step h s k) = true \/ h_panicked (stopping_step h s k) = true.
Proof. intros Hs Hk. unfold stopping_step. rewrite Hs. destruct s; cbn [stop_step]; [left|right; done|left]; by rewrite Hk. Qed.

Lemma closed_stays h a : h_sig h = true \/ h_panicked h = true -> h_sig (step h a) = true \/ h_panicked (step h a) = true.
Proof.
  intros Hh. unfold hub_step. destruct (h_panicked h) eqn:Hp; [by right|]. destruct Hh as [Hs|]; [|done].
  destruct (actor_step cap rxcap a h) as [h'|] eqn:Ea; [|by left]. cbn [default id]. destruct a as [|b| | |ok|i]; cbn [actor_step] in Ea.
  - left. unfold reader_step, read_returns in Ea. rewrite Hs in Ea. destruct (h_reader h); [|destruct (h_reads h) as [|[] ?]|destruct (_ <? _)%nat|]; by simplify_eq.
  - unfold tx_step in Ea. destruct (h_tx h); [|done| |done]; [destruct (h_sig h && _); [|destruct (h_txq h)]; simplify_eq; by left|].
    injection Ea as <-. by apply stopping_closed.
  - left. unfold push_step in Ea. destruct (h_tx h); by simplify_eq.
  - left. unfold arrive_step in Ea. destruct (h_arrivals h); [done|]. destruct (_ <? _)%nat; by simplify_eq.
  - unfold writer_step in Ea. destruct (h_writer h); [destruct (h_rxq h); simplify_eq; by left|simplify_eq; by left| |done].
    injection Ea as <-. by apply stopping_closed.
  - unfold release_step in Ea. destruct (h_stops h !! i) as [[]|]; try done; injection Ea as <-; by apply stopping_closed.
Qed.

Lemma opened_before h sched : opened (run h sched) -> opened h.
Proof.
  intros Ho. assert (h_sig h = true \/ h_panicked h = true -> h_sig (run h sched) = true \/ h_panicked (run h sched) = true) as Hk.
  { clear Ho. revert h. induction sched as [|a sched IH]; intros h Hh; [done|]. apply IH. by apply closed_stays. }
  destruct Ho as [H1 H2]. split; apply not_true_iff_false; intros Hx; destruct Hk; auto; congruence.
Qed.

(** The dispatching loop of an open hub has not ended. *)
Definition looping h : Prop := match h_tx h with TxSelect | TxPush _ => True | _ => False end.

Lemma same_work (h1 h2 : @hub E) : loops_see h1 = loops_see h2 -> work h1 = work h2.
Proof. unfold loops_see, work, tx_holds. by intros [= -> -> -> ->]. Qed.

(** While the hub is open every turn of theirs is work done, and nobody else
    touches what the loops see. *)
Lemma work_step h a :
  opened (step h a) -> looping h ->
  looping (step h a) /\
  ((work (step h a) < work h)%nat \/ loops_see (step h a) = loops_see h /\ (moving a = true -> actor_step cap rxcap a h = None)).
Proof.
  intros Ho Ht. destruct (opened_before h [a] Ho) as [Hs Hp]. unfold hub_step in *. rewrite Hp in *.
  destruct (actor_step cap rxcap a h) as [h'|] eqn:Ea; [|by split; [|right]]. cbn [default id] in *.
  destruct (moving a) eqn:Hm.
  2: { pose proof (others_see h h' a Ea Hm) as Hsee. unfold looping. split; [unfold loops_see in Hsee; by injection Hsee as _ _ _ ->|by right]. }
  unfold loops_see, work, tx_holds, looping in *. destruct a as [|b| | |ok|i]; try done; cbn [actor_step] in Ea.
  - unfold reader_step, read_returns in Ea. rewrite Hs in Ea. destruct (h_reader h) as [w|w|w e|]; [| | |done].
    + injection Ea as <-. hub_simpl. split; [done|]. left. lia.
    + destruct (h_reads h) as [|[| |e] l]; [done|..]; injection Ea as <-; hub_simpl; (split; [done|]); left; cbn [length]; [destruct w|..]; lia.
    + destruct (_ <? _)%nat; [|done]. injection Ea as <-. hub_simpl. split; [done|]. left. rewrite length_app. cbn [length]. lia.
  - unfold tx_step in Ea. rewrite Hs in Ea. cbn [andb] in Ea. destruct (h_tx h); try done. destruct (h_txq h); [done|]. injection Ea as <-. hub_simpl.
    split; [done|left]. cbn [length]. lia.
  - unfold push_step in Ea. destruct (h_tx h); try done. injection Ea as <-. hub_simpl. split; [done|left]. cbn [length]. lia.
Qed.

Lemma work_run sched : forall h,
  opened (run h sched) -> looping h ->
  looping (run h sched) /\ ((work (run h sched) < work h)%nat \/ loops_see (run h sched) = loops_see h).
Proof.
  induction sched as [|a sched IH]; intros h Ho Ht; [by split; [|right]|]. change (run h (a :: sched)) with (run (step h a) sched) in *.
  destruct (work_step h a) as [Ht1 Hw]; [by eapply opened_before|done|]. destruct (IH _ Ho Ht1) as [Ht2 Hw2]. split; [done|].
  destruct Hw as [Hw|[Hw _]], Hw2 as [Hw2|Hw2]; [left; lia|left; by rewrite (same_work _ _ Hw2)|left; by rewrite <- (same_work _ _ Hw)|right; congruence].
Qed.

(** As long as something is to be dispatched one of them can go on. *)
Definition can_go h (a : actor) : Prop := forall h', loops_see h' = loops_see h -> opened h' -> actor_step cap rxcap a h' <> None.

Lemma some_can_go h b :
  (0 < cap)%nat -> looping h -> all_dispatched h \/ can_go h (ATx b) \/ can_go h APushed \/ can_go h AReader.
Proof.
  unfold looping, can_go, loops_see. intros Hcap Ht. destruct (h_tx h) as [|e|s|] eqn:Et; [| |done|done].
  - destruct (h_txq h) as [|e q] eqn:Eq.
    + destruct (h_reader h) as [w|w|w e|] eqn:Er.
      * right; right; right. intros h' [= E1 E2 E3 E4] [Hs' _]. cbn [actor_step]. unfold reader_step. rewrite E2, Hs'. done.
      * destruct (h_reads h) as [|r l] eqn:El; [left; unfold all_dispatched, tx_holds, reader_holds; rewrite Et, Er; auto|].
        right; right; right. intros h' [= E1 E2 E3 E4] _. cbn [actor_step]. unfold reader_step. rewrite E2, E1. by destruct r.
      * right; right; right. intros h' [= E1 E2 E3 E4] _. cbn [actor_step]. unfold reader_step. rewrite E2, E3. cbn [length].
        by rewrite (proj2 (Nat.ltb_lt _ _)).
      * left. unfold all_dispatched, tx_holds, reader_holds. rewrite Et, Er. auto.
    + right; left. intros h' [= E1 E2 E3 E4] [Hs' _]. cbn [actor_step]. unfold tx_step. rewrite E4, E3, Hs'. done.
  - right; right; left. intros h' [= E1 E2 E3 E4] _. cbn [actor_step]. unfold push_step. by rewrite E4.
Qed.

(** A round gives each of them a turn. *)
Definition fair (round : list actor) : Prop := AReader ∈ round /\ (exists b, ATx b ∈ round) /\ APushed ∈ round.

(** A turn of one that can go on is taken, unless work was done before it. *)
Lemma turn_works h round a :
  opened (run h round) -> looping h -> a ∈ round -> moving a = true -> can_go h a -> (work (run h round) < work h)%nat.
Proof.
  intros Ho Ht (l1 & l2 & ->)%list_elem_of_split Hm Hgo. rewrite run_app in *.
  set (h1 := run h l1) in *. change (run h1 (a :: l2)) with (run (step h1 a) l2) in *.
  pose proof (opened_before _ _ Ho) as Ho2. pose proof (opened_before h1 [a] Ho2) as Ho1.
  destruct (work_run l1 h Ho1 Ht) as [Ht1 Hw1]. destruct (work_step h1 a Ho2 Ht1) as [Ht2 Hw2]. destruct (work_run l2 _ Ho Ht2) as [_ Hw3]. fold h1 in Hw1.
  assert (work (step h1 a) < work h \/ work (step h1 a) = work h1 /\ loops_see h1 = loops_see h /\ actor_step cap rxcap a h1 = None)%nat as Hcase.
  { destruct Hw1 as [Hw1|Hw1], Hw2 as [Hw2|[Hw2 Hn]]; [left; lia|left; by rewrite (same_work _ _ Hw2)|left; by rewrite <- (same_work _ _ Hw1)|].
    right. split_and!; [by apply same_work|done|by apply Hn]. }
  destruct Hcase as [Hlt|(_ & Hsee & Hn)]; [|by destruct (Hgo h1)]. destruct Hw3 as [Hw3|Hw3]; [lia|by rewrite (same_work _ _ Hw3)].
Qed.

Lemma round_works h round :
  (0 < cap)%nat -> fair round -> opened (run h round) -> looping h -> all_dispatched h \/ (work (run h round) < work h)%nat.
Proof.
  intros Hcap (H1 & [b H2] & H3) Ho Ht. destruct (some_can_go h b Hcap Ht) as [Hd|[Hg|[Hg|Hg]]]; [by left|right..];
    [apply (turn_works h round (ATx b))|apply (turn_works h round APushed)|apply (turn_works h round AReader)]; done.
Qed.

(** Then it stays so. *)
Lemma dispatched_stays sched : forall h, opened (run h sched) -> looping h -> all_dispatched h -> all_dispatched (run h sched).
Proof.
  induction sched as [|a sched IH]; intros h Ho Ht Hd; [done|]. change (run h (a :: sched)) with (run (step h a) sched) in *. pose proof (opened_before _ _ Ho) as Ho1.
  destruct (work_step h a Ho1 Ht) as [Ht1 Hw]. apply IH; [done|done|].
  destruct Hw as [Hw|[Hsame _]]; [|unfold all_dispatched, tx_holds, reader_holds, loops_see in *; by injection Hsame as -> -> -> ->].
  destruct (opened_before h [a] Ho1) as [Hs Hp]. destruct Hd as (Hq & Hh & Hr & Hend). unfold hub_step in *. rewrite Hp in *.
  destruct (actor_step cap rxcap a h) as [h'|] eqn:Ea; [|cbn in Hw; lia]. cbn [default id] in *.
  destruct (moving a) eqn:Hm; [|rewrite (same_work _ _ (others_see h h' a Ea Hm)) in Hw; lia].
  unfold all_dispatched, tx_holds, reader_holds, looping in *. destruct (h_tx h) eqn:Et; try done.
  destruct a as [|b| | |ok|i]; try done; cbn [actor_step] in Ea.
  - unfold reader_step, read_returns in Ea. rewrite Hs in Ea. destruct (h_reader h) as [w|w|w e|] eqn:Er; [| |done|done].
    + injection Ea as <-. hub_simpl. rewrite Hq, Et. split_and!; [done..|]. destruct Hend as [|]; [by left|done].
    + destruct Hend as [Hend|]; [|done]. by rewrite Hend in Ea.
  - unfold tx_step in Ea. by rewrite Et, Hs, Hq in Ea.
  - unfold push_step in Ea. by rewrite Et in Ea.
Qed.

(** C30. A hub that stays open dispatches everything it reads. From whatever
    point its goroutines have reached, take any schedule made of rounds in each of
    which the reading loop, the dispatching loop and the destinations an event is
    pushed to get a turn, in any order and with any turns of others between them;
    a round may be long, and a push blocks until its destinations take it. After more than
    five rounds per read the device still delivers, two per event that waits and
    five, everything that was read has been dispatched, in order, provided the channel
    has room for one event and nothing has stopped the hub: there is no deadlock
    and no schedule starves the loops. *)
Theorem hub_delivers linux reads arrivals n sched rounds :
  (0 < cap)%nat -> Forall fair rounds ->
  let h := run (start linux reads arrivals n) sched in
  let h' := run h (concat rounds) in
  h_sig h' = false -> h_panicked h' = false ->
  (5 * length (h_reads h) + 2 * length (h_txq h) + 5 < length rounds)%nat ->
  all_dispatched h' /\ h_dispatched h' ++ events (h_reads h') = events reads.
Proof.
  intros Hcap Hfair h h' Hs Hp Hlen.
  assert (forall rs h0, Forall fair rs -> opened (run h0 (concat rs)) -> looping h0 -> (work h0 < length rs)%nat -> all_dispatched (run h0 (concat rs))) as Hgo.
  { induction rs as [|r rs IH]; intros h0 Hf Ho Ht Hk; [cbn [length] in Hk; lia|]. apply Forall_cons_1 in Hf as [Hr Hf]. cbn [concat] in *. rewrite run_app in *.
    pose proof (opened_before _ _ Ho) as Ho1. destruct (work_run r h0 Ho1 Ht) as [Ht1 _].
    destruct (round_works h0 r Hcap Hr Ho1 Ht) as [Hd|Hlt]; [apply dispatched_stays; [done|done|]; by apply dispatched_stays|].
    apply IH; [done|done|done|cbn [length] in Hk; lia]. }
  assert (opened h) as [Hs0 _] by (by apply (opened_before h (concat rounds))).
  destruct (run_inv linux reads arrivals n sched _ (start_inv linux reads arrivals n)) as [_ _ Ht _ _ _ _]. fold h in Ht.
  assert (all_dispatched h') as Hd.
  { apply Hgo; [done|done| |unfold work, tx_holds; destruct (h_tx h), (h_reader h); cbn; lia].
    unfold looping. rewrite Hs0 in Ht. by destruct (h_tx h) as [| |[]|]. }
  split; [done|]. destruct (run_inv linux reads arrivals n (sched ++ concat rounds) _ (start_inv linux reads arrivals n)) as [Hf _ _ _ _ _ _].
  rewrite run_app in Hf. fold h in Hf. fold h' in Hf. destruct Hd as (Hq & Hh & Hr & _). rewrite Hq, Hh, Hr in Hf. exact Hf.
Qed.
End Props.

(** On Linux, with a failing read in between; rounds in which a packet arrives
    and is written. *)
Definition sample_round : list actor := [AArrive; ATx true; AWriter true; APushed; AReader].

Lemma hub_delivers_witness :
  let h := hub_run 1 1 (start true [ReadEvent 7; ReadFailed; ReadEvent 8] [5] 0) [AReader; AReader] in
  let h' := hub_run 1 1 h (concat (replicate 20 sample_round)) in
  all_dispatched h' /\ h_dispatched h' ++ events (h_reads h') = [7; 8].
Proof.
  apply (hub_delivers 1 1 true [ReadEvent 7; ReadFailed; ReadEvent 8] [5] 0 [AReader; AReader] (replicate 20 sample_round));
    [lia| |vm_compute; reflexivity|vm_compute; reflexivity|vm_compute; lia].
  apply Forall_replicate. split; [|split]; [|exists true|]; unfold sample_round; rewrite !elem_of_cons; auto 10.
Defined.

(** A device that fails to read leaves the hub running: on Linux the failure of
    the batch loop starts the loop of single packets, its failure ends the
    reading, and both other loops go on waiting. *)
Example read_error_ignored :
  let h := hub_run (E := Z) 1 1 (start true [ReadFailed; ReadFailed] [5] 0)
             [AReader; AReader; AReader; AReader; ATx true; AArrive; AWriter true; AWriter true] in
  h_reader h = RdGone /\ h_err h = true /\ h_sig h = false /\ h_tx h = TxSelect /\ h_written h = [(Batch, 5, true)].
Proof. vm_compute. split_and!; reflexivity. Qed.

(** The release of the client and a failed write stop a hub at once: both find
    the channel open, the second that closes it panics. *)
Example stop_twice_panics :
  h_panicked (hub_run (E := Z) 1 1 (start false [] [5] 1) [AArrive; AWriter true; AWriter false; AWriter true; ARelease 0; ARelease 0; AWriter true]) = true.
Proof. reflexivity. Qed.

(** A stopped hub whose channel is full: the reading goroutine waits for ever. *)
Example reader_left_behind :
  let h := hub_run 1 1 (start false [ReadEvent 1; ReadEvent 2] [] 1)
             [AReader; AReader; AReader; AReader; AReader; ARelease 0; ARelease 0; ATx true] in
  h_tx h = TxGone /\ h_reader h = RdSend Single 2 /\ forall sched, h_reader (hub_run 1 1 h sched) = RdSend Single 2.
Proof.
  intros h. assert (h = MkHub true false [] (RdSend Single 2) false [1] TxGone [] [] [] (WrRange Single) [] [StopDone]) as -> by reflexivity.
  split_and!; [done|done|]. intros sched. assert (hub_run 1 1 (MkHub true false [] (RdSend Single 2) false [1] TxGone [] [] [] (WrRange Single) [] [StopDone]) sched =
    MkHub true false [] (RdSend Single 2) false [1] TxGone [] [] [] (WrRange Single) [] [StopDone]) as ->; [|done].
  induction sched as [|a sched IH]; [done|]. cbn [hub_run foldl]. unfold hub_run in IH. destruct a as [|[]| | |[]|[|[|i]]]; exact IH.
Qed.
