(* ===== verification/TcpAccept.v ===== *)
(** * Accepting TCP connections (vnet/server/server_tcp.go acceptLoop)

    What the listener and the pool of workers give is an argument: the accepted
    connections in the order the workers get to them, each with what is read from
    it first. *)

From S2P Require Import Prelude GoNet Router QuotaCounter GoFloat SmoothLimiter Metrics Server Proxy TcpLink TcpProps.

#[local] Open Scope string_scope.
#[local] Open Scope Z_scope.

(** [submitted]: the pool took the connection; [first]: [None] when nothing was
    read in time. *)
Inductive accepted := AcceptFailed | Accepted (conn : nat) (submitted : bool) (first : option (list Z)).

Inductive outcome := NotAccepted | Dropped | Dispatched (err : option dispatch_error) | WorkerPanicked.

(** One turn: a connection the pool does not take is closed. When dispatching
    panics the pool recovers and the connection stays as it is. *)
Definition accept_turn (ts : tcpServer) (sv : Server) (a : accepted) : outcome * tcpServer * Server :=
  match a with
  | AcceptFailed => (NotAccepted, ts, sv)
  | Accepted conn false _ => (Dropped, MkTcpServer (ts_acceptCh ts) (ts_txChs ts) (ts_transportConn ts) (ts_closed ts ++ [conn])%list, sv)
  | Accepted conn true first =>
      match dispatch ts sv conn first with
      | Some (err, ts, sv) => (Dispatched err, ts, sv)
      | None => (WorkerPanicked, ts, sv)
      end
  end.

Fixpoint acceptLoop (ts : tcpServer) (sv : Server) (l : list accepted) : list outcome * tcpServer * Server :=
  match l with
  | [] => ([], ts, sv)
  | a :: l' => let '(o, ts, sv) := accept_turn ts sv a in let '(os, ts, sv) := acceptLoop ts sv l' in (o :: os, ts, sv)
  end.

(** ** Where a connection goes *)

Inductive fate := Control | Transport_of (src : string) | Receiver (p : nat) | Refused | Left.

#[export] Instance fate_eq_dec : EqDecision fate.
Proof. solve_decision. Defined.

(** By the first packet and the table of sessions alone: its type, its source
    and its destination. *)
Definition fate_of_packet (sessions : gmap string nat) (first : list Z) : fate :=
  match first !! 0%nat with
  | None => Left
  | Some typ =>
      if typ =? 1 then Control
      else if typ =? 4 then
        match IPv4_text first 1, IPv4_text first 5 with
        | Some src, Some dst =>
            match sessions !! dst with
            | None => Refused
            | Some p => if String.eqb src dst then Receiver p else Transport_of src
            end
        | _, _ => Left
        end
      else Refused
  end.

Definition fate_of (sessions : gmap string nat) (a : accepted) : option (nat * fate) :=
  match a with
  | AcceptFailed => None
  | Accepted conn false _ => Some (conn, Refused)
  | Accepted conn true None => Some (conn, Left)
  | Accepted conn true (Some first) => Some (conn, fate_of_packet sessions first)
  end.

(** The connections of one fate, in order. *)
Definition conns (sessions : gmap string nat) (f : fate) (l : list accepted) : list nat :=
  omap (fun a => '(conn, f') ← fate_of sessions a; if decide (f' = f) then Some conn else None) l.

(** The receiving connection of a session. *)
Definition rx_of (sv : Server) (p : nat) : option nat := s ← sv_sess sv !! p; GetDstTransportWriter s.

Definition sessions_exist (sv : Server) : Prop := forall dst p, sv_sessions sv !! dst = Some p -> is_Some (sv_sess sv !! p).

(** One turn puts the connection where its fate says. *)
Record placed (f : nat * fate) (ts : tcpServer) (sv : Server) (ts' : tcpServer) (sv' : Server) : Prop := {
  pl_control : ts_acceptCh ts' = (ts_acceptCh ts ++ (if decide (f.2 = Control) then [f.1] else []))%list;
  pl_closed : ts_closed ts' = (ts_closed ts ++ (if decide (f.2 = Refused) then [f.1] else []))%list;
  pl_tx : forall src, default [] (ts_txChs ts' !! src) = (default [] (ts_txChs ts !! src) ++ (if decide (f.2 = Transport_of src) then [f.1] else []))%list;
  pl_rx : forall p, rx_of sv' p = if decide (f.2 = Receiver p) then Some f.1 else rx_of sv p;
  pl_sessions : sv_sessions sv' = sv_sessions sv;
  pl_exist : sessions_exist sv' }.

Lemma index_0 (l : list Z) : index l 0 = l !! 0%nat.
Proof. done. Qed.

(** A connection that changes no table and no session. *)
Lemma placed_left conn ts sv : sessions_exist sv -> placed (conn, Left) ts sv ts sv.
Proof. intros He. split; cbn [fst snd]; try done; intros; by rewrite ?decide_False, ?app_nil_r. Qed.
Lemma placed_refused conn ts sv :
  sessions_exist sv ->
  placed (conn, Refused) ts sv (MkTcpServer (ts_acceptCh ts) (ts_txChs ts) (ts_transportConn ts) (ts_closed ts ++ [conn])%list) sv.
Proof. intros He. split; cbn [fst snd]; try done; intros; by rewrite ?decide_False, ?app_nil_r. Qed.

Lemma dispatch_placed ts sv conn first :
  sessions_exist sv ->
  match dispatch ts sv conn (Some first) with
  | Some (_, ts', sv') => placed (conn, fate_of_packet (sv_sessions sv) first) ts sv ts' sv'
  | None => fate_of_packet (sv_sessions sv) first = Left
  end.
Proof.
  intros He. unfold dispatch, fate_of_packet. rewrite index_0. destruct (first !! 0%nat) as [typ|]; [|done]. cbn [mbind option_bind].
  destruct (typ =? 1).
  { split; cbn [fst snd ts_acceptCh ts_closed ts_txChs]; try done; intros; by rewrite ?decide_False, ?app_nil_r. }
  destruct (typ =? 4); [|by apply placed_refused].
  destruct (IPv4_text first 1) as [src|]; [|done]. cbn [mbind option_bind]. destruct (IPv4_text first 5) as [dst|]; [|done]. cbn [mbind option_bind].
  destruct (sv_sessions sv !! dst) as [p|] eqn:Ep; [|by apply placed_refused].
  destruct (String.eqb src dst) eqn:Eq.
  - destruct (He dst p Ep) as [s Hs]. rewrite Hs. cbn [mbind option_bind].
    split; cbn [fst snd ts_acceptCh ts_closed ts_txChs sv_sessions with_sess]; try done; intros; rewrite ?decide_False, ?app_nil_r by done; try done.
    + unfold rx_of. cbn [sv_sess with_sess]. destruct (decide _) as [[= <-]|Hne].
      * rewrite lookup_insert_eq. cbn [mbind option_bind]. unfold GetDstTransportWriter. cbn [s_storage set_storage]. by rewrite lookup_insert_eq.
      * rewrite lookup_insert_ne by congruence. done.
    + intros d q Hq. cbn [sv_sess with_sess sv_sessions] in *. destruct (decide (p = q)) as [<-|]; [by rewrite lookup_insert_eq|].
      rewrite lookup_insert_ne by done. by eapply He.
  - split; cbn [fst snd ts_acceptCh ts_closed ts_txChs]; try done; intros; rewrite ?app_nil_r; try done.
    destruct (decide (src = src0)) as [<-|Hne]; [by rewrite lookup_insert_eq, decide_True|].
    rewrite lookup_insert_ne by done. rewrite decide_False by congruence. by rewrite app_nil_r.
Qed.

Lemma turn_placed ts sv a :
  sessions_exist sv ->
  match fate_of (sv_sessions sv) a with
  | Some f => placed f ts sv (accept_turn ts sv a).1.2 (accept_turn ts sv a).2
  | None => accept_turn ts sv a = (NotAccepted, ts, sv)
  end.
Proof.
  intros He. destruct a as [|conn [] [first|]]; cbn [fate_of accept_turn]; [done|..].
  - pose proof (dispatch_placed ts sv conn first He) as Hd. destruct (dispatch ts sv conn (Some first)) as [[[err ts'] sv']|]; [done|].
    rewrite Hd. by apply placed_left.
  - by apply placed_left.
  - by apply placed_refused.
  - by apply placed_refused.
Qed.

(** C31. Every accepted connection goes where its first packet says, whatever the
    others do: connections for new sessions wait in the order they came, so do
    the transports of a client, the receiving connection of a session is the last
    one that named it, and exactly the connections that name no session, are of
    an unknown type or find no worker are closed. The sessions are not changed.
    A connection from which nothing is read in time, or too little, is left
    open. *)
Theorem connections_placed ts sv l :
  sessions_exist sv ->
  let '(os, ts', sv') := acceptLoop ts sv l in
  length os = length l /\
  ts_acceptCh ts' = (ts_acceptCh ts ++ conns (sv_sessions sv) Control l)%list /\
  ts_closed ts' = (ts_closed ts ++ conns (sv_sessions sv) Refused l)%list /\
  (forall src, default [] (ts_txChs ts' !! src) = (default [] (ts_txChs ts !! src) ++ conns (sv_sessions sv) (Transport_of src) l)%list) /\
  (forall p, rx_of sv' p = match last (conns (sv_sessions sv) (Receiver p) l) with Some conn => Some conn | None => rx_of sv p end) /\
  sv_sessions sv' = sv_sessions sv.
Proof.
  revert ts sv. induction l as [|a l IH]; intros ts sv He; [by cbn; rewrite !app_nil_r; split_and!; try done; intros; rewrite app_nil_r|].
  cbn [acceptLoop]. pose proof (turn_placed ts sv a He) as Hturn. destruct (accept_turn ts sv a) as [[o ts1] sv1]. cbn [fst snd] in Hturn.
  assert (forall f, conns (sv_sessions sv) f (a :: l) =
    match fate_of (sv_sessions sv) a with Some (conn, f') => if decide (f' = f) then [conn] else [] | None => [] end ++ conns (sv_sessions sv) f l)%list as Hcons.
  { intros f. unfold conns. cbn [omap list_omap]. destruct (fate_of _ a) as [[conn f']|]; [|done]. cbn [mbind option_bind]. by destruct (decide (f' = f)). }
  destruct (fate_of (sv_sessions sv) a) as [[conn f]|].
  - destruct Hturn as [H1 H2 H3 H4 H5 H6]. specialize (IH ts1 sv1 H6). destruct (acceptLoop ts1 sv1 l) as [[os ts'] sv'].
    cbn [fst snd] in *. rewrite H5 in IH. destruct IH as (I0 & I1 & I2 & I3 & I4 & I5). split_and!.
    + cbn. by rewrite I0.
    + by rewrite I1, H1, Hcons, app_assoc.
    + by rewrite I2, H2, Hcons, app_assoc.
    + intros src. by rewrite I3, H3, Hcons, app_assoc.
    + intros p. rewrite I4, H4, Hcons, last_app. destruct (last (conns _ _ l)); [done|]. by destruct (decide (f = Receiver p)).
    + done.
  - injection Hturn as -> -> ->. specialize (IH ts sv He). destruct (acceptLoop ts sv l) as [[os ts'] sv'].
    destruct IH as (I0 & I1 & I2 & I3 & I4 & I5). split_and!; try done; [cbn; by rewrite I0|by rewrite Hcons|by rewrite Hcons|..]; intros; by rewrite Hcons.
Qed.

(** A client opens its receiving connection, another dials it, a third names an
    address nobody has, a fourth stays silent, a fifth is new. *)
Definition sample_connections : list accepted :=
  [Accepted 3 true (Some (link_packet 167837706 167837706)); Accepted 4 true (Some (link_packet 167837697 167837706));
   AcceptFailed; Accepted 5 true (Some (link_packet 167837697 167837698)); Accepted 6 true None; Accepted 7 true (Some [1]); Accepted 8 false None].

Lemma sample_sessions_exist : sessions_exist sample_link_server.
Proof.
  intros dst p Hp. cbn [sv_sessions sample_link_server] in Hp. apply lookup_insert_Some in Hp as [[_ <-]|[_ Hp]]; [by eexists|].
  apply lookup_singleton_Some in Hp as [_ <-]. by eexists.
Qed.

Lemma connections_placed_witness :
  let '(os, ts', sv') := acceptLoop (MkTcpServer [] ∅ ∅ []) sample_link_server sample_connections in
  ts_acceptCh ts' = [7%nat] /\ ts_closed ts' = [5%nat; 8%nat] /\ default [] (ts_txChs ts' !! "10.1.0.1") = [4%nat] /\ rx_of sv' 2 = Some 3%nat.
Proof.
  pose proof (connections_placed (MkTcpServer [] ∅ ∅ []) sample_link_server sample_connections sample_sessions_exist) as H.
  destruct (acceptLoop _ _ _) as [[os ts'] sv']. destruct H as (_ & H1 & H2 & H3 & H4 & _).
  split; [rewrite H1; vm_compute; reflexivity|]. split; [rewrite H2; vm_compute; reflexivity|].
  split; [rewrite H3; vm_compute; reflexivity|]. rewrite H4. vm_compute. reflexivity.
Defined.
