(* ===== verification/ClientSetup.v ===== *)
(** * Setting a client up (vnet/client/client.go NewClient and the encryptor of run,
      common/session/request.go NewRequestClient)

    The PEM and PKIX decoders, the file with the public key and the libraries of
    compression and encryption are parameters. A Go panic is [Panic]. *)

From S2P Require Import Session.
From S2P Require Import Prelude GoNet GoText Router IPPool QuotaCounter GoFloat SmoothLimiter Metrics Server Manager ManagerProps Devices.
From S2P Require Import Functions Request RequestProps Login LoginProps DevicesProps Settings.
From S2P Require Import Protocol ProtocolSteps ProtocolProps Codecs BatchProps TransportProps.

#[local] Open Scope string_scope.
#[local] Open Scope Z_scope.

(** ** The public key *)

(** What [x509.ParsePKIXPublicKey] returns: keys of several kinds. *)
Inductive any_key {PublicKey : Type} := RSAKey (pub : PublicKey) | OtherKey.
Arguments any_key : clear implicits.

Inductive setup_error := InvalidPem | ParseFailed.

Section Setup.
Context {PublicKey : Type} (pem_decode : list Z -> option (list Z)) (ParsePKIX : list Z -> option (any_key PublicKey)).
Context (zlib : ZstdLib) (alib : AeadLib).

(** The assertion that the key is one of RSA panics for every other kind. *)
Definition NewRequestClient (publicKeyPEM : string) : outcome setup_error PublicKey :=
  match pem_decode (string_bytes publicKeyPEM) with
  | None => Fail InvalidPem
  | Some bytes =>
      match ParsePKIX bytes with
      | None => Fail ParseFailed
      | Some (RSAKey pub) => Ret pub
      | Some OtherKey => Panic
      end
  end.

(** The request client and the options of its transports. *)
Record Client := MkClient { c_rc : PublicKey; c_opts : list TransportOpt }.

(** [file] is what reading the file with the public key gives; every error
    panics. *)
Definition NewClient (cfg : ClientConfig) (file : option (list Z)) : outcome setup_error Client :=
  match file with
  | None => Panic
  | Some pk =>
      match NewRequestClient (bytes_string pk) with
      | Ret rc =>
          let opts := [EnableEncrypt (cc_Encrypt cfg); EnableCompress (cc_Compress cfg)] in
          if cc_Compress cfg then
            match NewZstdCompressor FastestCompressionLevel with
            | Ret compressor => Ret (MkClient rc (opts ++ [WithCompressor (Some (zstd zlib compressor))])%list)
            | _ => Panic
            end
          else Ret (MkClient rc opts)
      | _ => Panic
      end
  end.

(** [[]byte(key)[:32]]: a shorter text is read past its end as far as the array
    behind it reaches ([spare]); the slice panics where the array ends. *)
Definition first_32 (key : string) (spare : list Z) : option (list Z) :=
  let bytes := (string_bytes key ++ spare)%list in
  if zlen bytes <? 32 then None else Some (take 32 bytes).

(** The encryptor of a session is appended to the options, also to those of
    earlier sessions. *)
Definition setup_encryptor (c : Client) (key : string) (spare : list Z) : outcome perr Client :=
  match first_32 key spare with
  | None => Panic
  | Some k =>
      match NewChacha20Poly1305Encryptor k with
      | Ret e => Ret (MkClient (c_rc c) (c_opts c ++ [WithEncryptor (Some (chacha alib e))])%list)
      | Fail e => Fail e
      | Panic => Panic
      end
  end.

(** The sessions of a client, one after the other. *)
Fixpoint setup_sessions (c : Client) (keys : list (string * list Z)) : outcome perr Client :=
  match keys with
  | [] => Ret c
  | (key, spare) :: keys' =>
      match setup_encryptor c key spare with
      | Ret c => setup_sessions c keys'
      | Fail e => Fail e
      | Panic => Panic
      end
  end.
End Setup.

(** ** The options clients come to *)

Definition apply_opts (opts : list TransportOpt) : TransportOptions := foldl (fun o f => f o) defaultTransportOptions opts.

Section Peers.
Context {PublicKey : Type} (pem_decode : list Z -> option (list Z)) (ParsePKIX : list Z -> option (any_key PublicKey)).
Context (zlib : ZstdLib) (alib : AeadLib).

Abbreviation new_client := (NewClient pem_decode ParsePKIX zlib).
Abbreviation sessions := (setup_sessions (PublicKey := PublicKey) alib).

(** What [NewClient] sets. *)
Record client_options (cfg : ClientConfig) (o : TransportOptions) : Prop := {
  co_magic : magic o = transportMagicBytes;
  co_encrypt : encrypt o = cc_Encrypt cfg;
  co_compress : compress o = cc_Compress cfg;
  co_compressor : compressor o = if cc_Compress cfg then Some (zstd zlib (MkZstd FastestCompressionLevel)) else None }.

Lemma NewClient_options cfg file (c : @Client PublicKey) : new_client cfg file = Ret c -> client_options cfg (apply_opts (c_opts c)).
Proof.
  unfold NewClient. destruct file as [pk|]; [|done]. destruct (NewRequestClient _ _ _) as [rc| |]; [|done|done].
  destruct (cc_Compress cfg) eqn:Ec; [change (NewZstdCompressor FastestCompressionLevel) with (Ret (E := perr) (MkZstd FastestCompressionLevel))|];
    intros [= <-]; by split; cbn; rewrite ?Ec.
Qed.

Lemma setup_encryptor_options cfg (c : @Client PublicKey) key spare c' :
  setup_encryptor alib c key spare = Ret c' -> client_options cfg (apply_opts (c_opts c)) ->
  client_options cfg (apply_opts (c_opts c')) /\ c_rc c' = c_rc c /\
  exists k, first_32 key spare = Some k /\ encryptor (apply_opts (c_opts c')) = Some (chacha alib (MkChacha k)).
Proof.
  unfold setup_encryptor. destruct (first_32 key spare) as [k|] eqn:Ek; [|done]. unfold NewChacha20Poly1305Encryptor.
  destruct (zlen k =? _); [|done]. intros [= <-] [H1 H2 H3 H4]. cbn [c_opts c_rc]. unfold apply_opts. rewrite foldl_app. cbn [foldl].
  split_and!; [by split|done|]. exists k. by split.
Qed.

Lemma setup_sessions_options cfg keys (c : @Client PublicKey) key spare c' :
  sessions c (keys ++ [(key, spare)])%list = Ret c' -> client_options cfg (apply_opts (c_opts c)) ->
  client_options cfg (apply_opts (c_opts c')) /\ c_rc c' = c_rc c /\
  exists k, first_32 key spare = Some k /\ encryptor (apply_opts (c_opts c')) = Some (chacha alib (MkChacha k)).
Proof.
  revert c. induction keys as [|[key0 spare0] keys IH]; intros c; cbn [app setup_sessions].
  - destruct (setup_encryptor alib c key spare) as [c1| |] eqn:E; [|done|done]. intros [= <-]. by apply setup_encryptor_options.
  - destruct (setup_encryptor alib c key0 spare0) as [c1| |] eqn:E; [|done|done]. intros Hrun Ho.
    destruct (setup_encryptor_options cfg c key0 spare0 c1 E Ho) as (Ho1 & <- & _). by apply IH.
Qed.

(** A text of 32 bytes or more fills the key by itself. *)
Lemma first_32_long key spare : 32 <= zlen (string_bytes key) -> first_32 key spare = Some (take 32 (string_bytes key)).
Proof.
  intros Hk. unfold first_32. rewrite zlen_app. pose proof (zlen_nonneg spare). rewrite (proj2 (Z.ltb_ge _ _)) by lia.
  by rewrite take_app_le by (unfold zlen in Hk; lia).
Qed.

Lemma clients_match cfg1 cfg2 o1 o2 e `{!ZstdLibOK zlib} `{!AeadLibOK alib} :
  client_options cfg1 o1 -> client_options cfg2 o2 -> (cc_Compress cfg1 = true -> cc_Compress cfg2 = true) ->
  encryptor o1 = Some (chacha alib e) -> encryptor o2 = Some (chacha alib e) -> matching o1 o2.
Proof.
  intros [M1 E1 C1 X1] [M2 E2 C2 X2] Hc He1 He2. split; [congruence|..].
  - intros c Hon Hsome. rewrite C1 in Hon. rewrite X1, Hon in Hsome. injection Hsome as <-. rewrite X2, (Hc Hon). eexists. split; [done|apply _].
  - intros x _ Hsome. rewrite He1 in Hsome. injection Hsome as <-. rewrite He2. eexists. split; [done|apply _].
Qed.

(** C29. Two clients of a network understand each other's packets: whatever
    their configurations and public keys, and whatever networks they were in
    before, once both have logged in to a network with a key of at least 32 bytes,
    the packets that one writes with [BatchWrite], the call with which clients send
    data to each other, on a transport with its options are read by the other with
    its own, as batches of at most 128 that hold them all, in order, and unpack to
    them. It is enough that the reader compresses if the writer does; whether the
    reader encrypts does not matter. Each packet has to fit a message of its own
    and, as [BatchWrite] does not reckon with them itself, the runs of packets it
    can form have to keep to the limits of the transport: a body of at most 65485
    bytes if the writer encrypts, and at most 32756 bytes if it compresses and the
    body reaches the threshold. *)
Theorem clients_understand `{!ZstdLibOK zlib} `{!AeadLibOK alib} cfg1 cfg2 file1 file2 c1 c2 before1 before2 key spare1 spare2 c1' c2' up rnds h buf datas :
  new_client cfg1 file1 = Ret c1 -> new_client cfg2 file2 = Ret c2 -> 32 <= zlen (string_bytes key) ->
  sessions c1 (before1 ++ [(key, spare1)])%list = Ret c1' -> sessions c2 (before2 ++ [(key, spare2)])%list = Ret c2' ->
  (cc_Compress cfg1 = true -> cc_Compress cfg2 = true) -> u_fail up = false ->
  (forall i, exists nonce, rnds i = Some nonce /\ zlen nonce = 24 /\ bytes_ok nonce) ->
  packets_in h buf datas -> Forall bytes_ok datas -> batches_ok (apply_opts (c_opts c1')) datas ->
  Forall (fun d => 2 + zlen d <= batch_space (apply_opts (c_opts c1'))) datas ->
  exists tx' wire chunks,
    BatchWrite rnds buf (zlen <$> datas) h (NewTransport up (c_opts c1')) = (Ret (zlen wire), tx') /\
    u_out (upstream tx') = (u_out up ++ wire)%list /\ concat chunks = datas /\
    Forall (fun ch => ch <> [] /\ zlen ch <= 128) chunks /\
    forall up2 p rest, u_in up2 = (wire ++ rest)%list -> zlen p >= 65535 ->
      exists rx' bodies, read_all (length chunks) p (NewTransport up2 (c_opts c2')) =
          (Ret ((fun body => (TypeBatchTransport, body)) <$> bodies), rx') /\ u_in (upstream rx') = rest /\
        Forall2 unpacks_to bodies chunks.
Proof.
  intros H1 H2 Hkey Hs1 Hs2 Hcomp Hf Hr Hp Hok Hb Hfit.
  destruct (setup_sessions_options cfg1 _ _ _ _ _ Hs1 (NewClient_options _ _ _ H1)) as (O1 & _ & k1 & K1 & E1).
  destruct (setup_sessions_options cfg2 _ _ _ _ _ Hs2 (NewClient_options _ _ _ H2)) as (O2 & _ & k2 & K2 & E2).
  rewrite first_32_long in K1, K2 by done. injection K1 as <-. injection K2 as <-.
  pose proof (clients_match cfg1 cfg2 _ _ _ O1 O2 Hcomp E1 E2) as Hmatch.
  destruct (BatchWrite_run (apply_opts (c_opts c2')) rnds h buf datas (NewTransport up (c_opts c1')))
    as (tx' & wire & chunks & Hrun & Hu & Hc & Hch & Hread); try done.
  { apply NewTransport_wf. change (options _) with (apply_opts (c_opts c1')). by rewrite (co_magic _ _ O1). }
  exists tx', wire, chunks. split_and!; [done..|]. intros up2 p rest Hin Hpl.
  destruct (Hread (NewTransport up2 (c_opts c2')) p rest) as (rx' & Hrx & Hrest); [|done..|].
  { apply NewTransport_wf. change (options _) with (apply_opts (c_opts c2')). by rewrite (co_magic _ _ O2). }
  exists rx', (batch_body <$> chunks). rewrite <- list_fmap_compose. split_and!; [done..|].
  apply (chunks_unpack (apply_opts (c_opts c1'))); [done|]. by rewrite Hc.
Qed.
End Peers.

(** A client that was in another network before, and one that was not. *)
Definition sample_key : string := "0123456789abcdefghijABCDEFGHIJxy".
Definition old_key : string := "ABCDEFGHIJ0123456789abcdefghijyz".

Lemma clients_understand_witness :
  exists c1 c2 tx' wire chunks,
    setup_sessions toy_aead (MkClient tt [EnableEncrypt true; EnableCompress false]) [(old_key, []); (sample_key, [])] = Ret c1 /\
    setup_sessions toy_aead (MkClient tt [EnableEncrypt true; EnableCompress false]) [(sample_key, [])] = Ret c2 /\
    BatchWrite (fun _ => Some (replicate 24 7)) [[0; 1; 2; 3]; [0; 4]] [3; 1] 1 (NewTransport (MkUpstream [] [] true false) (c_opts c1)) =
      (Ret (zlen wire), tx') /\ concat chunks = [[1; 2; 3]; [4]] /\
    exists rx' bodies, read_all (length chunks) (replicate (Z.to_nat 65535) 0) (NewTransport (MkUpstream (wire ++ [9]) [] true false)%list (c_opts c2)) =
      (Ret ((fun body => (TypeBatchTransport, body)) <$> bodies), rx') /\ u_in (upstream rx') = [9] /\ Forall2 unpacks_to bodies chunks.
Proof.
  eexists _, _.
  destruct (clients_understand (fun b => Some b) (fun _ => Some (RSAKey tt)) toy_zstd toy_aead defaultClientConfig defaultClientConfig
    (Some []) (Some []) (MkClient tt [EnableEncrypt true; EnableCompress false]) (MkClient tt [EnableEncrypt true; EnableCompress false])
    [(old_key, [])] [] sample_key [] []
    (MkClient tt [EnableEncrypt true; EnableCompress false; WithEncryptor (Some (chacha toy_aead (MkChacha (string_bytes old_key))));
                  WithEncryptor (Some (chacha toy_aead (MkChacha (string_bytes sample_key))))])
    (MkClient tt [EnableEncrypt true; EnableCompress false; WithEncryptor (Some (chacha toy_aead (MkChacha (string_bytes sample_key))))])
    (MkUpstream [] [] true false) (fun _ => Some (replicate 24 7)) 1 [[0; 1; 2; 3]; [0; 4]] [[1; 2; 3]; [4]])
    as (tx' & wire & chunks & Hw & _ & Hc & _ & Hr).
  - reflexivity.
  - reflexivity.
  - vm_compute. congruence.
  - reflexivity.
  - reflexivity.
  - intros H. exact H.
  - reflexivity.
  - intros i. exists (replicate 24 7). split_and!; [done|done|]. by repeat constructor.
  - by repeat constructor.
  - by repeat constructor.
  - apply small_batches_ok. vm_compute. congruence.
  - repeat apply Forall_cons_2; [..|apply Forall_nil_2]; vm_compute; congruence.
  - exists tx', wire, chunks. split; [reflexivity|]. split; [reflexivity|]. split; [exact Hw|]. split; [exact Hc|].
    apply (Hr (MkUpstream (wire ++ [9]) [] true false)%list); [done|]. unfold zlen. rewrite length_replicate. lia.
Defined.

(** ** The key of a device *)

Section Keys.
Context {PublicKey PrivateKey : Type} (Encrypt Decrypt : list Z -> list Z -> option (list Z)).
Context (MarshalPKCS1 : PrivateKey -> list Z) (ParsePKCS1 : list Z -> option PrivateKey) (MarshalPKIX : PrivateKey -> option (list Z)).
Context (pem_encode : string -> list Z -> list Z) (pem_decode : list Z -> option (list Z)) (ParsePKIX : list Z -> option (any_key PublicKey)).
Context (zlib : ZstdLib) (public : PrivateKey -> PublicKey).

(** What the libraries promise of public keys: the PEM text of bytes is bytes,
    and parsing a marshalled key gives the public half. *)
Record public_codecs : Prop := {
  pem_is_bytes : forall ty b, bytes_ok b -> bytes_ok (pem_encode ty b);
  pkix_ok : forall k b, MarshalPKIX k = Some b -> bytes_ok b /\ ParsePKIX b = Some (RSAKey (public k)) }.

Lemma create_public db deviceKey name id k now id' db' :
  CreateDevice Encrypt MarshalPKCS1 MarshalPKIX pem_encode db deviceKey name id (Some k) now = (inr id', db') ->
  exists b row, MarshalPKIX k = Some b /\ db_devices db' !! id = Some row /\ dr_PublicKey row = bytes_string (pem_encode "RSA PUBLIC KEY" b).
Proof.
  unfold CreateDevice. destruct (existsb _ _); [done|]. destruct (Encrypt _ _) as [e|]; [|done]. destruct (MarshalPKIX k) as [b|]; [|done].
  destruct (db_devices db !! id); [done|]. intros [= <- <-]. exists b. eexists. split_and!; [done|cbn; apply lookup_insert_eq|done].
Qed.

(** C32. The two halves of a device's key meet: after [CreateDevice] and any
    further work of the administrator, a client started with the text in the
    public column of the device's row, under any configuration, encrypts with the
    public half of the very key that the server finds for each sub device of the
    device. *)
Theorem device_key_reaches_client db0 sv0 deviceKey name id pri created id' db1 ops :
  key_codecs Encrypt Decrypt MarshalPKCS1 ParsePKCS1 pem_encode pem_decode -> public_codecs ->
  CreateDevice Encrypt MarshalPKCS1 MarshalPKIX pem_encode db0 deviceKey name id (Some pri) created = (inr id', db1) ->
  exists db sv row, manage_all Encrypt MarshalPKCS1 MarshalPKIX pem_encode (db1, sv0) ops = Some (db, sv) /\
    db_devices db !! id' = Some row /\
    (forall cfg, exists c, NewClient pem_decode ParsePKIX zlib cfg (Some (string_bytes (dr_PublicKey row))) = Ret c /\ c_rc c = public pri) /\
    forall sid r, db_subs db !! sid = Some r -> sr_DeviceId r = id' ->
      PrivateKeyBySubDeviceId Decrypt ParsePKCS1 pem_decode db sid deviceKey = inr pri.
Proof.
  intros Hcod Hpub Hcr. destruct (create_public _ _ _ _ _ _ _ _ Hcr) as (b & row & Hb & Hrow & Hpk).
  apply create_stores in Hcr as [-> (k & row' & [= <-] & _ & Hkeep)]. assert (row' = row) as -> by (destruct Hkeep as [Hk _]; congruence).
  destruct (manage_all_keeps Encrypt MarshalPKCS1 MarshalPKIX pem_encode (db1, sv0) ops) as ([db sv] & E & [G _]).
  exists db, sv, row. split_and!; [done|by eapply lookup_weaken; [|apply G]| |].
  - intros cfg. destruct (pkix_ok Hpub _ _ Hb) as [Hbytes Hparse]. unfold NewClient, NewRequestClient.
    rewrite bytes_string_bytes, Hpk, string_bytes_string by by apply (pem_is_bytes Hpub). rewrite (pem_ok _ _ _ _ _ _ Hcod), Hparse.
    destruct (cc_Compress cfg); [change (NewZstdCompressor FastestCompressionLevel) with (Ret (E := perr) (MkZstd FastestCompressionLevel))|]; by eexists.
  - intros sid r Hr Hdev. apply (keeps_key_grows _ _ _ _ _ _ _ _ _ G) in Hkeep. by eapply key_found.
Qed.
End Keys.

Lemma device_key_reaches_client_witness :
  exists row c, db_devices sample_device_st.1 !! "d-1" = Some row /\
    NewClient Some (fun _ => Some (RSAKey tt)) toy_zstd defaultClientConfig (Some (string_bytes (dr_PublicKey row))) = Ret c /\ c_rc c = tt /\
    PrivateKeyBySubDeviceId (fun d _ => Some d) (fun _ => Some tt) Some sample_device_st.1 0 "secret key of the device" = inr tt.
Proof.
  destruct (device_key_reaches_client plain_codec (fun d _ => Some d) (fun _ : unit => []) (fun _ => Some tt) (fun _ => Some []) (fun _ b => b) Some
    (fun _ => Some (RSAKey tt)) toy_zstd (fun _ => tt) (MkDb ∅ ∅ ∅ ∅ ∅) sample_accepted "secret key of the device" "laptop" "d-1" tt 7 "d-1" sample_device_db
    sample_device_ops) as (db & sv & row & Hm & Hrow & Hc & Hk).
  - split; [|intros ty b; reflexivity|intros []; reflexivity]. intros d k e. apply plain_Some.
  - split; [intros ty b Hb; exact Hb|]. intros k b [= <-]. split; [apply Forall_nil_2|reflexivity].
  - vm_compute. reflexivity.
  - assert (Some (db, sv) = Some sample_device_st) as Hp by (rewrite <- Hm; vm_compute; reflexivity).
    assert (db = fst sample_device_st) as Hdb by (exact (f_equal (fun o => match o with Some p => fst p | None => db end) Hp)).
    subst db. clear Hm Hp. destruct (Hc defaultClientConfig) as (c & Hnew & Hrc). exists row, c. split; [exact Hrow|]. split; [exact Hnew|].
    split; [exact Hrc|]. apply (Hk 0 (MkSubRow "d-1" "home" 0 0 "{}")); [vm_compute; reflexivity|reflexivity].
Defined.
